(* ===== verification/_CoqProject ===== *)
-Q . S2P
Prelude.v
PyText.v
PyInt.v
States.v
Models.v
PyTime.v
PyJson.v
PyObject.v
Sql.v
Activity.v
Jobs.v
LeadDatabases.v
Wallet.v
Billing.v
BillingWallet.v
Fulfillment.v
Transitions.v
Telegram.v
TelegramWebhook.v
TelegramKeyboard.v
NichePolicy.v
Eligible.v
Agencies.v
Listing.v
Artifact.v
Recommendations.v
Csv.v
Exclusions.v
NicheUploads.v
Metrics.v
Allocation.v
Rotation.v
Delivery.v
Worker.v
WorkerProperties.v
Reviews.v
RecommendationProperties.v
CustomerRequests.v
CustomerView.v
LicensedStates.v
Feedback.v
Controls.v
