(* ===== verification/Prelude.v ===== *)
(** * Jawnix: a verification development of the lead fulfillment platform

    Jawnix sells batches of business leads.  A Customer submits a Batch
    Request; an administrator approves it; the Fulfillment Rotation draws
    eligible Leads for it, all or none, writes the Batch Artifact the Customer
    downloads, and captures the Customer's prepaid hold; a job queue drives
    the steps and every decision is recorded.  This library models that core
    of the Python package [jawnix] and proves what makes it correct.

    ** The model

    Functions of the source are functions here, under the source's names.  A
    function that works on a database session is a computation in the monad
    [M Store] of this file: it takes the store and answers an outcome ([Ok] or
    a Python exception) with the store it leaves, so an exception keeps the
    effects so far until a transaction rolls them back ([transaction],
    [Models.begin]).  [Models.Store] holds the tables as finite maps by
    primary or unique key (append-only tables as lists), the files of the batch
    directory and the sequences; a row is a record with the columns of its
    class in [models.py].  What an operation reads besides the database is
    [Models.Env]: the clock, the settings, the rows other sessions hold locked
    ([SKIP LOCKED] passes over them) and whether the disk accepts writes.
    Text is a list of Unicode code points, money and counts are integers in Z,
    an instant is Z in microseconds, a UUID is N.  SQL conditions are in
    three-valued logic (Sql.v), so NULL behaves as in the database.

    Code outside the repository is an interface: case mapping of the Python
    runtime and the database ([PyText.CaseMapping], with the laws the proofs
    use in [CaseMappingLaws]), deflate and SHA-256 ([Artifact.Platform]), the
    Stripe client ([Billing.StripeClient]), the mail provider
    ([Delivery.Mailer]), path resolution ([Delivery.Paths]), the csv reader
    over an uploaded file ([Csv.TextReader]), the metrics service
    ([Metrics.World]), the Telegram Bot API ([Telegram.TelegramApi]), the
    signer of review tokens ([LicensedStates.Signer], with [SignerLaws]), and
    the printing of containers and titles ([PyObject.PyRepr],
    [Telegram.TitleCase]).  The handlers of the acquisition side of the worker
    are arguments of [Worker.handle]'s section: what is proved of the worker
    holds whatever they do.  Concrete instances
    run the examples.

    ** The files

    - Prelude.v: exceptions, the monads, inversion and frame automation
      ([run_inv], [run_fwd], [solve_frame], hint databases [pres] and
      [total]), sums, grouping, record update.
    - PyText.v, PyTime.v, PyJson.v, Sql.v: what the code uses of Python's
      str, datetime and json and of SQL.
    - States.v: [states.py], phones, state codes and byte limits.
    - Models.v: [models.py] and [config.py], the store and the environment.
    - Activity.v: [activity.py], the audit trail and its secret screening.
    - Jobs.v: [jobs.py] and the milestone emails queued by
      [milestone_emails.py].
    - LeadDatabases.v: [lead_databases.py], which inventory a Customer draws.
    - Wallet.v: the abstract wallet, a labelled transition system;
      Billing.v: [billing.py] and the Stripe webhook of [api.py];
      BillingWallet.v: billing refines the wallet.
    - Fulfillment.v: the action table of [fulfillment.py];
      Transitions.v: [transitions.py].
    - NichePolicy.v: [niche_policy.py], saved and draft policies.
    - Eligible.v, Listing.v, Artifact.v, Allocation.v, Rotation.v:
      [allocation.py], from the eligibility query to the rotation.

    - Agencies.v: [agency_management.py], shared history and assignment.
    - Recommendations.v: [recommendations.py] and its endpoint;
      RecommendationProperties.v: what a decision guarantees.
    - PyInt.v, PyObject.v, Csv.v: Python's number and identifier parsers,
      values that came through JSON, and the csv reader.
    - Exclusions.v: [exclusions.py]; NicheUploads.v: the ingestion of niche
      assignments in [niche_policy.py].
    - Metrics.v: [metrics_emit.py], with the chain of emission jobs as a
      transition system.
    - Telegram.v: [telegram.py], callbacks, messages and transport;
      TelegramKeyboard.v: what its keyboards show; TelegramWebhook.v: the
      webhook of [api.py].
    - Delivery.v: [delivery.py], the messages of [milestone_emails.py] and the
      expiry of batch files in [maintenance.py].
    - Worker.v: [worker.py], one claimed job from its handler to its failure;
      WorkerProperties.v: what the worker guarantees; Reviews.v: the delivery
      of a Nightly Review, with its reconciliation and the part of
      [nightly.py] that files it under its Scraper Run, as a transition
      system.
    - CustomerRequests.v: [customer_requests.py], submission and cancellation,
      with a transition system for concurrent submissions; CustomerView.v: the
      Customer's workspace, [milestones.py] and [customer_overview.py].
    - LicensedStates.v: [licensed_states.py], the review of a change of
      states and its application.
    - Feedback.v: [feedback.py], [eligibility.py] and their endpoints of
      [api.py]; Controls.v: what those guarantee.

    ** What is proved

    Allocation is all or nothing, a retry repeats nothing, and a Lead is never
    sold twice to the same active recipient.  The eligibility query means what
    its documentation says, NULLs and the index test included.  The rotation
    gives every Agency or standalone Customer at most one turn, longest
    waiting first, and takes nothing from under an older request without a
    decision on exactly the present inventory.  Billing refines the abstract
    wallet, so no Customer spends money they do not have and every Stripe
    payment is credited exactly once however its events are repeated.  The
    actions a screen offers are the actions enforcement accepts, and a request
    moves only along the edges of its status graph.  A job one worker has
    claimed is nobody else's while its lock lasts.  Artifacts are reproduced byte for byte.  Policies survive a
    save and a load, and a draft's preview agrees with the saved policy except
    where casefolding and SQL's lower differ.  Delivery
    settles the request, and a failed one can be retried.  Submissions of one
    key create one request however they interleave; a cancellation gives the
    hold back; the Customer's screens show what the operations accept.  The
    eligibility controls never rewrite what was said or delivered, a hold
    that a disposition placed outlasts anything Customers say, a report is resolved once, and a
    correction can be taken back.

    Every claimed job but an import ends settled and a failed allocation leaves nothing
    behind.  A button pressed in Telegram queues one decision and ends in
    exactly that transition; every callback is read back as it was written
    and every message fits.  A Nightly Review is posted at most once more
    than it was reconciled as not delivered, in any interleaving.  Metrics emission skips no
    event and, once the service answers, ends.  An Audit Entry holds
    no key that names a secret and no known secret.  A change of Licensed States
    does what was reviewed and a confirmed review applies.  A recommendation
    is decided once, by whichever channel, an approval schedules exactly one configuration, and one
    from Telegram never does.  The search for a shared history ends with
    exactly the linked subjects; an assignment merges two histories, splits
    none, and no Lead comes back to a history that had it.

    ** Bounds

    The loops of the source range over finite lists and are structural here.
    [LeadDatabases.chunks], which cuts a list in slices of a fixed positive
    size, takes the length of the list as fuel; every slice takes at least one
    element, so that is enough ([concat_chunks]).
    [Agencies.search] stops when a round finds nothing new; its fuel is one
    more than the keys, Customers and Agencies there are to find
    ([search_ends]).  [Metrics] takes the waves of a claim from a finite list
    of events; the chain of emission jobs is a relation, and
    [emission_completes] bounds its length.

    ** Not modelled

    HTTP endpoints other than those the components above name (the webhooks
    of Stripe and Telegram, feedback and eligibility controls, decisions on
    recommendations, agency assignment, and the reconciliation of a review),
    authentication and accounts, the scraper and its keyword and performance
    analytics, imports and migrations, and administrators' read models: they
    are input and output around the core, call external services, or are
    one-off tools.  Row locks appear as the sets of [Env] and transactions as
    [transaction]; the interleaving of concurrent sessions is modelled as
    steps for billing, review delivery, emission, assignments, decisions and
    submissions, elsewhere only as far as [SKIP LOCKED] shows.  Of the worker, the jobs that scrape, sync and
    import are left to arguments.  The rows of
    DailySourcePerformance, which a review that is folded into another passes
    on to it, are not in the store.  Text columns' length limits are checked
    where the source checks them, not where the database would. *)

From Stdlib Require Export Lia.
From stdpp Require Export base gmap strings pretty sorting numbers option list.

#[global] Set Default Proof Using "Type".

(** ** Exceptions

    The exception classes the modelled code raises.  [detail] is the message;
    the HTTP status code is kept where the class carries one. *)

(** Python [str] values are lists of Unicode code points. *)
Abbreviation text := (list N).

Inductive exn : Type :=
| LookupError (detail : text)
| KeyError (detail : text)
| ValueError (detail : text)
| RuntimeError (detail : text)
| TypeError (detail : text)
| OSError (detail : text)
| FileNotFoundError (detail : text)
| UnicodeEncodeError
| IntegrityError (constraint : text)
| AttributeError (detail : text)
| UnsafeActivityDetailsError (detail : text)
| NichePolicyError (detail : text)
| ExclusionDecisionError (detail : text)
| StripeClientError (detail : text)
| MetricsEmitTransientError (detail : text)
| TelegramTransientError (retry_after : option Z) (detail : text)
| TelegramEditTargetMissingError (detail : text)
| LicensedStateConflict (detail : text)
| LicensedStateReviewError (detail : text)
| RecommendationDecisionError (detail : text)
| AgencyAssignmentConflict (detail : text)
| ImportInterrupted
| HTTPException (status_code : Z) (detail : text)
| BillingError (detail : text) (status_code : Z)
| TransitionError (detail : text) (status_code : Z)
| RequestSubmissionError (detail : text) (status_code : Z)
| ControlConflict (message : text) (guard : string).

(** ** The state and exception monad

    A database session is threaded explicitly.  As in Python, raising does not
    undo what the session already holds: the failing computation returns the
    store reached so far, and it is [transaction] that discards it. *)

Inductive outcome (A : Type) : Type :=
| Ok (a : A)
| Err (e : exn).
Arguments Ok {A} a.
Arguments Err {A} e.

(** Pure code that may raise. *)
#[export] Instance outcome_ret : MRet outcome := @Ok.
#[export] Instance outcome_bind : MBind outcome := λ A B k o,
  match o with Ok a => k a | Err e => Err e end.
(** [if b: raise e] *)
Definition refuse_if (b : bool) (e : exn) : outcome unit := if b then Err e else Ok tt.

Lemma obind_Ok_inv {A B} (o : outcome A) (k : A → outcome B) b :
  (o ≫= k) = Ok b → ∃ a, o = Ok a ∧ k a = Ok b.
Proof. destruct o; cbn; [eauto | done]. Qed.

Lemma refuse_if_Ok_inv b e x : refuse_if b e = Ok x → b = false.
Proof. by destruct b. Qed.

Definition M (S A : Type) : Type := S → outcome A * S.

Section Monad.
Context {S : Type}.

#[global] Instance M_ret : MRet (M S) := λ A a s, (Ok a, s).
#[global] Instance M_bind : MBind (M S) := λ A B k m s,
  match m s with
  | (Ok a, s') => k a s'
  | (Err e, s') => (Err e, s')
  end.

Definition raise {A} (e : exn) : M S A := λ s, (Err e, s).
Definition gets {A} (f : S → A) : M S A := λ s, (Ok (f s), s).
Definition modify (f : S → S) : M S unit := λ s, (Ok tt, f s).
Definition when (b : bool) (m : M S unit) : M S unit := if b then m else mret tt.
Definition raise_if (b : bool) (e : exn) : M S unit := if b then raise e else mret tt.

(** [x = q(...)] followed by [if x is None: raise e]. *)
Definition require {A} (o : option A) (e : exn) : M S A :=
  match o with Some a => mret a | None => raise e end.

(** Pure code that may raise, run in the session. *)
Definition lift {A} (o : outcome A) : M S A :=
  match o with Ok a => mret a | Err e => raise e end.

(** [try: m except <the classes h accepts>: ...]; what [m] wrote stays. *)
Definition try_catch {A} (m : M S A) (h : exn → option (M S A)) : M S A := λ s,
  match m s with
  | (Ok a, s') => (Ok a, s')
  | (Err e, s') => match h e with Some k => k s' | None => (Err e, s') end
  end.

(** Commit, or roll back: [rb s s'] is what remains of [s'], reached from
    [s], when the computation raises. *)
Definition transaction {A} (rb : S → S → S) (m : M S A) : M S A := λ s,
  match m s with
  | (Ok a, s') => (Ok a, s')
  | (Err e, s') => (Err e, rb s s')
  end.

Fixpoint for_each {A} (l : list A) (f : A → M S unit) : M S unit :=
  match l with
  | [] => mret tt
  | x :: l' => f x ;; for_each l' f
  end.

Fixpoint fold_m {A B} (l : list A) (f : B → A → M S B) (acc : B) : M S B :=
  match l with
  | [] => mret acc
  | x :: l' => acc' ← f acc x ; fold_m l' f acc'
  end.
End Monad.

(** ** Inversion of a successful run *)

Section Inversion.
Context {S : Type}.
Implicit Types s : S.

Lemma bind_Ok_inv {A B} (m : M S A) (k : A → M S B) s b s' :
  (m ≫= k) s = (Ok b, s') → ∃ a s1, m s = (Ok a, s1) ∧ k a s1 = (Ok b, s').
Proof.
  unfold mbind, M_bind. destruct (m s) as [[a|e] s1]; [eauto | done].
Qed.

Lemma bind_Ok {A B} (m : M S A) (k : A → M S B) s a s1 :
  m s = (Ok a, s1) → (m ≫= k) s = k a s1.
Proof. unfold mbind, M_bind. by intros ->. Qed.

Lemma bind_Err {A B} (m : M S A) (k : A → M S B) s e s1 :
  m s = (Err e, s1) → (m ≫= k) s = (Err e, s1).
Proof. unfold mbind, M_bind. by intros ->. Qed.

Lemma ret_Ok_inv {A} (a b : A) s s' :
  mret (M := M S) a s = (Ok b, s') → a = b ∧ s = s'.
Proof. unfold mret, M_ret. by intros [= -> ->]. Qed.

Lemma raise_Ok_inv {A} e s (b : A) s' : raise e s = (Ok b, s') → False.
Proof. done. Qed.

Lemma gets_Ok_inv {A} (f : S → A) s b s' :
  gets f s = (Ok b, s') → b = f s ∧ s' = s.
Proof. unfold gets. by intros [= -> ->]. Qed.

Lemma modify_Ok_inv f s b s' :
  modify f s = (Ok b, s') → b = tt ∧ s' = f s.
Proof. unfold modify. by intros [= <- ->]. Qed.

Lemma raise_if_Ok_inv b e s u s' :
  raise_if b e s = (Ok u, s') → b = false ∧ s' = s ∧ u = tt.
Proof. destruct b; cbn; [done|]. by intros [= <- ->]. Qed.

Lemma require_Ok_inv {A} (o : option A) e s a s' :
  require o e s = (Ok a, s') → o = Some a ∧ s' = s.
Proof. destruct o; cbn; [|done]. by intros [= -> ->]. Qed.

Lemma when_Ok_inv b m s u s' :
  when b m s = (Ok u, s') →
  (b = true ∧ m s = (Ok u, s')) ∨ (b = false ∧ s' = s ∧ u = tt).
Proof. destruct b; cbn; [auto|]. intros [= <- ->]; auto. Qed.

Lemma lift_run {A} (o : outcome A) s : lift o s = (o, s).
Proof. by destruct o. Qed.

Lemma transaction_Ok {A} rb (m : M S A) s a s' :
  m s = (Ok a, s') → transaction rb m s = (Ok a, s').
Proof. unfold transaction. by intros ->. Qed.

Lemma transaction_Ok_inv {A} rb (m : M S A) s a s' :
  transaction rb m s = (Ok a, s') → m s = (Ok a, s').
Proof. unfold transaction. destruct (m s) as [[?|?] ?]; congruence. Qed.

Lemma transaction_Err_inv {A} rb (m : M S A) s e s' :
  transaction rb m s = (Err e, s') → ∃ s1, m s = (Err e, s1) ∧ s' = rb s s1.
Proof. unfold transaction. destruct (m s) as [[?|?] ?]; naive_solver. Qed.
End Inversion.

(** [run_inv] turns a hypothesis [m s = (Ok a, s')] about a sequence of
    operations into the equations of its steps. *)
Ltac run_inv1 H :=
  lazymatch type of H with
  | (_ ≫= _) _ = (Ok _, _) =>
      let a := fresh "a" in let s1 := fresh "s1" in
      let H1 := fresh "Hm" in let H2 := fresh "Hk" in
      apply bind_Ok_inv in H as (a & s1 & H1 & H2)
  | mret _ _ = (Ok _, _) =>
      let H1 := fresh "E" in let H2 := fresh "E" in
      apply ret_Ok_inv in H as [H1 H2]; subst
  | raise _ _ = (Ok _, _) => exfalso; exact (raise_Ok_inv _ _ _ _ H)
  | gets _ _ = (Ok _, _) =>
      let H1 := fresh "E" in let H2 := fresh "E" in
      apply gets_Ok_inv in H as [H1 H2]; subst
  | modify _ _ = (Ok _, _) =>
      let H1 := fresh "E" in let H2 := fresh "E" in
      apply modify_Ok_inv in H as [H1 H2]; subst
  | raise_if _ _ _ = (Ok _, _) =>
      let H1 := fresh "Hguard" in let H2 := fresh "E" in let H3 := fresh "E" in
      apply raise_if_Ok_inv in H as (H1 & H2 & H3); subst
  | require _ _ _ = (Ok _, _) =>
      let H1 := fresh "Hreq" in let H2 := fresh "E" in
      apply require_Ok_inv in H as [H1 H2]; subst
  end.
Ltac run_inv :=
  repeat match goal with
  | H : _ _ = (Ok _, _) |- _ => progress run_inv1 H
  | H : when _ _ _ = (Ok _, _) |- _ =>
      apply when_Ok_inv in H as [[? H]|(?&?&?)]; subst
  end.

(** ** Running forwards

    The equations that execute one operation at the head of a sequence;
    [run_fwd] uses them while the guards are decided. *)

Section Forward.
Context {S A B : Type}.
Implicit Types (s : S).

Lemma bind_gets (f : S → A) (k : A → M S B) s : (gets f ≫= k) s = k (f s) s.
Proof. done. Qed.
Lemma bind_modify f (k : unit → M S B) s : (modify f ≫= k) s = k tt (f s).
Proof. done. Qed.
Lemma bind_ret (a : A) (k : A → M S B) s : (mret a ≫= k) s = k a s.
Proof. done. Qed.
Lemma bind_raise_if_false b e (k : unit → M S B) s :
  b = false → (raise_if b e ≫= k) s = k tt s.
Proof. by intros ->. Qed.
Lemma bind_lift (o : outcome A) (k : A → M S B) s :
  (lift o ≫= k) s = match o with Ok a => k a s | Err e => (Err e, s) end.
Proof. by destruct o. Qed.
Lemma bind_require_Some (o : option A) a e (k : A → M S B) s :
  o = Some a → (require o e ≫= k) s = k a s.
Proof. by intros ->. Qed.
Lemma bind_when_true b m (k : unit → M S B) s : b = true → (when b m ≫= k) s = (m ≫= k) s.
Proof. by intros ->. Qed.
Lemma bind_when_false b m (k : unit → M S B) s : b = false → (when b m ≫= k) s = k tt s.
Proof. by intros ->. Qed.
End Forward.

Lemma bind_bind {S A B C} (m : M S A) (k : A → M S B) (k' : B → M S C) s :
  ((m ≫= k) ≫= k') s = (m ≫= λ a, k a ≫= k') s.
Proof. unfold mbind, M_bind. by destruct (m s) as [[a|e] s']. Qed.

Ltac run_fwd :=
  repeat first
    [ rewrite bind_bind | rewrite bind_gets | rewrite bind_modify | rewrite bind_ret
    | rewrite bind_raise_if_false by first [done | assumption | by apply bool_decide_eq_false_2]
    | rewrite bind_when_true by first [done | assumption | by apply bool_decide_eq_true_2]
    | rewrite bind_when_false by first [done | assumption | by apply bool_decide_eq_false_2] ].

(** [bool_inv] turns decided conditions into the propositions they decide. *)
Ltac bool_inv :=
  repeat match goal with
  | H : true = true |- _ => clear H
  | H : false = false |- _ => clear H
  | H : true = false |- _ => discriminate H
  | H : false = true |- _ => discriminate H
  | H : true = _ |- _ => symmetry in H
  | H : false = _ |- _ => symmetry in H
  | H : bool_decide _ = true |- _ => apply bool_decide_eq_true in H
  | H : bool_decide _ = false |- _ => apply bool_decide_eq_false in H
  | H : _ && _ = true |- _ => apply andb_true_iff in H as [? ?]
  | H : _ || _ = false |- _ => apply orb_false_iff in H as [? ?]
  | H : _ && _ = false |- _ => apply andb_false_iff in H as [H|H]
  | H : _ || _ = true |- _ => apply orb_true_iff in H as [H|H]
  | H : negb _ = true |- _ => apply negb_true_iff in H
  | H : negb _ = false |- _ => apply negb_false_iff in H
  | H : (_ <? _)%Z = true |- _ => apply Z.ltb_lt in H
  | H : (_ <? _)%Z = false |- _ => apply Z.ltb_ge in H
  | H : (_ <=? _)%Z = true |- _ => apply Z.leb_le in H
  | H : (_ <=? _)%Z = false |- _ => apply Z.leb_gt in H
  | H : (_ =? _)%Z = true |- _ => apply Z.eqb_eq in H
  | H : (_ =? _)%Z = false |- _ => apply Z.eqb_neq in H
  end.

(** Assigning a row that is there. *)
Lemma alter_Some `{Countable K} {A} (f : A → A) (m : gmap K A) k x :
  m !! k = Some x → alter f k m = <[k := f x]> m.
Proof. intros E. rewrite <- (insert_id m k x E) at 1. by rewrite alter_insert_eq. Qed.
Lemma alter_const `{Countable K} {A} (m : gmap K A) k x y :
  m !! k = Some x → alter (λ _, y) k m = <[k := y]> m.
Proof. apply (alter_Some (λ _, y)). Qed.

(** ** Preservation of a property of the store

    [preserves P m]: whatever [m] answers, it keeps [P].  The [pres] database
    composes the operations' own lemmas through the monad's combinators. *)

Definition preserves {S A} (P : S → Prop) (m : M S A) : Prop :=
  ∀ s, P s → P (m s).2.

Create HintDb pres.

Section Preservation.
Context {S : Type} (P : S → Prop).

Lemma pres_ret {A} (a : A) : preserves P (mret (M := M S) a).
Proof. by intros s. Qed.
Lemma pres_raise {A} e : preserves P (raise (A := A) e).
Proof. by intros s. Qed.
Lemma pres_gets {A} (f : S → A) : preserves P (gets f).
Proof. by intros s. Qed.
Lemma pres_modify f : (∀ s, P s → P (f s)) → preserves P (modify f).
Proof. intros Hf s. apply Hf. Qed.
Lemma pres_raise_if b e : preserves P (raise_if b e).
Proof. by destruct b; intros s. Qed.
Lemma pres_require {A} (o : option A) e : preserves P (require o e).
Proof. by destruct o; intros s. Qed.
Lemma pres_bind {A B} (m : M S A) (k : A → M S B) :
  preserves P m → (∀ a, preserves P (k a)) → preserves P (m ≫= k).
Proof.
  intros Hm Hk s Hs. specialize (Hm s Hs). unfold mbind, M_bind.
  destruct (m s) as [[a|e] s']; [by apply Hk | done].
Qed.
Lemma pres_when b m : preserves P m → preserves P (when b m).
Proof. destruct b; [done | intros _; apply pres_ret]. Qed.
Lemma pres_if {A} (b : bool) (m1 m2 : M S A) :
  preserves P m1 → preserves P m2 → preserves P (if b then m1 else m2).
Proof. by destruct b. Qed.
Lemma pres_transaction {A} rb (m : M S A) :
  (∀ s s', P s → P (rb s s')) → preserves P m → preserves P (transaction rb m).
Proof.
  intros Hrb Hm s Hs. specialize (Hm s Hs). unfold transaction.
  destruct (m s) as [[a|e] s']; [done | by apply Hrb].
Qed.
Lemma pres_try_catch {A} (m : M S A) h :
  preserves P m → (∀ e k, h e = Some k → preserves P k) → preserves P (try_catch m h).
Proof.
  intros Hm Hh s Hs. specialize (Hm s Hs). unfold try_catch.
  destruct (m s) as [[a|e] s']; [done|].
  destruct (h e) eqn:E; [by apply (Hh e) | done].
Qed.
Lemma pres_for_each {A} (l : list A) f :
  (∀ x, preserves P (f x)) → preserves P (for_each l f).
Proof.
  intros Hf. induction l as [|x l IH]; cbn; [apply pres_ret|].
  by apply pres_bind.
Qed.
Lemma pres_fold_m {A B} (l : list A) (f : B → A → M S B) acc :
  (∀ b x, preserves P (f b x)) → preserves P (fold_m l f acc).
Proof.
  intros Hf. revert acc. induction l as [|x l IH]; intros acc; cbn; [apply pres_ret|].
  by apply pres_bind.
Qed.
End Preservation.

#[export] Hint Resolve pres_ret pres_raise pres_gets pres_raise_if pres_require
  pres_bind pres_when pres_if pres_for_each pres_fold_m : pres.

(** ** Computations that always answer *)

Definition total {S A} (m : M S A) : Prop := ∀ s, ∃ a s', m s = (Ok a, s').

Section Total.
Context {S : Type}.

Lemma total_ret {A} (a : A) : total (mret (M := M S) a).
Proof. intros s. by eexists _, _. Qed.
Lemma total_gets {A} (f : S → A) : total (gets f).
Proof. intros s. by eexists _, _. Qed.
Lemma total_modify (f : S → S) : total (modify f).
Proof. intros s. by eexists _, _. Qed.
Lemma total_bind {A B} (m : M S A) (k : A → M S B) :
  total m → (∀ a, total (k a)) → total (m ≫= k).
Proof.
  intros Hm Hk s. destruct (Hm s) as (a & s1 & E). rewrite (bind_Ok _ _ _ _ _ E). apply Hk.
Qed.
Lemma total_if {A} (b : bool) (m1 m2 : M S A) : total m1 → total m2 → total (if b then m1 else m2).
Proof. by destruct b. Qed.
Lemma total_when b (m : M S unit) : total m → total (when b m).
Proof. destruct b; [done | intros _; apply total_ret]. Qed.
Lemma total_for_each {A} (l : list A) (f : A → M S unit) : (∀ x, total (f x)) → total (for_each l f).
Proof. intros Hf. induction l; cbn; [apply total_ret | by apply total_bind]. Qed.
End Total.

Create HintDb total.
#[export] Hint Resolve total_ret total_gets total_modify total_bind total_if total_when
  total_for_each : total.

(** A function that keeps a property of the store keeps a projection of it. *)
Lemma preserves_Ok {S A} (P : S → Prop) (m : M S A) s a s' :
  preserves P m → P s → m s = (Ok a, s') → P s'.
Proof. intros Hm Hs E. specialize (Hm s Hs). by rewrite E in Hm. Qed.

(** ** Sums

    [SELECT sum(f(row))] over a list of rows and over a table. *)

Definition sumZ {A} (f : A → Z) (l : list A) : Z := foldr (λ x acc, f x + acc)%Z 0%Z l.
Definition sum_map `{Countable K} {A} (f : A → Z) (m : gmap K A) : Z := sumZ f (map_to_list m).*2.

Section Sums.
Local Open Scope Z_scope.

Lemma sumZ_app {A} (f : A → Z) l k : sumZ f (l ++ k) = sumZ f l + sumZ f k.
Proof. unfold sumZ. induction l as [|x l IH]; cbn; lia. Qed.
Lemma sumZ_perm {A} (f : A → Z) l k : l ≡ₚ k → sumZ f l = sumZ f k.
Proof. unfold sumZ. induction 1; cbn; lia. Qed.
Lemma sumZ_ext {A} (f g : A → Z) l : (∀ x, x ∈ l → f x = g x) → sumZ f l = sumZ g l.
Proof.
  induction l as [|x l IH]; intros H; cbn; [done|].
  f_equal; [apply H, elem_of_cons; auto|]. apply IH. intros; apply H, elem_of_cons; auto.
Qed.
Lemma sumZ_nonneg {A} (f : A → Z) l : (∀ x, x ∈ l → 0 ≤ f x) → 0 ≤ sumZ f l.
Proof.
  induction l as [|x l IH]; intros H; cbn; [done|].
  assert (0 ≤ f x) by (apply H, elem_of_cons; auto).
  assert (0 ≤ sumZ f l) by (apply IH; intros; apply H, elem_of_cons; auto).
  unfold sumZ in *. lia.
Qed.

Context `{Countable K}.

Lemma sum_map_empty {A} (f : A → Z) : sum_map f (∅ : gmap K A) = 0.
Proof. unfold sum_map. by rewrite map_to_list_empty. Qed.
Lemma sum_map_insert {A} (f : A → Z) (m : gmap K A) k x :
  m !! k = None → sum_map f (<[k:=x]> m) = f x + sum_map f m.
Proof.
  intros E. unfold sum_map. rewrite (sumZ_perm f _ (((k, x) :: map_to_list m).*2)); [done|].
  by rewrite map_to_list_insert.
Qed.
Lemma sum_map_delete {A} (f : A → Z) (m : gmap K A) k x :
  m !! k = Some x → sum_map f m = f x + sum_map f (delete k m).
Proof.
  intros E. rewrite <- (insert_delete_id m k x E) at 1. apply sum_map_insert, lookup_delete_eq.
Qed.
(** Replacing a row changes the sum by the difference. *)
Lemma sum_map_replace {A} (f : A → Z) (m : gmap K A) k x y :
  m !! k = Some x → sum_map f (<[k:=y]> m) = sum_map f m - f x + f y.
Proof.
  intros E. rewrite (sum_map_delete f m k x E). rewrite <- insert_delete_eq.
  rewrite sum_map_insert by apply lookup_delete_eq. lia.
Qed.
Lemma sum_map_alter {A} (f : A → Z) (m : gmap K A) k x g :
  m !! k = Some x → sum_map f (alter g k m) = sum_map f m - f x + f (g x).
Proof.
  intros E. rewrite <- (insert_id m k x E) at 1. rewrite alter_insert_eq. by apply sum_map_replace.
Qed.
Lemma sum_map_nonneg {A} (f : A → Z) (m : gmap K A) :
  (∀ k x, m !! k = Some x → 0 ≤ f x) → 0 ≤ sum_map f m.
Proof.
  intros Hf. apply sumZ_nonneg. intros x. rewrite list_elem_of_fmap.
  intros ([k y] & -> & Hy%elem_of_map_to_list). eauto.
Qed.
(** Summing a column of the rows a filter keeps. *)
Lemma sum_map_omap {A} (f : A → Z) (g : A → option Z) (m : gmap K A) :
  (∀ x, f x = default 0 (g x)) → sum_map f m = sum_map id (omap g m).
Proof.
  intros Hfg. induction m as [|k x m Hk _ IH] using map_first_key_ind.
  { by rewrite omap_empty, !sum_map_empty. }
  rewrite sum_map_insert, IH, Hfg by done. destruct (g x) as [n|] eqn:E; cbn.
  - rewrite (omap_insert_Some _ _ _ _ n) by done. rewrite sum_map_insert; [done|].
    by rewrite lookup_omap, Hk.
  - rewrite omap_insert_None by done. rewrite delete_id; [done|]. by rewrite lookup_omap, Hk.
Qed.
End Sums.

(** ** Grouping

    [grouped.setdefault(key(x), []).append(value(x))] over a sequence: keys in
    first-seen order, each with its values in order. *)

Fixpoint group_append `{EqDecision K} {V} (k : K) (v : V) (grouped : list (K * list V))
    : list (K * list V) :=
  match grouped with
  | [] => [(k, [v])]
  | (k', vs) :: rest =>
      if bool_decide (k' = k) then (k', vs ++ [v]) :: rest
      else (k', vs) :: group_append k v rest
  end.

Definition group_by `{EqDecision K} {A V} (key : A → K) (value : A → V) (l : list A)
    : list (K * list V) :=
  foldl (λ acc a, group_append (key a) (value a) acc) [] l.

Section Grouping.
Context `{EqDecision K} {V : Type}.
Implicit Types (g : list (K * list V)).

Lemma elem_of_group_append_keys k v g k' :
  k' ∈ (group_append k v g).*1 ↔ k' = k ∨ k' ∈ g.*1.
Proof.
  induction g as [|[k0 vs] g IH]; cbn; [rewrite elem_of_cons, elem_of_nil; tauto|].
  case_bool_decide; subst; cbn; rewrite !elem_of_cons; [tauto|]. rewrite IH. tauto.
Qed.

Lemma NoDup_group_append k v g : NoDup g.*1 → NoDup (group_append k v g).*1.
Proof.
  induction g as [|[k0 vs] g IH]; cbn; intros Hn.
  { apply NoDup_singleton. }
  apply NoDup_cons in Hn as [Hk Hn]. case_bool_decide; cbn; apply NoDup_cons; [done|].
  split; [|by apply IH]. rewrite elem_of_group_append_keys. naive_solver.
Qed.

Lemma elem_of_group_append k v g k' vs' :
  NoDup g.*1 →
  (k', vs') ∈ group_append k v g ↔
  if bool_decide (k' = k) then
    ((k ∉ g.*1) ∧ vs' = [v]) ∨ (∃ vs, (k, vs) ∈ g ∧ vs' = vs ++ [v])
  else (k', vs') ∈ g.
Proof.
  induction g as [|[k0 vs0] g IH]; intros Hn; cbn.
  { case_bool_decide; [subst|]; rewrite elem_of_cons, elem_of_nil.
    - split; [intros [[= ->]|[]]; left; split; [apply not_elem_of_nil | done]|].
      intros [[_ ->]|(? & []%not_elem_of_nil & _)]. by left.
    - naive_solver. }
  cbn in Hn. apply NoDup_cons in Hn as [Hk Hn]. specialize (IH Hn).
  assert (∀ k1 vs1, (k1, vs1) ∈ g → k1 ∈ g.*1) as Hkeys.
  { intros k1 vs1 Hin. apply list_elem_of_fmap. by exists (k1, vs1). }
  repeat case_bool_decide; subst; rewrite !elem_of_cons, ?IH.
  - setoid_rewrite elem_of_cons. split.
    + intros [[= ->]|Hin]; [right; exists vs0; split; [by left | done]|]. by apply Hkeys in Hin.
    + intros [[Hno _]|(vs & [[= ->]|Hin] & ->)]; [by destruct Hno; left | by left |].
      by apply Hkeys in Hin.
  - setoid_rewrite elem_of_cons. split.
    + intros [[= -> ->]|[[Hno ->]|(vs & Hin & ->)]]; [done|left|right; eauto].
      split; [|done]. intros [->|?]; done.
    + intros [[Hno ->]|(vs & [[= -> ->]|Hin] & ->)]; [right; left|done|right; right; eauto].
      split; [|done]. intros ?. apply Hno. by right.
  - split; (intros [[= -> ->]|?]; [done | auto]).
  - done.
Qed.
End Grouping.

Section GroupBy.
Context `{EqDecision K} {A V : Type} (key : A → K) (value : A → V).

Lemma group_by_snoc l a :
  group_by key value (l ++ [a]) = group_append (key a) (value a) (group_by key value l).
Proof. unfold group_by. by rewrite foldl_snoc. Qed.

Lemma NoDup_group_by l : NoDup (group_by key value l).*1.
Proof.
  induction l as [|a l IH] using rev_ind; [constructor|].
  rewrite group_by_snoc. by apply NoDup_group_append.
Qed.

(** A group holds the values of its key, in order, and is not empty. *)
Lemma elem_of_group_by l k vs :
  (k, vs) ∈ group_by key value l ↔
  vs = value <$> List.filter (λ a, bool_decide (key a = k)) l ∧ vs ≠ [].
Proof.
  revert k vs. induction l as [|a l IH] using rev_ind; intros k vs.
  { cbn. rewrite elem_of_nil. naive_solver. }
  rewrite group_by_snoc, elem_of_group_append by apply NoDup_group_by.
  rewrite List.filter_app, fmap_app. cbn. case_bool_decide as E.
  2: { rewrite bool_decide_eq_false_2 by congruence. cbn. rewrite app_nil_r. apply IH. }
  subst k. rewrite bool_decide_eq_true_2 by done. cbn.
  setoid_rewrite IH. split.
  - intros [[Hno ->]|(vs' & [-> Hne] & ->)]; [|split; [done|by intros [? [=]]%app_eq_nil]].
    split; [|done]. destruct (value <$> List.filter _ l) as [|v vs] eqn:Ev; [done|].
    destruct Hno. apply list_elem_of_fmap. exists (key a, v :: vs). split; [done|]. apply IH.
    split; [congruence | done].
  - intros [-> _]. destruct (value <$> List.filter _ l) as [|v vs] eqn:Ev.
    + left. split; [|done]. intros Hin. apply list_elem_of_fmap in Hin as ([k' vs'] & Ek & Hin).
      cbn in Ek. subst k'. apply IH in Hin as [-> Hne]. congruence.
    + right. exists (v :: vs). split; [split; [congruence | done] | done].
Qed.
End GroupBy.

(** ** Record update

    [r <| f := v |>] is [r] with field [f] set to [v]: the model of the
    attribute assignment [r.f = v].  A record declares its [Eta] expansion
    once; the setter of a field is the expansion with that field abstracted. *)

Class Eta (R : Type) : Type := eta : R → R.
Class Setter {R T : Type} (f : R → T) : Type := mkSetter { set_field : T → R → R }.
Arguments mkSetter {R T} f _.
Arguments set_field {R T} f {_} v r : simpl never.

Ltac solve_setter f :=
  let v := fresh "v" in let r := fresh "r" in apply (mkSetter f); intros v r;
  let b := eval unfold eta in (eta r) in
  let i := lazymatch b with ?i r => eval red in i end in
  let b := eval cbv beta in (i r) in
  let p := eval pattern (f r) in b in
  lazymatch p with ?g _ => let t := eval cbv beta in (g v) in exact t end.

#[export] Hint Extern 1 (Setter ?f) => solve_setter f : typeclass_instances.

Notation "r <| f := v |>" := (set_field f v r)
  (at level 12, left associativity, format "r  <| f  :=  v |>").

(** [rsimpl] reads fields off updated records. *)
Ltac rsimpl :=
  repeat match goal with
  | |- context [?f (@set_field ?R ?T ?f ?i ?v ?r)] =>
      change (f (@set_field R T f i v r)) with v
  | |- context [?p (@set_field ?R ?T ?f ?i ?v ?r)] =>
      is_const p; progress change (p (@set_field R T f i v r)) with (p r)
  | H : context [?f (@set_field ?R ?T ?f ?i ?v ?r)] |- _ =>
      change (f (@set_field R T f i v r)) with v in H
  | H : context [?p (@set_field ?R ?T ?f ?i ?v ?r)] |- _ =>
      is_const p; progress change (p (@set_field R T f i v r)) with (p r) in H
  end.

(** [solve_frame] shows that a computation keeps a projection of the store:
    the operations' frame lemmas are in [pres], assignments are read off. *)
Ltac solve_frame :=
  repeat first
    [ progress intros
    | solve [auto with pres nocore]
    | apply pres_bind | apply pres_when | apply pres_if | apply pres_try_catch
    | apply pres_for_each | apply pres_fold_m
    | apply pres_modify; intros; rsimpl; assumption
    | match goal with |- preserves _ (match ?x with _ => _ end) => destruct x end ].
