(* ===== verification/PyText.v ===== *)
(** * Python text and bytes

    What the modelled code uses of [str] and [bytes]: literals, number and
    UUID formatting, [strip], the Unicode decimal digits that the regular
    expression class [\d] matches, code point order, UTF-8 encoding, and
    decoding with [errors="ignore"].  Full case mapping ([str.upper],
    [str.casefold], SQL [lower]) is Unicode data, not code of the repository:
    it is the interface [CaseMapping]. *)

From S2P Require Import Prelude.
From Stdlib Require Ascii String.

Open Scope N_scope.

(** ** Literals and formatting *)

(** A source literal; the literals of the modelled code are ASCII. *)
Definition u (s : string) : text := Ascii.N_of_ascii <$> String.list_ascii_of_string s.
Arguments u : simpl never.

(** [str(n)] and [f"{n:,}"] of an integer. *)
Definition str_of_Z (z : Z) : text := u (pretty z).

Fixpoint group_thousands (digits_rev : text) (k : nat) : text :=
  match digits_rev with
  | [] => []
  | d :: ds =>
      match k with
      | O => 44 :: d :: group_thousands ds 2
      | S k' => d :: group_thousands ds k'
      end
  end.

Definition format_thousands (z : Z) : text :=
  (if (z <? 0)%Z then [45] else []) ++ rev (group_thousands (rev (str_of_Z (Z.abs z))) 3).

(** [str(uuid)]: thirty-two hexadecimal digits, grouped 8-4-4-4-12. *)
Abbreviation uuid := N.

Definition hex_digit (n : N) : N := if n <? 10 then 48 + n else 87 + n.

Fixpoint hex_digits (k : nat) (n : N) (acc : text) : text :=
  match k with
  | O => acc
  | S k' => hex_digits k' (n / 16) (hex_digit (n mod 16) :: acc)
  end.

Definition str_of_uuid (n : uuid) : text :=
  let h := hex_digits 32 n [] in
  take 8 h ++ 45 :: take 4 (drop 8 h) ++ 45 :: take 4 (drop 12 h) ++ 45 ::
  take 4 (drop 16 h) ++ 45 :: drop 20 h.
Arguments str_of_uuid : simpl never.

(** [", ".join(parts)] *)
Fixpoint join (sep : text) (parts : list text) : text :=
  match parts with
  | [] => []
  | [p] => p
  | p :: ps => p ++ sep ++ join sep ps
  end.

(** ** Whitespace and decimal digits *)

(** The code points [str.isspace] accepts, which [str.strip] removes. *)
Definition whitespace : list N :=
  [9; 10; 11; 12; 13; 28; 29; 30; 31; 32; 133; 160; 5760; 8192; 8193; 8194;
   8195; 8196; 8197; 8198; 8199; 8200; 8201; 8202; 8232; 8233; 8239; 8287; 12288].

Definition is_space (c : N) : bool := bool_decide (c ∈ whitespace).

Fixpoint lstrip (t : text) : text :=
  match t with
  | [] => []
  | c :: t' => if is_space c then lstrip t' else t
  end.

Definition strip (t : text) : text := rev (lstrip (rev (lstrip t))).
Arguments strip : simpl never.

(** The zero of every run of ten Unicode decimal digits (category Nd,
    Unicode 15.0, the data of the pinned Python 3.12). *)
Definition decimal_zeros : list N :=
  [48; 1632; 1776; 1984; 2406; 2534; 2662; 2790; 2918; 3046; 3174; 3302; 3430;
   3558; 3664; 3792; 3872; 4160; 4240; 6112; 6160; 6470; 6608; 6784; 6800; 6992;
   7088; 7232; 7248; 42528; 43216; 43264; 43472; 43504; 43600; 44016; 65296;
   66720; 68912; 69734; 69872; 69942; 70096; 70384; 70736; 70864; 71248; 71360;
   71472; 71904; 72016; 72784; 73040; 73120; 73552; 92768; 92864; 93008; 120782;
   120792; 120802; 120812; 120822; 123200; 123632; 124144; 125264; 130032].

Definition is_decimal (c : N) : bool :=
  existsb (λ z, (z <=? c) && (c <? z + 10)) decimal_zeros.
Arguments is_decimal : simpl never.

(** ** Order

    Python compares strings by code points. *)

Fixpoint text_leb (a b : text) : bool :=
  match a, b with
  | [], _ => true
  | _ :: _, [] => false
  | x :: a', y :: b' => (x <? y) || ((x =? y) && text_leb a' b')
  end.

Definition text_le (a b : text) : Prop := text_leb a b = true.

#[export] Instance text_le_dec : RelDecision text_le.
Proof. intros a b. unfold text_le. apply _. Defined.

Lemma text_leb_refl a : text_leb a a = true.
Proof. induction a as [|x a IH]; cbn; [done|]. rewrite N.eqb_refl, IH. by rewrite orb_true_r. Qed.

#[export] Instance text_le_total : Total text_le.
Proof.
  intros a. unfold text_le. induction a as [|x a IH]; intros [|y b]; cbn; auto.
  destruct (N.ltb_spec x y), (N.ltb_spec y x), (N.eqb_spec x y), (N.eqb_spec y x);
    cbn; auto; subst; try lia.
Qed.

#[export] Instance text_le_trans : Transitive text_le.
Proof.
  intros a b c. unfold text_le. revert b c.
  induction a as [|x a IH]; intros [|y b] [|z c]; cbn; try done.
  rewrite !orb_true_iff, !andb_true_iff, !N.ltb_lt, !N.eqb_eq.
  intros [?|[-> ?]] [?|[-> ?]]; [left; lia|left; lia|left; lia|right; eauto].
Qed.

#[export] Instance text_le_antisymm : AntiSymm (=) text_le.
Proof.
  intros a b. unfold text_le. revert b.
  induction a as [|x a IH]; intros [|y b]; cbn; try done.
  rewrite !orb_true_iff, !andb_true_iff, !N.ltb_lt, !N.eqb_eq.
  intros [?|[-> ?]] [?|[? ?]]; try lia. by f_equal; apply IH.
Qed.

#[export] Instance text_le_preorder : PreOrder text_le.
Proof. split; [intros a; apply text_leb_refl | apply _]. Qed.

(** [sorted(set(l))] *)
Definition sorted_set (l : list text) : list text := merge_sort text_le (remove_dups l).

Lemma elem_of_sorted_set x l : x ∈ sorted_set l ↔ x ∈ l.
Proof.
  unfold sorted_set. rewrite (merge_sort_Permutation text_le). apply elem_of_remove_dups.
Qed.

Lemma NoDup_sorted_set l : NoDup (sorted_set l).
Proof.
  unfold sorted_set. rewrite (merge_sort_Permutation text_le). apply NoDup_remove_dups.
Qed.

Lemma Sorted_sorted_set l : StronglySorted text_le (sorted_set l).
Proof. apply StronglySorted_merge_sort; apply _. Qed.

(** A sorted set is determined by its members. *)
Lemma sorted_set_ext l1 l2 : (∀ x, x ∈ l1 ↔ x ∈ l2) → sorted_set l1 = sorted_set l2.
Proof.
  intros H. apply (StronglySorted_unique text_le); try apply Sorted_sorted_set.
  apply NoDup_Permutation; try apply NoDup_sorted_set.
  intros x. by rewrite !elem_of_sorted_set.
Qed.

Lemma sorted_set_idemp l : sorted_set (sorted_set l) = sorted_set l.
Proof. apply sorted_set_ext. intros x. apply elem_of_sorted_set. Qed.

(** ** Case mapping *)

Class CaseMapping : Type := {
  py_upper : text → text;
  py_lower : text → text;
  py_casefold : text → text;
  sql_lower : text → text
}.

(** What the code relies on: mapping to upper case is idempotent and adds no
    surrounding white space, and mapping to lower case leaves what is lower
    case ASCII alone. *)
Class CaseMappingLaws `{CaseMapping} : Prop := {
  py_upper_idemp t : py_upper (py_upper t) = py_upper t;
  py_upper_strip t : strip (py_upper (strip t)) = py_upper (strip t);
  py_upper_nil t : py_upper t = [] ↔ t = [];
  (** lower case keeps an ASCII suffix without capitals *)
  py_lower_suffix t s : Forall (λ c, c < 128 ∧ ¬ (65 ≤ c ≤ 90)) s → ∃ t', py_lower (t ++ s) = t' ++ s
}.

(** The ASCII fragment, used to evaluate concrete inputs. *)
Definition ascii_upper_cp (c : N) : N := if (97 <=? c) && (c <=? 122) then c - 32 else c.
Definition ascii_lower_cp (c : N) : N := if (65 <=? c) && (c <=? 90) then c + 32 else c.

Definition ascii_case : CaseMapping := {|
  py_upper := map ascii_upper_cp;
  py_lower := map ascii_lower_cp;
  py_casefold := map ascii_lower_cp;
  sql_lower := map ascii_lower_cp
|}.

(** *** Stripping *)

Lemma lstrip_head t c t' : lstrip t = c :: t' → is_space c = false.
Proof.
  induction t as [|x t IH]; cbn; [done|].
  destruct (is_space x) eqn:E; [apply IH|]. by intros [= <- <-].
Qed.

Lemma lstrip_id t : (∀ c t', t = c :: t' → is_space c = false) → lstrip t = t.
Proof. destruct t as [|c t]; cbn; [done|]. intros H. by rewrite (H c t). Qed.

Lemma lstrip_idemp t : lstrip (lstrip t) = lstrip t.
Proof. apply lstrip_id. intros c t'. apply lstrip_head. Qed.

Lemma lstrip_suffix t : ∃ p, t = p ++ lstrip t.
Proof.
  induction t as [|x t [p IH]]; cbn; [by exists []|].
  destruct (is_space x); [exists (x :: p); cbn; by f_equal | by exists []].
Qed.

(** Removing trailing whitespace leaves the first character alone. *)
Lemma lstrip_rev_lstrip t : lstrip (rev (lstrip (rev (lstrip t)))) = rev (lstrip (rev (lstrip t))).
Proof.
  apply lstrip_id. intros c t' E.
  destruct (lstrip_suffix (rev (lstrip t))) as [p Hp].
  assert (lstrip t = c :: t' ++ rev p) as Hl.
  { rewrite <- (rev_involutive (lstrip t)), Hp, rev_app_distr, E. done. }
  by apply lstrip_head in Hl.
Qed.

Lemma lstrip_elem c t : c ∈ t → is_space c = false → c ∈ lstrip t.
Proof.
  intros Hc Hs. induction t as [|x t IH]; [done|]. cbn.
  destruct (is_space x) eqn:E; [|done].
  apply elem_of_cons in Hc as [->|Hc]; [congruence | by apply IH].
Qed.

(** Stripping leaves every character that is not white space. *)
Lemma strip_nonblank c t : c ∈ t → is_space c = false → strip t ≠ [].
Proof.
  intros Hc Hs E. apply (not_elem_of_nil c). rewrite <- E. unfold strip.
  assert (∀ l : text, c ∈ l → c ∈ rev l) as Hrev by (intros l; rewrite !list_elem_of_In; apply in_rev).
  by apply Hrev, lstrip_elem, Hs; apply Hrev, lstrip_elem, Hs.
Qed.

Lemma str_of_uuid_nonblank id : strip (str_of_uuid id) ≠ [].
Proof.
  apply (strip_nonblank 45); [|done]. unfold str_of_uuid. apply elem_of_app. right. by left.
Qed.

(** A text that starts with a literal whose first character is visible. *)
Lemma strip_app_nonblank c l t : is_space c = false → strip ((c :: l) ++ t) ≠ [].
Proof. intros Hs. apply (strip_nonblank c); [by left | done]. Qed.

Lemma strip_idemp t : strip (strip t) = strip t.
Proof.
  unfold strip. rewrite (lstrip_rev_lstrip t).
  rewrite (rev_involutive (lstrip (rev (lstrip t)))). by rewrite lstrip_idemp.
Qed.

Lemma lstrip_map f t :
  (∀ c, is_space (f c) = is_space c) → lstrip (map f t) = map f (lstrip t).
Proof.
  intros Hf. induction t as [|c t IH]; cbn; [done|]. rewrite Hf. by destruct (is_space c).
Qed.

Lemma strip_map f t :
  (∀ c, is_space (f c) = is_space c) → strip (map f t) = map f (strip t).
Proof.
  intros Hf. unfold strip.
  rewrite lstrip_map by done. rewrite <- map_rev, lstrip_map by done. by rewrite map_rev.
Qed.

Lemma ascii_upper_space c : is_space (ascii_upper_cp c) = is_space c.
Proof.
  unfold ascii_upper_cp. destruct (N.leb_spec 97 c), (N.leb_spec c 122); cbn; try done.
  unfold is_space. rewrite !bool_decide_eq_false_2; [done|..];
    unfold whitespace; intros Hin; rewrite !elem_of_cons, elem_of_nil in Hin; lia.
Qed.

#[export] Instance ascii_case_laws : @CaseMappingLaws ascii_case.
Proof.
  split; cbn.
  - intros t. rewrite map_map. apply map_ext. intros c. unfold ascii_upper_cp.
    destruct (N.leb_spec 97 c), (N.leb_spec c 122); cbn [andb];
      repeat match goal with |- context [?a <=? ?b] => destruct (N.leb_spec a b) end;
      cbn [andb]; lia.
  - intros t. rewrite strip_map by apply ascii_upper_space. by rewrite strip_idemp.
  - intros [|c t]; cbn; [done|]. split; discriminate.
  - intros t s Hs. exists (map ascii_lower_cp t). rewrite map_app. f_equal.
    induction Hs as [|c s [_ Hc] _ IH]; cbn; [done|]. f_equal; [|done]. unfold ascii_lower_cp.
    destruct (N.leb_spec 65 c), (N.leb_spec c 90); cbn [andb]; lia.
Qed.

(** ** UTF-8 *)

(** The encoding of one code point; surrogates have none. *)
Definition utf8_cp (c : N) : option (list N) :=
  if c <? 128 then Some [c]
  else if c <? 2048 then Some [192 + c / 64; 128 + c mod 64]
  else if (55296 <=? c) && (c <? 57344) then None
  else if c <? 65536 then
    Some [224 + c / 4096; 128 + (c / 64) mod 64; 128 + c mod 64]
  else if c <? 1114112 then
    Some [240 + c / 262144; 128 + (c / 4096) mod 64; 128 + (c / 64) mod 64; 128 + c mod 64]
  else None.

(** [t.encode("utf-8")] *)
Fixpoint utf8_encode (t : text) : option (list N) :=
  match t with
  | [] => Some []
  | c :: t' => b ← utf8_cp c; bs ← utf8_encode t'; Some (b ++ bs)
  end.

Definition in_range (lo hi b : N) : bool := (lo <=? b) && (b <=? hi).
Definition is_cont : N → bool := in_range 128 191.

(** The second byte a three or four byte sequence accepts after its lead. *)
Definition second_ok (b0 b1 : N) : bool :=
  if b0 =? 224 then in_range 160 191 b1
  else if b0 =? 237 then in_range 128 159 b1
  else if b0 =? 240 then in_range 144 191 b1
  else if b0 =? 244 then in_range 128 143 b1
  else is_cont b1.

(** [bs.decode("utf-8", errors="ignore")]: an ill-formed sequence is skipped
    up to the byte that cannot continue it. *)
Fixpoint utf8_decode_ignore (bs : list N) : text :=
  match bs with
  | [] => []
  | b0 :: r0 =>
      if b0 <? 128 then b0 :: utf8_decode_ignore r0
      else if in_range 194 223 b0 then
        match r0 with
        | b1 :: r1 =>
            if is_cont b1 then ((b0 - 192) * 64 + (b1 - 128)) :: utf8_decode_ignore r1
            else utf8_decode_ignore r0
        | [] => []
        end
      else if in_range 224 239 b0 then
        match r0 with
        | b1 :: r1 =>
            if second_ok b0 b1 then
              match r1 with
              | b2 :: r2 =>
                  if is_cont b2 then
                    ((b0 - 224) * 4096 + (b1 - 128) * 64 + (b2 - 128)) :: utf8_decode_ignore r2
                  else utf8_decode_ignore r1
              | [] => []
              end
            else utf8_decode_ignore r0
        | [] => []
        end
      else if in_range 240 244 b0 then
        match r0 with
        | b1 :: r1 =>
            if second_ok b0 b1 then
              match r1 with
              | b2 :: r2 =>
                  if is_cont b2 then
                    match r2 with
                    | b3 :: r3 =>
                        if is_cont b3 then
                          ((b0 - 240) * 262144 + (b1 - 128) * 4096 + (b2 - 128) * 64 + (b3 - 128))
                            :: utf8_decode_ignore r3
                        else utf8_decode_ignore r2
                    | [] => []
                    end
                  else utf8_decode_ignore r1
              | [] => []
              end
            else utf8_decode_ignore r0
        | [] => []
        end
      else utf8_decode_ignore r0
  end.

#[local] Ltac Zify.zify_post_hook ::= Z.to_euclidean_division_equations.

Ltac decide_bytes :=
  unfold second_ok, is_cont, in_range;
  repeat match goal with
  | |- context [?a <? ?b] => destruct (N.ltb_spec a b); [try (exfalso; lia)|try (exfalso; lia)]
  | |- context [?a <=? ?b] => destruct (N.leb_spec a b); [try (exfalso; lia)|try (exfalso; lia)]
  | |- context [?a =? ?b] => destruct (N.eqb_spec a b); [try (exfalso; lia)|try (exfalso; lia)]
  end; reflexivity.

Lemma utf8_decode_2 b0 b1 r :
  (b0 <? 128) = false → in_range 194 223 b0 = true → is_cont b1 = true →
  utf8_decode_ignore (b0 :: b1 :: r) = ((b0 - 192) * 64 + (b1 - 128)) :: utf8_decode_ignore r.
Proof. cbn [utf8_decode_ignore]. by intros -> -> ->. Qed.

Lemma utf8_decode_3 b0 b1 b2 r :
  (b0 <? 128) = false → in_range 194 223 b0 = false → in_range 224 239 b0 = true →
  second_ok b0 b1 = true → is_cont b2 = true →
  utf8_decode_ignore (b0 :: b1 :: b2 :: r) =
    ((b0 - 224) * 4096 + (b1 - 128) * 64 + (b2 - 128)) :: utf8_decode_ignore r.
Proof. cbn [utf8_decode_ignore]. by intros -> -> -> -> ->. Qed.

Lemma utf8_decode_4 b0 b1 b2 b3 r :
  (b0 <? 128) = false → in_range 194 223 b0 = false → in_range 224 239 b0 = false →
  in_range 240 244 b0 = true → second_ok b0 b1 = true → is_cont b2 = true → is_cont b3 = true →
  utf8_decode_ignore (b0 :: b1 :: b2 :: b3 :: r) =
    ((b0 - 240) * 262144 + (b1 - 128) * 4096 + (b2 - 128) * 64 + (b3 - 128))
      :: utf8_decode_ignore r.
Proof. cbn [utf8_decode_ignore]. by intros -> -> -> -> -> -> ->. Qed.

Lemma utf8_decode_cp c b rest :
  utf8_cp c = Some b → utf8_decode_ignore (b ++ rest) = c :: utf8_decode_ignore rest.
Proof.
  unfold utf8_cp. destruct (N.ltb_spec c 128) as [H|].
  { intros [= <-]. cbn. by apply N.ltb_lt in H as ->. }
  destruct (N.ltb_spec c 2048).
  { intros [= <-]. cbn [app]. rewrite utf8_decode_2 by decide_bytes. f_equal. lia. }
  destruct (_ && _) eqn:Hs; [done|].
  assert (c < 55296 ∨ 57344 ≤ c) as Hs'.
  { rewrite andb_false_iff, N.leb_gt, N.ltb_ge in Hs. lia. }
  destruct (N.ltb_spec c 65536).
  { intros [= <-]. cbn [app]. rewrite utf8_decode_3 by decide_bytes. f_equal. lia. }
  destruct (N.ltb_spec c 1114112); [|done].
  intros [= <-]. cbn [app]. rewrite utf8_decode_4 by decide_bytes. f_equal. lia.
Qed.

(** A strict prefix of one code point's encoding decodes to nothing. *)
Lemma utf8_decode_cut c b n :
  utf8_cp c = Some b → (n < length b)%nat → utf8_decode_ignore (take n b) = [].
Proof.
  unfold utf8_cp. destruct (N.ltb_spec c 128).
  { intros [= <-] Hn. cbn in Hn. by assert (n = 0%nat) as -> by lia. }
  assert (∀ b0, 128 ≤ b0 → (b0 <? 128) = false) as Hnot by (intros; by apply N.ltb_ge).
  destruct (N.ltb_spec c 2048).
  { intros [= <-] Hn. cbn in Hn. destruct n as [|[|]]; [done| |lia].
    cbn. rewrite Hnot by lia. by repeat case_match. }
  destruct (_ && _) eqn:Hs; [done|].
  assert (c < 55296 ∨ 57344 ≤ c) as Hs'.
  { rewrite andb_false_iff, N.leb_gt, N.ltb_ge in Hs. lia. }
  destruct (N.ltb_spec c 65536).
  { intros [= <-] Hn. cbn in Hn. destruct n as [|[|[|]]]; [done| | |lia]; cbn [take].
    - cbn. rewrite Hnot by lia. by repeat case_match.
    - set (b0 := 224 + c / 4096). set (b1 := 128 + (c / 64) mod 64). cbn.
      replace (b0 <? 128) with false by (subst b0; decide_bytes).
      replace (in_range 194 223 b0) with false by (subst b0; decide_bytes).
      replace (in_range 224 239 b0) with true by (subst b0; decide_bytes).
      by replace (second_ok b0 b1) with true by (subst b0 b1; decide_bytes). }
  destruct (N.ltb_spec c 1114112); [|done].
  set (b0 := 240 + c / 262144). set (b1 := 128 + (c / 4096) mod 64).
  set (b2 := 128 + (c / 64) mod 64).
  intros [= <-] Hn. cbn in Hn.
  destruct n as [|[|[|[|]]]]; [done| | | |lia]; cbn [take].
  all: cbn; replace (b0 <? 128) with false by (subst b0; decide_bytes);
    replace (in_range 194 223 b0) with false by (subst b0; decide_bytes);
    replace (in_range 224 239 b0) with false by (subst b0; decide_bytes);
    replace (in_range 240 244 b0) with true by (subst b0; decide_bytes); try done;
    replace (second_ok b0 b1) with true by (subst b0 b1; decide_bytes); try done.
  by replace (is_cont b2) with true by (subst b2; decide_bytes).
Qed.

Lemma utf8_cp_length c b : utf8_cp c = Some b → (1 ≤ length b ≤ 4)%nat.
Proof. unfold utf8_cp. repeat case_match; intros; simplify_eq; cbn; lia. Qed.

(** The length, in bytes, of the longest run of whole characters within [n]. *)
Fixpoint utf8_fit (t : text) (n : nat) : text :=
  match t with
  | [] => []
  | c :: t' =>
      match utf8_cp c with
      | Some b => if (length b <=? n)%nat then c :: utf8_fit t' (n - length b) else []
      | None => []
      end
  end.

(** Cutting an encoding at [n] bytes and decoding what is left, ignoring the
    broken tail, keeps exactly the whole characters that fit. *)
Lemma utf8_decode_take t bs n :
  utf8_encode t = Some bs → utf8_decode_ignore (take n bs) = utf8_fit t n.
Proof.
  revert bs n. induction t as [|c t IH]; intros bs n; cbn.
  { intros [= <-]. by rewrite take_nil. }
  destruct (utf8_cp c) as [b|] eqn:Hc; [|done]. cbn.
  destruct (utf8_encode t) as [bs'|] eqn:Ht; [|done]. cbn. intros [= <-].
  destruct (Nat.leb_spec (length b) n) as [Hle|Hlt].
  - rewrite take_app_ge by done. rewrite (utf8_decode_cp c) by done. f_equal. by apply IH.
  - rewrite take_app_le by lia. by apply (utf8_decode_cut c).
Qed.

Lemma utf8_decode_encode t bs : utf8_encode t = Some bs → utf8_decode_ignore bs = t.
Proof.
  revert bs. induction t as [|c t IH]; intros bs; cbn; [by intros [= <-]|].
  destruct (utf8_cp c) as [b|] eqn:Hc; [|done]. cbn.
  destruct (utf8_encode t) as [bs'|] eqn:Ht; [|done]. cbn. intros [= <-].
  rewrite (utf8_decode_cp c) by done. f_equal. by apply IH.
Qed.
