(* ===== verification/PyInt.v ===== *)
(** * Python's parsers of numbers and identifiers

    [int(text, base)], [format(n, "x")], [uuid.UUID(text)], [str.split] with a
    limit, and the other functions on [str] that the Telegram and worker
    modules call.  They are the language's, written out because the properties
    of callbacks depend on what they accept. *)

From S2P Require Import Prelude PyText.
From Stdlib Require Ascii String.

Open Scope N_scope.

(** ** [int(text, base)] *)

(** Unicode digits and spaces become their ASCII counterparts. *)
Definition ascii_char (c : N) : N :=
  if c <? 127 then c
  else if is_space c then 32
  else match List.find (λ z, (z <=? c) && (c <? z + 10)) decimal_zeros with
       | Some z => 48 + (c - z)
       | None => 63
       end.

Definition c_space (c : N) : bool := (c =? 32) || ((9 <=? c) && (c <=? 13)).
Fixpoint skip_c_space (t : text) : text :=
  match t with c :: t' => if c_space c then skip_c_space t' else t | [] => [] end.
Definition trim_c_space (t : text) : text := rev (skip_c_space (rev (skip_c_space t))).

Definition digit_value (base c : N) : option N :=
  let v := if (48 <=? c) && (c <=? 57) then Some (c - 48)
           else if (65 <=? c) && (c <=? 90) then Some (c - 55)
           else if (97 <=? c) && (c <=? 122) then Some (c - 87)
           else None in
  match v with Some d => if d <? base then Some d else None | None => None end.

(** The digits, single underscores between them; [us] forbids an underscore
    here, and the end. *)
Fixpoint scan_digits (base : N) (us : bool) (acc : N) (t : text) : option N :=
  match t with
  | [] => if us then None else Some acc
  | c :: t' =>
      if c =? 95 then (if us then None else scan_digits base true acc t')
      else match digit_value base c with
           | Some d => scan_digits base false (acc * base + d) t'
           | None => None
           end
  end.

(** Conversions whose base is not a power of two are limited in length. *)
Definition INT_MAX_STR_DIGITS : nat := 4300.
Definition too_long (base : N) (t : text) : bool :=
  (base =? 10) && Nat.ltb INT_MAX_STR_DIGITS (length (List.filter (λ c, negb (c =? 95)) t)).

Definition drop_prefix (base : N) (t : text) : text :=
  match t with
  | c :: x :: t' =>
      if (base =? 16) && (c =? 48) && ((x =? 120) || (x =? 88))
      then match t' with y :: t'' => if y =? 95 then t'' else t' | [] => [] end else t
  | _ => t
  end.
Definition unsigned (base : N) (t : text) : option N :=
  let t := drop_prefix base t in
  if too_long base t then None else scan_digits base true 0 t.

Definition py_int (base : N) (t : text) : option Z :=
  match trim_c_space (ascii_char <$> t) with
  | [] => None
  | c :: t' =>
      if c =? 43 then Z.of_N <$> unsigned base t'
      else if c =? 45 then Z.opp <$> (Z.of_N <$> unsigned base t')
      else Z.of_N <$> unsigned base (c :: t')
  end.

(** [format(n, "x")] *)
Definition format_hex (z : Z) : text :=
  (if (z <? 0)%Z then [45] else []) ++ hex_digits (S (N.to_nat (N.log2 (Z.abs_N z) / 4))) (Z.abs_N z) [].

(** ** [str] *)

(** Literals are equal when their text is. *)
#[export] Instance u_inj : Inj (=) (=) u.
Proof.
  intros a b E. unfold u in E. apply (f_equal (fmap Ascii.ascii_of_N)) in E.
  rewrite <- !list_fmap_compose in E.
  rewrite !(list_fmap_ext (Ascii.ascii_of_N ∘ Ascii.N_of_ascii) id) in E by (intros; apply Ascii.ascii_N_embedding).
  rewrite !list_fmap_id in E.
  by rewrite <- (String.string_of_list_ascii_of_string a), <- (String.string_of_list_ascii_of_string b), E.
Qed.

Fixpoint starts_with (p t : text) : bool :=
  match p, t with
  | [], _ => true
  | a :: p', b :: t' => (a =? b) && starts_with p' t'
  | _ :: _, [] => false
  end.

(** [p in t] *)
Fixpoint contains (p t : text) : bool :=
  starts_with p t || match t with [] => false | _ :: t' => contains p t' end.

(** [part] stands somewhere in [t]. *)
Definition stands_in (part t : text) : Prop := ∃ before after, t = before ++ part ++ after.

Lemma starts_with_iff p t : starts_with p t = true ↔ ∃ after, t = p ++ after.
Proof.
  revert t. induction p as [|a p IH]; intros t; cbn; [naive_solver|].
  destruct t as [|b t]; [naive_solver|]. rewrite andb_true_iff, N.eqb_eq, IH. naive_solver.
Qed.
Lemma contains_iff p t : contains p t = true ↔ stands_in p t.
Proof.
  induction t as [|c t IH]; cbn; rewrite orb_true_iff, starts_with_iff.
  - split; [intros [[after ->]|]; [by exists [], after | done]|]. intros ([|? ?] & after & E); [left; by exists after | done].
  - rewrite IH. split.
    + intros [[after ->]|(before & after & ->)]; [by exists [], after | by exists (c :: before), after].
    + intros ([|? before] & after & E); [left; by exists after | right]. injection E as -> ->. by exists before, after.
Qed.

(** [t.replace(p, "")], [skip] counting the characters of a match in course. *)
Fixpoint remove_sub (p : text) (skip : nat) (t : text) : text :=
  match t with
  | [] => []
  | c :: t' =>
      match skip with
      | S k => remove_sub p k t'
      | O => if starts_with p t then remove_sub p (pred (length p)) t' else c :: remove_sub p 0 t'
      end
  end.

(** [t.strip(chars)] *)
Fixpoint lstrip_of (chars : list N) (t : text) : text :=
  match t with c :: t' => if bool_decide (c ∈ chars) then lstrip_of chars t' else t | [] => [] end.
Definition strip_of (chars : list N) (t : text) : text := rev (lstrip_of chars (rev (lstrip_of chars t))).

(** [t.split(sep, limit)] *)
Fixpoint split_max (sep : N) (limit : nat) (t : text) : list text :=
  match t with
  | [] => [[]]
  | c :: t' =>
      match limit with
      | O => [t]
      | S k =>
          if c =? sep then [] :: split_max sep k t'
          else match split_max sep limit t' with p :: ps => (c :: p) :: ps | [] => [] end
      end
  end.

(** [t.title()] of ASCII text *)
Fixpoint title_from (start : bool) (t : text) : text :=
  match t with
  | [] => []
  | c :: t' =>
      let letter := ((65 <=? c) && (c <=? 90)) || ((97 <=? c) && (c <=? 122)) in
      (if start then ascii_upper_cp c else ascii_lower_cp c) :: title_from (negb letter) t'
  end.
Definition ascii_title : text → text := title_from true.

(** ** [uuid.UUID(text)] *)

Definition uuid_of_text (t : text) : option uuid :=
  let hex := remove_sub (u "uuid:") 0 (remove_sub (u "urn:") 0 t) in
  let hex := List.filter (λ c, negb (c =? 45)) (strip_of [123; 125] hex) in
  if negb (length hex =? 32)%nat then None else
  match py_int 16 hex with
  | Some v => if ((0 <=? v) && (v <? 2 ^ 128))%Z then Some (Z.to_N v) else None
  | None => None
  end.

(** [uuid.hex] *)
Definition hex_of_uuid (n : uuid) : text := hex_digits 32 n [].

(** ** Hexadecimal round trips *)

Definition is_hex (c : N) : Prop := (48 ≤ c ∧ c ≤ 57) ∨ (97 ≤ c ∧ c ≤ 102).

Lemma hex_digit_is_hex d : d < 16 → is_hex (hex_digit d).
Proof. intros Hd. unfold hex_digit, is_hex. destruct (N.ltb_spec d 10); lia. Qed.

Lemma hex_digit_value d : d < 16 → digit_value 16 (hex_digit d) = Some d.
Proof.
  intros Hd. unfold hex_digit, digit_value.
  destruct (N.ltb_spec d 10); repeat (case_match; simplify_eq); try (f_equal; lia); exfalso;
    repeat match goal with H : _ = true |- _ => apply andb_true_iff in H as [?%N.leb_le ?%N.leb_le]
                         | H : (_ && _) = false |- _ => apply andb_false_iff in H as [?%N.leb_gt|?%N.leb_gt]
                         | H : (_ <? _) = false |- _ => apply N.ltb_ge in H end; lia.
Qed.

Lemma hex_digits_spec k : ∀ n acc, Forall is_hex acc → Forall is_hex (hex_digits k n acc).
Proof.
  induction k as [|k IH]; intros n acc Ha; cbn; [done|]. apply IH. constructor; [|done].
  apply hex_digit_is_hex. apply N.mod_lt. done.
Qed.

Lemma length_hex_digits k : ∀ n acc, length (hex_digits k n acc) = (k + length acc)%nat.
Proof. induction k as [|k IH]; intros n acc; cbn; [done|]. rewrite IH. cbn. lia. Qed.

Lemma scan_hex_digits k : ∀ n us a acc,
  scan_digits 16 us a (hex_digits (S k) n acc) = scan_digits 16 false (a * 16 ^ N.of_nat (S k) + n mod 16 ^ N.of_nat (S k)) acc.
Proof.
  assert (∀ d us a acc, d < 16 → scan_digits 16 us a (hex_digit d :: acc) = scan_digits 16 false (a * 16 + d) acc) as Hone.
  { intros d us a acc Hd. cbn. rewrite hex_digit_value by done.
    destruct (N.eqb_spec (hex_digit d) 95) as [E|]; [|done]. pose proof (hex_digit_is_hex d Hd). unfold is_hex in *. lia. }
  induction k as [|k IH]; intros n us a acc.
  - cbn [hex_digits]. rewrite Hone by (by apply N.mod_lt). done.
  - change (hex_digits (S (S k)) n acc) with (hex_digits (S k) (n / 16) (hex_digit (n mod 16) :: acc)).
    rewrite IH, Hone by (by apply N.mod_lt). f_equal.
    replace (N.of_nat (S (S k))) with (N.succ (N.of_nat (S k))) by lia. rewrite N.pow_succ_r' .
    rewrite (N.Div0.mod_mul_r n 16). lia.
Qed.

(** Text that [int] reads as it stands: neither blank nor converted. *)
Definition solid (c : N) : Prop := ascii_char c = c ∧ c_space c = false.

Lemma is_hex_solid c : is_hex c → solid c.
Proof.
  intros Hc. unfold is_hex in Hc. split; unfold ascii_char, c_space.
  - by rewrite (proj2 (N.ltb_lt c 127)) by lia.
  - apply orb_false_iff. split; [apply N.eqb_neq; lia|]. apply andb_false_iff. right. apply N.leb_gt. lia.
Qed.

Lemma skip_c_space_id t : Forall solid t → skip_c_space t = t.
Proof. destruct 1 as [|c t [_ Hc]]; [done|]. cbn. by rewrite Hc. Qed.

Lemma trim_solid t : Forall solid t → trim_c_space (ascii_char <$> t) = t.
Proof.
  intros Ht. assert (ascii_char <$> t = t) as ->.
  { induction Ht as [|c t [Hc _] _ IH]; [done|]. cbn. by rewrite Hc, IH. }
  unfold trim_c_space. rewrite (skip_c_space_id t), skip_c_space_id by (try done; by apply Forall_rev).
  apply rev_involutive.
Qed.

Lemma unsigned_hex k n :
  n < 16 ^ N.of_nat (S k) → unsigned 16 (hex_digits (S k) n []) = Some n.
Proof.
  intros Hn. pose proof (hex_digits_spec (S k) n [] (Forall_nil_2 _)) as Hh. unfold unsigned.
  assert (drop_prefix 16 (hex_digits (S k) n []) = hex_digits (S k) n []) as ->.
  { destruct (hex_digits (S k) n []) as [|c [|x t]]; [done..|].
    apply Forall_cons in Hh as [_ [Hx _]%Forall_cons]. cbn.
    assert (((x =? 120) || (x =? 88)) = false) as ->; [|by rewrite andb_false_r].
    unfold is_hex in Hx. apply orb_false_iff. split; apply N.eqb_neq; lia. }
  change (scan_digits 16 true 0 (hex_digits (S k) n []) = Some n).
  rewrite scan_hex_digits. cbn [scan_digits]. by rewrite N.mod_small.
Qed.

Lemma py_int_hex k n : n < 16 ^ N.of_nat (S k) → py_int 16 (hex_digits (S k) n []) = Some (Z.of_N n).
Proof.
  intros Hn. unfold py_int. pose proof (hex_digits_spec (S k) n [] (Forall_nil_2 _)) as Hh.
  rewrite trim_solid by (eapply Forall_impl; [exact Hh | exact is_hex_solid]).
  pose proof (unsigned_hex k n Hn) as Hu. destruct (hex_digits (S k) n []) as [|c t] eqn:E.
  { apply (f_equal length) in E. rewrite length_hex_digits in E. cbn in E. lia. }
  apply Forall_cons in Hh as [Hc _]. unfold is_hex in Hc.
  rewrite (proj2 (N.eqb_neq c 43)), (proj2 (N.eqb_neq c 45)) by lia. by rewrite Hu.
Qed.

Lemma log2_nibbles n : n < 16 ^ N.of_nat (S (N.to_nat (N.log2 n / 4))).
Proof.
  destruct (decide (n = 0)) as [->|Hn]; [reflexivity|].
  change 16 with (2 ^ 4). rewrite <- N.pow_mul_r, Nat2N.inj_succ, N2Nat.id.
  eapply N.lt_le_trans; [apply N.log2_spec; lia|]. apply N.pow_le_mono_r; [done|].
  pose proof (N.div_mod (N.log2 n) 4). pose proof (N.mod_lt (N.log2 n) 4). lia.
Qed.

Lemma py_int_format_hex z : py_int 16 (format_hex z) = Some z.
Proof.
  unfold format_hex. pose proof (log2_nibbles (Z.abs_N z)) as Hn. destruct (Z.ltb_spec z 0).
  - unfold py_int. rewrite trim_solid.
    + cbn [app]. change (45 =? 43) with false. change (45 =? 45) with true. cbv iota. rewrite unsigned_hex by done.
      cbn. f_equal. lia.
    + constructor; [done|]. eapply Forall_impl; [apply hex_digits_spec; constructor | exact is_hex_solid].
  - cbn [app]. rewrite py_int_hex by done. f_equal. lia.
Qed.

(** ** Identifiers *)

Lemma remove_sub_id p a t : head p = Some a → a ∉ t → remove_sub p 0 t = t.
Proof.
  destruct p as [|x p]; [done|]. intros [= ->]. induction t as [|c t IH]; [done|].
  intros [Hc Ht]%not_elem_of_cons. cbn [remove_sub starts_with].
  rewrite (proj2 (N.eqb_neq a c)) by congruence. cbn. f_equal. auto.
Qed.

Lemma lstrip_of_id chars t : (∀ c, c ∈ chars → c ∉ t) → lstrip_of chars t = t.
Proof. destruct t as [|c t]; [done|]. intros H. cbn. rewrite bool_decide_eq_false_2; [done|]. set_solver. Qed.

Lemma strip_of_id chars t : (∀ c, c ∈ chars → c ∉ t) → strip_of chars t = t.
Proof.
  intros Ht. unfold strip_of. rewrite (lstrip_of_id chars t) by done.
  rewrite lstrip_of_id; [apply rev_involutive|]. intros c Hc.
  rewrite list_elem_of_In, <- in_rev, <- list_elem_of_In. auto.
Qed.

(** The characters of an identifier's text. *)
Definition uuid_char (c : N) : Prop := is_hex c ∨ c = 45.

Lemma uuid_of_chars t n :
  Forall uuid_char t → List.filter (λ c, negb (c =? 45)) t = hex_of_uuid n → n < 2 ^ 128 → uuid_of_text t = Some n.
Proof.
  intros Ht Hf Hn. rewrite Forall_forall in Ht. unfold uuid_of_text.
  assert (∀ c, c = 117 ∨ c = 123 ∨ c = 125 → c ∉ t) as Hno.
  { intros c Hc Hin. apply Ht in Hin. unfold uuid_char, is_hex in Hin. lia. }
  rewrite (remove_sub_id (u "urn:") 117 t), (remove_sub_id (u "uuid:") 117 t) by (try done; apply Hno; by left).
  rewrite strip_of_id, Hf; [|intros c Hc; apply Hno; set_solver].
  unfold hex_of_uuid. rewrite length_hex_digits. cbn [negb Nat.eqb Nat.add length].
  rewrite (py_int_hex 31) by exact Hn.
  rewrite (proj2 (Z.leb_le 0 (Z.of_N n))) by lia. rewrite (proj2 (Z.ltb_lt (Z.of_N n) (2 ^ 128))) by lia.
  cbn. by rewrite N2Z.id.
Qed.

Lemma filter_hex t : Forall is_hex t → List.filter (λ c, negb (c =? 45)) t = t.
Proof.
  induction 1 as [|c t Hc _ IH]; [done|]. cbn. unfold is_hex in Hc. rewrite (proj2 (N.eqb_neq c 45)) by lia.
  cbn. by rewrite IH.
Qed.

Lemma hex_of_uuid_is_hex n : Forall is_hex (hex_of_uuid n).
Proof. apply hex_digits_spec. constructor. Qed.

Lemma str_of_uuid_chars n :
  Forall uuid_char (str_of_uuid n) ∧ List.filter (λ c, negb (c =? 45)) (str_of_uuid n) = hex_of_uuid n.
Proof.
  pose proof (hex_of_uuid_is_hex n) as Hh. unfold str_of_uuid. fold (hex_of_uuid n).
  set (h := hex_of_uuid n) in *.
  assert (∀ a b, Forall is_hex (take a (drop b h))) as Hp by (intros; by apply Forall_take, Forall_drop).
  assert (∀ t r, Forall is_hex t → Forall uuid_char r → Forall uuid_char (t ++ 45 :: r)) as Hseg.
  { intros t r Ht Hr. apply Forall_app. split; [eapply Forall_impl; [exact Ht|by left]|]. constructor; [by right|done]. }
  assert (∀ t r, Forall is_hex t →
    List.filter (λ c, negb (c =? 45)) (t ++ 45 :: r) = t ++ List.filter (λ c, negb (c =? 45)) r) as Hfil.
  { intros t r Ht. rewrite List.filter_app, filter_hex by done. done. }
  split.
  - repeat apply Hseg; try apply (Hp _ 0%nat); try apply Hp.
    eapply Forall_impl; [by apply Forall_drop|by left].
  - rewrite !Hfil, filter_hex by (try apply (Hp _ 0%nat); try apply Hp; by apply Forall_drop).
    change 20%nat with (16 + 4)%nat. rewrite <- (drop_drop h 4 16), (take_drop 4 (drop 16 h)).
    change 16%nat with (12 + 4)%nat. rewrite <- (drop_drop h 4 12), (take_drop 4 (drop 12 h)).
    change 12%nat with (8 + 4)%nat. rewrite <- (drop_drop h 4 8), (take_drop 4 (drop 8 h)).
    apply take_drop.
Qed.

Lemma uuid_of_str n : n < 2 ^ 128 → uuid_of_text (str_of_uuid n) = Some n.
Proof. intros Hn. destruct (str_of_uuid_chars n). by apply uuid_of_chars. Qed.

Lemma uuid_of_hex n : n < 2 ^ 128 → uuid_of_text (hex_of_uuid n) = Some n.
Proof.
  intros Hn. apply uuid_of_chars; [|apply filter_hex, hex_of_uuid_is_hex|done].
  eapply Forall_impl; [apply hex_of_uuid_is_hex|by left].
Qed.

Lemma split_max_cons sep k p t :
  sep ∉ p → split_max sep (S k) (p ++ sep :: t) = p :: split_max sep k t.
Proof.
  induction p as [|c p IH]; cbn; [by rewrite N.eqb_refl|].
  intros [Hc Hp]%not_elem_of_cons. rewrite (proj2 (N.eqb_neq c sep)) by congruence. by rewrite IH.
Qed.

Lemma split_max_last sep k p : sep ∉ p → split_max sep k p = [p].
Proof.
  induction p as [|c p IH]; [done|]. intros [Hc Hp]%not_elem_of_cons. cbn.
  rewrite (proj2 (N.eqb_neq c sep)) by congruence. destruct k; [done|]. by rewrite IH.
Qed.
