(* ===== verification/States.v ===== *)
(** * [jawnix/states.py]: phone, state and title normalization *)

From S2P Require Import Prelude PyText.

Open Scope N_scope.

(** ** Definitions *)

Definition US_STATE_OPTIONS : list (string * string) :=
  [("AL", "Alabama"); ("AK", "Alaska"); ("AZ", "Arizona"); ("AR", "Arkansas");
   ("CA", "California"); ("CO", "Colorado"); ("CT", "Connecticut"); ("DE", "Delaware");
   ("DC", "District of Columbia"); ("FL", "Florida"); ("GA", "Georgia"); ("HI", "Hawaii");
   ("ID", "Idaho"); ("IL", "Illinois"); ("IN", "Indiana"); ("IA", "Iowa");
   ("KS", "Kansas"); ("KY", "Kentucky"); ("LA", "Louisiana"); ("ME", "Maine");
   ("MD", "Maryland"); ("MA", "Massachusetts"); ("MI", "Michigan"); ("MN", "Minnesota");
   ("MS", "Mississippi"); ("MO", "Missouri"); ("MT", "Montana"); ("NE", "Nebraska");
   ("NV", "Nevada"); ("NH", "New Hampshire"); ("NJ", "New Jersey"); ("NM", "New Mexico");
   ("NY", "New York"); ("NC", "North Carolina"); ("ND", "North Dakota"); ("OH", "Ohio");
   ("OK", "Oklahoma"); ("OR", "Oregon"); ("PA", "Pennsylvania"); ("RI", "Rhode Island");
   ("SC", "South Carolina"); ("SD", "South Dakota"); ("TN", "Tennessee"); ("TX", "Texas");
   ("UT", "Utah"); ("VT", "Vermont"); ("VA", "Virginia"); ("WA", "Washington");
   ("WV", "West Virginia"); ("WI", "Wisconsin"); ("WY", "Wyoming")]%string.

Definition US_STATES : list text := (λ o, u o.1) <$> US_STATE_OPTIONS.
Arguments US_STATES : simpl never.

(** [_NON_DIGIT.sub("", s)]: the class [\D] of a [str] pattern is Unicode aware. *)
Definition non_digit_sub (s : text) : text := List.filter is_decimal s.

Definition normalize_phone (value : option text) : option text :=
  let digits := non_digit_sub (default [] value) in
  let digits :=
    match digits with
    | c :: rest => if (length digits =? 11)%nat && (c =? 49) then rest else digits
    | [] => digits
    end in
  if (length digits =? 10)%nat then Some digits else None.

Section Normalize.
Context `{CaseMapping}.

Definition normalize_states (values : list text) : outcome (list text) :=
  let normalized :=
    sorted_set (map (λ v, py_upper (strip v))
      (List.filter (λ v, negb (bool_decide (strip v = []))) values)) in
  let invalid := List.filter (λ s, negb (bool_decide (s ∈ US_STATES))) normalized in
  match invalid with
  | [] => Ok normalized
  | _ => Err (ValueError (u "Unsupported state code(s): " ++ join (u ", ") invalid))
  end.
End Normalize.

Definition replace_cp (a b : N) (t : text) : text := map (λ c, if c =? a then b else c) t.

(** Carriage returns and line feeds become spaces before the cut. *)
Definition flatten_lines (value : text) : text := replace_cp 10 32 (replace_cp 13 32 value).

Definition truncate_utf8 (value : text) (max_bytes : nat) : outcome text :=
  let flat := flatten_lines value in
  match utf8_encode flat with
  | None => Err UnicodeEncodeError
  | Some encoded =>
      if (length encoded <=? max_bytes)%nat then Ok (utf8_decode_ignore encoded)
      else Ok (utf8_decode_ignore (take max_bytes encoded))
  end.

(** ** Phones *)

Lemma non_digit_sub_id d : Forall (λ c, is_decimal c = true) d → non_digit_sub d = d.
Proof.
  induction 1 as [|c d Hc _ IH]; [done|].
  unfold non_digit_sub in *. cbn. by rewrite Hc, IH.
Qed.

Lemma non_digit_sub_decimal s : Forall (λ c, is_decimal c = true) (non_digit_sub s).
Proof.
  apply Forall_forall. intros c Hc. unfold non_digit_sub in Hc.
  rewrite list_elem_of_In, filter_In in Hc. by destruct Hc.
Qed.

Lemma normalize_phone_iff s d :
  normalize_phone (Some s) = Some d ↔
  length d = 10%nat ∧ (non_digit_sub s = d ∨ non_digit_sub s = 49 :: d).
Proof.
  unfold normalize_phone. change (default [] (Some s)) with s. set (ds := non_digit_sub s). clearbody ds.
  assert (Hplain : (if (length ds =? 10)%nat then Some ds else None) = Some d ↔
                   length d = 10%nat ∧ ds = d).
  { destruct (length ds =? 10)%nat eqn:E;
      [apply Nat.eqb_eq in E | apply Nat.eqb_neq in E]; split;
      [by intros [= <-] | by intros [_ ->] | done | by intros [Hd ->]]. }
  destruct ds as [|c rest].
  { cbn. split; [intros [=]|]. intros (Hd & [<-|]); discriminate. }
  destruct (decide (c = 49 ∧ length rest = 10%nat)) as [[-> Hl]|Hno].
  { clear Hplain. cbn [length]. rewrite Hl. cbn. rewrite Hl. cbn.
    split; [intros [= <-]; auto|].
    intros (Hd & [<-|[= ->]]); [cbn in Hd; lia | done]. }
  transitivity (length d = 10%nat ∧ c :: rest = d).
  - rewrite <- Hplain. destruct (_ && _) eqn:E; [|done]. exfalso.
    rewrite andb_true_iff, Nat.eqb_eq, N.eqb_eq in E. destruct E as [El ->].
    apply Hno. cbn in El. split; [done|lia].
  - split; [intros [? ?]; auto|].
    intros (Hd & [<-|[= -> ->]]); [done|]. by destruct Hno.
Qed.

(** ** States *)

Section NormalizeFacts.
Context `{CaseMappingLaws}.

Lemma elem_of_normalize_states values states :
  normalize_states values = Ok states →
  ∀ s, s ∈ states ↔ ∃ v, v ∈ values ∧ strip v ≠ [] ∧ s = py_upper (strip v).
Proof.
  unfold normalize_states. case_match; [|done]. intros [= <-] s.
  rewrite elem_of_sorted_set, list_elem_of_In, in_map_iff.
  setoid_rewrite filter_In. setoid_rewrite <- list_elem_of_In.
  setoid_rewrite negb_true_iff. setoid_rewrite bool_decide_eq_false. naive_solver.
Qed.

Lemma normalize_states_valid values states :
  normalize_states values = Ok states → Forall (.∈ US_STATES) states.
Proof.
  unfold normalize_states. case_match eqn:E; [|done]. intros [= <-].
  apply Forall_forall. intros s Hs. destruct (decide (s ∈ US_STATES)) as [|Hn]; [done|].
  exfalso. apply list_elem_of_In in Hs.
  assert (In s []) as []. rewrite <- E. apply filter_In. split; [done|].
  by rewrite bool_decide_eq_false_2.
Qed.

(** Success depends only on the set of codes that survive. *)
Lemma normalize_states_ext v1 v2 states :
  (∀ s, (∃ v, v ∈ v1 ∧ strip v ≠ [] ∧ s = py_upper (strip v)) ↔
        (∃ v, v ∈ v2 ∧ strip v ≠ [] ∧ s = py_upper (strip v))) →
  normalize_states v1 = Ok states → normalize_states v2 = Ok states.
Proof.
  intros Hext. unfold normalize_states.
  rewrite (sorted_set_ext
    (map (λ v, py_upper (strip v)) (List.filter (λ v, negb (bool_decide (strip v = []))) v2))
    (map (λ v, py_upper (strip v)) (List.filter (λ v, negb (bool_decide (strip v = []))) v1)));
    [done|].
  intros s. rewrite !list_elem_of_In, !in_map_iff.
  setoid_rewrite filter_In. setoid_rewrite <- list_elem_of_In.
  setoid_rewrite negb_true_iff. setoid_rewrite bool_decide_eq_false.
  specialize (Hext s). naive_solver.
Qed.
(** Normalizing a normalized list gives it back. *)
Lemma normalize_states_idemp values states :
  normalize_states values = Ok states → normalize_states states = Ok states.
Proof using Type*.
  intros Hok. pose proof (elem_of_normalize_states _ _ Hok) as Hin.
  eapply normalize_states_ext, Hok. intros s. rewrite <- Hin. split.
  - intros (v & Hv & Hne & ->)%Hin. exists (py_upper (strip v)). split_and!.
    + apply Hin. eauto.
    + by rewrite py_upper_strip, py_upper_nil.
    + by rewrite py_upper_strip, py_upper_idemp.
  - intros (s' & Hs' & Hne & ->). pose proof Hs' as (v & Hv & Hnv & ->)%Hin.
    by rewrite py_upper_strip, py_upper_idemp.
Qed.
End NormalizeFacts.

(** ** Truncation *)

Lemma utf8_encode_app t1 t2 :
  utf8_encode (t1 ++ t2) = b1 ← utf8_encode t1; b2 ← utf8_encode t2; Some (b1 ++ b2).
Proof.
  induction t1 as [|c t1 IH]; cbn; [by destruct (utf8_encode t2)|].
  destruct (utf8_cp c) as [b|]; cbn; [|done]. rewrite IH.
  destruct (utf8_encode t1), (utf8_encode t2); cbn; try done. by rewrite app_assoc.
Qed.

(** The whole characters that fit: a prefix, within the bound, and maximal. *)
Lemma utf8_fit_spec t bs n :
  utf8_encode t = Some bs →
  ∃ rest b,
    t = utf8_fit t n ++ rest ∧ utf8_encode (utf8_fit t n) = Some b ∧ (length b ≤ n)%nat ∧
    match rest with
    | [] => True
    | c :: _ => ∃ bc, utf8_cp c = Some bc ∧ (n < length b + length bc)%nat
    end.
Proof.
  revert bs n. induction t as [|c t IH]; intros bs n; cbn.
  { intros [= <-]. exists [], []. cbn. split_and!; try done. lia. }
  destruct (utf8_cp c) as [bc|] eqn:Hc; [|done]. cbn.
  destruct (utf8_encode t) as [bs'|] eqn:Ht; [|done]. cbn. intros [= <-].
  destruct (Nat.leb_spec (length bc) n) as [Hle|Hlt].
  - destruct (IH bs' (n - length bc)%nat eq_refl) as (rest & b & E1 & E2 & E3 & E4).
    exists rest, (bc ++ b). cbn. rewrite Hc, E2. cbn. rewrite length_app.
    split_and!; [by f_equal|done|lia|].
    destruct rest as [|c' ?]; [done|]. destruct E4 as (bc' & ? & ?). exists bc'. split; [done|lia].
  - exists (c :: t), []. cbn. split_and!; [done|done|lia|]. exists bc. split; [done|lia].
Qed.

(** ** Properties *)

(** [normalize_phone] keeps the decimal digits of its input, drops one
    leading US country digit, and answers exactly when ten digits remain; its
    answers are decimal digits only and normalizing one again changes nothing. *)
Theorem normalize_phone_spec s d :
  (normalize_phone (Some s) = Some d ↔
     length d = 10%nat ∧ (non_digit_sub s = d ∨ non_digit_sub s = 49 :: d)) ∧
  (normalize_phone (Some s) = Some d →
     Forall (λ c, is_decimal c = true) d ∧ normalize_phone (Some d) = Some d).
Proof.
  split; [apply normalize_phone_iff|]. intros [Hl Hd]%normalize_phone_iff.
  assert (Forall (λ c, is_decimal c = true) d) as Hdec.
  { pose proof (non_digit_sub_decimal s) as Hall.
    destruct Hd as [<-|Hd]; [done|]. rewrite Hd in Hall. by apply Forall_cons in Hall as [_ ?]. }
  split; [done|]. apply normalize_phone_iff. split; [done|]. left. by apply non_digit_sub_id.
Qed.

(** the answer of [normalize_states] is a strictly sorted list of US state
    codes, holding exactly the upper-cased non-blank inputs; it depends on
    nothing but that set, and normalizing it again gives it back. *)
Theorem normalize_states_canonical `{CaseMappingLaws} values states :
  normalize_states values = Ok states →
  StronglySorted text_le states ∧ NoDup states ∧ Forall (.∈ US_STATES) states ∧
  (∀ s, s ∈ states ↔ ∃ v, v ∈ values ∧ strip v ≠ [] ∧ s = py_upper (strip v)) ∧
  normalize_states states = Ok states.
Proof.
  intros Hok. pose proof (elem_of_normalize_states _ _ Hok) as Hin. split_and!; try done.
  - unfold normalize_states in Hok. case_match; simplify_eq. apply Sorted_sorted_set.
  - unfold normalize_states in Hok. case_match; simplify_eq. apply NoDup_sorted_set.
  - by eapply normalize_states_valid.
  - by eapply normalize_states_idemp.
Qed.

Lemma normalize_states_canonical_witness :
  @normalize_states ascii_case [u " tx"; u "FL "; u "TX"; u " "] = Ok [u "FL"; u "TX"] ∧
  StronglySorted text_le [u "FL"; u "TX"].
Proof.
  split; [vm_compute; reflexivity|].
  apply (@normalize_states_canonical ascii_case ascii_case_laws
    [u " tx"; u "FL "; u "TX"; u " "]). vm_compute; reflexivity.
Defined.

(** [truncate_utf8] never splits a character: its answer is a prefix of the
    flattened value whose encoding fits in the bound, and one character more
    would not fit; a value that already fits is only flattened. *)
Theorem truncate_utf8_maximal value max_bytes r :
  truncate_utf8 value max_bytes = Ok r →
  ∃ rest b,
    flatten_lines value = r ++ rest ∧ utf8_encode r = Some b ∧ (length b ≤ max_bytes)%nat ∧
    match rest with
    | [] => True
    | c :: _ => ∃ bc, utf8_cp c = Some bc ∧ (max_bytes < length b + length bc)%nat
    end.
Proof.
  unfold truncate_utf8. destruct (utf8_encode (flatten_lines value)) as [bs|] eqn:E; [|done].
  destruct (Nat.leb_spec (length bs) max_bytes).
  - intros [= <-]. rewrite (utf8_decode_encode _ _ E).
    exists [], bs. by rewrite app_nil_r.
  - intros [= <-]. rewrite (utf8_decode_take _ _ _ E). by eapply utf8_fit_spec.
Qed.

Lemma truncate_utf8_maximal_witness :
  truncate_utf8 [233; 10; 8364; 97] 5 = Ok [233; 32] ∧
  ∃ rest b,
    flatten_lines [233; 10; 8364; 97] = [233; 32] ++ rest ∧
    utf8_encode [233; 32] = Some b ∧ (length b ≤ 5)%nat ∧
    match rest with
    | [] => True
    | c :: _ => ∃ bc, utf8_cp c = Some bc ∧ (5 < length b + length bc)%nat
    end.
Proof.
  split; [vm_compute; reflexivity|].
  apply (truncate_utf8_maximal [233; 10; 8364; 97] 5 [233; 32]). vm_compute; reflexivity.
Defined.
