(* ===== verification/Models.v ===== *)
(** * [jawnix/models.py]: the tables and the session

    One record per table, one field per column the modelled code touches, one
    [Setter] per field, and [Store]: the state a database session holds.  A
    unique column keys its table, so that a unique constraint is a fact about
    the map rather than a check to repeat. *)

From S2P Require Import Prelude PyText.

(** Instants are microseconds since the epoch, in UTC. *)
Abbreviation datetime := Z.

Definition seconds (n : Z) : Z := (n * 1000000)%Z.
Definition days (n : Z) : Z := seconds (n * 86400).

(** ** JSON columns

    A float is the text [repr] gives it. *)

#[warnings="-register-all"]
Inductive json : Type :=
| JNull
| JBool (b : bool)
| JNum (n : Z)
| JFloat (literal : text)
| JStr (t : text)
| JList (l : list json)
| JObj (fields : list (string * json)).

Abbreviation dict := (list (string * json)).

(** [d.get(k)] *)
Fixpoint dict_get (k : string) (d : dict) : option json :=
  match d with
  | [] => None
  | (k', v) :: d' => if String.eqb k k' then Some v else dict_get k d'
  end.

(** [{**d, k: v}]: an existing key keeps its place. *)
Fixpoint dict_set (k : string) (v : json) (d : dict) : dict :=
  match d with
  | [] => [(k, v)]
  | (k', v') :: d' => if String.eqb k k' then (k, v) :: d' else (k', v') :: dict_set k v d'
  end.

Definition json_opt {A} (f : A → json) (o : option A) : json :=
  match o with Some a => f a | None => JNull end.

(** ** Enumerated columns *)

Inductive RequestStatus : Type :=
| pending | approved | processing | waiting_inventory | generated | delivered
| rejected | canceled | failed.
Inductive JobStatus : Type := queued | running | complete | job_failed.
Inductive Database : Type := db1 | db2.
Inductive LedgerKind : Type := kind_purchase | kind_batch_charge | kind_admin_adjustment.
Inductive PurchaseStatus : Type :=
| purchase_processing | purchase_completed | purchase_failed | purchase_expired.
Inductive HoldStatus : Type := hold_active | hold_captured | hold_released.
Inductive DeliveryStatus : Type := delivery_pending | delivery_sent | delivery_failed.
Inductive ConflictStatus : Type :=
| conflict_pending | conflict_confirmed | conflict_denied | conflict_consumed.
Inductive NicheMode : Type := exclude | only.
Inductive ExclusionStatus : Type :=
| xl_queued | xl_ingesting | xl_failed | xl_confirmed | xl_pending_confirmation | xl_denied.

#[export] Instance RequestStatus_eq_dec : EqDecision RequestStatus.
Proof. solve_decision. Defined.
#[export] Instance JobStatus_eq_dec : EqDecision JobStatus.
Proof. solve_decision. Defined.
#[export] Instance Database_eq_dec : EqDecision Database.
Proof. solve_decision. Defined.
#[export] Instance LedgerKind_eq_dec : EqDecision LedgerKind.
Proof. solve_decision. Defined.
#[export] Instance PurchaseStatus_eq_dec : EqDecision PurchaseStatus.
Proof. solve_decision. Defined.
#[export] Instance HoldStatus_eq_dec : EqDecision HoldStatus.
Proof. solve_decision. Defined.
#[export] Instance DeliveryStatus_eq_dec : EqDecision DeliveryStatus.
Proof. solve_decision. Defined.
#[export] Instance ConflictStatus_eq_dec : EqDecision ConflictStatus.
Proof. solve_decision. Defined.
#[export] Instance NicheMode_eq_dec : EqDecision NicheMode.
Proof. solve_decision. Defined.
#[export] Instance ExclusionStatus_eq_dec : EqDecision ExclusionStatus.
Proof. solve_decision. Defined.

(** The stored values of [RequestStatus]. *)
Definition status_value (st : RequestStatus) : string :=
  match st with
  | pending => "pending"
  | approved => "approved"
  | processing => "processing"
  | waiting_inventory => "waiting_inventory"
  | generated => "generated"
  | delivered => "delivered"
  | rejected => "rejected"
  | canceled => "canceled"
  | failed => "failed"
  end.

(** The stored values of an Inventory Conflict's status. *)
Definition conflict_status_value (st : ConflictStatus) : string :=
  match st with
  | conflict_pending => "pending" | conflict_confirmed => "confirmed"
  | conflict_denied => "denied" | conflict_consumed => "consumed"
  end.

(** ** Tables *)

(** [models.Agency]. *)
Record Agency : Type := mkAgency {
  ag_id : Z;
  ag_slug : text;
  ag_name : text;
  ag_active : bool;
  ag_permanent_history_key : text;
  ag_last_fulfilled_at : option datetime;
  ag_deleted_at : option datetime
}.
#[export] Instance Agency_eta : Eta Agency := λ r,
  mkAgency (ag_id r) (ag_slug r) (ag_name r) (ag_active r) (ag_permanent_history_key r)
    (ag_last_fulfilled_at r) (ag_deleted_at r).

(** [models.Agent], the Customer; [lead_database] is [None] until the row's default applies. *)
Record Customer : Type := mkCustomer {
  cu_id : Z;
  cu_slug : text;
  cu_name : text;
  cu_licensed_states : list text;
  cu_agency_id : option Z;
  cu_active : bool;
  cu_lead_database : option Database;
  cu_allowed_manager_id : option uuid;
  cu_manager_id : option uuid;
  cu_billing_enabled : bool;
  cu_lead_rate_cents_per_thousand : option Z;
  cu_cooldown_window_days : Z;
  cu_permanent_history_key : text;
  cu_last_fulfilled_at : option datetime;
  cu_deleted_at : option datetime
}.
#[export] Instance Customer_eta : Eta Customer := λ r,
  mkCustomer (cu_id r) (cu_slug r) (cu_name r) (cu_licensed_states r) (cu_agency_id r)
    (cu_active r) (cu_lead_database r) (cu_allowed_manager_id r) (cu_manager_id r)
    (cu_billing_enabled r) (cu_lead_rate_cents_per_thousand r) (cu_cooldown_window_days r)
    (cu_permanent_history_key r) (cu_last_fulfilled_at r) (cu_deleted_at r).

(** [models.LeadRequest], the Batch Request. *)
Record LeadRequest : Type := mkLeadRequest {
  rq_id : uuid;
  rq_user_id : uuid;
  rq_agent_id : Z;
  rq_lead_count : Z;
  rq_rows_per_file : Z;
  rq_state_mode : text;
  rq_states_snapshot : list text;
  rq_delivery_email : text;
  rq_status : RequestStatus;
  rq_available_count : option Z;
  rq_status_message : text;
  rq_created_at : datetime;
  rq_approved_at : option datetime;
  rq_processed_at : option datetime;
  rq_delivered_at : option datetime;
  rq_closed_at : option datetime;
  rq_idempotency_key : option text;
  rq_is_billed : bool;
  rq_lead_rate_cents_per_thousand : option Z;
  rq_billing_amount_cents : option Z
}.
#[export] Instance LeadRequest_eta : Eta LeadRequest := λ r,
  mkLeadRequest (rq_id r) (rq_user_id r) (rq_agent_id r) (rq_lead_count r)
    (rq_rows_per_file r) (rq_state_mode r) (rq_states_snapshot r) (rq_delivery_email r)
    (rq_status r) (rq_available_count r) (rq_status_message r) (rq_created_at r)
    (rq_approved_at r) (rq_processed_at r) (rq_delivered_at r) (rq_closed_at r)
    (rq_idempotency_key r) (rq_is_billed r) (rq_lead_rate_cents_per_thousand r)
    (rq_billing_amount_cents r).

(** [models.CreditLedgerEntry]. *)
Record CreditLedgerEntry : Type := mkCreditLedgerEntry {
  le_id : uuid;
  le_customer_id : Z;
  le_kind : LedgerKind;
  le_amount_cents : Z;
  le_reason : text;
  le_actor_user_id : text;
  le_batch_request_id : option uuid;
  le_created_at : datetime
}.
#[export] Instance CreditLedgerEntry_eta : Eta CreditLedgerEntry := λ r,
  mkCreditLedgerEntry (le_id r) (le_customer_id r) (le_kind r) (le_amount_cents r)
    (le_reason r) (le_actor_user_id r) (le_batch_request_id r) (le_created_at r).

(** [models.CreditPurchase]. *)
Record CreditPurchase : Type := mkCreditPurchase {
  pu_id : uuid;
  pu_customer_id : Z;
  pu_amount_cents : Z;
  pu_status : PurchaseStatus;
  pu_stripe_checkout_session_id : text;
  pu_ledger_entry_id : option uuid;
  pu_created_at : datetime;
  pu_completed_at : option datetime
}.
#[export] Instance CreditPurchase_eta : Eta CreditPurchase := λ r,
  mkCreditPurchase (pu_id r) (pu_customer_id r) (pu_amount_cents r) (pu_status r)
    (pu_stripe_checkout_session_id r) (pu_ledger_entry_id r) (pu_created_at r)
    (pu_completed_at r).

(** [models.BatchHold]. *)
Record BatchHold : Type := mkBatchHold {
  ho_id : uuid;
  ho_request_id : uuid;
  ho_customer_id : Z;
  ho_amount_cents : Z;
  ho_status : HoldStatus;
  ho_created_at : datetime;
  ho_captured_at : option datetime;
  ho_released_at : option datetime
}.
#[export] Instance BatchHold_eta : Eta BatchHold := λ r,
  mkBatchHold (ho_id r) (ho_request_id r) (ho_customer_id r) (ho_amount_cents r)
    (ho_status r) (ho_created_at r) (ho_captured_at r) (ho_released_at r).

(** [models.Lead], one row of the inventory. *)
Record Lead : Type := mkLead {
  ld_id : Z;
  ld_phone : text;
  ld_in_db1 : bool;
  ld_title : text;
  ld_state : text;
  ld_first_seen_at : datetime;
  ld_source_flow : text;
  ld_legacy_title : text;
  ld_legacy_state : text;
  ld_current_listing_observation_id : option Z;
  ld_active_correction_id : option uuid;
  ld_suppressed : bool;
  ld_suppression_reason : text;
  ld_last_distributed_at : option datetime
}.
#[export] Instance Lead_eta : Eta Lead := λ r,
  mkLead (ld_id r) (ld_phone r) (ld_in_db1 r) (ld_title r) (ld_state r) (ld_first_seen_at r)
    (ld_source_flow r) (ld_legacy_title r) (ld_legacy_state r)
    (ld_current_listing_observation_id r) (ld_active_correction_id r) (ld_suppressed r)
    (ld_suppression_reason r) (ld_last_distributed_at r).

(** [models.ExclusionList]. *)
Record ExclusionList : Type := mkExclusionList {
  xl_id : uuid;
  xl_customer_id : option Z;
  xl_uploaded_by : text;
  xl_exclusion_type : text;
  xl_filename : text;
  xl_storage_path : text;
  xl_status : ExclusionStatus;
  xl_global_effective : bool;
  xl_total_rows : Z;
  xl_accepted_rows : Z;
  xl_invalid_rows : Z;
  xl_duplicate_rows : Z;
  xl_pool_impact : Z;
  xl_error : text;
  xl_decision_actor : text;
  xl_decision_reason : text;
  xl_nightly_review_id : option uuid;
  xl_created_at : datetime;
  xl_ingested_at : option datetime;
  xl_decided_at : option datetime
}.
#[export] Instance ExclusionList_eta : Eta ExclusionList := λ r,
  mkExclusionList (xl_id r) (xl_customer_id r) (xl_uploaded_by r) (xl_exclusion_type r)
    (xl_filename r) (xl_storage_path r) (xl_status r) (xl_global_effective r)
    (xl_total_rows r) (xl_accepted_rows r) (xl_invalid_rows r) (xl_duplicate_rows r)
    (xl_pool_impact r) (xl_error r) (xl_decision_actor r) (xl_decision_reason r)
    (xl_nightly_review_id r) (xl_created_at r) (xl_ingested_at r) (xl_decided_at r).

(** [models.ExclusionPhone]. *)
Record ExclusionPhone : Type := mkExclusionPhone {
  xp_exclusion_list_id : uuid;
  xp_phone : text
}.
#[export] Instance ExclusionPhone_eta : Eta ExclusionPhone := λ r,
  mkExclusionPhone (xp_exclusion_list_id r) (xp_phone r).

(** [models.NichePolicyRow]; a [None] state is the all-states default. *)
Record NichePolicyRow : Type := mkNichePolicyRow {
  np_id : Z;
  np_customer_id : Z;
  np_state : option text;
  np_mode : NicheMode;
  np_niche : text
}.
#[export] Instance NichePolicyRow_eta : Eta NichePolicyRow := λ r,
  mkNichePolicyRow (np_id r) (np_customer_id r) (np_state r) (np_mode r) (np_niche r).

(** [models.NicheAssignment]. *)
Record NicheAssignment : Type := mkNicheAssignment {
  na_phone : text;
  na_niche : text;
  na_updated_at : datetime
}.
#[export] Instance NicheAssignment_eta : Eta NicheAssignment := λ r,
  mkNicheAssignment (na_phone r) (na_niche r) (na_updated_at r).

(** [models.ListingObservation], without the raw scraped columns. *)
Record ListingObservation : Type := mkListingObservation {
  ob_id : Z;
  ob_lead_id : option Z;
  ob_dataset_checksum : text;
  ob_row_number : Z;
  ob_normalized_phone : text;
  ob_title : text;
  ob_state : text;
  ob_source : text;
  ob_niche : text;
  ob_valid : bool;
  ob_observed_at : datetime
}.
#[export] Instance ListingObservation_eta : Eta ListingObservation := λ r,
  mkListingObservation (ob_id r) (ob_lead_id r) (ob_dataset_checksum r) (ob_row_number r)
    (ob_normalized_phone r) (ob_title r) (ob_state r) (ob_source r) (ob_niche r)
    (ob_valid r) (ob_observed_at r).

(** [models.LeadCorrectionEvent]. *)
Record LeadCorrectionEvent : Type := mkLeadCorrectionEvent {
  co_id : uuid;
  co_lead_id : Z;
  co_action : text;
  co_title : text;
  co_state : text;
  co_actor_id : text;
  co_reason : text;
  co_supersedes_correction_id : option uuid;
  co_based_on_kind : text;
  co_based_on_observation_id : option Z;
  co_based_on_upload_id : option uuid;
  co_based_on_title : text;
  co_based_on_state : text;
  co_created_at : datetime
}.
#[export] Instance LeadCorrectionEvent_eta : Eta LeadCorrectionEvent := λ r,
  mkLeadCorrectionEvent (co_id r) (co_lead_id r) (co_action r) (co_title r) (co_state r)
    (co_actor_id r) (co_reason r) (co_supersedes_correction_id r) (co_based_on_kind r)
    (co_based_on_observation_id r) (co_based_on_upload_id r) (co_based_on_title r)
    (co_based_on_state r) (co_created_at r).

(** [models.DistributionEvent]. *)
Record DistributionEvent : Type := mkDistributionEvent {
  ev_inventory_database : Database;
  ev_id : Z;
  ev_lead_id : Z;
  ev_agent_id : option Z;
  ev_customer_name : text;
  ev_agency_id : option Z;
  ev_agency_name : text;
  ev_request_id : option uuid;
  ev_phone : text;
  ev_title : text;
  ev_state : text;
  ev_listing_provenance : dict;
  ev_source_kind : text;
  ev_source_segment_key : text;
  ev_source_niche : text;
  ev_distribution_period : text;
  ev_delivered_at : datetime;
  ev_source : text
}.
#[export] Instance DistributionEvent_eta : Eta DistributionEvent := λ r,
  mkDistributionEvent (ev_inventory_database r) (ev_id r) (ev_lead_id r) (ev_agent_id r)
    (ev_customer_name r) (ev_agency_id r) (ev_agency_name r) (ev_request_id r) (ev_phone r)
    (ev_title r) (ev_state r) (ev_listing_provenance r) (ev_source_kind r)
    (ev_source_segment_key r) (ev_source_niche r) (ev_distribution_period r)
    (ev_delivered_at r) (ev_source r).

(** [models.EligibilityHold]. *)
Record EligibilityHold : Type := mkEligibilityHold {
  eh_id : uuid;
  eh_lead_id : Z;
  eh_distribution_event_id : Z;
  eh_report_id : uuid;
  eh_reason : text;
  eh_active : bool;
  eh_released_by : text;
  eh_release_reason : text;
  eh_released_at : option datetime;
  eh_created_at : datetime
}.
#[export] Instance EligibilityHold_eta : Eta EligibilityHold := λ r,
  mkEligibilityHold (eh_id r) (eh_lead_id r) (eh_distribution_event_id r) (eh_report_id r)
    (eh_reason r) (eh_active r) (eh_released_by r) (eh_release_reason r) (eh_released_at r)
    (eh_created_at r).

(** [models.BatchArtifact]; a part is its file name and row count. *)
Record BatchArtifact : Type := mkBatchArtifact {
  ar_id : Z;
  ar_request_id : uuid;
  ar_path : text;
  ar_filename : text;
  ar_row_count : Z;
  ar_parts : list (text * Z);
  ar_byte_count : Z;
  ar_sha256 : text;
  ar_delivery_status : DeliveryStatus;
  ar_delivery_attempts : Z;
  ar_resend_message_id : text;
  ar_last_error : text;
  ar_created_at : datetime;
  ar_expires_at : option datetime;
  ar_sent_at : option datetime
}.
#[export] Instance BatchArtifact_eta : Eta BatchArtifact := λ r,
  mkBatchArtifact (ar_id r) (ar_request_id r) (ar_path r) (ar_filename r) (ar_row_count r)
    (ar_parts r) (ar_byte_count r) (ar_sha256 r) (ar_delivery_status r)
    (ar_delivery_attempts r) (ar_resend_message_id r) (ar_last_error r) (ar_created_at r)
    (ar_expires_at r) (ar_sent_at r).

(** [models.LeadDatabaseMembership]. *)
Record LeadDatabaseMembership : Type := mkLeadDatabaseMembership {
  mb_lead_id : Z;
  mb_upload_id : uuid;
  mb_state : text
}.
#[export] Instance LeadDatabaseMembership_eta : Eta LeadDatabaseMembership := λ r,
  mkLeadDatabaseMembership (mb_lead_id r) (mb_upload_id r) (mb_state r).

(** [models.Job]. *)
Record Job : Type := mkJob {
  jb_id : Z;
  jb_kind : string;
  jb_request_id : option uuid;
  jb_payload : dict;
  jb_status : JobStatus;
  jb_attempts : Z;
  jb_run_after : datetime;
  jb_locked_at : option datetime;
  jb_locked_by : text;
  jb_last_error : text;
  jb_created_at : datetime
}.
#[export] Instance Job_eta : Eta Job := λ r,
  mkJob (jb_id r) (jb_kind r) (jb_request_id r) (jb_payload r) (jb_status r) (jb_attempts r)
    (jb_run_after r) (jb_locked_at r) (jb_locked_by r) (jb_last_error r) (jb_created_at r).

(** [models.SourceNicheMapping], the columns the allocator joins on. *)
Record SourceNicheMapping : Type := mkSourceNicheMapping {
  sm_id : uuid;
  sm_segment_key : text;
  sm_state : text;
  sm_keyword : text;
  sm_niche : text;
  sm_confirmed : bool;
  sm_denied_by : text;
  sm_denied_at : option datetime
}.
#[export] Instance SourceNicheMapping_eta : Eta SourceNicheMapping := λ r,
  mkSourceNicheMapping (sm_id r) (sm_segment_key r) (sm_state r) (sm_keyword r) (sm_niche r)
    (sm_confirmed r) (sm_denied_by r) (sm_denied_at r).

(** [models.DatasetPublication], the columns [_listing_lookups] loads. *)
Record DatasetPublication : Type := mkDatasetPublication {
  dp_id : Z;
  dp_checksum : text;
  dp_version : Z;
  dp_scraper_run_id : Z;
  dp_configuration_id : uuid
}.
#[export] Instance DatasetPublication_eta : Eta DatasetPublication := λ r,
  mkDatasetPublication (dp_id r) (dp_checksum r) (dp_version r) (dp_scraper_run_id r)
    (dp_configuration_id r).

(** [models.SourceSegment], a row of the configuration it belongs to. *)
Record SourceSegment : Type := mkSourceSegment {
  ss_key : text;
  ss_niche : text;
  ss_query : text;
  ss_geography : text;
  ss_parameters : dict
}.
#[export] Instance SourceSegment_eta : Eta SourceSegment := λ r,
  mkSourceSegment (ss_key r) (ss_niche r) (ss_query r) (ss_geography r) (ss_parameters r).

(** [models.ScraperConfiguration] with its segments, in the order of their keys. *)
Record ScraperConfiguration : Type := mkScraperConfiguration {
  sc_id : uuid;
  sc_version : Z;
  sc_checksum : text;
  sc_status : string;
  sc_anomaly_thresholds : dict;
  sc_created_by : uuid;
  sc_reason : text;
  sc_created_at : datetime;
  sc_scheduled_at : option datetime;
  sc_based_on_configuration_id : option uuid;
  sc_segments : list SourceSegment
}.
#[export] Instance ScraperConfiguration_eta : Eta ScraperConfiguration := λ r,
  mkScraperConfiguration (sc_id r) (sc_version r) (sc_checksum r) (sc_status r) (sc_anomaly_thresholds r)
    (sc_created_by r) (sc_reason r) (sc_created_at r) (sc_scheduled_at r) (sc_based_on_configuration_id r)
    (sc_segments r).

(** [models.SourceRecommendation]. *)
Record SourceRecommendation : Type := mkSourceRecommendation {
  sn_id : uuid;
  sn_niche : text;
  sn_segment_key : text;
  sn_action : string;
  sn_evidence : dict;
  sn_evidence_checksum : text;
  sn_status : string;
  sn_decision_by : text;
  sn_decision_reason : text;
  sn_decided_at : option datetime;
  sn_resulting_configuration_id : option uuid;
  sn_nightly_review_id : option uuid;
  sn_configuration_version : option Z;
  sn_created_at : datetime
}.
#[export] Instance SourceRecommendation_eta : Eta SourceRecommendation := λ r,
  mkSourceRecommendation (sn_id r) (sn_niche r) (sn_segment_key r) (sn_action r) (sn_evidence r)
    (sn_evidence_checksum r) (sn_status r) (sn_decision_by r) (sn_decision_reason r) (sn_decided_at r)
    (sn_resulting_configuration_id r) (sn_nightly_review_id r) (sn_configuration_version r) (sn_created_at r).

(** [models.InventoryConflict]. *)
Record InventoryConflict : Type := mkInventoryConflict {
  ic_id : uuid;
  ic_older_request_id : uuid;
  ic_newer_request_id : uuid;
  ic_inventory_snapshot : dict;
  ic_snapshot_checksum : text;
  ic_status : ConflictStatus;
  ic_decision_by : text;
  ic_decision_reason : text;
  ic_decided_at : option datetime;
  ic_consumed_at : option datetime;
  ic_telegram_chat_id : text;
  ic_telegram_message_id : text;
  ic_created_at : datetime
}.
#[export] Instance InventoryConflict_eta : Eta InventoryConflict := λ r,
  mkInventoryConflict (ic_id r) (ic_older_request_id r) (ic_newer_request_id r)
    (ic_inventory_snapshot r) (ic_snapshot_checksum r) (ic_status r) (ic_decision_by r)
    (ic_decision_reason r) (ic_decided_at r) (ic_consumed_at r) (ic_telegram_chat_id r)
    (ic_telegram_message_id r) (ic_created_at r).

(** [models.AuditEntry]. *)
Record AuditEntry : Type := mkAuditEntry {
  au_id : uuid;
  au_action : text;
  au_target_type : text;
  au_target_id : text;
  au_actor_user_id : text;
  au_reason : text;
  au_details : dict;
  au_created_at : datetime
}.
#[export] Instance AuditEntry_eta : Eta AuditEntry := λ r,
  mkAuditEntry (au_id r) (au_action r) (au_target_type r) (au_target_id r)
    (au_actor_user_id r) (au_reason r) (au_details r) (au_created_at r).

(** the foreign table [lead_databases.db2_inventory]. *)
Record Db2Row : Type := mkDb2Row {
  d2_lead_id : Z;
  d2_upload_id : uuid;
  d2_phone : text;
  d2_title : text;
  d2_state : text;
  d2_row_number : Z;
  d2_owner_id : uuid
}.
#[export] Instance Db2Row_eta : Eta Db2Row := λ r,
  mkDb2Row (d2_lead_id r) (d2_upload_id r) (d2_phone r) (d2_title r) (d2_state r)
    (d2_row_number r) (d2_owner_id r).

(** [models.NightlyReview], the columns the modelled code reads or writes; a
    date is its day number. *)
Record NightlyReview : Type := mkNightlyReview {
  nr_id : uuid;
  nr_scraper_run_id : option Z;
  nr_review_date : option Z;
  nr_scheduled_for : option datetime;
  nr_attempt_count : Z;
  nr_summary : dict;
  nr_telegram_message_id : text;
  nr_telegram_delivery_state : string;
  nr_telegram_delivery_started_at : option datetime;
  nr_telegram_delivery_error : text
}.
#[export] Instance NightlyReview_eta : Eta NightlyReview := λ r,
  mkNightlyReview (nr_id r) (nr_scraper_run_id r) (nr_review_date r) (nr_scheduled_for r)
    (nr_attempt_count r) (nr_summary r) (nr_telegram_message_id r) (nr_telegram_delivery_state r) (nr_telegram_delivery_started_at r)
    (nr_telegram_delivery_error r).

(** [models.ScraperRun], the columns the modelled code reads. *)
Record ScraperRun : Type := mkScraperRun {
  sr_id : Z;
  sr_details : dict
}.
#[export] Instance ScraperRun_eta : Eta ScraperRun := λ r, mkScraperRun (sr_id r) (sr_details r).

(** [models.ScrapeAnomaly]. *)
Record ScrapeAnomaly : Type := mkScrapeAnomaly {
  an_id : uuid;
  an_scraper_run_id : Z;
  an_configuration_id : uuid;
  an_dataset_checksum : text;
  an_status : string;
  an_decision_by : text;
  an_decision_reason : text;
  an_decided_at : option datetime;
  an_telegram_chat_id : text;
  an_telegram_message_id : text;
  an_created_at : datetime
}.
#[export] Instance ScrapeAnomaly_eta : Eta ScrapeAnomaly := λ r,
  mkScrapeAnomaly (an_id r) (an_scraper_run_id r) (an_configuration_id r) (an_dataset_checksum r)
    (an_status r) (an_decision_by r) (an_decision_reason r) (an_decided_at r)
    (an_telegram_chat_id r) (an_telegram_message_id r) (an_created_at r).

(** [models.Notification]. *)
Record Notification : Type := mkNotification {
  nt_id : Z;
  nt_request_id : uuid;
  nt_provider : text;
  nt_destination_id : text;
  nt_message_id : text;
  nt_updated_at : datetime
}.
#[export] Instance Notification_eta : Eta Notification := λ r,
  mkNotification (nt_id r) (nt_request_id r) (nt_provider r) (nt_destination_id r) (nt_message_id r)
    (nt_updated_at r).

(** [models.CustomerProfile]. *)
Record CustomerProfile : Type := mkCustomerProfile {
  pf_user_id : uuid;
  pf_email : text;
  pf_first_name : text;
  pf_last_name : text;
  pf_phone : text;
  pf_licensed_states : list text;
  pf_agent_id : option Z;
  pf_mapping_confirmed_at : option datetime;
  pf_created_at : datetime;
  pf_updated_at : datetime
}.
#[export] Instance CustomerProfile_eta : Eta CustomerProfile := λ r,
  mkCustomerProfile (pf_user_id r) (pf_email r) (pf_first_name r) (pf_last_name r) (pf_phone r)
    (pf_licensed_states r) (pf_agent_id r) (pf_mapping_confirmed_at r) (pf_created_at r)
    (pf_updated_at r).

(** [models.LeadDispositionTransition]. *)
Record LeadDispositionTransition : Type := mkLeadDispositionTransition {
  dt_id : uuid;
  dt_distribution_event_id : Z;
  dt_customer_id : Z;
  dt_actor_user_id : uuid;
  dt_source_outcome_id : option uuid;
  dt_disposition : string;
  dt_note : text;
  dt_previous_transition_id : option uuid;
  dt_created_at : datetime
}.
#[export] Instance LeadDispositionTransition_eta : Eta LeadDispositionTransition := λ r,
  mkLeadDispositionTransition (dt_id r) (dt_distribution_event_id r) (dt_customer_id r)
    (dt_actor_user_id r) (dt_source_outcome_id r) (dt_disposition r) (dt_note r)
    (dt_previous_transition_id r) (dt_created_at r).

(** [models.LeadReport]. *)
Record LeadReport : Type := mkLeadReport {
  rp_id : uuid;
  rp_distribution_event_id : Z;
  rp_customer_id : Z;
  rp_source_transition_id : option uuid;
  rp_reason : string;
  rp_details : text;
  rp_status : string;
  rp_created_at : datetime
}.
#[export] Instance LeadReport_eta : Eta LeadReport := λ r,
  mkLeadReport (rp_id r) (rp_distribution_event_id r) (rp_customer_id r) (rp_source_transition_id r)
    (rp_reason r) (rp_details r) (rp_status r) (rp_created_at r).

(** [models.LeadReportResolution]. *)
Record LeadReportResolution : Type := mkLeadReportResolution {
  rs_id : uuid;
  rs_report_id : uuid;
  rs_action : string;
  rs_note : text;
  rs_actor_id : text;
  rs_created_at : datetime
}.
#[export] Instance LeadReportResolution_eta : Eta LeadReportResolution := λ r,
  mkLeadReportResolution (rs_id r) (rs_report_id r) (rs_action r) (rs_note r) (rs_actor_id r)
    (rs_created_at r).

(** [models.NicheAssignmentUpload]. *)
Record NicheAssignmentUpload : Type := mkNicheAssignmentUpload {
  nu_id : uuid;
  nu_uploaded_by : text;
  nu_filename : text;
  nu_storage_path : text;
  nu_status : string;
  nu_total_rows : Z;
  nu_accepted_rows : Z;
  nu_invalid_rows : Z;
  nu_duplicate_rows : Z;
  nu_skipped_mapped_rows : Z;
  nu_error : text;
  nu_created_at : datetime;
  nu_ingested_at : option datetime
}.
#[export] Instance NicheAssignmentUpload_eta : Eta NicheAssignmentUpload := λ r,
  mkNicheAssignmentUpload (nu_id r) (nu_uploaded_by r) (nu_filename r) (nu_storage_path r)
    (nu_status r) (nu_total_rows r) (nu_accepted_rows r) (nu_invalid_rows r) (nu_duplicate_rows r)
    (nu_skipped_mapped_rows r) (nu_error r) (nu_created_at r) (nu_ingested_at r).

(** [models.LeadDispositionState]. *)
Record LeadDispositionState : Type := mkLeadDispositionState {
  ds_distribution_event_id : Z;
  ds_current_transition_id : uuid;
  ds_current_disposition : string;
  ds_updated_at : datetime
}.
#[export] Instance LeadDispositionState_eta : Eta LeadDispositionState := λ r,
  mkLeadDispositionState (ds_distribution_event_id r) (ds_current_transition_id r)
    (ds_current_disposition r) (ds_updated_at r).

(** [models.LeadOutcome]. *)
Record LeadOutcome : Type := mkLeadOutcome {
  lo_id : uuid;
  lo_distribution_event_id : Z;
  lo_customer_id : Z;
  lo_actor_user_id : option uuid;
  lo_kind : string;
  lo_metric : string;
  lo_appointment_at : option datetime;
  lo_note : text;
  lo_supersedes_outcome_id : option uuid;
  lo_created_at : datetime
}.
#[export] Instance LeadOutcome_eta : Eta LeadOutcome := λ r,
  mkLeadOutcome (lo_id r) (lo_distribution_event_id r) (lo_customer_id r) (lo_actor_user_id r)
    (lo_kind r) (lo_metric r) (lo_appointment_at r) (lo_note r) (lo_supersedes_outcome_id r)
    (lo_created_at r).

(** [models.LeadUpload]. *)
Record LeadUpload : Type := mkLeadUpload {
  lu_id : uuid;
  lu_manager_id : option uuid;
  lu_operator_id : option uuid;
  lu_filename : text;
  lu_state : text;
  lu_status : string;
  lu_path : text;
  lu_sha256 : text;
  lu_bytes : Z;
  lu_processed_rows : Z;
  lu_valid_rows : Z;
  lu_rejected_rows : Z;
  lu_imported_rows : Z;
  lu_updated_rows : Z;
  lu_duplicate_rows : Z;
  lu_error : text;
  lu_created_at : datetime;
  lu_completed_at : option datetime
}.
#[export] Instance LeadUpload_eta : Eta LeadUpload := λ r,
  mkLeadUpload (lu_id r) (lu_manager_id r) (lu_operator_id r) (lu_filename r) (lu_state r)
    (lu_status r) (lu_path r) (lu_sha256 r) (lu_bytes r) (lu_processed_rows r) (lu_valid_rows r)
    (lu_rejected_rows r) (lu_imported_rows r) (lu_updated_rows r) (lu_duplicate_rows r) (lu_error r)
    (lu_created_at r) (lu_completed_at r).

(** ** The session *)

(** [models.AgencyMembershipHistory]: one period of membership. *)
Record AgencyMembershipHistory : Type := mkMembershipPeriod {
  mh_id : Z;
  mh_customer_id : Z;
  mh_agency_id : Z;
  mh_started_at : datetime;
  mh_ended_at : option datetime;
  mh_assigned_by : text;
  mh_reason : text
}.
#[export] Instance AgencyMembershipHistory_eta : Eta AgencyMembershipHistory := λ r,
  mkMembershipPeriod (mh_id r) (mh_customer_id r) (mh_agency_id r) (mh_started_at r) (mh_ended_at r)
    (mh_assigned_by r) (mh_reason r).

(** The tables of the database session, the files of the batch directory, and the
    sequences that number new rows. *)
Record Store : Type := mkStore {
  st_agencies : gmap Z Agency;
  st_customers : gmap Z Customer;
  st_requests : gmap uuid LeadRequest;
  st_ledger : list CreditLedgerEntry;
  st_purchases : gmap text CreditPurchase;
  st_holds : gmap uuid BatchHold;
  st_leads : gmap Z Lead;
  st_exclusion_lists : gmap uuid ExclusionList;
  st_exclusion_phones : list ExclusionPhone;
  st_niche_policy : list NichePolicyRow;
  st_niche_assignments : gmap text NicheAssignment;
  st_niche_mappings : gmap text SourceNicheMapping;
  st_observations : gmap Z ListingObservation;
  st_corrections : gmap uuid LeadCorrectionEvent;
  st_publications : gmap text DatasetPublication;
  st_scraper_runs : gmap Z ScraperRun;
  st_configurations : gmap uuid ScraperConfiguration;
  st_recommendations : gmap uuid SourceRecommendation;
  st_events : list DistributionEvent;
  st_eligibility_holds : list EligibilityHold;
  st_artifacts : gmap uuid BatchArtifact;
  st_memberships : gmap Z LeadDatabaseMembership;
  st_membership_history : list AgencyMembershipHistory;
  st_db2_rows : gmap (Z * uuid) Db2Row;
  st_jobs : gmap Z Job;
  st_conflicts : list InventoryConflict;
  st_reviews : gmap uuid NightlyReview;
  st_anomalies : list ScrapeAnomaly;
  st_notifications : gmap uuid Notification;
  st_audit : list AuditEntry;
  st_webhook_receipts : gset (text * text);
  st_profiles : gmap uuid CustomerProfile;
  st_dispositions : gmap uuid LeadDispositionTransition;
  st_outcomes : gmap uuid LeadOutcome;
  st_disposition_states : gmap Z LeadDispositionState;
  st_reports : gmap uuid LeadReport;
  st_resolutions : gmap uuid LeadReportResolution;
  st_niche_uploads : gmap uuid NicheAssignmentUpload;
  st_lead_uploads : gmap uuid LeadUpload;
  st_files : gmap text (list N);
  st_next_job : Z;
  st_next_event : Z;
  st_next_artifact : Z;
  st_next_niche_row : Z;
  st_next_membership : Z;
  st_next_uuid : uuid
}.
#[export] Instance Store_eta : Eta Store := λ r,
  mkStore (st_agencies r) (st_customers r) (st_requests r) (st_ledger r) (st_purchases r)
    (st_holds r) (st_leads r) (st_exclusion_lists r) (st_exclusion_phones r)
    (st_niche_policy r) (st_niche_assignments r) (st_niche_mappings r) (st_observations r)
    (st_corrections r) (st_publications r) (st_scraper_runs r) (st_configurations r) (st_recommendations r)
    (st_events r) (st_eligibility_holds r) (st_artifacts r) (st_memberships r) (st_membership_history r)
    (st_db2_rows r) (st_jobs r) (st_conflicts r) (st_reviews r)
    (st_anomalies r) (st_notifications r) (st_audit r)
    (st_webhook_receipts r) (st_profiles r) (st_dispositions r) (st_outcomes r)
    (st_disposition_states r) (st_reports r) (st_resolutions r)
    (st_niche_uploads r) (st_lead_uploads r) (st_files r)
    (st_next_job r) (st_next_event r) (st_next_artifact r) (st_next_niche_row r) (st_next_membership r)
    (st_next_uuid r).

Definition empty_store : Store :=
  mkStore ∅ ∅ ∅ [] ∅ ∅ ∅ ∅ [] [] ∅ ∅ ∅ ∅ ∅ ∅ ∅ ∅ [] [] ∅ ∅ [] ∅ ∅ [] ∅ [] ∅ [] ∅ ∅ ∅ ∅ ∅ ∅ ∅ ∅ ∅ ∅ 1 1 1 1 1 1%N.

(** A rollback restores the tables.  Files already written and sequence values
    already drawn are not part of the transaction. *)
Definition rollback (before reached : Store) : Store :=
  before <| st_files := st_files reached |>
         <| st_next_job := st_next_job reached |>
         <| st_next_event := st_next_event reached |>
         <| st_next_artifact := st_next_artifact reached |>
         <| st_next_niche_row := st_next_niche_row reached |>
         <| st_next_membership := st_next_membership reached |>
         <| st_next_uuid := st_next_uuid reached |>.

(** [with SessionLocal.begin() as session: m] *)
Definition begin {A} (m : M Store A) : M Store A := transaction rollback m.

(** [uuid.uuid4()]: an identifier not used before. *)
Definition uuid4 : M Store uuid :=
  n ← gets st_next_uuid;
  modify (λ s, s <| st_next_uuid := (n + 1)%N |>) ;;
  mret n.

(** ** The deployment

    What an operation reads besides the database: the clock, the settings, the
    rows other sessions hold locked ([SKIP LOCKED] passes over them) and
    whether the disk accepts writes. *)
Record Settings : Type := mkSettings {
  batch_dir : text;
  batch_retention_days : Z;
  billing_enabled : bool;
  db1_default_lead_rate_cents_per_thousand : option Z;
  resend_api_key : text;
  batch_from_email : text;
  public_base_url : text;
  worker_id : text;
  worker_lane : string;
  job_lock_timeout_seconds : Z;
  support_email : text;
  telegram_bot_token : text;
  telegram_chat_id : text;
  telegram_approver_user_ids : text;
  telegram_webhook_secret : text;
  metrics_ingest_url : text;
  metrics_ingest_secret : text;
  session_secret : text;
  recommendation_apply_enabled : bool;
  recommendation_shadow_mode : bool
}.

Record Env : Type := mkEnv {
  now : datetime;
  settings : Settings;
  locked_leads : gset Z;
  locked_memberships : gset Z;
  locked_requests : gset uuid;
  locked_jobs : gset Z;
  disk_ok : bool
}.

(** Row updates: [row.column = v] on a row the session holds. *)
Definition update_request (id : uuid) (f : LeadRequest → LeadRequest) : M Store unit :=
  modify (λ s, s <| st_requests := alter f id (st_requests s) |>).
Definition update_customer (id : Z) (f : Customer → Customer) : M Store unit :=
  modify (λ s, s <| st_customers := alter f id (st_customers s) |>).
Definition update_agency (id : Z) (f : Agency → Agency) : M Store unit :=
  modify (λ s, s <| st_agencies := alter f id (st_agencies s) |>).
Definition update_lead (id : Z) (f : Lead → Lead) : M Store unit :=
  modify (λ s, s <| st_leads := alter f id (st_leads s) |>).
Definition update_hold (request_id : uuid) (f : BatchHold → BatchHold) : M Store unit :=
  modify (λ s, s <| st_holds := alter f request_id (st_holds s) |>).
Definition update_job (id : Z) (f : Job → Job) : M Store unit :=
  modify (λ s, s <| st_jobs := alter f id (st_jobs s) |>).

(** ** A deployment, a Customer and a request for the concrete runs *)

Definition example_env : Env :=
  mkEnv 0 (mkSettings (u "/batches") 30 true (Some 1500%Z) (u "key") (u "batches@jawnix.test")
    (u "https://jawnix.test") (u "worker-1") "default" 900 (u "noah@jawnix.com")
    (u "123:token") (u "-100") (u "42, 43") (u "hook") (u "https://metrics.test/ingest/jawnix") (u "s3cret") (u "pepper") true false) ∅ ∅ ∅ ∅ true.

Definition example_customer : Customer :=
  mkCustomer 7 (u "acme") (u "Acme") [u "PA"] None true None None None true (Some 1500%Z) 30
    (u "acme-history") None None.
Definition example_request : LeadRequest :=
  mkLeadRequest 1%N 2%N 7 100 100 (u "all_saved") [u "PA"] (u "a@acme.test") pending None
    (u "Awaiting Telegram approval.") 0 None None None None None false None None.

(** A Lead of the scraped inventory, never distributed. *)
Definition example_lead (id : Z) (phone title : string) : Lead :=
  mkLead id (u phone) true (u title) (u "PA") 0 (u "legacy") (u title) (u "PA") None None false [] None.
