(* ===== verification/PyTime.v ===== *)
(** * Calendar dates

    What the modelled code uses of [datetime]: the UTC date of an instant,
    [date().isoformat()] and [strftime("%Y-%m")]. *)

From S2P Require Import Prelude PyText Models.

Open Scope Z_scope.

(** The proleptic Gregorian (year, month, day) of a day count since 1970-01-01. *)
Definition civil_from_days (day : Z) : Z * Z * Z :=
  let z := day + 719468 in
  let era := z / 146097 in
  let doe := z mod 146097 in
  let yoe := (doe - doe / 1460 + doe / 36524 - doe / 146096) / 365 in
  let doy := doe - (365 * yoe + yoe / 4 - yoe / 100) in
  let mp := (5 * doy + 2) / 153 in
  let d := doy - (153 * mp + 2) / 5 + 1 in
  let m := if mp <? 10 then mp + 3 else mp - 9 in
  (yoe + era * 400 + (if m <=? 2 then 1 else 0), m, d).

Definition utc_date (t : datetime) : Z * Z * Z := civil_from_days (t / days 1).

(** [f"{n:0{width}d}"] of a number that is not negative. *)
Definition zero_pad (width : nat) (n : Z) : text :=
  let t := str_of_Z n in replicate (width - length t) 48%N ++ t.

Definition date_isoformat (t : datetime) : text :=
  let '(y, m, d) := utc_date t in
  zero_pad 4 y ++ 45%N :: zero_pad 2 m ++ 45%N :: zero_pad 2 d.

Definition strftime_year_month (t : datetime) : text :=
  let '(y, m, _) := utc_date t in zero_pad 4 y ++ 45%N :: zero_pad 2 m.

Example epoch_date : date_isoformat 0 = u "1970-01-01".
Proof. vm_compute. reflexivity. Qed.
Example leap_day : date_isoformat (seconds 1709164800) = u "2024-02-29".
Proof. vm_compute. reflexivity. Qed.
