(* ===== verification/PyJson.v ===== *)
(** * [json.dumps(value, sort_keys=True, separators=(",", ":"))]

    The canonical text the code hashes: keys in order, no white space, every
    character outside printable ASCII escaped. *)

From S2P Require Import Prelude PyText Models.

Open Scope N_scope.

(** [\uXXXX] of a sixteen-bit unit. *)
Definition json_u16 (n : N) : text := 92 :: 117 :: hex_digits 4 n [].

Definition json_char (c : N) : text :=
  if c =? 34 then [92; 34]
  else if c =? 92 then [92; 92]
  else if c =? 10 then [92; 110]
  else if c =? 13 then [92; 114]
  else if c =? 9 then [92; 116]
  else if c =? 8 then [92; 98]
  else if c =? 12 then [92; 102]
  else if (32 <=? c) && (c <=? 126) then [c]
  else if c <=? 65535 then json_u16 c
  else json_u16 (55296 + (c - 65536) / 1024) ++ json_u16 (56320 + (c - 65536) mod 1024).

Definition json_string (t : text) : text := 34 :: (t ≫= json_char) ++ [34].

Definition key_le (a b : string * text) : Prop := text_le (u a.1) (u b.1).
#[export] Instance key_le_dec : RelDecision key_le.
Proof. intros a b. unfold key_le. apply _. Defined.

Fixpoint json_dumps (v : json) : text :=
  match v with
  | JNull => u "null"
  | JBool true => u "true"
  | JBool false => u "false"
  | JNum n => str_of_Z n
  | JFloat literal => literal
  | JStr t => json_string t
  | JList l => 91 :: join [44] (map json_dumps l) ++ [93]
  | JObj fields =>
      let pairs := map (λ f, (f.1, json_dumps f.2)) fields in
      123 :: join [44] (map (λ p, json_string (u p.1) ++ 58 :: p.2) (merge_sort key_le pairs)) ++ [125]
  end.

Example dumps_sorts_and_escapes :
  json_dumps (JObj [("b", JList [JNum 1; JNum (-2)]); ("a", JStr [233; 34; 128512])])%string =
  u "{" ++ [34; 97; 34] ++ u ":" ++ [34] ++ u "\u00e9\" ++ [34] ++ u "\ud83d\ude00" ++ [34] ++
  u "," ++ [34; 98; 34] ++ u ":[1,-2]}".
Proof. vm_compute. reflexivity. Qed.
