(* ===== verification/PyObject.v ===== *)
(** * Values that came through JSON

    What the modules do with a decoded value of unknown shape: truth, [get],
    indexing, iteration, and the conversions [str] and [int], each with the
    exception it raises on the wrong shape.  Numbers are integers; what
    [str] prints of a list or dict is left to an instance. *)

From S2P Require Import Prelude PyText PyInt Models.

Open Scope Z_scope.

(** [bool(v)] *)
Definition truthy (v : json) : bool :=
  match v with
  | JNull => false
  | JBool b => b
  | JNum n => negb (n =? 0)
  | JFloat literal => negb (bool_decide (literal = u "0.0" ∨ literal = u "-0.0"))
  | JStr t => negb (bool_decide (t = []))
  | JList l => match l with [] => false | _ => true end
  | JObj d => match d with [] => false | _ => true end
  end.

(** [v or w] *)
Definition json_or (v w : json) : json := if truthy v then v else w.

Class PyRepr : Type := { py_repr : json → text }.

Definition py_str `{PyRepr} (v : json) : text :=
  match v with
  | JNull => u "None"
  | JBool true => u "True"
  | JBool false => u "False"
  | JNum n => str_of_Z n
  | JFloat literal => literal
  | JStr t => t
  | JList _ | JObj _ => py_repr v
  end.

(** [d.get(k)] of a dict, [None] when it is missing *)
Definition get (k : string) (d : dict) : json := default JNull (dict_get k d).

(** [v.get(k)] and [v[k]] of a value of unknown shape *)
Definition json_get (k : string) (v : json) : outcome json :=
  match v with
  | JObj d => Ok (get k d)
  | _ => Err (AttributeError (u "get"))
  end.
Definition item (k : string) (d : dict) : outcome json :=
  match dict_get k d with Some v => Ok v | None => Err (KeyError (u k)) end.
Definition json_item (k : string) (v : json) : outcome json :=
  match v with
  | JObj d => item k d
  | _ => Err (TypeError (u k))
  end.

(** [int(f)] of the float whose [repr] is given: below 10^16 the whole part of
    the literal, above it the nearest double. *)
Fixpoint span_digits (t : text) : text * text :=
  match t with
  | c :: rest => if ((48 <=? c) && (c <=? 57))%N then let '(ds, r) := span_digits rest in (c :: ds, r) else ([], t)
  | [] => ([], [])
  end.
Definition digits_value (t : text) : Z := foldl (λ n c, 10 * n + (Z.of_N c - 48)) 0 t.
Definition nearest_double (n : Z) : Z :=
  if n <? 2 ^ 53 then n else
  let k := Z.log2 n - 52 in
  let q := n / 2 ^ k in
  let r := n mod 2 ^ k in
  (if (2 ^ (k - 1) <? r) || ((r =? 2 ^ (k - 1)) && Z.odd q) then q + 1 else q) * 2 ^ k.
Definition int_of_float (literal : text) : Z :=
  let '(negative, body) := match literal with 45%N :: b => (true, b) | b => (false, b) end in
  let '(whole, rest) := span_digits body in
  let '(fraction, rest) := match rest with 46%N :: r => span_digits r | _ => ([], rest) end in
  let magnitude :=
    match rest with
    | 101%N :: 43%N :: exponent =>
        nearest_double (digits_value (whole ++ fraction) * 10 ^ (digits_value exponent - Z.of_nat (length fraction)))
    | 101%N :: _ => 0
    | _ => digits_value whole
    end in
  if negative then - magnitude else magnitude.

(** [f.is_integer()]: from 10^16 on, where the literal has an exponent, every
    double is whole. *)
Definition float_integral (literal : text) : bool :=
  let '(_, rest) := span_digits (match literal with 45%N :: b => b | b => b end) in
  match rest with
  | 46%N :: r => let '(fraction, rest) := span_digits r in
                 match rest with
                 | [] => forallb (λ c, c =? 48)%N fraction
                 | 101%N :: 43%N :: _ => true
                 | _ => false
                 end
  | 101%N :: 43%N :: _ => true
  | _ => false
  end.

Example int_of_float_truncates : int_of_float (u "-12.75") = -12.
Proof. reflexivity. Qed.
Example int_of_float_is_exact : int_of_float (u "1e+23") = 99999999999999991611392.
Proof. vm_compute. reflexivity. Qed.

(** [int(v)] *)
Definition json_int (v : json) : outcome Z :=
  match v with
  | JNum n => Ok n
  | JFloat literal => Ok (int_of_float literal)
  | JBool b => Ok (if b then 1 else 0)
  | JStr t => match py_int 10 t with
              | Some n => Ok n
              | None => Err (ValueError (u "invalid literal for int() with base 10"))
              end
  | JNull | JList _ | JObj _ => Err (TypeError (u "int() argument must be a string or a real number"))
  end.

(** [for x in v], [len(v)] *)
Definition json_iter (v : json) : outcome (list json) :=
  match v with
  | JList l => Ok l
  | JObj d => Ok ((λ kv, JStr (u kv.1)) <$> d)
  | JStr t => Ok ((λ c, JStr [c]) <$> t)
  | JNull | JBool _ | JNum _ | JFloat _ => Err (TypeError (u "object is not iterable"))
  end.
Definition json_len (v : json) : outcome Z :=
  match v with
  | JList l => Ok (Z.of_nat (length l))
  | JObj d => Ok (Z.of_nat (length d))
  | JStr t => Ok (Z.of_nat (length t))
  | JNull | JBool _ | JNum _ | JFloat _ => Err (TypeError (u "object has no len()"))
  end.

(** [uuid.UUID(str(v))] *)
Definition json_uuid `{PyRepr} (v : json) : outcome uuid :=
  match uuid_of_text (py_str v) with
  | Some id => Ok id
  | None => Err (ValueError (u "badly formed hexadecimal UUID string"))
  end.

(** [f"{...}"] of a float or container is not evaluated by the concrete runs. *)
Definition plain_repr : PyRepr := {| py_repr := λ _, u "..." |}.
