(* ===== verification/Sql.v ===== *)
(** * SQL conditions

    The three-valued logic in which the queries' [WHERE] clauses are
    evaluated.  [None] is NULL; a row is kept when its condition is
    [Some true], so neither a false nor an unknown condition keeps it. *)

From S2P Require Import Prelude.

Declare Scope sql_scope.
Delimit Scope sql_scope with sql.

Abbreviation sqlbool := (option bool).

Definition sql_true : sqlbool := Some true.
Definition sql_not (a : sqlbool) : sqlbool := negb <$> a.

Definition sql_and (a b : sqlbool) : sqlbool :=
  match a, b with
  | Some false, _ | _, Some false => Some false
  | Some true, Some true => Some true
  | _, _ => None
  end.

Definition sql_or (a b : sqlbool) : sqlbool :=
  match a, b with
  | Some true, _ | _, Some true => Some true
  | Some false, Some false => Some false
  | _, _ => None
  end.

Notation "a 'AND' b" := (sql_and a b) (at level 40, left associativity) : sql_scope.
Notation "a 'OR' b" := (sql_or a b) (at level 50, left associativity) : sql_scope.
Notation "'NOT' a" := (sql_not a) (at level 35, right associativity) : sql_scope.

Definition sql_all (l : list sqlbool) : sqlbool := foldr sql_and (Some true) l.

(** [x = y], [x IS NULL], [x < y] on nullable columns. *)
Definition sql_eq `{EqDecision A} (x y : option A) : sqlbool :=
  a ← x; b ← y; Some (bool_decide (a = b)).
Definition sql_is_null {A} (x : option A) : sqlbool := Some (bool_decide (x = None)).
Definition sql_not_null {A} (x : option A) : sqlbool := Some (bool_decide (x ≠ None)).
Definition sql_gt (x y : option Z) : sqlbool := a ← x; b ← y; Some (b <? a)%Z.

(** [x IN (l)]: false on an empty list, unknown on a NULL [x] otherwise. *)
Definition sql_in `{EqDecision A} (x : option A) (l : list A) : sqlbool :=
  match l with
  | [] => Some false
  | _ => a ← x; Some (bool_decide (a ∈ l))
  end.

(** Whether a row is kept. *)
Definition kept (c : sqlbool) : bool := bool_decide (c = Some true).

(** [EXISTS (SELECT ... FROM rows WHERE cond)] *)
Definition sql_exists {A} (rows : list A) (cond : A → sqlbool) : sqlbool :=
  Some (existsb (λ r, kept (cond r)) rows).

(** [ORDER BY NULLS FIRST] on one column: a NULL precedes every value. *)
Definition nulls_first_leb (a b : option Z) : bool :=
  match a, b with
  | None, _ => true
  | Some _, None => false
  | Some x, Some y => (x <=? y)%Z
  end.

(** ** Lemmas *)

Create Rewrite HintDb sql.

Lemma kept_true c : kept c = true ↔ c = Some true.
Proof. unfold kept. apply bool_decide_eq_true. Qed.

Lemma sql_and_true a b : sql_and a b = Some true ↔ a = Some true ∧ b = Some true.
Proof. destruct a as [[]|], b as [[]|]; cbn; naive_solver. Qed.

Lemma sql_or_true a b : sql_or a b = Some true ↔ a = Some true ∨ b = Some true.
Proof. destruct a as [[]|], b as [[]|]; cbn; naive_solver. Qed.

Lemma sql_not_true a : sql_not a = Some true ↔ a = Some false.
Proof. destruct a as [[]|]; cbn; naive_solver. Qed.

Lemma sql_all_true l : sql_all l = Some true ↔ Forall (.= Some true) l.
Proof.
  induction l as [|c l IH]; cbn; [split; [constructor | done]|].
  by rewrite sql_and_true, IH, Forall_cons.
Qed.

Lemma sql_eq_true `{EqDecision A} (x y : option A) :
  sql_eq x y = Some true ↔ ∃ a, x = Some a ∧ y = Some a.
Proof.
  destruct x, y; cbn; try naive_solver. rewrite (inj_iff Some), bool_decide_eq_true. naive_solver.
Qed.

Lemma sql_eq_Some_true `{EqDecision A} (x : option A) b : sql_eq x (Some b) = Some true ↔ x = Some b.
Proof. rewrite sql_eq_true. naive_solver. Qed.
Lemma sql_eq_Some2_true `{EqDecision A} (a b : A) : sql_eq (Some a) (Some b) = Some true ↔ a = b.
Proof. rewrite sql_eq_true. naive_solver. Qed.

Lemma sql_is_null_true {A} (x : option A) : sql_is_null x = Some true ↔ x = None.
Proof. unfold sql_is_null. rewrite (inj_iff Some), bool_decide_eq_true. done. Qed.

Lemma sql_not_null_true {A} (x : option A) : sql_not_null x = Some true ↔ ∃ a, x = Some a.
Proof. unfold sql_not_null. rewrite (inj_iff Some), bool_decide_eq_true. destruct x; naive_solver. Qed.

Lemma sql_gt_true x y : sql_gt x y = Some true ↔ ∃ a b, x = Some a ∧ y = Some b ∧ (b < a)%Z.
Proof.
  destruct x, y; cbn; try naive_solver. rewrite (inj_iff Some), Z.ltb_lt. naive_solver.
Qed.

Lemma sql_in_true `{EqDecision A} (x : option A) l :
  sql_in x l = Some true ↔ ∃ a, x = Some a ∧ a ∈ l.
Proof.
  destruct l as [|y l]; cbn; [set_solver|].
  destruct x; cbn; [|naive_solver]. rewrite (inj_iff Some), bool_decide_eq_true. naive_solver.
Qed.

Lemma sql_in_false `{EqDecision A} (x : A) l : sql_in (Some x) l = Some false ↔ x ∉ l.
Proof.
  destruct l as [|y l]; cbn; [set_solver|]. rewrite (inj_iff Some), bool_decide_eq_false. done.
Qed.

Lemma sql_in_Some `{EqDecision A} (x : A) l : sql_in (Some x) l = Some (bool_decide (x ∈ l)).
Proof. by destruct l as [|y l]; [rewrite bool_decide_eq_false_2 by set_solver|]. Qed.

Lemma sql_exists_true {A} (rows : list A) cond :
  sql_exists rows cond = Some true ↔ ∃ r, r ∈ rows ∧ cond r = Some true.
Proof.
  unfold sql_exists. rewrite (inj_iff Some), existsb_exists.
  setoid_rewrite <- list_elem_of_In. by setoid_rewrite kept_true.
Qed.

Lemma sql_not_exists_true {A} (rows : list A) cond :
  sql_not (sql_exists rows cond) = Some true ↔ ∀ r, r ∈ rows → cond r ≠ Some true.
Proof.
  rewrite sql_not_true. unfold sql_exists. rewrite (inj_iff Some), <- not_true_iff_false.
  rewrite existsb_exists. setoid_rewrite <- list_elem_of_In. setoid_rewrite kept_true.
  naive_solver.
Qed.

#[export] Hint Rewrite kept_true sql_and_true sql_or_true @sql_eq_true @sql_is_null_true
  @sql_not_null_true sql_gt_true @sql_in_true @sql_exists_true @sql_not_exists_true
  using typeclasses eauto : sql.
