(* ===== verification/Activity.v ===== *)
(** * [jawnix/activity.py]: the append-only audit trail

    [record_activity] is the one write seam for Audit Entries.  It refuses a
    blank action, target, actor or reason, a detail key that names a secret at
    any depth, and known secret material.  JSON details are first-order values
    here, so the JSON-safety probe of the code cannot fail. *)

From S2P Require Import Prelude PyText PyInt Models.
From Stdlib Require Ascii String.

Open Scope N_scope.

(** ** Definitions *)

Definition SECRET_KEY_PARTS : list text := u <$>
  ["access_token"; "api_key"; "apikey"; "authorization"; "cookie"; "credential"; "csrf";
   "handoff"; "password"; "refresh_token"; "secret"; "session"; "signature"; "token"]%string.

Definition is_lower_or_digit (c : N) : bool :=
  ((97 <=? c) && (c <=? 122)) || ((48 <=? c) && (c <=? 57)).
Definition is_upper (c : N) : bool := (65 <=? c) && (c <=? 90).

(** [re.sub(r"([a-z0-9])([A-Z])", r"\1_\2", key)] *)
Fixpoint split_camel (t : text) : text :=
  match t with
  | a :: ((b :: _) as t') =>
      if is_lower_or_digit a && is_upper b then a :: 95 :: split_camel t' else a :: split_camel t'
  | _ => t
  end.

(** [re.sub(r"[^a-z0-9]+", "_", t)]; [gap] is set inside a run being replaced. *)
Fixpoint squash_others (t : text) (gap : bool) : text :=
  match t with
  | [] => []
  | c :: t' =>
      if is_lower_or_digit c then c :: squash_others t' false
      else if gap then squash_others t' true else 95 :: squash_others t' true
  end.

Fixpoint drop_underscores (t : text) : text :=
  match t with
  | c :: t' => if c =? 95 then drop_underscores t' else t
  | [] => []
  end.

(** [str.casefold] of a code point, as far as it matters here: every character
    that is not an ASCII letter or digit is squashed afterwards, so the table
    lists the ones outside ASCII that fold to one. *)
Definition casefold_cp (c : N) : text :=
  match c with
  | 223 | 7838 => u "ss"
  | 304 => [105; 775]
  | 329 => [700; 110]
  | 383 => u "s"
  | 496 => [106; 780]
  | 7830 => [104; 817]
  | 7831 => [116; 776]
  | 7832 => [119; 778]
  | 7833 => [121; 778]
  | 7834 => [97; 702]
  | 8490 => u "k"
  | 64256 => u "ff"
  | 64257 => u "fi"
  | 64258 => u "fl"
  | 64259 => u "ffi"
  | 64260 => u "ffl"
  | 64261 | 64262 => u "st"
  | _ => [ascii_lower_cp c]
  end.

(** [_normalized_key] *)
Definition normalized_key (key : string) : text :=
  let value := split_camel (u key) in
  let folded := squash_others (concat (map casefold_cp value)) false in
  rev (drop_underscores (rev (drop_underscores folded))).

Definition secret_key (key : string) : bool :=
  existsb (λ part, contains part (normalized_key key)) SECRET_KEY_PARTS.
Arguments secret_key : simpl never.

(** [_assert_safe_detail_keys]: the location of the first secret-bearing key. *)
Fixpoint unsafe_detail_key (value : json) (path : list text) {struct value} : option text :=
  match value with
  | JObj fields =>
      (fix go (fs : dict) : option text :=
         match fs with
         | [] => None
         | (raw_key, nested) :: fs' =>
             if secret_key raw_key then Some (join (u ".") (path ++ [u raw_key]))
             else match unsafe_detail_key nested (path ++ [u raw_key]) with
                  | Some location => Some location
                  | None => go fs'
                  end
         end) fields
  | JList items =>
      (fix go (index : Z) (l : list json) : option text :=
         match l with
         | [] => None
         | nested :: l' =>
             match unsafe_detail_key nested (path ++ [str_of_Z index]) with
             | Some location => Some location
             | None => go (index + 1)%Z l'
             end
         end) 0%Z items
  | _ => None
  end.

Fixpoint contains_secret (value : json) (secret : text) {struct value} : bool :=
  match value with
  | JStr t => contains secret t
  | JObj fields =>
      (fix go (fs : dict) : bool :=
         match fs with
         | [] => false
         | (key, nested) :: fs' =>
             contains secret (u key) || contains_secret nested secret || go fs'
         end) fields
  | JList items =>
      (fix go (l : list json) : bool :=
         match l with [] => false | nested :: l' => contains_secret nested secret || go l' end)
        items
  | _ => false
  end.

Definition is_blank (t : text) : bool := bool_decide (t = []).

(** The value scanned for known secrets. *)
Definition activity_value (action target_type target_id actor reason : text) (details : dict) : json :=
  JObj [("action", JStr action); ("targetType", JStr target_type); ("targetId", JStr target_id);
        ("actorId", JStr actor); ("reason", JStr reason); ("details", JObj details)]%string.

Definition record_activity (env : Env) (action target_type target_id actor_id reason : text)
    (details : dict) (known_secrets : list text) : M Store AuditEntry :=
  let normalized_action := strip action in
  let normalized_target_type := strip target_type in
  let normalized_actor := strip actor_id in
  let normalized_reason := strip reason in
  raise_if (is_blank normalized_action) (ValueError (u "Activity action is required.")) ;;
  raise_if (is_blank normalized_target_type) (ValueError (u "Activity target type is required.")) ;;
  raise_if (is_blank normalized_actor) (ValueError (u "Activity actor is required.")) ;;
  raise_if (is_blank normalized_reason) (ValueError (u "Activity reason is required.")) ;;
  (match unsafe_detail_key (JObj details) [] with
   | Some location => raise (UnsafeActivityDetailsError
       (u "Activity details contain a secret-bearing key: " ++ location))
   | None => mret tt
   end) ;;
  raise_if
    (existsb (λ secret, negb (is_blank secret) &&
       contains_secret (activity_value normalized_action normalized_target_type target_id
         normalized_actor normalized_reason details) secret) known_secrets)
    (UnsafeActivityDetailsError (u "Activity details contain known secret material.")) ;;
  id ← uuid4;
  let entry := mkAuditEntry id normalized_action normalized_target_type target_id
                 normalized_actor normalized_reason details (now env) in
  modify (λ s, s <| st_audit := st_audit s ++ [entry] |>) ;;
  mret entry.

(** ** Lemmas *)

(** No key of a JSON value, at any depth, names a secret. *)
Inductive safe_keys : json → Prop :=
| safe_null : safe_keys JNull
| safe_bool b : safe_keys (JBool b)
| safe_num n : safe_keys (JNum n)
| safe_float literal : safe_keys (JFloat literal)
| safe_str t : safe_keys (JStr t)
| safe_list l : (∀ v, v ∈ l → safe_keys v) → safe_keys (JList l)
| safe_obj fs :
    (∀ k v, (k, v) ∈ fs → secret_key k = false) → (∀ k v, (k, v) ∈ fs → safe_keys v) →
    safe_keys (JObj fs).
#[export] Hint Constructors safe_keys : core.

Fixpoint unsafe_detail_key_None (v : json) path :
  unsafe_detail_key v path = None → safe_keys v.
Proof.
  destruct v as [|b|n|f|t|items|fields]; cbn; auto.
  - intros H. constructor. revert H. generalize 0%Z.
    induction items as [|x items IH]; intros i H v Hv; [by apply not_elem_of_nil in Hv|].
    cbn in H. destruct (unsafe_detail_key x _) eqn:E; [done|].
    apply elem_of_cons in Hv as [->|Hv]; [by eapply unsafe_detail_key_None | by eapply IH].
  - intros H. enough (∀ k v, (k, v) ∈ fields → secret_key k = false ∧ safe_keys v) as Hall.
    { constructor; intros k v Hin; by apply (Hall k v). }
    induction fields as [|[k x] fields IH]; intros k' v' Hin; [by apply not_elem_of_nil in Hin|].
    cbn in H. destruct (secret_key k) eqn:Ek; [done|].
    destruct (unsafe_detail_key x _) eqn:E; [done|].
    apply elem_of_cons in Hin as [[= -> ->]|Hin].
    + split; [done | by eapply unsafe_detail_key_None].
    + by apply IH.
Qed.

(** A call whose arguments are in order appends its entry and nothing else. *)
Lemma record_activity_run env action tt' tid actor reason details s :
  strip action ≠ [] → strip tt' ≠ [] → strip actor ≠ [] → strip reason ≠ [] →
  unsafe_detail_key (JObj details) [] = None →
  record_activity env action tt' tid actor reason details [] s =
    let entry := mkAuditEntry (st_next_uuid s) (strip action) (strip tt') tid (strip actor)
                   (strip reason) details (now env) in
    (Ok entry, s <| st_next_uuid := st_next_uuid s + 1 |> <| st_audit := st_audit s ++ [entry] |>).
Proof.
  intros Ha Ht Hc Hr Hs. unfold record_activity, is_blank.
  rewrite !bool_decide_eq_false_2 by done. rewrite Hs. reflexivity.
Qed.

(** What a successful call says of its arguments. *)
Lemma record_activity_inv env action tt' tid actor reason details secrets s e s' :
  record_activity env action tt' tid actor reason details secrets s = (Ok e, s') →
  strip action ≠ [] ∧ strip tt' ≠ [] ∧ strip actor ≠ [] ∧ strip reason ≠ [] ∧
  unsafe_detail_key (JObj details) [] = None ∧
  Forall (λ sec, sec = [] ∨
    contains_secret (activity_value (strip action) (strip tt') tid (strip actor) (strip reason)
      details) sec = false) secrets ∧
  e = mkAuditEntry (st_next_uuid s) (strip action) (strip tt') tid (strip actor) (strip reason)
        details (now env) ∧
  s' = s <| st_next_uuid := st_next_uuid s + 1 |> <| st_audit := st_audit s ++ [e] |>.
Proof.
  unfold record_activity, is_blank. intros H.
  destruct (unsafe_detail_key _ _) eqn:Hu; run_inv.
  unfold uuid4 in *. run_inv. rsimpl.
  repeat match goal with H : bool_decide _ = false |- _ => apply bool_decide_eq_false in H end.
  split_and!; try done.
  apply Forall_forall. intros sec Hsec.
  destruct (decide (sec = [])) as [|Hne]; [by left | right].
  apply not_true_iff_false. intros Hc.
  match goal with H : existsb _ _ = false |- _ => apply not_true_iff_false in H; apply H end.
  apply existsb_exists. exists sec. split; [by apply list_elem_of_In|].
  by rewrite bool_decide_eq_false_2, Hc.
Qed.

(** The step of a run that records an activity. *)
Ltac activity_inv :=
  match goal with
  | H : record_activity _ _ _ _ _ _ _ _ _ = (Ok _, _) |- _ =>
      apply record_activity_inv in H as (_ & _ & _ & _ & _ & _ & _ & ->)
  end.

(** Everything but the audit trail and the identifier supply is left alone. *)
Lemma record_activity_frame {A} (proj : Store → A) env a t i c r d k x :
  (∀ s v, proj (s <| st_next_uuid := v |>) = proj s) →
  (∀ s v, proj (s <| st_audit := v |>) = proj s) →
  preserves (λ s, proj s = x) (record_activity env a t i c r d k).
Proof.
  intros Hu Ha. unfold record_activity, uuid4.
  repeat first [apply pres_bind; intros | apply pres_raise_if | apply pres_gets | apply pres_ret
    | apply pres_modify; intros s Hs; by rewrite ?Hu, ?Ha
    | destruct (unsafe_detail_key _ _); [apply pres_raise | apply pres_ret]].
Qed.

#[export] Hint Extern 0 (preserves _ (record_activity _ _ _ _ _ _ _ _)) =>
  (apply record_activity_frame; reflexivity) : pres.

(** *** What an entry says

    The keys of a value, and every text it spells out, at any depth. *)

Inductive key_within : json → string → Prop :=
| key_here k v fs : (k, v) ∈ fs → key_within (JObj fs) k
| key_field k v fs key : (k, v) ∈ fs → key_within v key → key_within (JObj fs) key
| key_item v l key : v ∈ l → key_within v key → key_within (JList l) key.

Inductive spells : json → text → Prop :=
| spells_text t : spells (JStr t) t
| spells_key k v fs : (k, v) ∈ fs → spells (JObj fs) (u k)
| spells_field k v fs t : (k, v) ∈ fs → spells v t → spells (JObj fs) t
| spells_item v l t : v ∈ l → spells v t → spells (JList l) t.
#[export] Hint Constructors key_within spells : core.

Lemma spells_list_inv l t : spells (JList l) t → ∃ v, v ∈ l ∧ spells v t.
Proof. inversion 1; subst; eauto. Qed.
Lemma spells_obj_inv fs t : spells (JObj fs) t → ∃ k v, (k, v) ∈ fs ∧ (t = u k ∨ spells v t).
Proof. inversion 1; subst; eauto. Qed.

Lemma safe_keys_within v key : safe_keys v → key_within v key → secret_key key = false.
Proof. intros Hs Hk. induction Hk; inversion Hs; subst; eauto. Qed.

Fixpoint unsafe_detail_key_Some (v : json) path location :
  unsafe_detail_key v path = Some location → ∃ key, key_within v key ∧ secret_key key = true.
Proof.
  destruct v as [|b|n|f|t|items|fields]; try done; cbn.
  - generalize 0%Z. induction items as [|x items IH]; intros i H; [done|]. cbn in H.
    destruct (unsafe_detail_key x _) eqn:E.
    + apply unsafe_detail_key_Some in E as (key & Hk & Hs). exists key. split; [|done]. eapply key_item; [left | exact Hk].
    + apply IH in H as (key & Hk & Hs). exists key. split; [|done]. inversion Hk; subst. eapply key_item; [by right | done].
  - induction fields as [|[k x] fields IH]; intros H; [done|]. cbn in H. destruct (secret_key k) eqn:Ek.
    { exists k. split; [|done]. eapply key_here. left. }
    destruct (unsafe_detail_key x _) eqn:E.
    + apply unsafe_detail_key_Some in E as (key & Hk & Hs). exists key. split; [|done]. eapply key_field; [left | exact Hk].
    + apply IH in H as (key & Hk & Hs). exists key. split; [|done].
      inversion Hk; subst; [eapply key_here; by right | eapply key_field; [by right | done]].
Qed.

Fixpoint contains_secret_iff (v : json) (secret : text) :
  contains_secret v secret = true ↔ ∃ t, spells v t ∧ stands_in secret t.
Proof.
  destruct v as [|b|n|f|t|items|fields]; cbn;
    try (split; [discriminate | intros (x & Hx & _); by inversion Hx]).
  - rewrite contains_iff. split; [eauto | intros (x & Hx & Hs); by inversion Hx; subst].
  - induction items as [|x items IH]; cbn.
    { split; [discriminate | intros (t & Ht & _); exfalso; inversion Ht; subst; by eapply not_elem_of_nil]. }
    rewrite orb_true_iff, contains_secret_iff, IH. split.
    + intros [(t & Ht & Hs)|(t & Ht & Hs)]; exists t; (split; [|done]);
        [eapply spells_item; [left | done] | inversion Ht; subst; eapply spells_item; [by right | done]].
    + intros (t & (v & [->|Hin]%elem_of_cons & Hv)%spells_list_inv & Hs); eauto.
  - induction fields as [|[k x] fields IH]; cbn.
    { split; [discriminate | intros (t & Ht & _); exfalso; inversion Ht; subst; by eapply not_elem_of_nil]. }
    rewrite !orb_true_iff, contains_iff, contains_secret_iff, IH. split.
    + intros [[Hk|(t & Ht & Hs)]|(t & Ht & Hs)].
      * exists (u k). split; [eapply spells_key; left | done].
      * exists t. split; [eapply spells_field; [left | done] | done].
      * exists t. split; [|done]. inversion Ht; subst; [eapply spells_key; by right | eapply spells_field; [by right | done]].
    + intros (t & (k' & v & [[= -> ->]|Hin]%elem_of_cons & [->|Hv])%spells_obj_inv & Hs); eauto 6.
Qed.

(** *** A secret's name in a key *)

Lemma split_camel_cons x y t : split_camel (x :: y :: t) =
  if is_lower_or_digit x && is_upper y then x :: 95 :: split_camel (y :: t) else x :: split_camel (y :: t).
Proof. done. Qed.
Lemma split_camel_app a t : ∃ a', split_camel (a ++ t) = a' ++ split_camel t.
Proof.
  induction a as [|x a [a' IH]]; [by exists []|].
  destruct a as [|y a].
  - destruct t as [|y t]; [by exists [x]|]. cbn [app]. rewrite (split_camel_cons x y). destruct (_ && _); [by exists [x; 95] | by exists [x]].
  - cbn [app] in *. rewrite (split_camel_cons x y), IH. destruct (_ && _); [by exists (x :: 95 :: a') | by exists (x :: a')].
Qed.
Lemma split_camel_keeps a t : ∃ t', split_camel (a ++ t) = split_camel a ++ t'.
Proof.
  induction a as [|x a [t' IH]]; [by exists (split_camel t)|]. destruct a as [|y a].
  - destruct t as [|y t]; [by exists []|]. cbn [app]. rewrite (split_camel_cons x y).
    destruct (_ && _); [by exists (95 :: split_camel (y :: t)) | by exists (split_camel (y :: t))].
  - cbn [app] in *. rewrite !(split_camel_cons x y), IH. destruct (_ && _); by exists t'.
Qed.
Lemma squash_others_app a t gap : ∃ gap', squash_others (a ++ t) gap = squash_others a gap ++ squash_others t gap'.
Proof.
  revert gap. induction a as [|x a IH]; intros gap; [by exists gap|]. cbn.
  destruct (is_lower_or_digit x); [|destruct gap]; edestruct IH as [gap' ->]; by exists gap'.
Qed.
Lemma drop_underscores_keeps a t : head t ≠ Some 95 → t ≠ [] → ∃ a', drop_underscores (a ++ t) = a' ++ t.
Proof.
  intros Hh Ht. induction a as [|x a [a' IH]]; cbn.
  - exists []. destruct t as [|c t]; [done|]. cbn in *. destruct (N.eqb_spec c 95); congruence.
  - destruct (x =? 95); [by exists a' | by exists (x :: a)].
Qed.

Lemma strip_underscores_keeps w t :
  w ≠ [] → head w ≠ Some 95 → head (rev w) ≠ Some 95 → stands_in w t →
  stands_in w (rev (drop_underscores (rev (drop_underscores t)))).
Proof.
  intros Hw Hh Hl (a & b & ->). destruct (drop_underscores_keeps a (w ++ b)) as [a' ->]; [by destruct w..|].
  rewrite !rev_app_distr, <- app_assoc.
  destruct (drop_underscores_keeps (rev b) (rev w ++ rev a')) as [b' ->].
  { destruct (rev w) eqn:E; [|done]. by apply (f_equal (@rev N)) in E; rewrite rev_involutive in E. }
  { intros [E _]%app_eq_nil. by apply (f_equal (@rev N)) in E; rewrite rev_involutive in E. }
  rewrite !rev_app_distr, !rev_involutive, <- app_assoc. by exists a', (rev b').
Qed.

Definition squashed (t : text) (gap : bool) : text := squash_others (concat (map casefold_cp (split_camel t))) gap.

(** What stands in a key is still found in its normal form. *)
Lemma normalized_key_keeps spelling key w :
  (∀ gap, squashed spelling gap = w) → w ≠ [] → head w ≠ Some 95 → head (rev w) ≠ Some 95 →
  stands_in spelling (u key) → stands_in w (normalized_key key).
Proof.
  intros Hsq Hw Hh Hl (a & b & E). apply strip_underscores_keeps; [done..|]. rewrite E.
  destruct (split_camel_app a (spelling ++ b)) as [a' ->]. destruct (split_camel_keeps spelling b) as [b' ->].
  rewrite !map_app, !concat_app. edestruct squash_others_app as [gap ->]. edestruct squash_others_app as [gap' ->].
  unfold squashed in Hsq. rewrite Hsq. by eexists _, _.
Qed.

(** The names of secrets, as keys spell them. *)
Definition secret_spellings : list string :=
  ["token"; "Token"; "TOKEN"; "password"; "Password"; "PASSWORD"; "secret"; "Secret"; "SECRET";
   "api_key"; "apiKey"; "ApiKey"; "api-key"; "API_KEY"; "API-KEY"; "apikey"; "APIKey"; "APIKEY";
   "authorization"; "Authorization"; "AUTHORIZATION"; "cookie"; "Cookie"; "COOKIE";
   "credential"; "Credential"; "CREDENTIAL"; "csrf"; "Csrf"; "CSRF"; "handoff"; "Handoff"; "HANDOFF";
   "session"; "Session"; "SESSION"; "signature"; "Signature"; "SIGNATURE"]%string.

Lemma spelling_caught spelling :
  spelling ∈ secret_spellings →
  ∃ w, w ∈ SECRET_KEY_PARTS ∧ (∀ gap, squashed (u spelling) gap = w) ∧ w ≠ [] ∧ head w ≠ Some 95 ∧ head (rev w) ≠ Some 95.
Proof.
  intros Hin. assert (let w := squashed (u spelling) false in
    bool_decide (w ∈ SECRET_KEY_PARTS ∧ squashed (u spelling) true = w ∧ w ≠ [] ∧ head w ≠ Some 95 ∧ head (rev w) ≠ Some 95) = true) as Hb.
  { revert spelling Hin. apply Forall_forall. repeat (apply Forall_cons; split; [vm_compute; reflexivity|]). apply Forall_nil_2. }
  apply bool_decide_eq_true in Hb as (Hw & Ht & Hr). exists (squashed (u spelling) false). split; [done|]. split; [|done].
  by intros [].
Qed.

Lemma spelling_secret spelling key : spelling ∈ secret_spellings → stands_in (u spelling) (u key) → secret_key key = true.
Proof.
  intros (w & Hw & Hsq & Hne & Hh & Hl)%spelling_caught Hs. apply existsb_exists. exists w.
  split; [by apply list_elem_of_In|]. apply contains_iff. by eapply normalized_key_keeps.
Qed.

(** The value scanned spells its field names, its fields and the details. *)
Lemma spells_activity_value action target_type target_id actor reason details t :
  spells (activity_value action target_type target_id actor reason details) t ↔
  t ∈ (u <$> ["action"; "targetType"; "targetId"; "actorId"; "reason"; "details"]%string) ++
      [action; target_type; target_id; actor; reason] ∨ spells (JObj details) t.
Proof.
  unfold activity_value. split.
  - intros Ht. inversion Ht as [|? ? ? Hin|? ? ? ? Hin Hv|]; subst;
      rewrite !elem_of_cons, elem_of_nil in Hin; destruct_or?; try done; simplify_eq;
      try (inversion Hv; subst); first [left; set_solver | by right].
  - intros [Ht|Ht]; [|eapply (spells_field "details"); [|exact Ht]; by do 5 right; left].
    rewrite elem_of_app, list_elem_of_fmap in Ht. destruct Ht as [(k & -> & Hk)|Hf].
    + rewrite !elem_of_cons, elem_of_nil in Hk. destruct_or?; try done; subst;
        eapply spells_key; eauto 8 using list_elem_of_here, list_elem_of_further.
    + rewrite !elem_of_cons, elem_of_nil in Hf. destruct_or?; try done; subst;
        (eapply spells_field; [|apply spells_text]); eauto 8 using list_elem_of_here, list_elem_of_further.
Qed.

Lemma record_activity_accepts env action tt' tid actor reason details secrets s :
  strip action ≠ [] → strip tt' ≠ [] → strip actor ≠ [] → strip reason ≠ [] →
  unsafe_detail_key (JObj details) [] = None →
  Forall (λ sec, sec = [] ∨
    contains_secret (activity_value (strip action) (strip tt') tid (strip actor) (strip reason)
      details) sec = false) secrets →
  record_activity env action tt' tid actor reason details secrets s =
    let entry := mkAuditEntry (st_next_uuid s) (strip action) (strip tt') tid (strip actor)
                   (strip reason) details (now env) in
    (Ok entry, s <| st_next_uuid := st_next_uuid s + 1 |> <| st_audit := st_audit s ++ [entry] |>).
Proof.
  intros Ha Ht Hc Hr Hs Hsec. unfold record_activity. cbv zeta.
  assert (∀ t, t ≠ [] → is_blank t = false) as Hb by (intros; by apply bool_decide_eq_false_2).
  rewrite (Hb _ Ha), (Hb _ Ht), (Hb _ Hc), (Hb _ Hr), Hs. clear Hb.
  replace (existsb _ secrets) with false; [reflexivity|]. symmetry. apply not_true_iff_false.
  intros (sec & Hin & Hb)%existsb_exists. apply list_elem_of_In in Hin.
  eapply Forall_forall in Hsec; [|exact Hin]. unfold is_blank in Hb.
  destruct Hsec as [-> |Hsec]; [done | by rewrite Hsec, andb_false_r in Hb].
Qed.

Lemma record_activity_refused env action tt' tid actor reason details secrets s x s' :
  record_activity env action tt' tid actor reason details secrets s = (Err x, s') → s' = s.
Proof.
  unfold record_activity. cbv zeta. intros Hrun.
  destruct (is_blank (strip action)); [exact (eq_sym (f_equal snd Hrun))|].
  destruct (is_blank (strip tt')); [exact (eq_sym (f_equal snd Hrun))|].
  destruct (is_blank (strip actor)); [exact (eq_sym (f_equal snd Hrun))|].
  destruct (is_blank (strip reason)); [exact (eq_sym (f_equal snd Hrun))|].
  destruct (unsafe_detail_key _ _); [exact (eq_sym (f_equal snd Hrun))|].
  destruct (existsb _ _); [exact (eq_sym (f_equal snd Hrun)) | discriminate (f_equal fst Hrun)].
Qed.

(** ** Properties *)

(** C40: An Audit Entry says who did what to which target and why, and no
    secret.  A call is recorded exactly when its arguments are in order: action,
    target type, actor and reason are not blank; no key of the details, at any
    depth, holds one of fourteen secret words in its normal form; and none of
    the known secrets stands in a field or its name, or in a text or key of the
    details.  No key of a recorded entry then holds the name of a secret in any
    of its usual spellings.  A recorded call adds this one entry to the end of
    the trail, and a refused one changes nothing. *)
Theorem record_activity_safe env action target_type target_id actor_id reason details secrets s :
  let run := record_activity env action target_type target_id actor_id reason details secrets s in
  let entry := mkAuditEntry (st_next_uuid s) (strip action) (strip target_type) target_id (strip actor_id)
                 (strip reason) details (now env) in
  let recorded := s <| st_next_uuid := st_next_uuid s + 1 |> <| st_audit := st_audit s ++ [entry] |> in
  let in_order :=
    strip action ≠ [] ∧ strip target_type ≠ [] ∧ strip actor_id ≠ [] ∧ strip reason ≠ [] ∧
    (∀ key word, key_within (JObj details) key →
       word ∈ ["access_token"; "api_key"; "apikey"; "authorization"; "cookie"; "credential"; "csrf"; "handoff";
               "password"; "refresh_token"; "secret"; "session"; "signature"; "token"]%string →
       ¬ stands_in (u word) (normalized_key key)) ∧
    (∀ secret t, secret ∈ secrets → secret ≠ [] →
       t ∈ (u <$> ["action"; "targetType"; "targetId"; "actorId"; "reason"; "details"]%string) ++
           [strip action; strip target_type; target_id; strip actor_id; strip reason] ∨ spells (JObj details) t →
       ¬ stands_in secret t) in
  (∀ e s', run = (Ok e, s') →
     e = entry ∧ s' = recorded ∧ in_order ∧
     ∀ key spelling, key_within (JObj details) key → spelling ∈ secret_spellings → ¬ stands_in (u spelling) (u key)) ∧
  (in_order → run = (Ok entry, recorded)) ∧
  (∀ x s', run = (Err x, s') → s' = s).
Proof.
  cbv zeta. split_and!.
  - intros e s' (?&?&?&?&Hu&Hsec&->&->)%record_activity_inv. apply unsafe_detail_key_None in Hu. split_and!; try done.
    + intros key word Hk Hw Hin%contains_iff. pose proof (safe_keys_within _ _ Hu Hk) as Hsafe.
      apply not_true_iff_false in Hsafe. apply Hsafe, existsb_exists. exists (u word). split; [|done].
      apply list_elem_of_In, list_elem_of_fmap. by exists word.
    + intros secret t Hin Hne Ht Hst. eapply Forall_forall in Hsec as [|Hsec]; [done| |exact Hin].
      apply not_true_iff_false in Hsec. apply Hsec, contains_secret_iff. exists t. split; [|done].
      by apply spells_activity_value.
    + intros key spelling Hk Hsp Hin. pose proof (safe_keys_within _ _ Hu Hk) as Hsafe.
      by rewrite (spelling_secret _ _ Hsp Hin) in Hsafe.
  - intros (Ha & Ht & Hc & Hr & Hkeys & Hsecrets). apply record_activity_accepts; [done..| |].
    + destruct (unsafe_detail_key _ _) eqn:E; [|done]. exfalso.
      apply unsafe_detail_key_Some in E as (key & Hk & (word & Hw & Hs%contains_iff)%existsb_exists).
      apply list_elem_of_In, list_elem_of_fmap in Hw as (name & -> & Hw). by eapply Hkeys.
    + apply Forall_forall. intros secret Hin. destruct (decide (secret = [])) as [|Hne]; [by left | right].
      apply not_true_iff_false. rewrite contains_secret_iff. intros (t & Hsp & Hst).
      apply spells_activity_value in Hsp. exact (Hsecrets _ _ Hin Hne Hsp Hst).
  - apply record_activity_refused.
Qed.

Definition example_activity : M Store AuditEntry :=
  record_activity example_env (u "customer_billing_updated") (u "customer") (u "7") (u " admin ")
    (u "pricing") [("after", JObj [("billingEnabled", JBool true)])]%string [u "s3cr3t"].

Lemma record_activity_safe_witness :
  ∃ e s', example_activity empty_store = (Ok e, s') ∧ ¬ stands_in (u "s3cr3t") (u "pricing") ∧
          ¬ stands_in (u "token") (u "billingEnabled").
Proof.
  destruct (example_activity empty_store) as [[e|] s'] eqn:E; [|vm_compute in E; discriminate E].
  exists e, s'. split; [done|].
  destruct (proj1 (record_activity_safe example_env (u "customer_billing_updated") (u "customer") (u "7") (u " admin ")
    (u "pricing") [("after", JObj [("billingEnabled", JBool true)])]%string [u "s3cr3t"] empty_store) e s' E)
    as (_ & _ & (_ & _ & _ & _ & _ & Hsecrets) & Hkeys).
  split.
  - apply (Hsecrets (u "s3cr3t") (u "pricing")); [left | discriminate | left].
    apply elem_of_app. right. vm_compute. by do 4 right; left.
  - apply (Hkeys "billingEnabled"%string "token"%string); [eapply key_field; [left | eapply key_here; left] | left].
Defined.

(** Keys of the kind the check exists for are refused however they are spelled. *)
Example refuses_camel_case_key : secret_key "newAccessToken" = true.
Proof. vm_compute; reflexivity. Qed.
Example accepts_plain_key : secret_key "leadRateCentsPerThousand" = false.
Proof. vm_compute; reflexivity. Qed.
