(* ===== verification/Jobs.v ===== *)
(** * [jawnix/jobs.py] and the milestone queue of [jawnix/milestone_emails.py]

    The durable job queue: kinds and worker lanes, enqueueing, and the claim
    that hands one ready job to one worker under a lock timeout. *)

From S2P Require Import Prelude PyText Models.
From stdpp Require relations.
From Stdlib Require String.

Open Scope Z_scope.

(** ** Lanes *)

Inductive Lane : Type :=
| LANE_DEFAULT | LANE_METRICS | LANE_FULFILLMENT | LANE_NOTIFICATIONS | LANE_MAINTENANCE
| LANE_IMPORTS.

#[export] Instance Lane_eq_dec : EqDecision Lane.
Proof. solve_decision. Defined.

Definition lane_value (l : Lane) : string :=
  match l with
  | LANE_DEFAULT => "default"
  | LANE_METRICS => "metrics"
  | LANE_FULFILLMENT => "fulfillment"
  | LANE_NOTIFICATIONS => "notifications"
  | LANE_MAINTENANCE => "maintenance"
  | LANE_IMPORTS => "imports"
  end.

Definition VALID_WORKER_LANES : list Lane :=
  [LANE_DEFAULT; LANE_METRICS; LANE_FULFILLMENT; LANE_NOTIFICATIONS; LANE_MAINTENANCE; LANE_IMPORTS].

Definition METRICS_JOB_KINDS : list string := ["emit_lead_assigned"]%string.
Definition IMPORT_JOB_KINDS : list string := ["import_lead_upload"]%string.
Definition FULFILLMENT_JOB_KINDS : list string :=
  ["allocate_request"; "fulfill_round_robin"; "telegram_action";
   "telegram_inventory_conflict_action"]%string.
Definition NOTIFICATION_JOB_KINDS : list string :=
  ["notify_request"; "update_notification"; "licensed_states_changed"; "deliver_request";
   "send_request_milestone_email"; "notify_nightly_review"; "update_nightly_review_notification";
   "notify_telegram_action_failure"]%string.

(** [kind in KINDS] *)
Definition kind_in (kind : string) (kinds : list string) : bool := existsb (String.eqb kind) kinds.

Section Normalize.
Context `{CaseMapping}.

Definition normalize_worker_lane (lane : option text) : outcome Lane :=
  let value := match lane with
               | None | Some [] => u (lane_value LANE_DEFAULT)
               | Some l => py_lower (strip l)
               end in
  match List.find (λ l, bool_decide (u (lane_value l) = value)) VALID_WORKER_LANES with
  | Some l => Ok l
  | None => Err (ValueError (u "Unknown worker lane"))
  end.
End Normalize.

Definition job_lane (kind : string) : Lane :=
  if kind_in kind METRICS_JOB_KINDS then LANE_METRICS
  else if kind_in kind FULFILLMENT_JOB_KINDS then LANE_FULFILLMENT
  else if kind_in kind NOTIFICATION_JOB_KINDS then LANE_NOTIFICATIONS
  else if kind_in kind IMPORT_JOB_KINDS then LANE_IMPORTS
  else LANE_MAINTENANCE.

(** [_lane_filter]: the condition on [Job.kind] a lane's worker claims under. *)
Definition lane_filter (lane : Lane) (kind : string) : bool :=
  match lane with
  | LANE_METRICS => kind_in kind METRICS_JOB_KINDS
  | LANE_FULFILLMENT => kind_in kind FULFILLMENT_JOB_KINDS
  | LANE_NOTIFICATIONS => kind_in kind NOTIFICATION_JOB_KINDS
  | LANE_IMPORTS => kind_in kind IMPORT_JOB_KINDS
  | LANE_MAINTENANCE =>
      negb (kind_in kind (METRICS_JOB_KINDS ++ FULFILLMENT_JOB_KINDS ++ NOTIFICATION_JOB_KINDS
                            ++ IMPORT_JOB_KINDS))
  | LANE_DEFAULT => negb (kind_in kind METRICS_JOB_KINDS)
  end.

(** ** Enqueueing *)

Definition new_job (env : Env) (id : Z) (kind : string) (request_id : option uuid)
    (payload : dict) : Job :=
  mkJob id kind request_id payload queued 0 (now env) None [] [] (now env).

Definition enqueue_job (env : Env) (kind : string) (request_id : option uuid) (payload : dict)
    : M Store Job :=
  id ← gets st_next_job;
  let job := new_job env id kind request_id payload in
  modify (λ s, s <| st_next_job := id + 1 |> <| st_jobs := <[id := job]> (st_jobs s) |>) ;;
  mret job.

(** [enqueue_job] for its effect. *)
Definition enqueue (env : Env) (kind : string) (request_id : option uuid) : M Store unit :=
  enqueue_job env kind request_id [] ;; mret tt.

(** ** Milestone emails *)

Definition MILESTONE_EMAIL_JOB : string := "send_request_milestone_email".

Definition MILESTONE_BY_STATUS (st : RequestStatus) : option string :=
  match st with
  | approved => Some "approval"
  | waiting_inventory => Some "waiting_inventory"
  | rejected => Some "rejection"
  | failed => Some "failure"
  | canceled => Some "canceled"
  | _ => None
  end%string.

(** The queued job of a request for one milestone, sent or not. *)
Definition is_milestone_job (request_id : uuid) (milestone : string) (j : Job) : bool :=
  String.eqb (jb_kind j) MILESTONE_EMAIL_JOB && bool_decide (jb_request_id j = Some request_id) &&
  match dict_get "milestone" (jb_payload j) with
  | Some (JStr m) => bool_decide (m = u milestone)
  | _ => false
  end.

Definition enqueue_milestone_email (env : Env) (request : LeadRequest) : M Store unit :=
  match MILESTONE_BY_STATUS (rq_status request) with
  | None => mret tt
  | Some milestone =>
      existing ← gets (λ s, (map_to_list (st_jobs s)).*2);
      if existsb (is_milestone_job (rq_id request) milestone) existing then mret tt
      else enqueue_job env MILESTONE_EMAIL_JOB (Some (rq_id request))
             [("milestone"%string, JStr (u milestone))] ;; mret tt
  end.

(** ** Backoff

    [index = min(max(attempts - 1, 0), len(DELAYS) - 1)], which the metrics and
    the Telegram jobs look up in their own tables. *)

Definition retry_delay (delays : list Z) (attempts : Z) : Z :=
  seconds (default 0 (delays !! Z.to_nat (Z.min (Z.max (attempts - 1) 0) (Z.of_nat (length delays) - 1)))).

(** ** Claiming *)

(** Ready now, or taken by a worker whose lock has gone stale. *)
Definition claimable (env : Env) (lock_timeout_seconds : Z) (lane : Lane) (j : Job) : bool :=
  lane_filter lane (jb_kind j) &&
  ((bool_decide (jb_status j = queued) && (jb_run_after j <=? now env)) ||
   (bool_decide (jb_status j = running) &&
    match jb_locked_at j with
    | Some t => t <=? now env - seconds lock_timeout_seconds
    | None => false
    end)).

(** [ORDER BY] of the claim: on the notification lane deliveries come first. *)
Definition claim_rank (lane : Lane) (j : Job) : Z :=
  match lane with
  | LANE_NOTIFICATIONS => if String.eqb (jb_kind j) "deliver_request" then 0 else 1
  | _ => 0
  end.

Definition claim_leb (lane : Lane) (a b : Job) : bool :=
  (claim_rank lane a <? claim_rank lane b) ||
  ((claim_rank lane a =? claim_rank lane b) &&
   ((jb_run_after a <? jb_run_after b) ||
    ((jb_run_after a =? jb_run_after b) && (jb_id a <=? jb_id b)))).

Definition claim_le (lane : Lane) (a b : Job) : Prop := claim_leb lane a b = true.
#[export] Instance claim_le_dec lane : RelDecision (claim_le lane).
Proof. intros a b. unfold claim_le. apply _. Defined.

Definition claim_candidates (env : Env) (timeout : Z) (lane : Lane) (s : Store) : list Job :=
  merge_sort (claim_le lane)
    (List.filter (λ j, claimable env timeout lane j && bool_decide (jb_id j ∉ locked_jobs env))
       (map_to_list (st_jobs s)).*2).

Definition claim_next_job (env : Env) (worker_id : text) (lock_timeout_seconds : Z) (lane : Lane)
    : M Store (option Job) :=
  candidates ← gets (claim_candidates env lock_timeout_seconds lane);
  match candidates with
  | [] => mret None
  | job :: _ =>
      let job' := job <| jb_status := running |> <| jb_locked_at := Some (now env) |>
                      <| jb_locked_by := worker_id |> <| jb_attempts := jb_attempts job + 1 |> in
      modify (λ s, s <| st_jobs := <[jb_id job := job']> (st_jobs s) |>) ;;
      mret (Some job')
  end.

Definition higher_priority_job_waiting (env : Env) (lane : Lane) (s : Store) : bool :=
  match lane with
  | LANE_METRICS => false
  | _ => existsb (λ j, bool_decide (jb_status j = queued) && (jb_run_after j <=? now env) &&
                       lane_filter lane (jb_kind j)) (map_to_list (st_jobs s)).*2
  end.

(** ** Lemmas *)

(** The primary key of a row is the key it is stored under. *)
Definition jobs_wf (s : Store) : Prop :=
  ∀ id j, st_jobs s !! id = Some j → jb_id j = id ∧ id < st_next_job s.

Lemma enqueue_job_run env kind rid payload s :
  enqueue_job env kind rid payload s =
    (Ok (new_job env (st_next_job s) kind rid payload),
     s <| st_next_job := st_next_job s + 1 |>
       <| st_jobs := <[st_next_job s := new_job env (st_next_job s) kind rid payload]> (st_jobs s) |>).
Proof. reflexivity. Qed.

Lemma enqueue_job_wf env kind rid payload : preserves jobs_wf (enqueue_job env kind rid payload).
Proof.
  intros s Hs. rewrite enqueue_job_run. intros id j. cbn. rsimpl.
  rewrite lookup_insert. case_decide as E; [intros [= <-]; cbn; lia|].
  intros ?%Hs. lia.
Qed.

(** Enqueueing touches only the queue. *)
Lemma enqueue_job_frame {A} (proj : Store → A) env kind rid payload x :
  (∀ s v, proj (s <| st_next_job := v |>) = proj s) →
  (∀ s v, proj (s <| st_jobs := v |>) = proj s) →
  preserves (λ s, proj s = x) (enqueue_job env kind rid payload).
Proof. intros H1 H2 s Hs. rewrite enqueue_job_run. cbn. by rewrite H2, H1. Qed.

Lemma enqueue_frame {A} (proj : Store → A) env kind rid x :
  (∀ s v, proj (s <| st_next_job := v |>) = proj s) →
  (∀ s v, proj (s <| st_jobs := v |>) = proj s) →
  preserves (λ s, proj s = x) (enqueue env kind rid).
Proof. intros. apply pres_bind; [by apply enqueue_job_frame | intros; apply pres_ret]. Qed.

Lemma enqueue_milestone_email_frame {A} (proj : Store → A) env req x :
  (∀ s v, proj (s <| st_next_job := v |>) = proj s) →
  (∀ s v, proj (s <| st_jobs := v |>) = proj s) →
  preserves (λ s, proj s = x) (enqueue_milestone_email env req).
Proof.
  intros. unfold enqueue_milestone_email. destruct (MILESTONE_BY_STATUS _); [|apply pres_ret].
  apply pres_bind; [apply pres_gets|]. intros l. apply pres_if; [apply pres_ret|].
  apply pres_bind; [by apply enqueue_job_frame | intros; apply pres_ret].
Qed.

#[export] Hint Extern 0 (preserves _ (enqueue_job _ _ _ _)) => (apply enqueue_job_frame; reflexivity) : pres.
#[export] Hint Extern 0 (preserves _ (enqueue _ _ _)) => (apply enqueue_frame; reflexivity) : pres.
#[export] Hint Extern 0 (preserves _ (enqueue_milestone_email _ _)) =>
  (apply enqueue_milestone_email_frame; reflexivity) : pres.

Lemma enqueue_job_total env kind rid payload : total (enqueue_job env kind rid payload).
Proof. unfold enqueue_job. auto with total. Qed.
Lemma enqueue_total env kind rid : total (enqueue env kind rid).
Proof. apply total_bind; [apply enqueue_job_total | auto with total]. Qed.
Lemma enqueue_milestone_email_total env req : total (enqueue_milestone_email env req).
Proof.
  unfold enqueue_milestone_email. destruct (MILESTONE_BY_STATUS _); [|auto with total].
  apply total_bind; [auto with total|]. intros l. apply total_if; [auto with total|].
  apply total_bind; [apply enqueue_job_total | auto with total].
Qed.
#[export] Hint Resolve enqueue_job_total enqueue_total enqueue_milestone_email_total : total.

#[export] Instance claim_le_total lane : Total (claim_le lane).
Proof.
  intros a b. unfold claim_le, claim_leb.
  rewrite !orb_true_iff, !andb_true_iff, !orb_true_iff, !andb_true_iff, !Z.ltb_lt, !Z.eqb_eq,
    !Z.leb_le. lia.
Qed.

#[export] Instance claim_le_trans lane : Transitive (claim_le lane).
Proof.
  intros a b c. unfold claim_le, claim_leb.
  rewrite !orb_true_iff, !andb_true_iff, !orb_true_iff, !andb_true_iff, !Z.ltb_lt, !Z.eqb_eq,
    !Z.leb_le. lia.
Qed.

Lemma elem_of_claim_candidates env timeout lane s j :
  j ∈ claim_candidates env timeout lane s ↔
  (∃ id, st_jobs s !! id = Some j) ∧ claimable env timeout lane j = true ∧ jb_id j ∉ locked_jobs env.
Proof.
  unfold claim_candidates. rewrite (merge_sort_Permutation (claim_le lane)).
  rewrite list_elem_of_In, filter_In, <- list_elem_of_In, andb_true_iff, bool_decide_eq_true.
  rewrite list_elem_of_fmap. setoid_rewrite elem_of_map_to_list'.
  split; [intros [([id j'] & -> & ?) ?]; eauto | intros [[id ?] ?]; split; [|done]].
  by exists (id, j).
Qed.

Lemma claim_next_job_inv env worker timeout lane s s' r :
  jobs_wf s →
  claim_next_job env worker timeout lane s = (Ok r, s') →
  match r with
  | None => s' = s ∧ (∀ id j, st_jobs s !! id = Some j → claimable env timeout lane j = true →
                              id ∈ locked_jobs env)
  | Some j' => ∃ j,
      st_jobs s !! jb_id j = Some j ∧ claimable env timeout lane j = true ∧
      (jb_id j ∉ locked_jobs env) ∧
      (∀ id k, st_jobs s !! id = Some k → claimable env timeout lane k = true →
               id ∉ locked_jobs env → claim_le lane j k) ∧
      j' = j <| jb_status := running |> <| jb_locked_at := Some (now env) |>
             <| jb_locked_by := worker |> <| jb_attempts := jb_attempts j + 1 |> ∧
      s' = s <| st_jobs := <[jb_id j := j']> (st_jobs s) |>
  end.
Proof.
  intros Hwf. unfold claim_next_job. intros H.
  pose proof (elem_of_claim_candidates env timeout lane s) as Hin.
  assert (StronglySorted (claim_le lane) (claim_candidates env timeout lane s)) as Hsort.
  { apply (StronglySorted_merge_sort (claim_le lane)). }
  apply bind_Ok_inv in H as (c & s1 & Hg & H). apply gets_Ok_inv in Hg as [-> ->].
  destruct (claim_candidates env timeout lane s) as [|j rest]; run_inv.
  - split; [done|]. intros id j Hj Hc. destruct (decide (id ∈ locked_jobs env)); [done|].
    exfalso. apply (not_elem_of_nil j), Hin. split_and!; eauto. by rewrite (proj1 (Hwf _ _ Hj)).
  - assert (j ∈ j :: rest) as ((id & Hj) & Hc & Hl)%Hin by constructor.
    pose proof (Hwf _ _ Hj) as [<- _]. exists j. split_and!; try done.
    intros id k Hk Hck Hlk. assert (k ∈ j :: rest) as [->|Hr]%elem_of_cons.
    + apply Hin. split_and!; eauto. by rewrite (proj1 (Hwf _ _ Hk)).
    + pose proof (claim_le_total lane j j) as []; done.
    + apply StronglySorted_inv in Hsort as [_ Hall]. by eapply Forall_forall in Hr; [|exact Hall].
Qed.

Lemma claim_next_job_total env worker timeout lane s :
  ∃ r s', claim_next_job env worker timeout lane s = (Ok r, s').
Proof.
  unfold claim_next_job, mbind, M_bind, gets. destruct (claim_candidates _ _ _ _); cbn; eauto.
Qed.

Lemma claim_next_job_wf env worker timeout lane : preserves jobs_wf (claim_next_job env worker timeout lane).
Proof.
  intros s Hs. destruct (claim_next_job_total env worker timeout lane s) as (r & s' & E).
  rewrite E. cbn. apply (claim_next_job_inv _ _ _ _ _ _ _ Hs) in E.
  destruct r as [j'|]; [|by destruct E as [-> _]].
  destruct E as (j & Hj & _ & _ & _ & -> & ->). intros id k. rsimpl. rewrite lookup_insert.
  case_decide as D; [|apply Hs]. intros [= <-]. rsimpl. pose proof (Hs _ _ Hj). by subst.
Qed.

(** ** What may happen between two claims

    While a worker works on the job it holds: workers claim, at instants before
    the deadline; jobs are enqueued; and any other transaction runs, as long as
    it leaves the row of that job alone. *)
Inductive queue_step (timeout deadline held : Z) : Store → Store → Prop :=
| queue_claim env worker lane s r s' :
    now env < deadline → claim_next_job env worker timeout lane s = (r, s') → queue_step timeout deadline held s s'
| queue_enqueue env kind request_id payload s r s' :
    enqueue_job env kind request_id payload s = (r, s') → queue_step timeout deadline held s s'
| queue_elsewhere s s' :
    jobs_wf s' → st_jobs s' !! held = st_jobs s !! held → queue_step timeout deadline held s s'.

Definition locked_until (deadline timeout : Z) (j : Job) : Prop :=
  jb_status j = running ∧ ∃ t, jb_locked_at j = Some t ∧ deadline <= t + seconds timeout.

(** A claim before the deadline passes over a locked job. *)
Lemma claim_passes_locked env worker timeout lane deadline s j k s' :
  jobs_wf s → st_jobs s !! jb_id j = Some j → locked_until deadline timeout j → now env < deadline →
  claim_next_job env worker timeout lane s = (Ok (Some k), s') →
  jb_id k ≠ jb_id j ∧ st_jobs s' !! jb_id j = Some j.
Proof.
  intros Hwf Hj (Hr & t & Hlock & Hd) Ht Hc. apply claim_next_job_inv in Hc as (k0 & Hk0 & Hc & _ & _ & -> & ->); [|done].
  assert (jb_id k0 ≠ jb_id j) as Hne.
  { intros E. rewrite E, Hj in Hk0. injection Hk0 as <-. revert Hc. unfold claimable. rewrite Hr, Hlock.
    rewrite andb_true_iff, orb_true_iff, !andb_true_iff.
    intros [_ [[Hq _]|[_ Hl%Z.leb_le]]]; [by apply bool_decide_eq_true in Hq | lia]. }
  rsimpl. split; [done|]. by rewrite lookup_insert_ne.
Qed.

Lemma queue_step_holds timeout deadline s s' j :
  locked_until deadline timeout j → queue_step timeout deadline (jb_id j) s s' →
  jobs_wf s → st_jobs s !! jb_id j = Some j → jobs_wf s' ∧ st_jobs s' !! jb_id j = Some j.
Proof.
  intros Hl Hs Hwf Hj. destruct Hs as [env worker lane s r s' Ht Hc|env kind rid payload s r s' He|s s' Hwf' Hsame].
  - split; [by pose proof (claim_next_job_wf env worker timeout lane s Hwf) as H; rewrite Hc in H|].
    destruct (claim_next_job_total env worker timeout lane s) as (r' & s2 & E). rewrite Hc in E. injection E as -> ->.
    destruct r' as [k|]; [by apply (claim_passes_locked env worker timeout lane deadline s j k)|].
    by apply claim_next_job_inv in Hc as [-> _].
  - split; [by pose proof (enqueue_job_wf env kind rid payload s Hwf) as H; rewrite He in H|].
    rewrite enqueue_job_run in He. injection He as <- <-. cbn. rsimpl.
    rewrite lookup_insert_ne; [done|]. apply Hwf in Hj as [_ Hj]. lia.
  - by rewrite Hsame.
Qed.

Lemma queue_run_holds timeout deadline s s' j :
  locked_until deadline timeout j → relations.rtc (queue_step timeout deadline (jb_id j)) s s' →
  jobs_wf s → st_jobs s !! jb_id j = Some j → jobs_wf s' ∧ st_jobs s' !! jb_id j = Some j.
Proof.
  intros Hl Hrun. induction Hrun as [|s s1 s' Hs _ IH]; [done|]. intros Hwf Hj.
  destruct (queue_step_holds _ _ _ _ _ Hl Hs Hwf Hj). by apply IH.
Qed.

(** ** Properties *)

(** every job kind is claimed by exactly one of the five dedicated lanes,
    the one [job_lane] names; the compatibility lane takes every kind but the
    metrics ones. *)
Theorem lanes_partition_kinds kind lane :
  (lane ≠ LANE_DEFAULT → (lane_filter lane kind = true ↔ lane = job_lane kind)) ∧
  job_lane kind ≠ LANE_DEFAULT ∧
  (lane_filter LANE_DEFAULT kind = true ↔ job_lane kind ≠ LANE_METRICS).
Proof.
  unfold job_lane, lane_filter, kind_in. rewrite !existsb_app.
  destruct (existsb (String.eqb kind) METRICS_JOB_KINDS) eqn:E1.
  { assert (kind = "emit_lead_assigned"%string) as ->.
    { unfold METRICS_JOB_KINDS in E1. cbn in E1. rewrite orb_false_r in E1.
      by apply String.eqb_eq. }
    cbn. destruct lane; naive_solver. }
  destruct (existsb (String.eqb kind) FULFILLMENT_JOB_KINDS) eqn:E2.
  { assert (existsb (String.eqb kind) NOTIFICATION_JOB_KINDS = false ∧
            existsb (String.eqb kind) IMPORT_JOB_KINDS = false) as [-> ->].
    { apply existsb_exists in E2 as (k & Hk & ->%String.eqb_eq).
      repeat (destruct Hk as [<-|Hk]; [by vm_compute|]). done. }
    destruct lane; naive_solver. }
  destruct (existsb (String.eqb kind) NOTIFICATION_JOB_KINDS) eqn:E3.
  { assert (existsb (String.eqb kind) IMPORT_JOB_KINDS = false) as ->.
    { apply existsb_exists in E3 as (k & Hk & ->%String.eqb_eq).
      repeat (destruct Hk as [<-|Hk]; [by vm_compute|]). done. }
    destruct lane; naive_solver. }
  destruct (existsb (String.eqb kind) IMPORT_JOB_KINDS); destruct lane; naive_solver.
Qed.

(** a claim answers nothing exactly when no unlocked job of the lane is
    ready or stale; otherwise it takes the first of them in claim order, marks
    it running under this worker with one more attempt, and leaves every other
    job as it was. *)
Theorem claim_next_job_spec env worker timeout lane s s' r :
  jobs_wf s →
  claim_next_job env worker timeout lane s = (Ok r, s') →
  match r with
  | None => s' = s ∧ (∀ id j, st_jobs s !! id = Some j → claimable env timeout lane j = true →
                              id ∈ locked_jobs env)
  | Some j' => ∃ j,
      st_jobs s !! jb_id j = Some j ∧ claimable env timeout lane j = true ∧
      (jb_id j ∉ locked_jobs env) ∧
      (∀ id k, st_jobs s !! id = Some k → claimable env timeout lane k = true →
               id ∉ locked_jobs env → claim_le lane j k) ∧
      j' = j <| jb_status := running |> <| jb_locked_at := Some (now env) |>
             <| jb_locked_by := worker |> <| jb_attempts := jb_attempts j + 1 |> ∧
      s' = s <| st_jobs := <[jb_id j := j']> (st_jobs s) |>
  end.
Proof. apply claim_next_job_inv. Qed.

(** C29: A job one worker has claimed is nobody else's while its lock lasts.
    Whatever happens to the queue in between, claims by other workers of any
    lane included, as long as nothing settles or requeues this job its row
    stays as the claim left it, no claim before the lock timeout answers it
    again, and from the timeout on every worker of its lane may. *)
Theorem claim_next_job_exclusive env env' worker worker' timeout lane lane' s s1 s2 j :
  jobs_wf s →
  claim_next_job env worker timeout lane s = (Ok (Some j), s1) →
  relations.rtc (queue_step timeout (now env + seconds timeout) (jb_id j)) s1 s2 →
  st_jobs s2 !! jb_id j = Some j ∧ jb_locked_by j = worker ∧
  (now env' < now env + seconds timeout → ∀ k s3,
     claim_next_job env' worker' timeout lane' s2 = (Ok (Some k), s3) →
     jb_id k ≠ jb_id j ∧ st_jobs s3 !! jb_id j = Some j) ∧
  (now env + seconds timeout ≤ now env' → claimable env' timeout lane j = true).
Proof.
  intros Hwf H1 Hrun. pose proof (claim_next_job_wf env worker timeout lane s Hwf) as Hwf1.
  rewrite H1 in Hwf1. apply claim_next_job_inv in H1 as (j0 & Hj0 & Hc & _ & _ & Hj & Hs1); [|done].
  assert (locked_until (now env + seconds timeout) timeout j) as Hl by (subst j; split; rsimpl; [done|]; eexists; split; [done|lia]).
  assert (jobs_wf s2 ∧ st_jobs s2 !! jb_id j = Some j) as [Hwf2 Hs2].
  { refine (queue_run_holds _ _ _ _ _ Hl Hrun Hwf1 _). rewrite Hs1, Hj. rsimpl. apply lookup_insert_eq. }
  split_and!; [done | by rewrite Hj | |].
  - intros Ht k s3 H3. exact (claim_passes_locked _ _ _ _ _ _ _ _ _ Hwf2 Hs2 Hl Ht H3).
  - intros Ht. unfold claimable in *. apply andb_true_iff in Hc as [Hc _]. rewrite Hj. rsimpl. rewrite Hc. cbn.
    apply orb_true_iff. right. apply Z.leb_le. lia.
Qed.

(** *** Concrete runs *)

(** A queue with a milestone email and, behind it, a delivery. *)
Definition example_queue : Store :=
  snd ((enqueue_job example_env MILESTONE_EMAIL_JOB None [] ;;
   enqueue example_env "deliver_request" None)
    empty_store).

Lemma example_queue_wf : jobs_wf example_queue.
Proof.
  unfold example_queue. apply pres_bind; [apply enqueue_job_wf | | by intros ??].
  intros _. apply pres_bind; [apply enqueue_job_wf | intros; apply pres_ret].
Qed.

Lemma claim_next_job_spec_witness :
  ∃ j s', claim_next_job example_env (u "w1") 300 LANE_NOTIFICATIONS example_queue
            = (Ok (Some j), s') ∧
          ∃ j0, st_jobs example_queue !! jb_id j0 = Some j0 ∧
                claimable example_env 300 LANE_NOTIFICATIONS j0 = true.
Proof.
  destruct (claim_next_job example_env (u "w1") 300 LANE_NOTIFICATIONS example_queue)
    as [[[j|]|e] s'] eqn:E; [|vm_compute in E; discriminate E..].
  exists j, s'. split; [done|].
  destruct (claim_next_job_spec _ _ _ _ _ _ _ example_queue_wf E) as (j0 & H1 & H2 & _).
  exact (ex_intro _ j0 (conj H1 H2)).
Defined.

(** While one worker holds the delivery, another job is queued, a second worker
    takes the email, and a third finds only the new one. *)
Lemma claim_next_job_exclusive_witness :
  ∃ j s1 k s2 s3,
    claim_next_job example_env (u "w1") 300 LANE_NOTIFICATIONS example_queue = (Ok (Some j), s1) ∧
    relations.rtc (queue_step 300 (now example_env + seconds 300) (jb_id j)) s1 s2 ∧ s2 ≠ s1 ∧
    claim_next_job example_env (u "w3") 300 LANE_DEFAULT s2 = (Ok (Some k), s3) ∧ jb_id k ≠ jb_id j.
Proof.
  destruct (claim_next_job example_env (u "w1") 300 LANE_NOTIFICATIONS example_queue)
    as [[[j|]|e] s1] eqn:E1; [|vm_compute in E1; discriminate E1..].
  destruct (enqueue_job example_env "purge" None [] s1) as [r s2] eqn:E2.
  destruct (claim_next_job example_env (u "w2") 300 LANE_NOTIFICATIONS s2) as [r' s3] eqn:E3.
  destruct (claim_next_job example_env (u "w3") 300 LANE_DEFAULT s3)
    as [[[k|]|e] s4] eqn:E4;
    [|vm_compute in E1; injection E1 as <- <-; vm_compute in E2; injection E2 as <- <-; vm_compute in E3;
      injection E3 as <- <-; vm_compute in E4; discriminate E4..].
  assert (relations.rtc (queue_step 300 (now example_env + seconds 300) (jb_id j)) s1 s3) as Hrun.
  { eapply relations.rtc_l; [exact (queue_enqueue _ _ _ _ _ _ _ _ _ _ E2)|].
    eapply relations.rtc_l; [refine (queue_claim _ _ _ _ _ _ _ _ _ _ E3); vm_compute; reflexivity | apply relations.rtc_refl]. }
  exists j, s1, k, s3, s4. split; [done|]. split; [done|]. split.
  { intros E. apply (f_equal st_next_job) in E. revert E. clear E4 Hrun.
    vm_compute in E1. injection E1 as <- <-. vm_compute in E2. injection E2 as <- <-. vm_compute in E3.
    injection E3 as <- <-. vm_compute. discriminate. }
  split; [done|].
  refine (proj1 (proj1 (proj2 (proj2 (claim_next_job_exclusive example_env example_env (u "w1") (u "w3") 300
    LANE_NOTIFICATIONS LANE_DEFAULT example_queue s1 s3 j example_queue_wf E1 Hrun))) _ k s4 E4)).
  vm_compute. reflexivity.
Defined.
