(* ===== verification/LeadDatabases.v ===== *)
(** * [jawnix/lead_databases.py]: which inventory a Customer draws from

    Routing between the scraped inventory (DB1) and the uploaded one (DB2),
    and the chunked read of the immutable DB2 listings. *)

From S2P Require Import Prelude PyText Models.

(** [inventory_database]: a row without a database is a DB1 row. *)
Definition inventory_database (customer : Customer) : Database :=
  default db1 (cu_lead_database customer).

(** [inventory_scope]: the rows the scoped query starts from.  The inner join
    with the membership table drops Leads without one. *)
Definition inventory_scope (s : Store) (database : Database) (lead : Lead) : bool :=
  match database with
  | db2 => bool_decide (is_Some (st_memberships s !! ld_id lead))
  | db1 => ld_in_db1 lead
  end.

(** [inventory_state]: a correction outranks the uploaded listing's state. *)
Definition inventory_state (s : Store) (database : Database) (lead : Lead) : option text :=
  match database with
  | db2 => if bool_decide (is_Some (ld_active_correction_id lead)) then Some (ld_state lead)
           else mb_state <$> st_memberships s !! ld_id lead
  | db1 => Some (ld_state lead)
  end.

Record SourceListing : Type := mkSourceListing {
  sl_phone : text;
  sl_title : text;
  sl_state : text;
  sl_provenance : dict;
  sl_source_kind : text;
  sl_segment_key : text;
  sl_niche : text
}.

(** The listing of one row of the foreign table. *)
Definition listing_of_row (row : Db2Row) : SourceListing :=
  mkSourceListing (d2_phone row) (d2_title row) (d2_state row)
    [("kind", JStr (u "csv_upload")); ("database", JStr (u "db2"));
     ("uploadId", JStr (str_of_uuid (d2_upload_id row)));
     ("ownerId", JStr (str_of_uuid (d2_owner_id row)));
     ("rowNumber", JNum (d2_row_number row))]%string
    (u "csv_upload") (u "db2") [].

(** [keys[offset:offset + 1000] for offset in range(0, len(keys), 1000)] *)
Fixpoint chunks {A} (fuel size : nat) (l : list A) : list (list A) :=
  match fuel, l with
  | O, _ | _, [] => []
  | S fuel, _ => take size l :: chunks fuel size (drop size l)
  end.

(** [grouped]: the chunk's Lead ids by upload. *)
Definition group_keys (keys : list (Z * uuid)) : list (uuid * list Z) := group_by snd fst keys.

(** The [WHERE] of one chunk: a disjunction over the groups. *)
Definition in_groups (grouped : list (uuid * list Z)) (row : Db2Row) : bool :=
  existsb (λ '(upload_id, lead_ids),
    bool_decide (d2_upload_id row = upload_id) && bool_decide (d2_lead_id row ∈ lead_ids)) grouped.

Definition chunk_rows (s : Store) (keys : list (Z * uuid)) : list Db2Row :=
  List.filter (in_groups (group_keys keys)) (map_to_list (st_db2_rows s)).*2.

Definition db2_listings (s : Store) (source_keys : list (Z * uuid)) : gmap Z SourceListing :=
  foldl (λ result keys,
    foldl (λ result row, <[d2_lead_id row := listing_of_row row]> result) result (chunk_rows s keys))
    ∅ (chunks (length source_keys) 1000 source_keys).

(** ** Lemmas *)

(** The primary key of a DB2 row is the key it is stored under. *)
Definition db2_wf (s : Store) : Prop :=
  ∀ k row, st_db2_rows s !! k = Some row → k = (d2_lead_id row, d2_upload_id row).

Lemma concat_chunks {A} size fuel (l : list A) :
  (0 < size)%nat → (length l ≤ fuel)%nat → mjoin (chunks fuel size l) = l.
Proof.
  intros Hs. revert l. induction fuel as [|fuel IH]; intros l Hl; cbn.
  { destruct l; [done | cbn in Hl; lia]. }
  destruct l as [|x l]; [done|]. change (take size (x :: l) ++ mjoin (chunks fuel size (drop size (x :: l))) = x :: l). rewrite IH; [apply take_drop|].
  rewrite length_drop. cbn in *. lia.
Qed.

Lemma chunks_bound {A} fuel size (l : list A) part :
  (0 < size)%nat → part ∈ chunks fuel size l → part ≠ [] ∧ (length part ≤ size)%nat.
Proof.
  intros Hs. revert l. induction fuel as [|fuel IH]; intros l Hp; cbn in Hp; [by apply not_elem_of_nil in Hp|].
  destruct l as [|x l]; [by apply not_elem_of_nil in Hp|].
  apply elem_of_cons in Hp as [->|Hp]; [|by eapply IH]. split; [|rewrite length_take; lia].
  destruct size; [lia | done].
Qed.

Lemma group_keys_spec keys up id :
  (∃ ids, (up, ids) ∈ group_keys keys ∧ id ∈ ids) ↔ (id, up) ∈ keys.
Proof.
  unfold group_keys. setoid_rewrite elem_of_group_by. split.
  - intros (ids & [-> _] & ([i p] & -> & Hin)%list_elem_of_fmap).
    apply list_elem_of_In, filter_In in Hin as [?%list_elem_of_In E%bool_decide_eq_true].
    cbn in *. by subst.
  - intros Hin. assert (id ∈ fst <$> List.filter (λ a, bool_decide (a.2 = up)) keys) as Hid.
    { apply list_elem_of_fmap. exists (id, up). split; [done|]. apply list_elem_of_In, filter_In.
      by rewrite <- list_elem_of_In, bool_decide_eq_true. }
    eexists. split; [split; [reflexivity|] | exact Hid].
    intros E. rewrite E in Hid. by apply not_elem_of_nil in Hid.
Qed.

Lemma elem_of_chunk_rows s keys row :
  db2_wf s →
  row ∈ chunk_rows s keys ↔
  st_db2_rows s !! (d2_lead_id row, d2_upload_id row) = Some row ∧
  (d2_lead_id row, d2_upload_id row) ∈ keys.
Proof.
  intros Hwf. unfold chunk_rows. rewrite list_elem_of_In, filter_In, <- list_elem_of_In.
  rewrite <- (group_keys_spec keys). unfold in_groups. rewrite existsb_exists.
  rewrite list_elem_of_fmap. split.
  - intros [([k r] & -> & Hr%elem_of_map_to_list) ([up ids] & Hin%list_elem_of_In & Hb)].
    apply andb_true_iff in Hb as [Hu%bool_decide_eq_true Hi%bool_decide_eq_true]. cbn in *.
    pose proof (Hwf _ _ Hr). subst. eauto.
  - intros [Hr (ids & Hin & Hi)]. split.
    + exists ((d2_lead_id row, d2_upload_id row), row). by rewrite elem_of_map_to_list.
    + exists (d2_upload_id row, ids). split; [by apply list_elem_of_In|].
      by rewrite !bool_decide_eq_true_2.
Qed.

(** Inserting the rows of a list one after the other. *)
Lemma lookup_insert_rows (rows : list Db2Row) (acc : gmap Z SourceListing) id :
  (∀ r1 r2, r1 ∈ rows → r2 ∈ rows → d2_lead_id r1 = d2_lead_id r2 → r1 = r2) →
  (foldl (λ result row, <[d2_lead_id row := listing_of_row row]> result) acc rows) !! id =
  match List.find (λ r, bool_decide (d2_lead_id r = id)) rows with
  | Some r => Some (listing_of_row r)
  | None => acc !! id
  end.
Proof.
  revert acc. induction rows as [|r rows IH]; intros acc Hinj; [done|]. cbn.
  rewrite IH by (intros; apply Hinj; set_solver).
  destruct (List.find _ rows) as [r'|] eqn:F.
  - apply find_some in F as [Hin%list_elem_of_In E%bool_decide_eq_true].
    case_bool_decide as D; [|done]. f_equal. f_equal. symmetry. apply Hinj; [set_solver..|congruence].
  - rewrite lookup_insert. case_decide; case_bool_decide; congruence.
Qed.

(** The rows read over all chunks. *)
Definition selected_rows (s : Store) (keys : list (Z * uuid)) : list Db2Row :=
  mjoin (chunk_rows s <$> chunks (length keys) 1000 keys).

Lemma elem_of_selected_rows s keys row :
  db2_wf s →
  row ∈ selected_rows s keys ↔
  st_db2_rows s !! (d2_lead_id row, d2_upload_id row) = Some row ∧
  (d2_lead_id row, d2_upload_id row) ∈ keys.
Proof.
  intros Hwf. unfold selected_rows.
  assert (mjoin (chunks (length keys) 1000 keys) = keys) as Hc by (apply concat_chunks; lia).
  revert Hc. generalize (chunks (length keys) 1000 keys). intros chs <-.
  rewrite !list_elem_of_join. setoid_rewrite list_elem_of_fmap. split.
  - intros (l & Hr & ch & -> & Hch). apply elem_of_chunk_rows in Hr as [? ?]; eauto.
  - intros [Hr (ch & Hk & Hch)]. exists (chunk_rows s ch). split; [|eauto].
    by apply elem_of_chunk_rows.
Qed.

Lemma db2_listings_rows s keys :
  db2_listings s keys =
  foldl (λ result row, <[d2_lead_id row := listing_of_row row]> result) ∅ (selected_rows s keys).
Proof.
  unfold db2_listings, selected_rows. generalize (∅ : gmap Z SourceListing).
  induction (chunks _ _ _) as [|ch l IH]; intros acc; [done|]. cbn.
  by rewrite IH, foldl_app.
Qed.

(** ** Properties *)

(** the DB2 read answers, for each selected Lead, exactly the immutable
    row of the version selected with its lock, whatever the number of chunks
    the selection is read in; a Lead that was not selected is not in it. *)
Theorem db2_listings_spec s keys :
  db2_wf s → NoDup keys.*1 →
  ∀ lead_id, db2_listings s keys !! lead_id =
    match List.find (λ k, bool_decide (k.1 = lead_id)) keys with
    | Some k => listing_of_row <$> st_db2_rows s !! k
    | None => None
    end.
Proof.
  intros Hwf Hnd lead_id. rewrite db2_listings_rows.
  pose proof (elem_of_selected_rows s keys) as Hin.
  assert (∀ k k', k ∈ keys → k' ∈ keys → k.1 = k'.1 → k = k') as Hinj.
  { intros k k' [i Hi]%list_elem_of_lookup [j Hj]%list_elem_of_lookup E.
    assert (i = j); [|congruence].
    apply (NoDup_lookup keys.*1 i j k.1); [done| |]; rewrite list_lookup_fmap, ?Hi, ?Hj; cbn; congruence. }
  rewrite lookup_insert_rows.
  2:{ intros r1 r2 [E1 H1]%Hin [E2 H2]%Hin E; [|done..].
      pose proof (Hinj _ _ H1 H2 E). congruence. }
  destruct (List.find _ keys) as [[i p]|] eqn:Fk.
  - apply find_some in Fk as [Hk%list_elem_of_In Ei%bool_decide_eq_true]. cbn in Ei. subst i.
    destruct (List.find _ (selected_rows _ _)) as [r|] eqn:Fr.
    + apply find_some in Fr as [Hr%list_elem_of_In Er%bool_decide_eq_true].
      apply Hin in Hr as [Hst Hrk]; [|done].
      pose proof (Hinj _ _ Hk Hrk (eq_sym Er)) as ->. by rewrite Hst.
    + destruct (st_db2_rows s !! (lead_id, p)) as [r|] eqn:Hst; [|done]. exfalso.
      pose proof (Hwf _ _ Hst) as [= -> ->].
      assert (r ∈ selected_rows s keys) as Hr%list_elem_of_In by (apply Hin; eauto).
      apply (find_none _ _ Fr) in Hr. by rewrite bool_decide_eq_true_2 in Hr.
  - destruct (List.find _ (selected_rows _ _)) as [r|] eqn:Fr; [|by rewrite lookup_empty].
    apply find_some in Fr as [Hr%list_elem_of_In Er%bool_decide_eq_true].
    apply Hin in Hr as [_ Hrk%list_elem_of_In]; [|done].
    apply (find_none _ _ Fk) in Hrk. cbn in Hrk. by rewrite bool_decide_eq_true_2 in Hrk.
Qed.

Definition example_db2_row : Db2Row :=
  mkDb2Row 7 1%N (u "2155550100") (u "Alex Plumbing") (u "PA") 3 9%N.
Definition example_db2 : Store :=
  empty_store <| st_db2_rows := {[ (7%Z, 1%N) := example_db2_row ]} |>.

Lemma example_db2_wf : db2_wf example_db2.
Proof. intros k row. unfold example_db2. rsimpl. by intros [<- <-]%lookup_singleton_Some. Qed.

Lemma db2_listings_spec_witness :
  db2_listings example_db2 [(7%Z, 1%N)] !! 7%Z = Some (listing_of_row example_db2_row).
Proof.
  rewrite (db2_listings_spec example_db2 [(7%Z, 1%N)] example_db2_wf (NoDup_singleton 7%Z) 7%Z).
  vm_compute. reflexivity.
Defined.
