(* ===== verification/Wallet.v ===== *)
(** * What a Credit Wallet promises

    The abstract wallet of one Customer: a balance and the amounts reserved
    per Batch Request.  [Billing] refines it; the safety of the money is
    proved here once, on the small machine. *)

From S2P Require Import Prelude PyText.

Open Scope Z_scope.

Record Wallet : Type := mkWallet {
  w_balance : Z;
  w_reserved : gmap uuid Z
}.

Definition w_available (w : Wallet) : Z := w_balance w - sum_map id (w_reserved w).

Inductive WalletLabel : Type :=
| Credit (cents : Z)
| Adjust (cents : Z)
| Reserve (request : uuid) (cents : Z)
| Charge (request : uuid)
| Release (request : uuid).

Inductive wallet_step : Wallet → WalletLabel → Wallet → Prop :=
| wallet_credit w n : 0 < n → wallet_step w (Credit n) (mkWallet (w_balance w + n) (w_reserved w))
| wallet_adjust w n : n ≠ 0 → wallet_step w (Adjust n) (mkWallet (w_balance w + n) (w_reserved w))
| wallet_reserve w r n :
    0 ≤ n → n ≤ w_available w → w_reserved w !! r = None →
    wallet_step w (Reserve r n) (mkWallet (w_balance w) (<[r := n]> (w_reserved w)))
| wallet_charge w r n :
    w_reserved w !! r = Some n →
    wallet_step w (Charge r) (mkWallet (w_balance w - n) (delete r (w_reserved w)))
| wallet_release w r n :
    w_reserved w !! r = Some n →
    wallet_step w (Release r) (mkWallet (w_balance w) (delete r (w_reserved w))).

(** Reservations are covered and not negative. *)
Definition solvent (w : Wallet) : Prop :=
  0 ≤ w_available w ∧ ∀ r n, w_reserved w !! r = Some n → 0 ≤ n.

(** A step takes nothing out that was not reserved: only an adjustment can
    leave a wallet short. *)
Lemma wallet_step_solvent w l w' :
  wallet_step w l w' → (∀ n, l = Adjust n → 0 ≤ n) → solvent w → solvent w'.
Proof.
  intros Hstep Hadj [Hav Hpos]. unfold solvent, w_available in *.
  destruct Hstep as [w n Hn|w n Hn|w r n Hn Hle Hr|w r n Hr|w r n Hr]; cbn.
  - split; [lia | done].
  - specialize (Hadj n eq_refl). split; [lia | done].
  - rewrite sum_map_insert by done. unfold w_available in Hle. split; [cbn; lia|].
    intros r' n'. rewrite lookup_insert. case_decide; naive_solver.
  - pose proof (sum_map_delete id _ _ _ Hr). cbn in *. split; [lia|].
    intros r' n' [_ ?]%lookup_delete_Some. eauto.
  - pose proof (sum_map_delete id _ _ _ Hr). pose proof (Hpos _ _ Hr). cbn in *. split; [lia|].
    intros r' n' [_ ?]%lookup_delete_Some. eauto.
Qed.

(** Reserving and charging move the available balance once, at the reserve. *)
Lemma wallet_step_available w l w' :
  wallet_step w l w' →
  w_available w' = w_available w +
    match l with
    | Credit n | Adjust n => n
    | Reserve _ n => - n
    | Charge _ => 0
    | Release r => default 0 (w_reserved w !! r)
    end.
Proof.
  unfold w_available.
  destruct 1 as [w n Hn|w n Hn|w r n Hn Hle Hr|w r n Hr|w r n Hr]; cbn; try lia.
  - rewrite sum_map_insert by done. cbn. lia.
  - pose proof (sum_map_delete id _ _ _ Hr). cbn in *. lia.
  - rewrite Hr. pose proof (sum_map_delete id _ _ _ Hr). cbn in *. lia.
Qed.
