(* ===== verification/Billing.v ===== *)
(** * [jawnix/billing.py]: the Credit Wallet

    A Customer's wallet is the sum of an append-only ledger, less the amounts
    its active Batch Holds reserve.  Credit Purchases add to the ledger when
    Stripe reports them paid; a billed Batch Request places a hold, which the
    distribution captures into a charge or a failure releases.  The Stripe
    webhook of [jawnix/api.py] is here too: it is the only caller that
    completes or closes a purchase. *)

From S2P Require Import Prelude PyText Models Activity LeadDatabases.

Open Scope Z_scope.

Definition MIN_LEAD_RATE_CENTS_PER_THOUSAND : Z := 100.
Definition MAX_LEAD_RATE_CENTS_PER_THOUSAND : Z := 2000.
Definition MIN_PURCHASE_CENTS : Z := 100.

Definition initialize_customer_billing (customer : Customer) (settings : Settings) : Customer :=
  match db1_default_lead_rate_cents_per_thousand settings with
  | Some rate =>
      if billing_enabled settings && bool_decide (inventory_database customer = db1)
      then customer <| cu_billing_enabled := true |>
                    <| cu_lead_rate_cents_per_thousand := Some rate |>
      else customer
  | None => customer
  end.

Record SubmissionBilling : Type := mkSubmissionBilling {
  sb_is_billed : bool;
  sb_lead_rate_cents_per_thousand : option Z;
  sb_amount_cents : option Z
}.

Definition batch_cost_cents (lead_count lead_rate_cents_per_thousand : Z) : Z :=
  let rounded := (lead_count * lead_rate_cents_per_thousand + 500) / 1000 in
  if lead_count >? 0 then Z.max 1 rounded else 0.

(** ** Wallet totals *)

Definition balance_cents (s : Store) (customer_id : Z) : Z :=
  sumZ (λ e, if le_customer_id e =? customer_id then le_amount_cents e else 0) (st_ledger s).

(** What one hold reserves of a Customer's wallet. *)
Definition reserved_by (customer_id : Z) (h : BatchHold) : Z :=
  if (ho_customer_id h =? customer_id) && bool_decide (ho_status h = hold_active)
  then ho_amount_cents h else 0.

Definition active_holds_cents (s : Store) (customer_id : Z) : Z :=
  sum_map (reserved_by customer_id) (st_holds s).

Definition wallet_totals (s : Store) (customer_id : Z) : Z * Z * Z :=
  let balance := balance_cents s customer_id in
  let active_holds := active_holds_cents s customer_id in
  (balance, active_holds, balance - active_holds).

Definition available_cents (s : Store) (customer_id : Z) : Z := (wallet_totals s customer_id).2.

Definition stripe_billing_enabled (customer : Customer) : bool :=
  cu_billing_enabled customer && bool_decide (inventory_database customer = db1).

(** ** Views *)

(** [ORDER BY created_at DESC, id DESC] *)
Definition newest_first {A} (at_ : A → datetime) (id : A → uuid) (a b : A) : Prop :=
  at_ b < at_ a ∨ (at_ a = at_ b ∧ (id b ≤ id a)%N).
#[export] Instance newest_first_dec {A} at_ id : RelDecision (@newest_first A at_ id).
Proof. intros a b. unfold newest_first. apply _. Defined.

Definition wallet_ledger (s : Store) (customer_id : Z) : list CreditLedgerEntry :=
  merge_sort (newest_first le_created_at le_id)
    (List.filter (λ e, le_customer_id e =? customer_id) (st_ledger s)).

Definition wallet_purchases (s : Store) (customer_id : Z) : list CreditPurchase :=
  merge_sort (newest_first pu_created_at pu_id)
    (List.filter (λ p, pu_customer_id p =? customer_id) (map_to_list (st_purchases s)).*2).

Record WalletView : Type := mkWalletView {
  wv_customerId : Z;
  wv_billingEnabled : bool;
  wv_billingConfigured : bool;
  wv_leadDatabase : Database;
  wv_leadRateCentsPerThousand : option Z;
  wv_balanceCents : Z;
  wv_activeHoldsCents : Z;
  wv_availableBalanceCents : Z;
  wv_purchases : list CreditPurchase;
  wv_ledger : list CreditLedgerEntry
}.

Definition wallet_view (s : Store) (customer : Customer) : WalletView :=
  let '(balance, active_holds, available) := wallet_totals s (cu_id customer) in
  mkWalletView (cu_id customer) (stripe_billing_enabled customer) (cu_billing_enabled customer)
    (inventory_database customer) (cu_lead_rate_cents_per_thousand customer)
    balance active_holds available
    (wallet_purchases s (cu_id customer)) (wallet_ledger s (cu_id customer)).

(** ** Credit Purchases *)

Record CheckoutSession : Type := mkCheckoutSession { cs_id : text; cs_url : text }.

(** The Stripe boundary ([stripe_client.StripeClient]): creating a Checkout
    session answers one or raises; its writes are Stripe's, not the store's. *)
Class StripeClient : Type := {
  create_checkout_session :
    Z → option text → list (string * text) → text → text → outcome CheckoutSession
}.

Definition purchase_status_value (st : PurchaseStatus) : text :=
  match st with
  | purchase_processing => u "processing"
  | purchase_completed => u "completed"
  | purchase_failed => u "failed"
  | purchase_expired => u "expired"
  end.

Definition start_credit_purchase `{StripeClient} (env : Env) (customer : Customer)
    (amount_dollars : Z) (customer_email : option text) (success_url cancel_url : text)
    : M Store (CreditPurchase * text) :=
  raise_if (negb (stripe_billing_enabled customer))
    (BillingError (u "Stripe payments require billing and a Lead Rate for Database A.") 409) ;;
  raise_if (amount_dollars <? 1)
    (BillingError (u "Credit Purchases must be whole dollars with a $1 floor.") 422) ;;
  let amount_cents := amount_dollars * 100 in
  purchase_id ← uuid4;
  checkout ←
    (match create_checkout_session amount_cents customer_email
             [("purchase_id", str_of_uuid purchase_id); ("customer_id", str_of_Z (cu_id customer))]%string
             success_url cancel_url with
     | Ok c => mret c
     | Err (StripeClientError detail) => raise (BillingError detail 503)
     | Err e => raise e
     end);
  taken ← gets (λ s, bool_decide (is_Some (st_purchases s !! cs_id checkout)));
  raise_if taken (IntegrityError (u "credit_purchases.stripe_checkout_session_id")) ;;
  let purchase := mkCreditPurchase purchase_id (cu_id customer) amount_cents purchase_processing
                    (cs_id checkout) None (now env) None in
  modify (λ s, s <| st_purchases := <[cs_id checkout := purchase]> (st_purchases s) |>) ;;
  mret (purchase, cs_url checkout).

Definition update_purchase (session_id : text) (f : CreditPurchase → CreditPurchase) : M Store unit :=
  modify (λ s, s <| st_purchases := alter f session_id (st_purchases s) |>).

Definition add_ledger_entry (e : CreditLedgerEntry) : M Store unit :=
  modify (λ s, s <| st_ledger := st_ledger s ++ [e] |>).

Definition complete_credit_purchase_for_session (env : Env) (stripe_checkout_session_id : text)
    (settled_late : bool) : M Store (option CreditPurchase) :=
  found ← gets (λ s, st_purchases s !! stripe_checkout_session_id);
  match found with
  | None => mret None
  | Some purchase =>
    if bool_decide (pu_status purchase = purchase_completed) then mret (Some purchase) else
    let superseded := pu_status purchase in
    raise_if (bool_decide (pu_status purchase ≠ purchase_processing) &&
              negb (settled_late && bool_decide (pu_status purchase ∈ [purchase_failed; purchase_expired])))
      (BillingError (u "Credit Purchase " ++ str_of_uuid (pu_id purchase)
         ++ u " cannot be completed from status " ++ purchase_status_value (pu_status purchase)
         ++ u ".") 409) ;;
    raise_if (pu_amount_cents purchase <? MIN_PURCHASE_CENTS)
      (BillingError (u "Credit Purchases must be whole dollars with a $1 floor.") 422) ;;
    entry_id ← uuid4;
    let entry := mkCreditLedgerEntry entry_id (pu_customer_id purchase) kind_purchase
                   (pu_amount_cents purchase)
                   (u "Credit Purchase " ++ str_of_uuid (pu_id purchase)
                      ++ u " completed via Stripe Checkout.")
                   (u "system:stripe") None (now env) in
    add_ledger_entry entry ;;
    let purchase' := purchase <| pu_ledger_entry_id := Some entry_id |>
                              <| pu_status := purchase_completed |>
                              <| pu_completed_at := Some (now env) |> in
    update_purchase stripe_checkout_session_id (λ _, purchase') ;;
    when (bool_decide (superseded ≠ purchase_processing))
      (record_activity env (u "credit_purchase_settled_after_close") (u "customer")
         (str_of_Z (pu_customer_id purchase)) (u "system:stripe")
         (u "Credit Purchase " ++ str_of_uuid (pu_id purchase)
            ++ u " settled after it was closed as " ++ purchase_status_value superseded
            ++ u "; the wallet was credited.")
         [("purchaseId", JStr (str_of_uuid (pu_id purchase)));
          ("amountCents", JNum (pu_amount_cents purchase));
          ("before", JObj [("status", JStr (purchase_status_value superseded))]);
          ("after", JObj [("status", JStr (u "completed"))])]%string [] ;; mret tt) ;;
    mret (Some purchase')
  end.

Definition close_credit_purchase_for_session (stripe_checkout_session_id : text)
    (status : PurchaseStatus) : M Store (option CreditPurchase) :=
  raise_if (bool_decide (status ∉ [purchase_failed; purchase_expired]))
    (ValueError (u "Credit Purchase close status must be failed or expired.")) ;;
  found ← gets (λ s, st_purchases s !! stripe_checkout_session_id);
  match found with
  | None => mret None
  | Some purchase =>
      if bool_decide (pu_status purchase = purchase_completed) then mret (Some purchase)
      else if bool_decide (pu_status purchase = purchase_processing) then
        let purchase' := purchase <| pu_status := status |> in
        update_purchase stripe_checkout_session_id (λ _, purchase') ;;
        mret (Some purchase')
      else mret (Some purchase)
  end.

(** ** The Stripe webhook *)

(** The fields the handler reads off a verified event, after
    [str(... or "")]. *)
Record StripeEvent : Type := mkStripeEvent {
  se_id : text;
  se_type : text;
  se_session_id : text;
  se_payment_status : text
}.

Inductive WebhookReply : Type := reply_ok | reply_duplicate | reply_ignored | reply_pending.

Definition handled_types : list text :=
  [u "checkout.session.completed"; u "checkout.session.async_payment_succeeded";
   u "checkout.session.async_payment_failed"; u "checkout.session.expired"].

(** The handler's dispatch, once the receipt is recorded. *)
Definition stripe_dispatch (env : Env) (event : StripeEvent) : M Store WebhookReply :=
  let event_type := se_type event in
  if bool_decide (event_type ∉ handled_types) then mret reply_ignored else
  let checkout_session_id := strip (se_session_id event) in
  if is_blank checkout_session_id then mret reply_ignored else
  let succeeded := bool_decide (event_type = u "checkout.session.async_payment_succeeded") in
  let should_credit := succeeded ||
    (bool_decide (event_type = u "checkout.session.completed") &&
     bool_decide (se_payment_status event = u "paid")) in
  let failed_ := bool_decide (event_type = u "checkout.session.async_payment_failed") in
  let expired := bool_decide (event_type = u "checkout.session.expired") in
  let refused (e : exn) := match e with
    | BillingError detail code => Some (raise (HTTPException code detail))
    | _ => None
    end in
  if should_credit then
    p ← try_catch (complete_credit_purchase_for_session env checkout_session_id succeeded) refused;
    mret (if p is Some _ then reply_ok else reply_ignored)
  else if failed_ || expired then
    p ← try_catch (close_credit_purchase_for_session checkout_session_id
                     (if failed_ then purchase_failed else purchase_expired)) refused;
    mret (if p is Some _ then reply_ok else reply_ignored)
  else mret reply_pending.

Definition stripe_webhook (env : Env) (event : StripeEvent) : M Store WebhookReply :=
  begin (
    let event_id := strip (se_id event) in
    raise_if (is_blank event_id) (HTTPException 400 (u "Stripe event id is required.")) ;;
    seen ← gets (λ s, bool_decide ((u "stripe", event_id) ∈ st_webhook_receipts s));
    if (seen : bool) then mret reply_duplicate else
    modify (λ s, s <| st_webhook_receipts := {[ (u "stripe", event_id) ]} ∪ st_webhook_receipts s |>) ;;
    stripe_dispatch env event).

(** ** Batch Holds *)

Definition price_changed : text :=
  u "Your lead price changed. Refresh the page, review the updated price, and submit again.".

Definition prepare_submission (customer_id lead_count : Z)
    (expected_lead_rate_cents_per_thousand : option Z) : M Store SubmissionBilling :=
  found ← gets (λ s, st_customers s !! customer_id);
  customer ← require found (BillingError (u "Customer was not found.") 404);
  let billed := stripe_billing_enabled customer in
  let current_rate := if billed then cu_lead_rate_cents_per_thousand customer else None in
  raise_if (bool_decide (current_rate ≠ expected_lead_rate_cents_per_thousand))
    (BillingError price_changed 409) ;;
  if negb billed then mret (mkSubmissionBilling false None None) else
  rate ← require (cu_lead_rate_cents_per_thousand customer)
    (BillingError (u "Billing is enabled, but this Customer has no Lead Rate.") 409);
  let amount := batch_cost_cents lead_count rate in
  available ← gets (λ s, available_cents s (cu_id customer));
  raise_if (available <? amount)
    (BillingError (u "The Credit Wallet does not have enough available balance for this Batch Hold. Required "
       ++ str_of_Z amount ++ u " cents; available " ++ str_of_Z available ++ u " cents.") 409) ;;
  mret (mkSubmissionBilling true (Some rate) (Some amount)).

(** The request is the row the session holds; its billing columns are set on
    it.  The unique and check constraints of the hold raise when it is
    flushed. *)
Definition place_batch_hold (env : Env) (request : LeadRequest) (billing : SubmissionBilling)
    : M Store (option BatchHold) :=
  update_request (rq_id request) (λ r,
    r <| rq_is_billed := sb_is_billed billing |>
      <| rq_lead_rate_cents_per_thousand := sb_lead_rate_cents_per_thousand billing |>
      <| rq_billing_amount_cents := sb_amount_cents billing |>) ;;
  if negb (sb_is_billed billing) then mret None else
  amount ← require (sb_amount_cents billing)
    (RuntimeError (u "A billed request must freeze its Batch cost."));
  id ← uuid4;
  let hold := mkBatchHold id (rq_id request) (rq_agent_id request) amount hold_active (now env)
                None None in
  held ← gets (λ s, bool_decide (is_Some (st_holds s !! rq_id request)));
  raise_if held (IntegrityError (u "batch_holds.request_id")) ;;
  raise_if (amount <? 0) (IntegrityError (u "ck_batch_hold_amount_nonnegative")) ;;
  modify (λ s, s <| st_holds := <[rq_id request := hold]> (st_holds s) |>) ;;
  mret (Some hold).

(** The charge of a request, if its hold was captured. *)
Definition is_charge_of (request_id : uuid) (e : CreditLedgerEntry) : bool :=
  bool_decide (le_batch_request_id e = Some request_id).

Definition capture_batch_hold (env : Env) (request : LeadRequest) : M Store unit :=
  if negb (rq_is_billed request) then mret tt else
  found ← gets (λ s, st_holds s !! rq_id request);
  hold ← require found (RuntimeError (u "Billed Batch Request has no Batch Hold."));
  if bool_decide (ho_status hold = hold_captured) then mret tt else
  raise_if (bool_decide (ho_status hold ≠ hold_active))
    (RuntimeError (u "Released Batch Hold cannot be captured.")) ;;
  charged ← gets (λ s, existsb (is_charge_of (rq_id request)) (st_ledger s));
  when (negb charged)
    (id ← uuid4;
     add_ledger_entry (mkCreditLedgerEntry id (ho_customer_id hold) kind_batch_charge
       (- ho_amount_cents hold)
       (u "Batch Hold captured for Batch Request " ++ str_of_uuid (rq_id request) ++ u ".")
       (u "system:allocation") (Some (rq_id request)) (now env))) ;;
  update_hold (rq_id request) (λ h,
    h <| ho_status := hold_captured |> <| ho_captured_at := Some (now env) |>).

Definition release_batch_hold (env : Env) (request : LeadRequest) : M Store unit :=
  if negb (rq_is_billed request) then mret tt else
  found ← gets (λ s, st_holds s !! rq_id request);
  match found with
  | None => mret tt
  | Some hold =>
      if bool_decide (ho_status hold ≠ hold_active) then mret tt else
      update_hold (rq_id request) (λ h,
        h <| ho_status := hold_released |> <| ho_released_at := Some (now env) |>)
  end.

Definition reinstate_batch_hold (request : LeadRequest) : M Store unit :=
  if negb (rq_is_billed request) then mret tt else
  found_customer ← gets (λ s, st_customers s !! rq_agent_id request);
  customer ← require found_customer (BillingError (u "Customer was not found.") 404);
  found ← gets (λ s, st_holds s !! rq_id request);
  hold ← require found (BillingError (u "Billed Batch Request has no Batch Hold.") 409);
  raise_if (bool_decide (ho_status hold = hold_captured))
    (BillingError (u "A captured Batch Hold cannot be reinstated.") 409) ;;
  if bool_decide (ho_status hold = hold_active) then mret tt else
  available ← gets (λ s, available_cents s (cu_id customer));
  raise_if (available <? ho_amount_cents hold)
    (BillingError (u "The Credit Wallet does not have enough available balance to retry this Batch. Required "
       ++ str_of_Z (ho_amount_cents hold) ++ u " cents; available " ++ str_of_Z available
       ++ u " cents.") 409) ;;
  update_hold (rq_id request) (λ h,
    h <| ho_status := hold_active |> <| ho_released_at := None |>).

(** ** Administration *)

Definition rate_details (customer : Customer) : json :=
  JObj [("billingEnabled", JBool (cu_billing_enabled customer));
        ("leadRateCentsPerThousand",
          json_opt JNum (cu_lead_rate_cents_per_thousand customer))]%string.

Definition configure_customer_billing (env : Env) (customer_id : Z) (enabled : bool)
    (rate : option Z) (actor_id : uuid) (reason : text) : M Store Customer :=
  found ← gets (λ s, st_customers s !! customer_id);
  customer ← require found (BillingError (u "Customer was not found.") 404);
  raise_if (bool_decide (is_Some (cu_deleted_at customer)))
    (BillingError (u "Customer was not found.") 404) ;;
  let normalized_reason := strip reason in
  raise_if (is_blank normalized_reason)
    (BillingError (u "A reason is required for a billing change.") 422) ;;
  raise_if (enabled && bool_decide (inventory_database customer ≠ db1))
    (BillingError (u "Stripe billing can be enabled only for Database A.") 422) ;;
  raise_if (enabled && bool_decide (rate = None))
    (BillingError (u "A Lead Rate is required when billing is enabled.") 422) ;;
  raise_if (match rate with
            | Some r => negb ((MIN_LEAD_RATE_CENTS_PER_THOUSAND <=? r) &&
                              (r <=? MAX_LEAD_RATE_CENTS_PER_THOUSAND))
            | None => false
            end)
    (BillingError (u "Lead Rate must be between 100 and 2000 cents per 1,000 leads.") 422) ;;
  let customer' := customer <| cu_billing_enabled := enabled |>
                            <| cu_lead_rate_cents_per_thousand := rate |> in
  update_customer customer_id (λ _, customer') ;;
  record_activity env (u "customer_billing_updated") (u "customer") (str_of_Z (cu_id customer))
    (str_of_uuid actor_id) normalized_reason
    [("before", rate_details customer); ("after", rate_details customer')]%string [] ;;
  mret customer'.

Definition post_admin_adjustment (env : Env) (customer_id amount_cents : Z) (actor_id : uuid)
    (reason : text) : M Store CreditLedgerEntry :=
  found ← gets (λ s, st_customers s !! customer_id);
  customer ← require found (BillingError (u "Customer was not found.") 404);
  raise_if (bool_decide (is_Some (cu_deleted_at customer)))
    (BillingError (u "Customer was not found.") 404) ;;
  raise_if (amount_cents =? 0)
    (BillingError (u "An adjustment must change the wallet balance.") 422) ;;
  let normalized_reason := strip reason in
  raise_if (is_blank normalized_reason)
    (BillingError (u "A reason is required for an adjustment.") 422) ;;
  before ← gets (λ s, balance_cents s (cu_id customer));
  id ← uuid4;
  let entry := mkCreditLedgerEntry id (cu_id customer) kind_admin_adjustment amount_cents
                 normalized_reason (str_of_uuid actor_id) None (now env) in
  add_ledger_entry entry ;;
  record_activity env (u "credit_wallet_adjusted") (u "customer") (str_of_Z (cu_id customer))
    (str_of_uuid actor_id) normalized_reason
    [("ledgerEntryId", JStr (str_of_uuid id)); ("amountCents", JNum amount_cents);
     ("before", JObj [("balanceCents", JNum before)]);
     ("after", JObj [("balanceCents", JNum (before + amount_cents))])]%string [] ;;
  mret entry.

(** ** Lemmas *)

(** What the wallet reads of the store. *)
Definition same_wallets (s s' : Store) : Prop :=
  st_ledger s' = st_ledger s ∧ st_holds s' = st_holds s ∧ st_purchases s' = st_purchases s.

Lemma rollback_wallets s s' : same_wallets s (rollback s s').
Proof. done. Qed.

Lemma balance_app l (e : CreditLedgerEntry) c s s' :
  st_ledger s = l → st_ledger s' = l ++ [e] →
  balance_cents s' c = balance_cents s c + (if le_customer_id e =? c then le_amount_cents e else 0).
Proof.
  intros E E'. unfold balance_cents. rewrite E', E, sumZ_app. cbn. lia.
Qed.

(** A completion either finds the purchase already settled and does nothing,
    or appends the one entry that pays for it. *)
Lemma complete_purchase_inv env sid late s r s' :
  complete_credit_purchase_for_session env sid late s = (Ok r, s') →
  (r = st_purchases s !! sid ∧ s' = s ∧ (∀ p, r = Some p → pu_status p = purchase_completed)) ∨
  (∃ p p' e,
     st_purchases s !! sid = Some p ∧ r = Some p' ∧
     (pu_status p = purchase_processing ∨
      late = true ∧ (pu_status p = purchase_failed ∨ pu_status p = purchase_expired)) ∧
     MIN_PURCHASE_CENTS ≤ pu_amount_cents p ∧
     (le_customer_id e = pu_customer_id p ∧ le_kind e = kind_purchase ∧
      le_amount_cents e = pu_amount_cents p ∧ le_batch_request_id e = None) ∧
     p' = p <| pu_ledger_entry_id := Some (le_id e) |> <| pu_status := purchase_completed |>
            <| pu_completed_at := Some (now env) |> ∧
     s' = s <| st_ledger := st_ledger s ++ [e] |> <| st_purchases := <[sid := p']> (st_purchases s) |>
            <| st_next_uuid := st_next_uuid s' |> <| st_audit := st_audit s' |>).
Proof.
  unfold complete_credit_purchase_for_session. intros H.
  apply bind_Ok_inv in H as (found & s1 & Hg & H). apply gets_Ok_inv in Hg as [-> ->].
  destruct (st_purchases s !! sid) as [p|] eqn:Hp; [|run_inv; naive_solver].
  case_bool_decide as Hdone; [run_inv; left; naive_solver|].
  right. unfold uuid4, add_ledger_entry, update_purchase in H. run_inv.
  all: rewrite (alter_const _ _ p) in * by done.
  - activity_inv.
    eexists p, _, (mkCreditLedgerEntry _ _ _ _ _ _ _ _).
    bool_inv; [done|]. rewrite !elem_of_cons, elem_of_nil in *. naive_solver.
  - eexists p, _, (mkCreditLedgerEntry _ _ _ _ _ _ _ _).
    apply bool_decide_eq_false, dec_stable in H. bool_inv; split_and!; auto.
Qed.

(** A purchase on file that is not completed yet can be settled late. *)
Lemma complete_purchase_run env sid s p :
  st_purchases s !! sid = Some p → MIN_PURCHASE_CENTS ≤ pu_amount_cents p →
  ∃ r s', complete_credit_purchase_for_session env sid true s = (Ok (Some r), s') ∧
    length (st_audit s') = (length (st_audit s) +
      (if bool_decide (pu_status p = purchase_failed ∨ pu_status p = purchase_expired) then 1 else 0))%nat.
Proof.
  intros Hp Hmin. unfold complete_credit_purchase_for_session, uuid4, add_ledger_entry, update_purchase.
  rewrite bind_gets, Hp.
  assert ((pu_amount_cents p <? MIN_PURCHASE_CENTS) = false) as Hlt by lia.
  assert (∀ t : text, strip (u "Credit Purchase " ++ t) ≠ []) as Hreason.
  { intros t. by apply strip_app_nonblank. }
  destruct (pu_status p) eqn:Hst.
  1,2: rewrite (bool_decide_eq_false_2 (_ ∨ _)) by naive_solver.
  1: rewrite (bool_decide_eq_false_2 (_ = purchase_completed)) by done; run_fwd.
  1,2: do 2 eexists; split; [reflexivity|]; rsimpl; lia.
  all: rewrite (bool_decide_eq_false_2 (_ = purchase_completed)) by done; run_fwd.
  all: erewrite bind_Ok; [|apply record_activity_run; [by vm_compute..|by apply Hreason|]].
  all: try (do 2 eexists; split; [reflexivity|]; rsimpl; rewrite length_app, bool_decide_eq_true_2 by auto; done).
  all: generalize (str_of_uuid (pu_id p)); intros; by vm_compute.
Qed.

Lemma close_purchase_inv sid status s r s' :
  close_credit_purchase_for_session sid status s = (Ok r, s') →
  (status = purchase_failed ∨ status = purchase_expired) ∧
  ((r = st_purchases s !! sid ∧ s' = s) ∨
   (∃ p, st_purchases s !! sid = Some p ∧ pu_status p = purchase_processing ∧
         r = Some (p <| pu_status := status |>) ∧
         s' = s <| st_purchases := <[sid := p <| pu_status := status |>]> (st_purchases s) |>)).
Proof.
  unfold close_credit_purchase_for_session, update_purchase. intros H. run_inv.
  apply bool_decide_eq_false, dec_stable in Hguard. rewrite !elem_of_cons, elem_of_nil in Hguard.
  split; [tauto|]. destruct (st_purchases s !! sid) as [p|] eqn:Hp; [|run_inv; auto].
  case_bool_decide; [run_inv; auto|]. case_bool_decide; run_inv; [|auto].
  rewrite (alter_const _ _ p) by done. naive_solver.
Qed.

Lemma prepare_submission_inv cid n expected s b s' :
  prepare_submission cid n expected s = (Ok b, s') →
  s' = s ∧ ∃ customer, st_customers s !! cid = Some customer ∧
    ((stripe_billing_enabled customer = false ∧ expected = None ∧
      b = mkSubmissionBilling false None None) ∨
     (stripe_billing_enabled customer = true ∧
      ∃ rate, cu_lead_rate_cents_per_thousand customer = Some rate ∧ expected = Some rate ∧
        batch_cost_cents n rate ≤ available_cents s (cu_id customer) ∧
        b = mkSubmissionBilling true (Some rate) (Some (batch_cost_cents n rate)))).
Proof.
  unfold prepare_submission. intros H. run_inv.
  apply bool_decide_eq_false, dec_stable in Hguard. rename a0 into customer.
  destruct (stripe_billing_enabled customer) eqn:Hb; cbn [negb] in *.
  - run_inv. bool_inv. split; [done|]. exists customer. split; [done|]. right. split; [done|].
    eexists. by split_and!.
  - run_inv. split; [done|]. exists customer. split; [done|]. left. done.
Qed.

(** Preparing a submission only reads. *)
Lemma prepare_submission_reads cid n expected s : (prepare_submission cid n expected s).2 = s.
Proof.
  assert (preserves (λ s', s' = s) (prepare_submission cid n expected)) as Hp
    by (unfold prepare_submission; solve_frame).
  by apply Hp.
Qed.

Lemma place_batch_hold_inv env q b s r s' :
  place_batch_hold env q b s = (Ok r, s') →
  let s1 := s <| st_requests := alter (λ r,
    r <| rq_is_billed := sb_is_billed b |>
      <| rq_lead_rate_cents_per_thousand := sb_lead_rate_cents_per_thousand b |>
      <| rq_billing_amount_cents := sb_amount_cents b |>) (rq_id q) (st_requests s) |> in
  (sb_is_billed b = false ∧ r = None ∧ s' = s1) ∨
  (sb_is_billed b = true ∧ ∃ amount h, sb_amount_cents b = Some amount ∧ 0 ≤ amount ∧
     st_holds s !! rq_id q = None ∧ r = Some h ∧
     h = mkBatchHold (st_next_uuid s) (rq_id q) (rq_agent_id q) amount hold_active (now env) None None ∧
     s' = s1 <| st_holds := <[rq_id q := h]> (st_holds s) |>
             <| st_next_uuid := (st_next_uuid s + 1)%N |>).
Proof.
  unfold place_batch_hold, update_request, uuid4. intros H. cbv zeta.
  destruct (sb_is_billed b) eqn:Hb; cbn [negb] in H; run_inv; [right|auto].
  split; [done|]. bool_inv. rsimpl. do 2 eexists.
  split_and!; try done. by apply eq_None_not_Some.
Qed.

(** The one charge a captured hold leaves in the ledger. *)
Definition charge_for (h : BatchHold) (e : CreditLedgerEntry) : Prop :=
  le_customer_id e = ho_customer_id h ∧ le_kind e = kind_batch_charge ∧
  le_amount_cents e = - ho_amount_cents h ∧ le_batch_request_id e = Some (ho_request_id h).

Lemma capture_batch_hold_inv env q s x s' :
  capture_batch_hold env q s = (Ok x, s') →
  (rq_is_billed q = false ∧ s' = s) ∨
  (rq_is_billed q = true ∧ ∃ h, st_holds s !! rq_id q = Some h ∧
    ((ho_status h = hold_captured ∧ s' = s) ∨
     (ho_status h = hold_active ∧
      ∃ charge, (if existsb (is_charge_of (rq_id q)) (st_ledger s) then charge = []
                 else ∃ e, charge = [e] ∧ le_customer_id e = ho_customer_id h ∧
                           le_kind e = kind_batch_charge ∧ le_amount_cents e = - ho_amount_cents h ∧
                           le_batch_request_id e = Some (rq_id q)) ∧
        s' = s <| st_ledger := st_ledger s ++ charge |>
               <| st_holds := <[rq_id q := h <| ho_status := hold_captured |>
                                             <| ho_captured_at := Some (now env) |>]> (st_holds s) |>
               <| st_next_uuid := st_next_uuid s' |>))).
Proof.
  unfold capture_batch_hold, update_hold, add_ledger_entry, uuid4. intros H.
  destruct (rq_is_billed q) eqn:Hb; cbn [negb] in H; [right; split; [done|] | run_inv; auto].
  run_inv. rename a0 into h. exists h. split; [done|].
  case_bool_decide as Hc; [run_inv; auto|]. right. run_inv.
  all: apply bool_decide_eq_false, dec_stable in Hguard; split; [done|].
  all: bool_inv; rewrite (alter_Some _ _ _ h) by done.
  - rewrite H. eexists [_]. split; [|reflexivity]. eexists. split_and!; reflexivity.
  - rewrite H. exists []. split; [done|]. by rewrite app_nil_r.
Qed.

Lemma release_batch_hold_inv env q s x s' :
  release_batch_hold env q s = (Ok x, s') →
  (s' = s ∧ (rq_is_billed q = false ∨ st_holds s !! rq_id q = None ∨
             ∃ h, st_holds s !! rq_id q = Some h ∧ ho_status h ≠ hold_active)) ∨
  (rq_is_billed q = true ∧ ∃ h, st_holds s !! rq_id q = Some h ∧ ho_status h = hold_active ∧
     s' = s <| st_holds := <[rq_id q := h <| ho_status := hold_released |>
                                          <| ho_released_at := Some (now env) |>]> (st_holds s) |>).
Proof.
  unfold release_batch_hold, update_hold. intros H.
  destruct (rq_is_billed q) eqn:Hb; cbn [negb] in H; [|run_inv; auto].
  run_inv. destruct (st_holds s !! rq_id q) as [h|] eqn:Hh; [|run_inv; auto].
  case_bool_decide as Ha; [run_inv; left; split; [done|]; right; right; eexists; done|].
  right. split; [done|]. exists h. run_inv. by rewrite (alter_Some _ _ _ h).
Qed.

(** Releasing never fails. *)
Lemma release_batch_hold_total env q s : ∃ s', release_batch_hold env q s = (Ok tt, s').
Proof.
  unfold release_batch_hold, update_hold, mbind, M_bind, gets.
  destruct (rq_is_billed q); cbn [negb]; [|by eexists].
  destruct (st_holds s !! rq_id q); [|by eexists]. case_bool_decide; by eexists.
Qed.

(** What releasing a hold leaves of it. *)
Definition released (env : Env) (request : LeadRequest) (h h' : BatchHold) : Prop :=
  if rq_is_billed request && bool_decide (ho_status h = hold_active)
  then h' = h <| ho_status := hold_released |> <| ho_released_at := Some (now env) |>
  else h' = h.

Lemma release_holds env request s x s' :
  release_batch_hold env request s = (Ok x, s') →
  ∀ id h, st_holds s !! id = Some h →
    ∃ h', st_holds s' !! id = Some h' ∧ if bool_decide (id = rq_id request) then released env request h h' else h' = h.
Proof.
  intros [(-> & Hn)|(Hb & h0 & Hh0 & Ha & ->)]%release_batch_hold_inv id h Hh; unfold released.
  - exists h. split; [done|]. case_bool_decide as E; [|done]. subst id.
    destruct Hn as [->|[Hn|(h0 & Hn & Ha)]]; [done|congruence|]. rewrite Hh in Hn. injection Hn as <-.
    by rewrite (bool_decide_eq_false_2 (ho_status h = _)), andb_false_r.
  - rsimpl. case_bool_decide as E.
    + subst id. rewrite Hh in Hh0. injection Hh0 as <-. rewrite lookup_insert_eq. eexists. split; [done|].
      by rewrite Hb, bool_decide_eq_true_2.
    + rewrite lookup_insert_ne by done. eauto.
Qed.

Lemma reinstate_batch_hold_inv q s x s' :
  reinstate_batch_hold q s = (Ok x, s') →
  (rq_is_billed q = false ∧ s' = s) ∨
  (rq_is_billed q = true ∧ ∃ customer h,
     st_customers s !! rq_agent_id q = Some customer ∧ st_holds s !! rq_id q = Some h ∧
     ((ho_status h = hold_active ∧ s' = s) ∨
      (ho_status h = hold_released ∧ ho_amount_cents h ≤ available_cents s (cu_id customer) ∧
       s' = s <| st_holds := <[rq_id q := h <| ho_status := hold_active |>
                                            <| ho_released_at := None |>]> (st_holds s) |>))).
Proof.
  unfold reinstate_batch_hold, update_hold. intros H.
  destruct (rq_is_billed q) eqn:Hb; cbn [negb] in H; [right; split; [done|] | run_inv; auto].
  run_inv. rename a0 into customer, a2 into h. exists customer, h. split_and!; [done..|].
  case_bool_decide as Ha; run_inv; [auto|]. bool_inv. right.
  rewrite (alter_Some _ _ _ h) by done. split_and!; try done. by destruct (ho_status h).
Qed.

Lemma post_admin_adjustment_inv env cid cents actor reason s e s' :
  post_admin_adjustment env cid cents actor reason s = (Ok e, s') →
  cents ≠ 0 ∧ strip reason ≠ [] ∧ ∃ customer,
  st_customers s !! cid = Some customer ∧ cu_deleted_at customer = None ∧
  le_customer_id e = cu_id customer ∧ le_kind e = kind_admin_adjustment ∧ le_amount_cents e = cents ∧
  le_batch_request_id e = None ∧ le_reason e = strip reason ∧
  le_actor_user_id e = str_of_uuid actor ∧
  s' = s <| st_ledger := st_ledger s ++ [e] |> <| st_next_uuid := st_next_uuid s' |>
         <| st_audit := st_audit s' |>.
Proof.
  unfold post_admin_adjustment, add_ledger_entry, uuid4. intros H. run_inv. bool_inv.
  activity_inv. split; [done|].
  unfold is_blank in *. bool_inv. split; [done|].
  eexists. split_and!; try done. by apply eq_None_not_Some.
Qed.

Lemma configure_customer_billing_inv env cid enabled rate actor reason s c' s' :
  configure_customer_billing env cid enabled rate actor reason s = (Ok c', s') →
  ∃ customer, st_customers s !! cid = Some customer ∧ cu_deleted_at customer = None ∧
  strip reason ≠ [] ∧
  (enabled = true → inventory_database customer = db1 ∧ is_Some rate) ∧
  (∀ r, rate = Some r → MIN_LEAD_RATE_CENTS_PER_THOUSAND ≤ r ≤ MAX_LEAD_RATE_CENTS_PER_THOUSAND) ∧
  c' = customer <| cu_billing_enabled := enabled |> <| cu_lead_rate_cents_per_thousand := rate |> ∧
  s' = s <| st_customers := <[cid := c']> (st_customers s) |>
         <| st_next_uuid := st_next_uuid s' |> <| st_audit := st_audit s' |>.
Proof.
  unfold configure_customer_billing, update_customer, is_blank. intros H. run_inv. activity_inv.
  match goal with H : Some ?c = st_customers s !! cid |- _ => exists c; rewrite (alter_const _ _ c) by done end.
  split_and!; try done.
  - bool_inv; by apply eq_None_not_Some.
  - by bool_inv.
  - intros ->. bool_inv; try done. split; [by apply dec_stable|]. by apply not_eq_None_Some.
  - intros r ->. bool_inv; lia.
Qed.

(** What the hold operations leave alone. *)
Lemma capture_batch_hold_frame {A} (proj : Store → A) env q x :
  (∀ s v, proj (s <| st_holds := v |>) = proj s) → (∀ s v, proj (s <| st_ledger := v |>) = proj s) →
  (∀ s v, proj (s <| st_next_uuid := v |>) = proj s) →
  preserves (λ s, proj s = x) (capture_batch_hold env q).
Proof.
  intros H1 H2 H3. unfold capture_batch_hold, update_hold, add_ledger_entry, uuid4.
  solve_frame; apply pres_modify; intros s Hs; by rewrite ?H1, ?H2, ?H3.
Qed.
Lemma release_batch_hold_frame {A} (proj : Store → A) env q x :
  (∀ s v, proj (s <| st_holds := v |>) = proj s) →
  preserves (λ s, proj s = x) (release_batch_hold env q).
Proof.
  intros H1. unfold release_batch_hold, update_hold. solve_frame. apply pres_modify. intros s Hs. by rewrite H1.
Qed.
Lemma reinstate_batch_hold_frame {A} (proj : Store → A) q x :
  (∀ s v, proj (s <| st_holds := v |>) = proj s) →
  preserves (λ s, proj s = x) (reinstate_batch_hold q).
Proof.
  intros H1. unfold reinstate_batch_hold, update_hold. solve_frame. apply pres_modify. intros s Hs. by rewrite H1.
Qed.
#[export] Hint Extern 0 (preserves _ (capture_batch_hold _ _)) =>
  (apply capture_batch_hold_frame; reflexivity) : pres.
#[export] Hint Extern 0 (preserves _ (release_batch_hold _ _)) =>
  (apply release_batch_hold_frame; reflexivity) : pres.
#[export] Hint Extern 0 (preserves _ (reinstate_batch_hold _)) =>
  (apply reinstate_batch_hold_frame; reflexivity) : pres.

(** ** Properties *)

(** a Batch costs its Lead count at the rate per thousand, rounded half
    up to the cent with a one-cent floor; nothing costs nothing.  Within the
    bounds submissions are validated against, the price fits a 32-bit column
    with room to spare. *)
Theorem batch_cost_cents_half_up n rate :
  0 ≤ n → 0 ≤ rate →
  (n = 0 → batch_cost_cents n rate = 0) ∧
  (0 < n → n * rate < 500 → batch_cost_cents n rate = 1) ∧
  (0 < n → 500 ≤ n * rate →
     1000 * batch_cost_cents n rate - 500 ≤ n * rate < 1000 * batch_cost_cents n rate + 500) ∧
  (n ≤ 100000 → rate ≤ MAX_LEAD_RATE_CENTS_PER_THOUSAND → 0 ≤ batch_cost_cents n rate ≤ 200000).
Proof.
  unfold batch_cost_cents, MAX_LEAD_RATE_CENTS_PER_THOUSAND. intros Hn Hr.
  pose proof (Z.div_mod (n * rate + 500) 1000 ltac:(lia)).
  pose proof (Z.mod_pos_bound (n * rate + 500) 1000 ltac:(lia)).
  split_and!; intros.
  1-3: destruct (Z.gtb_spec n 0); lia.
  assert (n * rate ≤ 100000 * 2000) by nia. destruct (Z.gtb_spec n 0); nia.
Qed.

(** 250 Leads at 1,250 cents per thousand are 312.5 cents: charged 313. *)
Lemma batch_cost_cents_half_up_witness :
  batch_cost_cents 250 1250 = 313 ∧
  1000 * batch_cost_cents 250 1250 - 500 ≤ 250 * 1250 < 1000 * batch_cost_cents 250 1250 + 500.
Proof.
  split; [reflexivity|].
  apply (batch_cost_cents_half_up 250 1250); lia.
Defined.
