(* ===== verification/BillingWallet.v ===== *)
(** * Billing refines the wallet

    The step relation of everything that touches the ledger, the holds or the
    purchases; the invariant those steps keep; and the simulation showing that
    every step is, for each Customer, at most one step of the abstract wallet.
    What the abstract wallet promises then holds of the running system. *)

From S2P Require Import Prelude PyText Models Activity LeadDatabases Wallet Billing.

Open Scope Z_scope.

(** ** The abstraction *)

(** What a hold reserves for a Customer. *)
Definition reservation (c : Z) (h : BatchHold) : option Z :=
  if (ho_customer_id h =? c) && bool_decide (ho_status h = hold_active)
  then Some (ho_amount_cents h) else None.

Definition wallet_of (c : Z) (s : Store) : Wallet :=
  mkWallet (balance_cents s c) (omap (reservation c) (st_holds s)).

Lemma available_cents_wallet s c : available_cents s c = w_available (wallet_of c s).
Proof.
  unfold available_cents, wallet_totals, w_available, active_holds_cents. cbn. f_equal.
  apply sum_map_omap. intros h. unfold reserved_by, reservation.
  by destruct (_ && _).
Qed.

(** ** The steps *)

(** Steps of the rest of the system: they leave the wallet tables alone, keep
    every request's Customer, and keep rows under their own keys. *)
Definition keyed_requests (s : Store) : Prop :=
  ∀ id q, st_requests s !! id = Some q → rq_id q = id.
Definition keyed_customers (s : Store) : Prop :=
  ∀ id c, st_customers s !! id = Some c → cu_id c = id.

Record wallet_frame (s s' : Store) : Prop := {
  wf_wallets : same_wallets s s';
  wf_requests : ∀ id q, st_requests s !! id = Some q →
    ∃ q', st_requests s' !! id = Some q' ∧ rq_agent_id q' = rq_agent_id q;
  wf_keyed_requests : keyed_requests s → keyed_requests s';
  wf_keyed_customers : keyed_customers s → keyed_customers s'
}.

Section Steps.
Context `{StripeClient}.

(** Adjustments an administrator may post in the runs considered. *)
Variable allowed : Z → Prop.

(** A submission adds its request and places its hold under the Customer
    lock, as [customer_requests.submit_request] does. *)
Definition submit (env : Env) (q : LeadRequest) (expected : option Z) : M Store (option BatchHold) :=
  b ← prepare_submission (rq_agent_id q) (rq_lead_count q) expected;
  modify (λ s, s <| st_requests := <[rq_id q := q]> (st_requests s) |>) ;;
  place_batch_hold env q b.

Inductive billing_step (s : Store) : Store → Prop :=
| step_start env customer dollars email su cu r s' :
    start_credit_purchase env customer dollars email su cu s = (Ok r, s') → billing_step s s'
| step_webhook env event r s' :
    stripe_webhook env event s = (r, s') → billing_step s s'
| step_submit env q expected r s' :
    st_requests s !! rq_id q = None →
    submit env q expected s = (Ok r, s') → billing_step s s'
| step_capture env q r s' :
    st_requests s !! rq_id q = Some q →
    capture_batch_hold env q s = (Ok r, s') → billing_step s s'
| step_release env q r s' :
    st_requests s !! rq_id q = Some q →
    release_batch_hold env q s = (Ok r, s') → billing_step s s'
| step_reinstate q r s' :
    st_requests s !! rq_id q = Some q →
    reinstate_batch_hold q s = (Ok r, s') → billing_step s s'
| step_adjust env cid cents actor reason r s' :
    allowed cents →
    post_admin_adjustment env cid cents actor reason s = (Ok r, s') → billing_step s s'
| step_configure env cid enabled rate actor reason r s' :
    configure_customer_billing env cid enabled rate actor reason s = (Ok r, s') → billing_step s s'
| step_frame s' : wallet_frame s s' → billing_step s s'.
End Steps.

(** ** The invariant *)

Definition completed_cents (s : Store) (c : Z) : Z :=
  sum_map (λ p, if (pu_customer_id p =? c) && bool_decide (pu_status p = purchase_completed)
                then pu_amount_cents p else 0) (st_purchases s).
Definition captured_cents (s : Store) (c : Z) : Z :=
  sum_map (λ h, if (ho_customer_id h =? c) && bool_decide (ho_status h = hold_captured)
                then ho_amount_cents h else 0) (st_holds s).
Definition adjusted_cents (s : Store) (c : Z) : Z :=
  sumZ (λ e, if (le_customer_id e =? c) && bool_decide (le_kind e = kind_admin_adjustment)
             then le_amount_cents e else 0) (st_ledger s).

Record billing_inv (s : Store) : Prop := {
  bi_requests : keyed_requests s;
  bi_customers : keyed_customers s;
  (** A hold is its request's, for its request's Customer, and not negative. *)
  bi_holds : ∀ r h, st_holds s !! r = Some h →
    ho_request_id h = r ∧ 0 ≤ ho_amount_cents h ∧
    ∃ q, st_requests s !! r = Some q ∧ rq_agent_id q = ho_customer_id h;
  (** A charge is the capture of its request's hold, at the held amount. *)
  bi_charges : ∀ e r, e ∈ st_ledger s → le_batch_request_id e = Some r →
    ∃ h, st_holds s !! r = Some h ∧ ho_status h = hold_captured ∧ charge_for h e;
  (** A request is charged at most once. *)
  bi_charged_once : NoDup (omap le_batch_request_id (st_ledger s));
  (** The ledger reconciles with the purchases, adjustments and captures. *)
  bi_reconciles : ∀ c, balance_cents s c =
    completed_cents s c + adjusted_cents s c - captured_cents s c
}.

(** ** What a webhook can do *)

(** The tables a purchase does not touch. *)
Definition same_rest (s s' : Store) : Prop :=
  st_holds s' = st_holds s ∧ st_requests s' = st_requests s ∧ st_customers s' = st_customers s.

Inductive purchase_effect (s s' : Store) : Prop :=
| effect_none : st_ledger s' = st_ledger s → st_purchases s' = st_purchases s → purchase_effect s s'
| effect_complete sid p p' e :
    st_purchases s !! sid = Some p → pu_status p ≠ purchase_completed →
    pu_status p' = purchase_completed → pu_customer_id p' = pu_customer_id p →
    pu_amount_cents p' = pu_amount_cents p → MIN_PURCHASE_CENTS ≤ pu_amount_cents p →
    le_customer_id e = pu_customer_id p → le_kind e = kind_purchase →
    le_amount_cents e = pu_amount_cents p → le_batch_request_id e = None →
    st_ledger s' = st_ledger s ++ [e] → st_purchases s' = <[sid := p']> (st_purchases s) →
    purchase_effect s s'
| effect_close sid p p' :
    st_purchases s !! sid = Some p → pu_status p = purchase_processing →
    pu_status p' ≠ purchase_completed → pu_customer_id p' = pu_customer_id p →
    pu_amount_cents p' = pu_amount_cents p →
    st_ledger s' = st_ledger s → st_purchases s' = <[sid := p']> (st_purchases s) →
    purchase_effect s s'.

Lemma complete_purchase_effect env sid late s r s' :
  complete_credit_purchase_for_session env sid late s = (Ok r, s') →
  purchase_effect s s' ∧ same_rest s s'.
Proof.
  intros [(_ & -> & _)|(p & p' & e & Hp & _ & Hst & Hmin & (? & ? & ? & ?) & -> & ->)]%complete_purchase_inv.
  - split; [by constructor | done].
  - split; [|done]. eapply (effect_complete _ _ sid p _ e); [..|reflexivity]; try done.
    intros E. destruct Hst as [?|[_ [?|?]]]; congruence.
Qed.

Lemma close_purchase_effect sid status s r s' :
  close_credit_purchase_for_session sid status s = (Ok r, s') →
  purchase_effect s s' ∧ same_rest s s'.
Proof.
  intros [Hst [[_ ->]|(p & Hp & Hpr & _ & ->)]]%close_purchase_inv.
  - split; [by constructor | done].
  - split; [|done]. eapply (effect_close _ _ sid p); [..|reflexivity]; try done.
    rsimpl. destruct Hst; congruence.
Qed.

(** A handler that only turns an exception into another keeps the result. *)
Lemma try_catch_raise_Ok {S A} (m : M S A) h s a s' :
  (∀ e k s1, h e = Some k → ∃ e', k s1 = (Err e', s1)) →
  try_catch m h s = (Ok a, s') → m s = (Ok a, s').
Proof.
  intros Hh. unfold try_catch. destruct (m s) as [[a'|e] s1]; [done|].
  destruct (h e) eqn:E; [|done]. destruct (Hh e _ s1 E) as [e' ->]. done.
Qed.

Lemma stripe_dispatch_effect env event s r s' :
  stripe_dispatch env event s = (Ok r, s') → purchase_effect s s' ∧ same_rest s s'.
Proof.
  unfold stripe_dispatch. intros H0.
  assert (purchase_effect s s ∧ same_rest s s) as Hnone by (split; [by constructor | done]).
  case_bool_decide; [by run_inv|]. destruct (is_blank _); [by run_inv|].
  destruct (_ || _) in H0; [|destruct (_ || _) in H0; [|by run_inv]].
  all: apply bind_Ok_inv in H0 as (p & s1 & Hm & [_ ->]%ret_Ok_inv).
  all: apply try_catch_raise_Ok in Hm; [|intros [] k s2 [= <-]; by eexists].
  - by eapply complete_purchase_effect.
  - by eapply close_purchase_effect.
Qed.

Lemma stripe_webhook_effect env event s r s' :
  stripe_webhook env event s = (r, s') → purchase_effect s s' ∧ same_rest s s'.
Proof.
  unfold stripe_webhook. intros H0. destruct r as [r|e].
  - apply transaction_Ok_inv in H0. run_inv. case_match; run_inv; [split; [by constructor | done]|].
    match goal with H : stripe_dispatch _ _ _ = _ |- _ => apply stripe_dispatch_effect in H as [He Hr] end. destruct Hr as (? & ? & ?). split; [|done].
    destruct He; [by constructor | by eapply effect_complete | by eapply effect_close].
  - apply transaction_Err_inv in H0 as (s1 & _ & ->). split; [by constructor | done].
Qed.

(** ** Refinement, step by step *)

(** [l] is what the step did to the wallets: nothing, or one labelled step of
    one Customer's. *)
Definition refines (s : Store) (l : option (Z * WalletLabel)) (s' : Store) : Prop :=
  ∀ c, match l with
       | Some (c', wl) =>
           if decide (c = c') then wallet_step (wallet_of c s) wl (wallet_of c s')
           else wallet_of c s' = wallet_of c s
       | None => wallet_of c s' = wallet_of c s
       end.

Lemma refines_none s s' :
  st_ledger s' = st_ledger s → st_holds s' = st_holds s → refines s None s'.
Proof. intros E1 E2 c. unfold wallet_of, balance_cents. by rewrite E1, E2. Qed.

Lemma refines_entry s s' e wl :
  st_ledger s' = st_ledger s ++ [e] → st_holds s' = st_holds s →
  (∀ w, wallet_step w wl (mkWallet (w_balance w + le_amount_cents e) (w_reserved w))) →
  refines s (Some (le_customer_id e, wl)) s'.
Proof.
  intros E1 E2 Hstep c. unfold wallet_of. rewrite (balance_app _ e c s s' eq_refl E1), E2.
  case_decide as D; subst.
  - rewrite Z.eqb_refl. apply (Hstep (wallet_of _ s)).
  - rewrite (proj2 (Z.eqb_neq _ _)) by done. by rewrite Z.add_0_r.
Qed.

(** A hold's row changes: the reservations change at its request only. *)
Lemma omap_reservation_insert c r h (m : gmap uuid BatchHold) :
  omap (reservation c) (<[r := h]> m) =
  match reservation c h with
  | Some n => <[r := n]> (omap (reservation c) m)
  | None => delete r (omap (reservation c) m)
  end.
Proof.
  destruct (reservation c h) eqn:E; [by apply omap_insert_Some | by apply omap_insert_None].
Qed.

Lemma reservation_other c h : ho_customer_id h ≠ c → reservation c h = None.
Proof. intros E. unfold reservation. by rewrite (proj2 (Z.eqb_neq _ _)). Qed.
Lemma reservation_active h :
  ho_status h = hold_active → reservation (ho_customer_id h) h = Some (ho_amount_cents h).
Proof. intros E. unfold reservation. by rewrite Z.eqb_refl, E. Qed.
Lemma reservation_inactive c h : ho_status h ≠ hold_active → reservation c h = None.
Proof. intros E. unfold reservation. by rewrite (bool_decide_eq_false_2 _ E), andb_false_r. Qed.

(** The reservations after a hold's row is replaced by one of the same
    Customer. *)
Lemma wallet_of_hold c s s' r h h' :
  st_holds s !! r = Some h → ho_customer_id h' = ho_customer_id h →
  st_holds s' = <[r := h']> (st_holds s) →
  w_reserved (wallet_of c s') =
    if decide (c = ho_customer_id h) then
      match reservation c h' with
      | Some n => <[r := n]> (w_reserved (wallet_of c s))
      | None => delete r (w_reserved (wallet_of c s))
      end
    else w_reserved (wallet_of c s).
Proof.
  intros Hh Hc E. unfold wallet_of. cbn. rewrite E, omap_reservation_insert. case_decide; [done|].
  rewrite reservation_other by congruence. rewrite delete_id; [done|].
  rewrite lookup_omap, Hh. cbn. by apply reservation_other.
Qed.

Lemma wallet_eq w w' : w_balance w = w_balance w' → w_reserved w = w_reserved w' → w = w'.
Proof. destruct w, w'; cbn; congruence. Qed.

Lemma wallet_step_eq w l w1 w2 :
  wallet_step w l w1 → w_balance w2 = w_balance w1 → w_reserved w2 = w_reserved w1 →
  wallet_step w l w2.
Proof. intros Hs E1 E2. by rewrite (wallet_eq w2 w1). Qed.

Lemma reserved_lookup c s r : w_reserved (wallet_of c s) !! r = st_holds s !! r ≫= reservation c.
Proof. apply lookup_omap. Qed.

(** Capturing charges the reservation. *)
Lemma refines_capture s s' r h h' charge :
  st_holds s !! r = Some h → ho_status h = hold_active →
  ho_customer_id h' = ho_customer_id h → ho_status h' = hold_captured →
  st_holds s' = <[r := h']> (st_holds s) →
  le_customer_id charge = ho_customer_id h → le_amount_cents charge = - ho_amount_cents h →
  st_ledger s' = st_ledger s ++ [charge] →
  refines s (Some (ho_customer_id h, Charge r)) s'.
Proof.
  intros Hh Ha Hc Hst Eh Ec Em El c.
  pose proof (wallet_of_hold c _ _ _ _ _ Hh Hc Eh) as Hres.
  pose proof (balance_app _ charge c s s' eq_refl El) as Hbal. rewrite Ec in Hbal.
  rewrite reservation_inactive in Hres by congruence. case_decide; subst.
  - rewrite Z.eqb_refl, Em in Hbal.
    eapply wallet_step_eq; [apply (wallet_charge _ _ (ho_amount_cents h)) | exact Hbal | exact Hres].
    rewrite reserved_lookup, Hh. by apply reservation_active.
  - rewrite (proj2 (Z.eqb_neq _ _)), Z.add_0_r in Hbal by done. by apply wallet_eq.
Qed.

(** Releasing and reinstating leave the balance alone. *)
Lemma refines_release s s' r h h' :
  st_holds s !! r = Some h → ho_status h = hold_active →
  ho_customer_id h' = ho_customer_id h → ho_status h' ≠ hold_active →
  st_holds s' = <[r := h']> (st_holds s) → st_ledger s' = st_ledger s →
  refines s (Some (ho_customer_id h, Release r)) s'.
Proof.
  intros Hh Ha Hc Hst Eh El c.
  pose proof (wallet_of_hold c _ _ _ _ _ Hh Hc Eh) as Hres.
  assert (w_balance (wallet_of c s') = w_balance (wallet_of c s)) as Hbal.
  { cbn. unfold balance_cents. by rewrite El. }
  rewrite reservation_inactive in Hres by done. case_decide; subst; [|by apply wallet_eq].
  eapply wallet_step_eq; [apply (wallet_release _ _ (ho_amount_cents h)) | exact Hbal | exact Hres].
  rewrite reserved_lookup, Hh. by apply reservation_active.
Qed.

(** Reserving: a new hold, or a released one armed again, within what is
    available. *)
Lemma refines_reserve s s' r h' :
  (st_holds s !! r = None ∨
   ∃ h, st_holds s !! r = Some h ∧ ho_status h = hold_released ∧ ho_customer_id h' = ho_customer_id h) →
  ho_status h' = hold_active → 0 ≤ ho_amount_cents h' →
  ho_amount_cents h' ≤ available_cents s (ho_customer_id h') →
  st_holds s' = <[r := h']> (st_holds s) → st_ledger s' = st_ledger s →
  refines s (Some (ho_customer_id h', Reserve r (ho_amount_cents h'))) s'.
Proof.
  intros Hold Ha Hpos Hav Eh El c. rewrite available_cents_wallet in Hav.
  assert (w_balance (wallet_of c s') = w_balance (wallet_of c s)) as Hbal.
  { cbn. unfold balance_cents. by rewrite El. }
  assert (w_reserved (wallet_of c s) !! r = None) as Hfree.
  { rewrite reserved_lookup. destruct Hold as [->|(h & -> & Hr & _)]; [done|].
    apply reservation_inactive. congruence. }
  assert (w_reserved (wallet_of c s') = match reservation c h' with
    | Some n => <[r := n]> (w_reserved (wallet_of c s))
    | None => delete r (w_reserved (wallet_of c s)) end) as Hres.
  { unfold wallet_of. cbn. by rewrite Eh, omap_reservation_insert. }
  case_decide; subst.
  - rewrite reservation_active in Hres by done.
    eapply wallet_step_eq; [by apply wallet_reserve | exact Hbal | exact Hres].
  - rewrite reservation_other, delete_id in Hres by done. by apply wallet_eq.
Qed.

(** ** Keeping the invariant *)

Lemma inv_frame s s' : wallet_frame s s' → billing_inv s → billing_inv s'.
Proof.
  intros [(El & Eh & Ep) Hreq Hkr Hkc] [H1 H2 H3 H4 H5 H6]. split; auto.
  - rewrite Eh. intros r h (? & ? & q & Hq & <-)%H3. destruct (Hreq _ _ Hq) as (q' & ? & ?). eauto 6.
  - by rewrite El, Eh.
  - by rewrite El.
  - intros c. unfold balance_cents, completed_cents, captured_cents, adjusted_cents.
    rewrite El, Eh, Ep. apply H6.
Qed.

(** Sums over a ledger with one more entry. *)
Lemma adjusted_app s s' e c :
  st_ledger s' = st_ledger s ++ [e] →
  adjusted_cents s' c = adjusted_cents s c +
    (if (le_customer_id e =? c) && bool_decide (le_kind e = kind_admin_adjustment)
     then le_amount_cents e else 0).
Proof. intros E. unfold adjusted_cents. rewrite E, sumZ_app. cbn. lia. Qed.

Lemma adjusted_same s s' c : st_ledger s' = st_ledger s → adjusted_cents s' c = adjusted_cents s c.
Proof. intros E. unfold adjusted_cents. by rewrite E. Qed.
Lemma balance_same s s' c : st_ledger s' = st_ledger s → balance_cents s' c = balance_cents s c.
Proof. intros E. unfold balance_cents. by rewrite E. Qed.
Lemma captured_same s s' c : st_holds s' = st_holds s → captured_cents s' c = captured_cents s c.
Proof. intros E. unfold captured_cents. by rewrite E. Qed.
Lemma completed_same s s' c :
  st_purchases s' = st_purchases s → completed_cents s' c = completed_cents s c.
Proof. intros E. unfold completed_cents. by rewrite E. Qed.

Lemma omap_app_none (l : list CreditLedgerEntry) e :
  le_batch_request_id e = None →
  omap le_batch_request_id (l ++ [e]) = omap le_batch_request_id l.
Proof. intros E. rewrite omap_app. cbn. by rewrite E, app_nil_r. Qed.

Lemma completed_replace s s' sid p p' c :
  st_purchases s !! sid = Some p → pu_customer_id p' = pu_customer_id p →
  pu_amount_cents p' = pu_amount_cents p → pu_status p ≠ purchase_completed →
  st_purchases s' = <[sid := p']> (st_purchases s) →
  completed_cents s' c = completed_cents s c +
    (if (pu_customer_id p =? c) && bool_decide (pu_status p' = purchase_completed)
     then pu_amount_cents p else 0).
Proof.
  intros Hp Ec Ea Hn E. unfold completed_cents. rewrite E, (sum_map_replace _ _ _ p) by done.
  rewrite Ec, Ea, (bool_decide_eq_false_2 _ Hn), andb_false_r. lia.
Qed.

(** The purchases' books balance through every effect of a webhook. *)
Lemma purchase_effect_reconciles s s' c :
  purchase_effect s s' →
  balance_cents s' c - completed_cents s' c = balance_cents s c - completed_cents s c ∧
  adjusted_cents s' c = adjusted_cents s c.
Proof.
  intros [El Ep|sid p p' e Hp Hn Hd Hc Ha Hmin Hec Hek Hea Heb El Ep|sid p p' Hp Hpr Hn Hc Ha El Ep].
  - by rewrite (balance_same s s'), (completed_same s s'), (adjusted_same s s') by done.
  - rewrite (balance_app _ e c s s' eq_refl El), (completed_replace s s' sid p p' c) by done.
    rewrite (adjusted_app s s' e c El), Hek, Hec, Hea, bool_decide_eq_true_2 by done.
    rewrite (bool_decide_eq_false_2 (kind_purchase = _)), andb_true_r, andb_false_r by done. lia.
  - rewrite (balance_same s s'), (adjusted_same s s') by done.
    rewrite (completed_replace s s' sid p p' c) by (try done; congruence).
    rewrite (bool_decide_eq_false_2 _ Hn), andb_false_r. lia.
Qed.

Lemma inv_purchase_effect s s' :
  purchase_effect s s' → same_rest s s' → billing_inv s → billing_inv s'.
Proof.
  intros He (Eh & Er & Ec) [H1 H2 H3 H4 H5 H6].
  assert (omap le_batch_request_id (st_ledger s') = omap le_batch_request_id (st_ledger s) ∧
          ∀ e r, e ∈ st_ledger s' → le_batch_request_id e = Some r → e ∈ st_ledger s) as [Eo Hin].
  { destruct He as [El Ep|sid p p' e Hp Hn Hd Hc Ha Hmin Hec Hek Hea Heb El Ep|sid p p' Hp Hpr Hn Hc Ha El Ep];
      rewrite El; [done| |done].
    rewrite omap_app_none by done. split; [done|]. intros e' r.
    rewrite elem_of_app, list_elem_of_singleton. naive_solver. }
  split; unfold keyed_requests, keyed_customers; rewrite ?Eh, ?Er, ?Ec, ?Eo; auto.
  - intros e r Hel Hb. eapply H4; [by eapply Hin | done].
  - intros c. destruct (purchase_effect_reconciles s s' c He) as [Hb Ha].
    rewrite (captured_same s s' c Eh), Ha. specialize (H6 c). lia.
Qed.

Lemma captured_replace s s' r h h' c :
  st_holds s !! r = Some h → ho_customer_id h' = ho_customer_id h →
  ho_amount_cents h' = ho_amount_cents h → ho_status h ≠ hold_captured →
  st_holds s' = <[r := h']> (st_holds s) →
  captured_cents s' c = captured_cents s c +
    (if (ho_customer_id h =? c) && bool_decide (ho_status h' = hold_captured)
     then ho_amount_cents h else 0).
Proof.
  intros Hh Ec Ea Hn E. unfold captured_cents. rewrite E, (sum_map_replace _ _ _ h) by done.
  rewrite Ec, Ea, (bool_decide_eq_false_2 _ Hn), andb_false_r. lia.
Qed.

(** A hold that is not captured changes status; if it becomes captured, its
    charge enters the ledger. *)
Lemma inv_hold_change s s' r h h' charge :
  billing_inv s → st_holds s !! r = Some h → ho_status h ≠ hold_captured →
  ho_request_id h' = ho_request_id h → ho_customer_id h' = ho_customer_id h →
  ho_amount_cents h' = ho_amount_cents h →
  match ho_status h' with
  | hold_captured => ∃ e, charge = [e] ∧ charge_for h e
  | _ => charge = []
  end →
  st_holds s' = <[r := h']> (st_holds s) → st_ledger s' = st_ledger s ++ charge →
  st_requests s' = st_requests s → st_customers s' = st_customers s →
  st_purchases s' = st_purchases s → billing_inv s'.
Proof.
  intros [H1 H2 H3 H4 H5 H6] Hh Hn Er Ec Ea Hch Eh El Erq Ecu Ep.
  destruct (H3 _ _ Hh) as (Hid & Hpos & q & Hq & Hqc).
  assert (∀ e, e ∈ st_ledger s → le_batch_request_id e ≠ Some r) as Hfresh.
  { intros e He Hb. destruct (H4 _ _ He Hb) as (h0 & ? & ? & _). congruence. }
  split; unfold keyed_requests, keyed_customers; rewrite ?Eh, ?El, ?Erq, ?Ecu; auto.
  - intros r' h''. rewrite lookup_insert. case_decide; [|apply H3]. intros [= <-]. subst r'.
    rewrite Er, Ec, Ea. eauto 6.
  - intros e r' [He|He]%elem_of_app Hb.
    + destruct (H4 _ _ He Hb) as (h0 & ? & ? & ?). exists h0. rewrite lookup_insert_ne; [done|].
      intros ->. by eapply Hfresh.
    + destruct (ho_status h') eqn:Es; subst; try by apply not_elem_of_nil in He.
      destruct Hch as (e' & -> & Hf). apply list_elem_of_singleton in He as ->.
      destruct Hf as (? & ? & ? & Hb'). assert (r' = ho_request_id h) as -> by congruence.
      exists h'. rewrite lookup_insert_eq. split_and!; try done. unfold charge_for.
      by rewrite Ec, Ea, Er.
  - rewrite omap_app. destruct (ho_status h'); subst; rewrite ?app_nil_r; try done.
    destruct Hch as (e' & -> & _ & _ & _ & Hb). cbn. rewrite Hb. apply NoDup_app.
    split_and!; [done| |apply NoDup_singleton]. intros x Hx Hx'.
    apply list_elem_of_singleton in Hx' as ->.
    apply list_elem_of_omap in Hx as (e & He & Hbe). apply (Hfresh e He). congruence.
  - intros c. specialize (H6 c). rewrite (captured_replace s s' r h h' c), (completed_same s s' c) by done.
    destruct (ho_status h') eqn:Es.
    1,3: subst charge; rewrite app_nil_r in El; rewrite (balance_same s s' c El), (adjusted_same s s' c El), andb_false_r; lia.
    destruct Hch as (e' & -> & Hec & Hek & Hea & _).
    rewrite (balance_app _ e' c s s' eq_refl El), (adjusted_app s s' e' c El), Hek, Hec, Hea.
    rewrite (bool_decide_eq_true_2 (hold_captured = _)), (bool_decide_eq_false_2 (kind_batch_charge = _)), andb_true_r, andb_false_r by done.
    destruct (_ =? _); lia.
Qed.

(** A request enters with its hold, or without one. *)
Lemma inv_submit s s' q q' (h : option BatchHold) :
  billing_inv s → st_requests s !! rq_id q = None → rq_id q' = rq_id q → rq_agent_id q' = rq_agent_id q →
  st_requests s' = <[rq_id q := q']> (st_requests s) →
  match h with
  | Some h => st_holds s !! rq_id q = None ∧ ho_request_id h = rq_id q ∧
      ho_customer_id h = rq_agent_id q ∧ 0 ≤ ho_amount_cents h ∧ ho_status h = hold_active ∧
      st_holds s' = <[rq_id q := h]> (st_holds s)
  | None => st_holds s' = st_holds s
  end →
  st_ledger s' = st_ledger s → st_purchases s' = st_purchases s → st_customers s' = st_customers s →
  billing_inv s'.
Proof.
  intros [H1 H2 H3 H4 H5 H6] Hq Eid Eag Er Hh El Ep Ec.
  assert (∀ r x, st_holds s !! r = Some x → st_holds s' !! r = Some x) as Hkeep.
  { destruct h as [h|]; [|by rewrite Hh]. destruct Hh as (Hn & _ & _ & _ & _ & ->).
    intros r x Hx. rewrite lookup_insert_ne; [done|]. intros <-. congruence. }
  split; unfold keyed_customers; rewrite ?El, ?Ec; auto.
  - intros id q0. rewrite Er, lookup_insert. case_decide; [|apply H1]. intros [= <-]. congruence.
  - assert (∀ r x, st_holds s !! r = Some x → ho_request_id x = r ∧ 0 ≤ ho_amount_cents x ∧
      ∃ q0, st_requests s' !! r = Some q0 ∧ rq_agent_id q0 = ho_customer_id x) as Hold.
    { intros r x (? & ? & q0 & Hq0 & ?)%H3. split_and!; [done..|]. exists q0. split; [|done].
      rewrite Er, lookup_insert_ne; [done|]. intros <-. congruence. }
    destruct h as [h|]; [|by rewrite Hh]. destruct Hh as (Hn & Hid & Hcu & Hpos & _ & ->).
    intros r x. rewrite lookup_insert. case_decide; [|apply Hold]. intros [= <-]. subst r.
    split_and!; [done..|]. exists q'. by rewrite Er, lookup_insert_eq, Eag.
  - intros e r He Hb. destruct (H4 _ _ He Hb) as (x & Hx & ?). eauto.
  - intros c. rewrite (balance_same s s' c El), (adjusted_same s s' c El), (completed_same s s' c Ep), H6.
    f_equal. destruct h as [h|]; [|by rewrite (captured_same s s' c Hh)].
    destruct Hh as (Hn & _ & _ & _ & Hact & E). unfold captured_cents.
    rewrite E, sum_map_insert by done. rewrite Hact, andb_false_r. done.
Qed.

Lemma inv_adjust s s' e :
  billing_inv s → le_kind e = kind_admin_adjustment → le_batch_request_id e = None →
  st_ledger s' = st_ledger s ++ [e] → st_purchases s' = st_purchases s → same_rest s s' →
  billing_inv s'.
Proof.
  intros [H1 H2 H3 H4 H5 H6] Hk Hb El Ep (Eh & Er & Ec).
  split; unfold keyed_requests, keyed_customers; rewrite ?Eh, ?Er, ?Ec, ?El; auto.
  - intros e' r [He|He%list_elem_of_singleton]%elem_of_app; [by apply H4 | congruence].
  - by rewrite omap_app_none.
  - intros c. rewrite (balance_app _ e c s s' eq_refl El), (adjusted_app s s' e c El).
    rewrite (captured_same s s' c Eh), (completed_same s s' c Ep), Hk, bool_decide_eq_true_2, andb_true_r by done.
    specialize (H6 c). lia.
Qed.

(** ** The simulation *)

Lemma submit_inv env q expected s r s' :
  st_requests s !! rq_id q = None → submit env q expected s = (Ok r, s') →
  ∃ q', rq_id q' = rq_id q ∧ rq_agent_id q' = rq_agent_id q ∧
    st_requests s' = <[rq_id q := q']> (st_requests s) ∧ st_ledger s' = st_ledger s ∧
    st_purchases s' = st_purchases s ∧ st_customers s' = st_customers s ∧
    ((r = None ∧ st_holds s' = st_holds s ∧ rq_is_billed q' = false) ∨
     (∃ h customer rate, r = Some h ∧ st_holds s !! rq_id q = None ∧ ho_request_id h = rq_id q ∧
        ho_customer_id h = rq_agent_id q ∧ 0 ≤ ho_amount_cents h ∧ ho_status h = hold_active ∧
        st_customers s !! rq_agent_id q = Some customer ∧
        cu_lead_rate_cents_per_thousand customer = Some rate ∧ expected = Some rate ∧
        ho_amount_cents h = batch_cost_cents (rq_lead_count q) rate ∧
        ho_amount_cents h ≤ available_cents s (cu_id customer) ∧
        rq_billing_amount_cents q' = Some (ho_amount_cents h) ∧
        rq_is_billed q' = true ∧
        st_holds s' = <[rq_id q := h]> (st_holds s))).
Proof.
  intros Hq H. unfold submit in H. apply bind_Ok_inv in H as (b & s1 & Hb & H).
  apply prepare_submission_inv in Hb as (-> & customer & Hc & Hb). run_inv.
  apply place_batch_hold_inv in Hk. rsimpl. rewrite (alter_Some _ _ _ q) in Hk by apply lookup_insert_eq.
  destruct Hb as [(_ & _ & ->)|(_ & rate & Hr & -> & Hav & ->)]; cbn [sb_is_billed] in Hk.
  - destruct Hk as [(_ & -> & ->)|[[=] _]].
    exists (q <| rq_is_billed := false |> <| rq_lead_rate_cents_per_thousand := None |>
              <| rq_billing_amount_cents := None |>).
    rsimpl. rewrite insert_insert_eq. split_and!; try done. left. done.
  - destruct Hk as [([=] & _)|(_ & amount & h & [= <-] & Hpos & Hn & -> & -> & ->)].
    exists (q <| rq_is_billed := true |> <| rq_lead_rate_cents_per_thousand := Some rate |>
              <| rq_billing_amount_cents := Some (batch_cost_cents (rq_lead_count q) rate) |>).
    rsimpl. rewrite insert_insert_eq. split_and!; try done. right.
    eexists _, customer, rate. split_and!; done.
Qed.

(** The tables of a store given by an equation, one equation each. *)
Ltac hold_tables E :=
  pose proof (f_equal st_holds E) as Eh; pose proof (f_equal st_ledger E) as El;
  pose proof (f_equal st_requests E) as Er; pose proof (f_equal st_customers E) as Ec;
  pose proof (f_equal st_purchases E) as Ep; clear E; rsimpl.

Section Simulation.
Context `{StripeClient} (allowed : Z → Prop).

Lemma start_credit_purchase_inv env customer dollars email su cu s r s' :
  start_credit_purchase env customer dollars email su cu s = (Ok r, s') →
  same_rest s s' ∧ st_ledger s' = st_ledger s ∧
  ∃ p, st_purchases s !! pu_stripe_checkout_session_id p = None ∧
    pu_status p = purchase_processing ∧ pu_amount_cents p = dollars * 100 ∧ 1 ≤ dollars ∧
    pu_customer_id p = cu_id customer ∧
    st_purchases s' = <[pu_stripe_checkout_session_id p := p]> (st_purchases s).
Proof.
  unfold start_credit_purchase, uuid4. intros H0. run_inv.
  destruct (create_checkout_session _ _ _ _ _) as [checkout|[]]; run_inv. bool_inv. rsimpl.
  split_and!; try done.
  match goal with H : ¬ is_Some (_ !! cs_id ?c) |- _ =>
    exists (mkCreditPurchase (st_next_uuid s) (cu_id customer) (dollars * 100) purchase_processing
              (cs_id c) None (now env) None) end.
  split_and!; try done. by apply eq_None_not_Some.
Qed.

Lemma inv_start s s' p :
  billing_inv s → same_rest s s' → st_ledger s' = st_ledger s → pu_status p = purchase_processing →
  st_purchases s !! pu_stripe_checkout_session_id p = None →
  st_purchases s' = <[pu_stripe_checkout_session_id p := p]> (st_purchases s) → billing_inv s'.
Proof.
  intros [H1 H2 H3 H4 H5 H6] (Eh & Er & Ec) El Hst Hn Ep.
  split; unfold keyed_requests, keyed_customers; rewrite ?Eh, ?Er, ?Ec, ?El; auto.
  intros c. rewrite (balance_same s s' c El), (adjusted_same s s' c El), (captured_same s s' c Eh), H6.
  unfold completed_cents. rewrite Ep, sum_map_insert by done. by rewrite Hst, andb_false_r.
Qed.

Lemma configure_frame env cid enabled rate actor reason s c' s' :
  configure_customer_billing env cid enabled rate actor reason s = (Ok c', s') → wallet_frame s s'.
Proof.
  intros (customer & Hc & _ & _ & _ & _ & -> & ->)%configure_customer_billing_inv.
  split; [done| |done|].
  - intros id q Hq. eauto.
  - intros Hk id c0. rsimpl. rewrite lookup_insert. case_decide; [|apply Hk]. intros [= <-].
    subst. rsimpl. eauto.
Qed.

(** A step keeps the invariant and is at most one wallet step, an allowed
    one if it is an adjustment. *)
Definition simulated (s s' : Store) : Prop :=
  billing_inv s' ∧ ∃ l, refines s l s' ∧ (∀ c n, l = Some (c, Adjust n) → allowed n).

Lemma sim_none s s' :
  billing_inv s' → st_ledger s' = st_ledger s → st_holds s' = st_holds s → simulated s s'.
Proof. intros Hinv El Eh. split; [done|]. exists None. split; [by apply refines_none | done]. Qed.

Lemma sim_refines s s' c wl :
  billing_inv s' → refines s (Some (c, wl)) s' → (∀ n, wl ≠ Adjust n) → simulated s s'.
Proof. intros Hinv Hr Hn. split; [done|]. eexists. split; [exact Hr|]. naive_solver. Qed.

Lemma sim_webhook env event s r s' :
  billing_inv s → stripe_webhook env event s = (r, s') → simulated s s'.
Proof.
  intros Hinv [He Hr]%stripe_webhook_effect.
  pose proof (inv_purchase_effect _ _ He Hr Hinv) as Hinv'. destruct Hr as (Eh & _ & _).
  destruct He as [El _|sid p p' e _ _ _ _ _ Hmin _ _ Hea _ El _|sid p p' _ _ _ _ _ El _].
  1,3: by apply sim_none.
  eapply (sim_refines _ _ (le_customer_id e) (Credit (le_amount_cents e))); [done| |done].
  apply refines_entry; [done..|]. intros w. constructor. unfold MIN_PURCHASE_CENTS in *. lia.
Qed.

Lemma sim_submit env q expected s r s' :
  billing_inv s → st_requests s !! rq_id q = None → submit env q expected s = (Ok r, s') →
  simulated s s'.
Proof.
  intros Hinv Hq H0.
  destruct (submit_inv _ _ _ _ _ _ Hq H0) as (q' & Ei & Ea & Er & El & Ep & Ec & Hh).
  destruct Hh as [(-> & Eh & _)|(h & customer & rate & -> & Hn & Hid & Hcu & Hpos & Hact & Hc & _
    & _ & _ & Hav & _ & _ & Eh)].
  - apply sim_none; [|done..]. by apply (inv_submit s s' q q' None).
  - apply (sim_refines _ _ (ho_customer_id h) (Reserve (rq_id q) (ho_amount_cents h))).
    + by apply (inv_submit s s' q q' (Some h)).
    + apply (bi_customers s Hinv) in Hc. apply refines_reserve; auto. by rewrite Hcu, <- Hc.
    + done.
Qed.

Lemma sim_capture env q s r s' :
  billing_inv s → capture_batch_hold env q s = (Ok r, s') → simulated s s'.
Proof.
  intros Hinv [[_ ->]|(_ & h & Hh & [[_ ->]|(Ha & charge & Hch & E)])]%capture_batch_hold_inv.
  1,2: by apply sim_none.
  destruct (bi_holds s Hinv _ _ Hh) as (Hid & Hpos & _).
  destruct (existsb _ _) eqn:He in Hch.
  { apply existsb_exists in He as (e & Hin%list_elem_of_In & Hb%bool_decide_eq_true).
    destruct (bi_charges s Hinv e _ Hin Hb) as (h0 & ? & ? & _). congruence. }
  destruct Hch as (e & -> & Hec & Hek & Hea & Heb). rewrite <- Hid in Heb.
  hold_tables E.
  eapply (sim_refines _ _ (ho_customer_id h) (Charge (rq_id q))); [| |done].
  - refine (inv_hold_change s s' (rq_id q) h _ [e] Hinv Hh _ _ _ _ _ Eh El Er Ec Ep);
      [congruence | done | done | done | by exists e].
  - by refine (refines_capture s s' (rq_id q) h _ e Hh Ha _ _ Eh Hec Hea El).
Qed.

Lemma sim_release env q s r s' :
  billing_inv s → release_batch_hold env q s = (Ok r, s') → simulated s s'.
Proof.
  intros Hinv [[-> _]|(_ & h & Hh & Ha & E)]%release_batch_hold_inv; [by apply sim_none|].
  hold_tables E. eapply (sim_refines _ _ (ho_customer_id h) (Release (rq_id q))); [| |done].
  - refine (inv_hold_change s s' (rq_id q) h _ [] Hinv Hh _ _ _ _ _ Eh _ Er Ec Ep);
      [congruence | done | done | done | done | by rewrite app_nil_r].
  - by refine (refines_release s s' (rq_id q) h _ Hh Ha _ _ Eh El).
Qed.

Lemma sim_reinstate q s r s' :
  billing_inv s → st_requests s !! rq_id q = Some q → reinstate_batch_hold q s = (Ok r, s') →
  simulated s s'.
Proof.
  intros Hinv Hq [[_ ->]|(_ & customer & h & Hc & Hh & [[_ ->]|(Ha & Hav & E)])]%reinstate_batch_hold_inv.
  1,2: by apply sim_none.
  destruct (bi_holds s Hinv _ _ Hh) as (Hid & Hpos & q0 & Hq0 & Hqc).
  assert (cu_id customer = ho_customer_id h) as Ecu.
  { rewrite (bi_customers s Hinv _ _ Hc). congruence. }
  rewrite Ecu in Hav. hold_tables E.
  eapply (sim_refines _ _ (ho_customer_id h) (Reserve (rq_id q) (ho_amount_cents h))); [| |done].
  - refine (inv_hold_change s s' (rq_id q) h _ [] Hinv Hh _ _ _ _ _ Eh _ Er Ec Ep);
      [congruence | done | done | done | done | by rewrite app_nil_r].
  - refine (refines_reserve s s' (rq_id q) _ _ _ _ _ Eh El); eauto.
Qed.

Lemma sim_adjust env cid cents actor reason s r s' :
  billing_inv s → allowed cents →
  post_admin_adjustment env cid cents actor reason s = (Ok r, s') → simulated s s'.
Proof.
  intros Hinv Hal
    (Hne & _ & customer & Hc & _ & Hec & Hek & Hea & Heb & _ & _ & ->)%post_admin_adjustment_inv.
  split; [by eapply inv_adjust|].
  exists (Some (le_customer_id r, Adjust (le_amount_cents r))). split.
  - apply refines_entry; [done..|]. intros w. constructor. congruence.
  - intros c n [= _ <-]. congruence.
Qed.

Lemma billing_step_sim s s' : billing_inv s → billing_step allowed s s' → simulated s s'.
Proof.
  intros Hinv Hstep. destruct Hstep as [env customer dollars email su cu r s' H0| | | | | | |
    env cid enabled rate actor reason r s' H0|s' Hf].
  - apply start_credit_purchase_inv in H0 as (Hr & El & p & Hn & Hst & _ & _ & _ & Ep).
    apply sim_none; [by eapply inv_start | done | apply Hr].
  - by eapply sim_webhook.
  - by eapply sim_submit.
  - by eapply sim_capture.
  - by eapply sim_release.
  - by eapply sim_reinstate.
  - by eapply sim_adjust.
  - apply configure_frame in H0 as Hf. apply sim_none; [by eapply inv_frame | apply Hf..].
  - apply sim_none; [by eapply inv_frame | apply Hf..].
Qed.
End Simulation.

Lemma refines_solvent s l s' :
  refines s l s' → (∀ c n, l = Some (c, Adjust n) → 0 ≤ n) →
  (∀ c, solvent (wallet_of c s)) → ∀ c, solvent (wallet_of c s').
Proof.
  intros Hr Hl Hsol c. specialize (Hr c). destruct l as [[c' wl]|]; [|by rewrite Hr].
  case_decide; [|by rewrite Hr]. eapply wallet_step_solvent; [done| |done]. intros n ->. by apply (Hl c').
Qed.

Lemma simulated_solvent s s' :
  simulated (λ n, 0 ≤ n) s s' → (∀ c, solvent (wallet_of c s)) → ∀ c, solvent (wallet_of c s').
Proof. intros (_ & l & Hr & Hl). by eapply refines_solvent. Qed.

(** ** Properties *)

(** C2: billing refines the wallet.  Every operation that touches the money
    tables, in any order, keeps the invariant (each request charged at most
    once, at its hold's amount; the ledger equal to purchases plus adjustments
    less captures) and is for every Customer either invisible or exactly one
    step of the abstract wallet. *)
Theorem billing_refines_wallet `{StripeClient} allowed s s' :
  billing_inv s → billing_step allowed s s' →
  billing_inv s' ∧
  ((∀ c, wallet_of c s' = wallet_of c s) ∨
   ∃ c l, wallet_step (wallet_of c s) l (wallet_of c s') ∧ (∀ n, l = Adjust n → allowed n) ∧
          ∀ c', c' ≠ c → wallet_of c' s' = wallet_of c' s).
Proof.
  intros Hinv Hstep.
  destruct (billing_step_sim _ _ _ Hinv Hstep) as [Hinv' ([[c l]|] & Hr & Hl)]; [|by auto].
  split; [done|]. right. exists c, l. split_and!.
  - specialize (Hr c). cbn in Hr. by case_decide.
  - intros n ->. by apply (Hl c).
  - intros c' Hc. specialize (Hr c'). cbn in Hr. by case_decide.
Qed.

(** C4: no Customer spends money they do not have.  Along any run in which
    administrators post no negative adjustment, every wallet that starts
    solvent stays solvent: its available balance, after all active holds,
    never drops below zero, whatever is submitted, captured, released,
    retried or settled and in whatever order. *)
Theorem wallets_stay_solvent `{StripeClient} s s' :
  billing_inv s → (∀ c, solvent (wallet_of c s)) →
  rtc (billing_step (λ n, 0 ≤ n)) s s' →
  billing_inv s' ∧ ∀ c, 0 ≤ available_cents s' c.
Proof.
  intros Hinv Hsol Hrun.
  enough (billing_inv s' ∧ ∀ c, solvent (wallet_of c s')) as [? Hs].
  { split; [done|]. intros c. rewrite available_cents_wallet. apply Hs. }
  induction Hrun as [s|s s1 s' Hstep Hrun IH]; [done|].
  apply billing_step_sim in Hstep as Hsim; [|done].
  apply IH; [apply Hsim|]. by apply (simulated_solvent s).
Qed.

(** The store after a sequence of deliveries, in whatever order and however
    often Stripe sends them. *)
Definition run_webhooks (evs : list (Env * StripeEvent)) (s : Store) : Store :=
  foldl (λ s ev, (stripe_webhook ev.1 ev.2 s).2) s evs.

(** A purchase row keeps its Customer and amount, and once completed it is
    final. *)
Definition purchase_kept (p p' : CreditPurchase) : Prop :=
  pu_customer_id p' = pu_customer_id p ∧ pu_amount_cents p' = pu_amount_cents p ∧
  (pu_status p = purchase_completed → pu_status p' = purchase_completed).

Lemma purchase_effect_kept s s' sid p :
  purchase_effect s s' → st_purchases s !! sid = Some p →
  ∃ p', st_purchases s' !! sid = Some p' ∧ purchase_kept p p'.
Proof.
  intros He Hp.
  destruct He as [El Ep|sid0 p0 p' e Hp0 Hn Hd Hc Ha _ _ _ _ _ _ Ep|sid0 p0 p' Hp0 Hpr Hn Hc Ha _ Ep];
    rewrite Ep; [by exists p|..]; rewrite lookup_insert; case_decide; subst;
    try (by exists p); exists p'; unfold purchase_kept; naive_solver congruence.
Qed.

(** C7: a purchase is credited exactly once.  However Stripe repeats,
    reorders or mixes its events, the balance of each Customer grows by
    exactly the purchases that became completed, no purchase is lost or
    changes Customer or amount, and a completed one stays completed. *)
Theorem webhooks_credit_exactly_once evs s :
  (∀ c, balance_cents (run_webhooks evs s) c - balance_cents s c =
        completed_cents (run_webhooks evs s) c - completed_cents s c) ∧
  (∀ sid p, st_purchases s !! sid = Some p →
     ∃ p', st_purchases (run_webhooks evs s) !! sid = Some p' ∧ purchase_kept p p').
Proof.
  unfold run_webhooks. revert s. induction evs as [|[env ev] evs IH]; intros s; cbn.
  { split; [intros; lia|]. intros sid p Hp. by exists p. }
  destruct (stripe_webhook env ev s) as [r s1] eqn:E. cbn.
  apply stripe_webhook_effect in E as [He _]. destruct (IH s1) as [Hb Hp]. split.
  - intros c. destruct (purchase_effect_reconciles _ _ c He). specialize (Hb c). lia.
  - intros sid p (p1 & Hp1 & ? & ? & ?)%(purchase_effect_kept _ _ _ _ He).
    destruct (Hp _ _ Hp1) as (p' & Hp' & ? & ? & ?). exists p'. unfold purchase_kept.
    split; [done|]. split_and!; [congruence..|auto].
Qed.

(** money that arrives is credited.  A success event Stripe has not
    sent before, for a purchase on file, answers [ok], leaves the purchase
    completed and the balance higher by its amount, unless it was completed
    already; a purchase closed as failed or expired is superseded and the
    audit trail says so. *)
Theorem late_payment_is_credited env ev s p :
  se_type ev = u "checkout.session.async_payment_succeeded" →
  strip (se_id ev) ≠ [] → strip (se_session_id ev) ≠ [] →
  (u "stripe", strip (se_id ev)) ∉ st_webhook_receipts s →
  st_purchases s !! strip (se_session_id ev) = Some p → MIN_PURCHASE_CENTS ≤ pu_amount_cents p →
  ∃ s' p', stripe_webhook env ev s = (Ok reply_ok, s') ∧
    st_purchases s' !! strip (se_session_id ev) = Some p' ∧ pu_status p' = purchase_completed ∧
    balance_cents s' (pu_customer_id p) = balance_cents s (pu_customer_id p) +
      (if bool_decide (pu_status p = purchase_completed) then 0 else pu_amount_cents p) ∧
    length (st_audit s') = (length (st_audit s) +
      (if bool_decide (pu_status p = purchase_failed ∨ pu_status p = purchase_expired) then 1 else 0))%nat.
Proof.
  intros Hty Hid Hsid Hnew Hp Hmin. unfold stripe_webhook, begin, transaction, is_blank.
  rewrite bind_raise_if_false by (by apply bool_decide_eq_false_2).
  rewrite bind_gets, (bool_decide_eq_false_2 (_ ∈ st_webhook_receipts s)) by done. rewrite bind_modify.
  set (s1 := s <| st_webhook_receipts := _ |>).
  destruct (complete_purchase_run env (strip (se_session_id ev)) s1 p Hp Hmin) as (r & s' & E & Haud).
  exists s', r. unfold stripe_dispatch. rewrite Hty.
  rewrite (bool_decide_eq_false_2 (_ ∉ handled_types)) by (vm_compute; intros Hn; apply Hn; repeat constructor).
  unfold is_blank. rewrite bool_decide_eq_false_2 by done.
  rewrite (bool_decide_eq_true_2 (u "checkout.session.async_payment_succeeded" = _)) by done. cbn [orb].
  erewrite bind_Ok by (unfold try_catch; rewrite E; reflexivity).
  split; [done|]. apply complete_purchase_inv in E as [(Hr & -> & Hd)|
    (p0 & p' & e & Hp0 & [= ->] & Hst & _ & (Hec & _ & Hea & _) & -> & E')].
  - assert (r = p) as -> by (change (Some r = st_purchases s !! strip (se_session_id ev)) in Hr; congruence). split; [done|]. rewrite (Hd p eq_refl).
    split_and!; [done| |by rewrite Haud, (Hd p eq_refl)]. rewrite bool_decide_eq_true_2 by done.
    by rewrite Z.add_0_r.
  - assert (p0 = p) as -> by (change (st_purchases s !! strip (se_session_id ev) = Some p0) in Hp0; congruence).
    assert (pu_status p ≠ purchase_completed) as Hn by (destruct Hst as [?|[_ [?|?]]]; congruence).
    rewrite bool_decide_eq_false_2 by done. rsimpl. split_and!; [|done| |done].
    + rewrite E'. rsimpl. by rewrite lookup_insert_eq.
    + pose proof (f_equal st_ledger E') as El. rsimpl.
      rewrite (balance_app _ e (pu_customer_id p) s s' eq_refl El), Hec, Z.eqb_refl. lia.
Qed.

(** *** Concrete runs *)

Definition example_purchase : CreditPurchase :=
  mkCreditPurchase 100%N 7 1000 purchase_processing (u "cs_1") None 0 None.
Definition example_billing : Store :=
  empty_store <| st_customers := {[ 7 := example_customer ]} |>
              <| st_purchases := {[ u "cs_1" := example_purchase ]} |>
              <| st_next_uuid := 200%N |>.

#[local] Instance example_stripe : StripeClient :=
  {| create_checkout_session := λ _ _ _ _ _, Ok (mkCheckoutSession (u "cs_2") (u "https://pay")) |}.

Definition example_paid : StripeEvent :=
  mkStripeEvent (u "evt_1") (u "checkout.session.async_payment_succeeded") (u "cs_1") (u "paid").

Definition example_funded : Store := (stripe_webhook example_env example_paid example_billing).2.
Definition example_submitted : Store :=
  (submit example_env example_request (Some 1500) example_funded).2.
Definition example_billed_request : LeadRequest :=
  default example_request (st_requests example_submitted !! 1%N).
Definition example_captured : Store :=
  (capture_batch_hold example_env example_billed_request example_submitted).2.

Lemma example_billing_inv : billing_inv example_billing.
Proof.
  split; unfold keyed_requests, keyed_customers, example_billing; rsimpl.
  - intros id q. cbn. by rewrite lookup_empty.
  - intros id c [<- <-]%lookup_singleton_Some. done.
  - intros r h. cbn. by rewrite lookup_empty.
  - intros e r He. by apply not_elem_of_nil in He.
  - constructor.
  - intros c. unfold completed_cents, sum_map. rsimpl. rewrite map_to_list_singleton. cbn.
    by rewrite andb_false_r.
Qed.

Lemma example_solvent c : solvent (wallet_of c example_billing).
Proof. split; [done|]. intros r n. unfold wallet_of, example_billing. rsimpl. cbn. by rewrite omap_empty, lookup_empty. Qed.

(** A thousand cents settle, a hundred Leads at 1,500 cents per thousand are
    held and captured: 850 are left. *)
Example example_captured_available : available_cents example_captured 7 = 850.
Proof. vm_compute. reflexivity. Qed.

Lemma billing_refines_wallet_witness : billing_inv example_funded.
Proof.
  refine (proj1 (billing_refines_wallet (λ n, 0 ≤ n) example_billing example_funded
    example_billing_inv _)).
  apply (step_webhook _ _ example_env example_paid (stripe_webhook example_env example_paid example_billing).1).
  apply surjective_pairing.
Defined.

Lemma wallets_stay_solvent_witness : 0 ≤ available_cents example_captured 7.
Proof.
  refine (proj2 (wallets_stay_solvent example_billing example_captured example_billing_inv
    example_solvent _) 7).
  apply (rtc_l _ _ example_funded).
  { eapply (step_webhook _ _ example_env example_paid). apply surjective_pairing. }
  apply (rtc_l _ _ example_submitted).
  { destruct (submit example_env example_request (Some 1500) example_funded) as [[r|e] s1] eqn:E;
      [|vm_compute in E; discriminate E].
    apply (step_submit _ _ example_env example_request (Some 1500) r).
    - vm_compute. reflexivity.
    - unfold example_submitted. rewrite E. reflexivity. }
  apply (rtc_l _ _ example_captured); [|apply rtc_refl].
  destruct (capture_batch_hold example_env example_billed_request example_submitted)
    as [[r|e] s1] eqn:E; [|vm_compute in E; discriminate E].
  apply (step_capture _ _ example_env example_billed_request r).
  - vm_compute. reflexivity.
  - unfold example_captured. rewrite E. reflexivity.
Defined.

(** The same payment reported after the session had expired. *)
Definition example_expired : Store :=
  example_billing <| st_purchases :=
    {[ u "cs_1" := example_purchase <| pu_status := purchase_expired |> ]} |>.

Lemma late_payment_is_credited_witness :
  ∃ s', stripe_webhook example_env example_paid example_expired = (Ok reply_ok, s') ∧
        balance_cents s' 7 = 1000 ∧ length (st_audit s') = 1%nat.
Proof.
  destruct (late_payment_is_credited example_env example_paid example_expired
    (example_purchase <| pu_status := purchase_expired |>)) as (s' & p' & E & _ & _ & Hb & Ha).
  1,5: vm_compute; reflexivity.
  1,2: by vm_compute.
  - vm_compute. set_solver.
  - vm_compute. discriminate.
  - exists s'. split; [exact E|]. split; [exact Hb | exact Ha].
Defined.
