(* ===== verification/Fulfillment.v ===== *)
(** * [jawnix/fulfillment.py]: which actions a Batch Request offers

    The one table both the screens that offer actions and the code that
    enforces them read: the actions, the statuses they accept, their further
    preconditions, and the context they are judged in. *)

From S2P Require Import Prelude PyText Models.
From Stdlib Require String.

Open Scope Z_scope.

Record RequestActionContext : Type := mkContext {
  ctx_status : RequestStatus;
  ctx_has_artifact : bool;
  ctx_artifact_available : bool;
  ctx_committed_distributions : Z;
  ctx_distribution_complete : bool;
  ctx_telegram_decision_pending : bool
}.
#[export] Instance RequestActionContext_eta : Eta RequestActionContext := λ r,
  mkContext (ctx_status r) (ctx_has_artifact r) (ctx_artifact_available r)
    (ctx_committed_distributions r) (ctx_distribution_complete r) (ctx_telegram_decision_pending r).

(** [FulfillmentAction], without the dialog copy. *)
Record FulfillmentAction : Type := mkAction {
  fa_name : string;
  fa_label : string;
  fa_from_statuses : list RequestStatus;
  fa_requires_reason : bool;
  fa_destructive : bool;
  fa_precondition : RequestActionContext → bool
}.

Definition always (_ : RequestActionContext) : bool := true.

Definition APPROVE : FulfillmentAction :=
  mkAction "approve" "Approve" [pending] true false always.

Definition RETRY : FulfillmentAction :=
  mkAction "retry" "Retry generation" [waiting_inventory; failed] true false
    (λ ctx, negb (ctx_has_artifact ctx)).

Definition RETRY_DELIVERY : FulfillmentAction :=
  mkAction "retry_delivery" "Retry notification" [failed] true false
    (λ ctx, ctx_has_artifact ctx).

Definition REJECT : FulfillmentAction :=
  mkAction "reject" "Reject" [pending; waiting_inventory] true true always.

Definition CANCEL : FulfillmentAction :=
  mkAction "cancel" "Cancel" [pending; approved; waiting_inventory] true true
    (λ ctx, ctx_committed_distributions ctx =? 0).

Definition REGENERATE : FulfillmentAction :=
  mkAction "regenerate" "Regenerate artifact" [] true false
    (λ ctx, ctx_has_artifact ctx && negb (ctx_artifact_available ctx) &&
            ctx_distribution_complete ctx).

Definition ACTIONS : list FulfillmentAction :=
  [APPROVE; RETRY; RETRY_DELIVERY; REGENERATE; REJECT; CANCEL].

Definition is_transition (action : FulfillmentAction) : bool :=
  match fa_from_statuses action with [] => false | _ => true end.

Definition TRANSITION_ACTIONS : list string :=
  fa_name <$> List.filter is_transition ACTIONS.

(** [_BY_NAME.get(name)] *)
Definition by_name (name : string) : option FulfillmentAction :=
  List.find (λ a, String.eqb (fa_name a) name) ACTIONS.

Definition action_named (name : string) : outcome FulfillmentAction :=
  match by_name name with
  | Some action => Ok action
  | None => Err (KeyError (u name))
  end.

Definition transition_rule (name : string) : option FulfillmentAction :=
  match by_name name with
  | Some action => if is_transition action then Some action else None
  | None => None
  end.

Definition is_offered (action : FulfillmentAction) (ctx : RequestActionContext) : bool :=
  if is_transition action && negb (bool_decide (ctx_status ctx ∈ fa_from_statuses action))
  then false else fa_precondition action ctx.

Definition available_actions (ctx : RequestActionContext) : list FulfillmentAction :=
  List.filter (λ a, is_offered a ctx) ACTIONS.

Definition available_action_names (ctx : RequestActionContext) : list string :=
  fa_name <$> available_actions ctx.

Definition TELEGRAM_ACTIONS : list string := ["approve"; "retry"; "retry_delivery"; "reject"]%string.

Definition telegram_actions (ctx : RequestActionContext) : list FulfillmentAction :=
  List.filter (λ a, existsb (String.eqb (fa_name a)) TELEGRAM_ACTIONS) (available_actions ctx).

(** ** The context of a request *)

Definition artifact_available (s : Store) (artifact : option BatchArtifact) (now : datetime) : bool :=
  match artifact with
  | None => false
  | Some a =>
      bool_decide (is_Some (st_files s !! ar_path a)) &&
      match ar_expires_at a with Some expires_at => now <? expires_at | None => false end
  end.

(** [SELECT count(id) FROM distribution_events WHERE request_id = ...] *)
Definition committed_distributions (s : Store) (request_id : uuid) : Z :=
  Z.of_nat (length (List.filter (λ e, bool_decide (ev_request_id e = Some request_id)) (st_events s))).

(** [_request_context]; [notified] says that a notification row exists. *)
Definition request_context_of (s : Store) (item : LeadRequest) (committed : Z) (notified : bool)
    (now : datetime) : RequestActionContext :=
  let artifact := st_artifacts s !! rq_id item in
  let context := mkContext (rq_status item) (bool_decide (is_Some artifact))
                   (artifact_available s artifact now) committed (committed =? rq_lead_count item)
                   false in
  context <| ctx_telegram_decision_pending :=
    notified && match telegram_actions context with [] => false | _ => true end |>.

Definition request_context (s : Store) (item : LeadRequest) (notified : bool) (now : datetime)
    : RequestActionContext :=
  request_context_of s item (committed_distributions s (rq_id item)) notified now.

(** ** Lemmas *)

Lemma elem_of_available name ctx :
  name ∈ available_action_names ctx ↔
  ∃ a, a ∈ ACTIONS ∧ fa_name a = name ∧ is_offered a ctx = true.
Proof.
  unfold available_action_names, available_actions. rewrite list_elem_of_fmap.
  setoid_rewrite list_elem_of_In. setoid_rewrite filter_In. split; intros (a & Ha); exists a; intuition auto.
Qed.

(** Names identify actions. *)
Lemma by_name_ACTIONS a : a ∈ ACTIONS → by_name (fa_name a) = Some a.
Proof.
  rewrite list_elem_of_In. unfold ACTIONS. cbn [In].
  intros H. repeat destruct H as [<-|H]; done.
Qed.

Lemma elem_of_available_named a ctx :
  a ∈ ACTIONS → fa_name a ∈ available_action_names ctx ↔ is_offered a ctx = true.
Proof.
  intros Ha. rewrite elem_of_available. split; [|eauto].
  intros (b & Hb & Hn & Ho). apply by_name_ACTIONS in Ha, Hb. rewrite Hn in Hb. congruence.
Qed.

(** What is offered depends on the context's status, artifact and committed
    count alone for every status transition. *)
Lemma transition_offer_agrees a ctx ctx' :
  a ∈ ACTIONS → is_transition a = true →
  ctx_status ctx = ctx_status ctx' → ctx_has_artifact ctx = ctx_has_artifact ctx' →
  ctx_committed_distributions ctx = ctx_committed_distributions ctx' →
  is_offered a ctx = is_offered a ctx'.
Proof.
  rewrite list_elem_of_In. unfold ACTIONS. cbn [In]. intros H Ht Es Ea Ec. unfold is_offered.
  rewrite Es. repeat destruct H as [<-|H]; try done; cbn; by rewrite ?Ea, ?Ec.
Qed.
