(* ===== verification/Transitions.v ===== *)
(** * [jawnix/transitions.py]: administrator transitions of a Batch Request *)

From S2P Require Import Prelude PyText Models Activity Jobs Billing Fulfillment.
From Stdlib Require String.

Open Scope Z_scope.

Definition put_request (item : LeadRequest) : M Store unit :=
  modify (λ s, s <| st_requests := <[rq_id item := item]> (st_requests s) |>).

(** The context enforcement judges: the columns it loads, defaults elsewhere. *)
Definition enforcement_context (s : Store) (item : LeadRequest) : RequestActionContext :=
  mkContext (rq_status item) (bool_decide (is_Some (st_artifacts s !! rq_id item))) false
    (committed_distributions s (rq_id item)) false false.

Definition not_valid (action : string) (item : LeadRequest) : exn :=
  TransitionError (u "Action " ++ u action ++ u " is not valid while request is "
    ++ u (status_value (rq_status item)) ++ u ".") 409.

(** The branches of [transition_request] on the action; each answers the row
    as it leaves it. *)
Definition do_approve (env : Env) (item : LeadRequest) : M Store LeadRequest :=
  let item := item <| rq_status := approved |> <| rq_approved_at := Some (now env) |>
                   <| rq_status_message := u "Approved; allocation is queued." |> in
  put_request item ;;
  enqueue_milestone_email env item ;;
  enqueue env "update_notification" (Some (rq_id item)) ;;
  enqueue env "fulfill_round_robin" None ;;
  mret item.

Definition do_retry (env : Env) (item : LeadRequest) : M Store LeadRequest :=
  try_catch (reinstate_batch_hold item) (λ e, match e with
    | BillingError detail code => Some (raise (TransitionError detail code))
    | _ => None
    end) ;;
  let item := item <| rq_status := approved |>
                   <| rq_status_message := u "Retry approved; allocation is queued." |>
                   <| rq_closed_at := None |> in
  put_request item ;;
  enqueue_milestone_email env item ;;
  enqueue env "update_notification" (Some (rq_id item)) ;;
  enqueue env "fulfill_round_robin" None ;;
  mret item.

Definition do_retry_delivery (env : Env) (item : LeadRequest) : M Store LeadRequest :=
  let item := item <| rq_status := generated |>
                   <| rq_status_message := u "Portal notification retry queued." |>
                   <| rq_closed_at := None |> in
  put_request item ;;
  enqueue env "update_notification" (Some (rq_id item)) ;;
  enqueue env "deliver_request" (Some (rq_id item)) ;;
  mret item.

Definition do_reject (env : Env) (item : LeadRequest) : M Store LeadRequest :=
  let item := item <| rq_status := rejected |> <| rq_status_message := u "Rejected by admin." |>
                   <| rq_closed_at := Some (now env) |> in
  put_request item ;;
  enqueue_milestone_email env item ;;
  enqueue env "update_notification" (Some (rq_id item)) ;;
  release_batch_hold env item ;;
  mret item.

Definition do_cancel (env : Env) (item : LeadRequest) : M Store LeadRequest :=
  let item := item <| rq_status := canceled |> <| rq_status_message := u "Canceled by admin." |> in
  put_request item ;;
  enqueue env "update_notification" (Some (rq_id item)) ;;
  release_batch_hold env item ;;
  mret item.

Definition transition_request (env : Env) (request_id : uuid) (action : string)
    (actor_id reason : text) : M Store LeadRequest :=
  found ← gets (λ s, st_requests s !! request_id);
  item ← require found (TransitionError (u "Request was not found.") 404);
  let previous_status := rq_status item in
  artifact ← gets (λ s, st_artifacts s !! rq_id item);
  context ← gets (λ s, enforcement_context s item);
  raise_if (String.eqb action "retry_delivery" && bool_decide (artifact = None))
    (TransitionError (u "No generated artifact is available for delivery retry.") 409) ;;
  raise_if (negb (existsb (String.eqb action) (available_action_names context)))
    (not_valid action item) ;;
  item' ←
    (if String.eqb action "approve" then do_approve env item
     else if String.eqb action "retry" then do_retry env item
     else if String.eqb action "retry_delivery" then do_retry_delivery env item
     else if String.eqb action "reject" then do_reject env item
     else if String.eqb action "cancel" then do_cancel env item
     else raise (not_valid action item));
  record_activity env (u "batch_request_" ++ u action) (u "batch_request")
    (str_of_uuid (rq_id item')) actor_id reason
    [("before", JObj [("status", JStr (u (status_value previous_status)))]);
     ("after", JObj [("status", JStr (u (status_value (rq_status item'))))])]%string [] ;;
  mret item'.

(** ** Lemmas *)

(** The screen's context and the enforcement's offer the same transitions. *)
Lemma contexts_agree s item notified now a :
  a ∈ ACTIONS → is_transition a = true →
  is_offered a (request_context s item notified now) = is_offered a (enforcement_context s item).
Proof. intros Ha Ht. by apply transition_offer_agrees. Qed.

(** Enforcement never sees [regenerate] offered. *)
Lemma enforcement_offers name s item :
  name ∈ available_action_names (enforcement_context s item) →
  ∃ a, a ∈ ACTIONS ∧ fa_name a = name ∧ is_transition a = true ∧
       is_offered a (enforcement_context s item) = true.
Proof.
  intros (a & Ha & Hn & Ho)%elem_of_available. exists a. split_and!; try done.
  apply list_elem_of_In in Ha. unfold ACTIONS in Ha. cbn [In] in Ha.
  repeat destruct Ha as [<-|Ha]; try done. cbn in Ho. by rewrite !andb_false_r in Ho.
Qed.

Lemma existsb_elem_of name l : existsb (String.eqb name) l = true ↔ name ∈ l.
Proof.
  rewrite existsb_exists. setoid_rewrite String.eqb_eq. rewrite list_elem_of_In. naive_solver.
Qed.

(** The row each action leaves behind. *)
Definition row_after (env : Env) (action : string) (item : LeadRequest) : LeadRequest :=
  if String.eqb action "approve" then
    item <| rq_status := approved |> <| rq_approved_at := Some (now env) |>
         <| rq_status_message := u "Approved; allocation is queued." |>
  else if String.eqb action "retry" then
    item <| rq_status := approved |> <| rq_status_message := u "Retry approved; allocation is queued." |>
         <| rq_closed_at := None |>
  else if String.eqb action "retry_delivery" then
    item <| rq_status := generated |> <| rq_status_message := u "Portal notification retry queued." |>
         <| rq_closed_at := None |>
  else if String.eqb action "reject" then
    item <| rq_status := rejected |> <| rq_status_message := u "Rejected by admin." |>
         <| rq_closed_at := Some (now env) |>
  else item <| rq_status := canceled |> <| rq_status_message := u "Canceled by admin." |>.

(** The branch of an action, and what it does to the hold. *)
Definition branch (env : Env) (action : string) (item : LeadRequest) : M Store LeadRequest :=
  if String.eqb action "approve" then do_approve env item
  else if String.eqb action "retry" then do_retry env item
  else if String.eqb action "retry_delivery" then do_retry_delivery env item
  else if String.eqb action "reject" then do_reject env item
  else if String.eqb action "cancel" then do_cancel env item
  else raise (not_valid action item).

Lemma release_total env q : total (release_batch_hold env q).
Proof. intros s. destruct (release_batch_hold_total env q s) as [s' ->]. eauto. Qed.
#[local] Hint Resolve release_total : total.

Lemma TRANSITION_ACTIONS_eq :
  TRANSITION_ACTIONS = ["approve"; "retry"; "retry_delivery"; "reject"; "cancel"]%string.
Proof. reflexivity. Qed.

(** Every branch but a retry answers; a retry answers when its hold can be
    armed again. *)
Lemma branch_total env action item s :
  action ∈ TRANSITION_ACTIONS →
  (action = "retry"%string → ∃ s1, reinstate_batch_hold item s = (Ok tt, s1)) →
  ∃ r s', branch env action item s = (Ok r, s').
Proof.
  intros Ha Hr. rewrite TRANSITION_ACTIONS_eq, list_elem_of_In in Ha. cbn [In] in Ha. unfold branch.
  repeat destruct Ha as [<-|Ha]; cbn [String.eqb Ascii.eqb Bool.eqb]; [..|done].
  2: { destruct (Hr eq_refl) as [s1 E]. unfold do_retry.
       erewrite bind_Ok by (unfold try_catch; rewrite E; reflexivity).
       match goal with |- ∃ r s', ?m s1 = _ => enough (total m) by auto end.
       unfold put_request. auto 8 with total. }
  all: unfold do_approve, do_retry_delivery, do_reject, do_cancel, put_request.
  all: match goal with |- ∃ r s', ?m ?s0 = _ => enough (total m) by auto end; auto 8 with total.
Qed.

(** What follows the row's assignment leaves the requests alone. *)
Lemma put_request_tail item (tail : M Store LeadRequest) s r s' :
  (∀ x, preserves (λ s, st_requests s = x) tail) →
  (put_request item ;; tail) s = (Ok r, s') →
  st_requests s' = <[rq_id item := item]> (st_requests s).
Proof.
  intros Ht H. unfold put_request in H. run_inv. by eapply preserves_Ok in Hk; [|apply Ht|reflexivity].
Qed.

Lemma branch_frame env action item x :
  preserves (λ s, (st_events s, st_artifacts s, st_ledger s, st_audit s, st_leads s) = x)
    (branch env action item).
Proof.
  unfold branch, do_approve, do_retry, do_retry_delivery, do_reject, do_cancel, put_request.
  solve_frame. all: cbn in *; case_match; simplify_eq; apply pres_raise.
Qed.

Lemma branch_inv env action item s r s' :
  branch env action item s = (Ok r, s') →
  r = row_after env action item ∧ st_requests s' = <[rq_id item := r]> (st_requests s) ∧
  (st_events s', st_artifacts s', st_ledger s', st_audit s', st_leads s') =
    (st_events s, st_artifacts s, st_ledger s, st_audit s, st_leads s).
Proof.
  intros H. assert (r = row_after env action item ∧ st_requests s' = <[rq_id item := r]> (st_requests s))
    as [-> ->].
  2: { split_and!; try done. by eapply preserves_Ok in H; [|apply branch_frame|reflexivity]. }
  unfold branch, row_after in *.
  repeat match goal with H : context [String.eqb ?a ?b] |- _ => destruct (String.eqb a b) end; [..|run_inv].
  2: { apply bind_Ok_inv in H as ([] & s1 & Hr & H).
       assert (st_requests s1 = st_requests s) as Er.
       { eapply (preserves_Ok (λ s0, st_requests s0 = st_requests s)) in Hr; [done| |done].
         solve_frame. cbn in *. case_match; simplify_eq; apply pres_raise. }
       cbv zeta beta in H. pose proof H as H'. split; [by run_inv|].
       apply put_request_tail in H'; [rewrite H', <- Er; by run_inv | solve_frame]. }
  all: unfold do_approve, do_retry_delivery, do_reject, do_cancel in H; cbv zeta in H.
  all: split; [by run_inv|].
  all: pose proof H as H'; apply put_request_tail in H'; [rewrite H'; by run_inv | solve_frame].
Qed.

(** A release leaves no active hold behind. *)
Lemma release_not_active env q s x s' h :
  release_batch_hold env q s = (Ok x, s') → rq_is_billed q = true →
  st_holds s' !! rq_id q = Some h → ho_status h ≠ hold_active.
Proof.
  intros [[-> Hn]|(_ & h0 & _ & _ & ->)]%release_batch_hold_inv Hb Hh.
  - destruct Hn as [|[|(h0 & ? & ?)]]; congruence.
  - rsimpl. rewrite lookup_insert_eq in Hh. by injection Hh as <-.
Qed.

Lemma branch_hold env action item s r s' h :
  branch env action item s = (Ok r, s') → rq_is_billed item = true →
  st_holds s' !! rq_id item = Some h →
  ((action = "reject" ∨ action = "cancel") → ho_status h ≠ hold_active)%string ∧
  (action = "retry"%string → ho_status h = hold_active).
Proof.
  intros H Hb Hh. split.
  - intros Ha. unfold branch, do_reject, do_cancel in H. destruct Ha as [-> | ->]; cbn in H.
    all: run_inv; by eapply release_not_active.
  - intros ->. unfold branch, do_retry in H. cbn in H. apply bind_Ok_inv in H as ([] & s1 & Hr & H).
    assert (st_holds s' = st_holds s1) as Es.
    { unfold put_request in H.
      eapply (preserves_Ok (λ s0, st_holds s0 = st_holds s1)) in H; [done|solve_frame|done]. }
    unfold try_catch in Hr. destruct (reinstate_batch_hold item s) as [[[]|e] s2] eqn:E.
    + injection Hr as <-. rewrite Es in Hh.
      apply reinstate_batch_hold_inv in E as [[? _]|(_ & _ & h0 & _ & Hh0 & [[? ->]|(_ & _ & ->)])].
      * congruence.
      * congruence.
      * rsimpl. rewrite lookup_insert_eq in Hh. by injection Hh as <-.
    + destruct e; discriminate Hr.
Qed.

Lemma transition_request_inv env rid action actor reason s r s' :
  transition_request env rid action actor reason s = (Ok r, s') →
  ∃ item s1 e, st_requests s !! rid = Some item ∧
    action ∈ available_action_names (enforcement_context s item) ∧
    branch env action item s = (Ok r, s1) ∧
    s' = s1 <| st_next_uuid := st_next_uuid s' |> <| st_audit := st_audit s1 ++ [e] |> ∧
    au_action e = strip (u "batch_request_" ++ u action) ∧ au_target_id e = str_of_uuid (rq_id r) ∧
    au_actor_user_id e = strip actor ∧ au_reason e = strip reason ∧ strip reason ≠ [] ∧
    au_details e =
      [("before", JObj [("status", JStr (u (status_value (rq_status item))))]);
       ("after", JObj [("status", JStr (u (status_value (rq_status r))))])]%string.
Proof.
  unfold transition_request. intros H. run_inv.
  match goal with H : record_activity _ _ _ _ _ _ _ _ _ = _ |- _ =>
    apply record_activity_inv in H as (_ & _ & _ & Hr & _ & _ & -> & ->) end.
  match goal with H : Some ?i = st_requests s !! rid |- _ => exists i; rename i into item end.
  match goal with H : _ ?s0 = (Ok r, ?s1) |- _ => exists s1; eexists; change (branch env action item s0 = (Ok r, s1)) in H end.
  split_and!; try done. apply negb_false_iff, existsb_elem_of in Hguard. done.
Qed.

(** The activity of a transition is always in order. *)
Lemma transition_activity_run env action r actor reason prev s :
  strip actor ≠ [] → strip reason ≠ [] →
  ∃ e s', record_activity env (u "batch_request_" ++ u action) (u "batch_request")
    (str_of_uuid (rq_id r)) actor reason
    [("before", JObj [("status", JStr (u (status_value prev)))]);
     ("after", JObj [("status", JStr (u (status_value (rq_status r))))])]%string [] s = (Ok e, s').
Proof.
  intros Ha Hr. do 2 eexists. apply record_activity_run; [by apply strip_app_nonblank | by vm_compute | done | done |].
  generalize (u (status_value prev)), (u (status_value (rq_status r))). intros. by vm_compute.
Qed.

(** Enforcement accepts what a screen's context offers. *)
Lemma accepted_iff_offered env rid action actor reason s item notified :
  st_requests s !! rid = Some item → strip actor ≠ [] → strip reason ≠ [] →
  (action = "retry"%string → ∃ s1, reinstate_batch_hold item s = (Ok tt, s1)) →
  (∃ r s', transition_request env rid action actor reason s = (Ok r, s')) ↔
  action ∈ TRANSITION_ACTIONS ∧
  action ∈ available_action_names (request_context s item notified (now env)).
Proof.
  intros Hi Hactor Hreason Hretry. split.
  - intros (r & s' & (item' & _ & _ & Hi' & Hav & _)%transition_request_inv).
    assert (item' = item) as -> by congruence.
    destruct (enforcement_offers _ _ _ Hav) as (a & Ha & <- & Ht & Ho). split.
    + unfold TRANSITION_ACTIONS. apply list_elem_of_fmap. exists a. split; [done|].
      by apply list_elem_of_In, filter_In; rewrite <- list_elem_of_In.
    + apply elem_of_available_named; [done|]. by rewrite contexts_agree.
  - intros [Ht Hav].
    assert (action ∈ available_action_names (enforcement_context s item)) as Hav'.
    { unfold TRANSITION_ACTIONS in Ht. apply list_elem_of_fmap in Ht as (a & -> & Ha).
      apply list_elem_of_In, filter_In in Ha as [Ha%list_elem_of_In Hta].
      apply elem_of_available_named in Hav; [|done]. apply elem_of_available_named; [done|].
      by rewrite <- (contexts_agree s item notified (now env)). }
    destruct (branch_total env action item s Ht Hretry) as (r & s1 & Hb).
    destruct (transition_activity_run env action r actor reason (rq_status item) s1 Hactor Hreason)
      as (e & s' & Hact).
    exists r, s'. unfold transition_request. rewrite bind_gets, (bind_require_Some _ item) by done.
    rewrite !bind_gets, bind_raise_if_false.
    2: { apply andb_false_iff. destruct (String.eqb_spec action "retry_delivery") as [->|]; [right|by left].
         apply bool_decide_eq_false. intros Hn.
         change "retry_delivery"%string with (fa_name RETRY_DELIVERY) in Hav'.
         apply elem_of_available_named in Hav'; [|by apply list_elem_of_In; cbn; tauto].
         unfold is_offered in Hav'. destruct (_ && _); [done|].
         change (bool_decide (is_Some (st_artifacts s !! rq_id item)) = true) in Hav'.
         rewrite Hn in Hav'. by apply bool_decide_eq_true, is_Some_None in Hav'. }
    rewrite bind_raise_if_false by (by apply negb_false_iff, existsb_elem_of).
    erewrite bind_Ok by exact Hb. by erewrite bind_Ok by exact Hact.
Qed.

(** What an accepted transition was given. *)
Lemma transition_request_needs env rid action actor reason s r s' :
  transition_request env rid action actor reason s = (Ok r, s') →
  ∃ item, st_requests s !! rid = Some item ∧ strip actor ≠ [] ∧ strip reason ≠ [] ∧
    (action = "retry"%string → ∃ s1, reinstate_batch_hold item s = (Ok tt, s1)).
Proof.
  unfold transition_request. intros H. run_inv.
  match goal with H : record_activity _ _ _ _ _ _ _ _ _ = _ |- _ =>
    apply record_activity_inv in H as (_ & _ & Ha & Hr & _) end.
  match goal with H : Some ?i = st_requests s !! rid |- _ => exists i; rename i into item end.
  match goal with H : _ ?s0 = (Ok r, ?s1) |- _ => change (branch env action item s0 = (Ok r, s1)) in H; rename H into Hb end.
  split_and!; try done. intros ->. unfold branch, do_retry in Hb. cbn in Hb.
  apply bind_Ok_inv in Hb as ([] & s1 & Hre & _). unfold try_catch in Hre.
  destruct (reinstate_batch_hold item s) as [[[]|x] s2]; [by eexists | destruct x; discriminate Hre].
Qed.

(** ** Properties *)

(** C8: The set a screen may offer is the set enforcement accepts.  A
    transition succeeds exactly when it is offered in the screen's own context,
    the actor and the reason are not blank and, for a retry, the hold can be
    armed again (the wallet still covers it); so no surface is refused what it
    offers for a reason of status, and the catch-all branch is dead. *)
Theorem offered_iff_accepted env rid action actor reason s item notified :
  st_requests s !! rid = Some item →
  (∃ r s', transition_request env rid action actor reason s = (Ok r, s')) ↔
  action ∈ TRANSITION_ACTIONS ∧
  action ∈ available_action_names (request_context s item notified (now env)) ∧
  strip actor ≠ [] ∧ strip reason ≠ [] ∧
  (action = "retry"%string → ∃ s1, reinstate_batch_hold item s = (Ok tt, s1)).
Proof.
  intros Hi. split.
  - intros (r & s' & Hrun). destruct (transition_request_needs _ _ _ _ _ _ _ _ Hrun) as (item' & Hi' & Ha & Hre & Hretry).
    assert (item' = item) as -> by congruence.
    destruct (proj1 (accepted_iff_offered env rid action actor reason s item notified Hi Ha Hre Hretry)); [eauto|].
    by split_and!.
  - intros (Ht & Hav & Ha & Hre & Hretry). by apply (accepted_iff_offered env rid action actor reason s item notified).
Qed.

(** C28: the status graph.  A transition moves a request along one of nine
    edges, leaves its committed distributions, its artifact, the ledger and
    every other request alone, and appends exactly one Audit Entry that
    records the status before and after, the actor and the reason.  Rejected,
    canceled, delivered and generated requests have no edge out of them. *)
Theorem transition_edges env rid action actor reason s r s' :
  (∀ id q, st_requests s !! id = Some q → rq_id q = id) →
  transition_request env rid action actor reason s = (Ok r, s') →
  ∃ item e, st_requests s !! rid = Some item ∧
    (action, rq_status item, rq_status r) ∈
      [("approve", pending, approved); ("retry", waiting_inventory, approved);
       ("retry", failed, approved); ("retry_delivery", failed, generated);
       ("reject", pending, rejected); ("reject", waiting_inventory, rejected);
       ("cancel", pending, canceled); ("cancel", approved, canceled);
       ("cancel", waiting_inventory, canceled)]%string ∧
    st_requests s' = <[rid := r]> (st_requests s) ∧
    st_audit s' = st_audit s ++ [e] ∧
    au_actor_user_id e = strip actor ∧ au_reason e = strip reason ∧ strip reason ≠ [] ∧
    au_details e =
      [("before", JObj [("status", JStr (u (status_value (rq_status item))))]);
       ("after", JObj [("status", JStr (u (status_value (rq_status r))))])]%string ∧
    (st_events s', st_artifacts s', st_ledger s', st_leads s') =
      (st_events s, st_artifacts s, st_ledger s, st_leads s).
Proof.
  intros Hkey (item & s1 & e & Hi & Hav & Hb & -> & _ & _ & Hac & Hre & Hne & Hd)%transition_request_inv.
  destruct (enforcement_offers _ _ _ Hav) as (a & Ha & <- & Ht & Ho).
  apply branch_inv in Hb as (Er & Hreq & [= E1 E2 E3 E4 E5]).
  exists item, e. split_and!; try done.
  - rewrite Er. apply list_elem_of_In in Ha. unfold ACTIONS in Ha. cbn [In] in Ha.
    repeat destruct Ha as [<-|Ha]; try done; cbn in Ho |- *; unfold is_offered in Ho; cbn in Ho;
      destruct (rq_status item); try discriminate Ho; apply list_elem_of_In; cbn; tauto.
  - rsimpl. by rewrite Hreq, (Hkey _ _ Hi).
  - rsimpl. by rewrite E4.
  - rsimpl. by rewrite E1, E2, E3, E5.
Qed.

(** The hold and the stopping time follow the request.  Rejecting and
    canceling leave a billed request without an active hold and retrying
    leaves it with one; rejecting stamps [closed_at] and retrying clears it,
    while canceling leaves it as it was. *)
Theorem transition_closing env rid action actor reason s item r s' :
  (∀ id q, st_requests s !! id = Some q → rq_id q = id) →
  st_requests s !! rid = Some item →
  transition_request env rid action actor reason s = (Ok r, s') →
  rq_closed_at r = (if String.eqb action "reject" then Some (now env)
                    else if String.eqb action "retry" || String.eqb action "retry_delivery" then None
                    else rq_closed_at item) ∧
  (∀ h, rq_is_billed item = true → st_holds s' !! rid = Some h →
     ((action = "reject" ∨ action = "cancel") → ho_status h ≠ hold_active)%string ∧
     (action = "retry"%string → ho_status h = hold_active)).
Proof.
  intros Hkey Hi (item' & s1 & e & Hi' & _ & Hb & -> & _)%transition_request_inv.
  assert (item' = item) as -> by congruence. pose proof (Hkey _ _ Hi) as <-. split.
  - apply branch_inv in Hb as (-> & _). unfold row_after.
    repeat (match goal with |- context [String.eqb ?a ?b] => destruct (String.eqb_spec a b) as [->|] end;
            rsimpl; try done).
  - intros h Hbill Hh. by eapply branch_hold.
Qed.

(** *** Concrete runs *)

Definition example_requests : Store := empty_store <| st_requests := {[ 1%N := example_request ]} |>.

Lemma example_requests_keyed id q : st_requests example_requests !! id = Some q → rq_id q = id.
Proof. unfold example_requests. rsimpl. by intros [<- <-]%lookup_singleton_Some. Qed.

Lemma offered_iff_accepted_witness :
  ∃ r s', transition_request example_env 1%N "cancel" (u "admin") (u "withdrawn") example_requests
            = (Ok r, s').
Proof.
  refine (proj2 (offered_iff_accepted example_env 1%N "cancel" (u "admin") (u "withdrawn")
    example_requests example_request false _) _); [reflexivity|].
  split_and!; [apply existsb_elem_of; vm_compute; reflexivity.. | by vm_compute | by vm_compute | done].
Defined.

Lemma transition_edges_witness :
  ∃ r s', transition_request example_env 1%N "approve" (u "admin") (u "ok") example_requests
            = (Ok r, s') ∧ length (st_audit s') = 1%nat.
Proof.
  destruct (transition_request example_env 1%N "approve" (u "admin") (u "ok") example_requests)
    as [[r|e] s'] eqn:E; [|vm_compute in E; discriminate E].
  exists r, s'. split; [done|].
  destruct (transition_edges _ _ _ _ _ _ _ _ example_requests_keyed E)
    as (item & e & _ & _ & _ & Ha & _). by rewrite Ha.
Defined.

(** A canceled request is left without the time it stopped. *)
Lemma transition_closing_witness :
  ∃ r s', transition_request example_env 1%N "cancel" (u "admin") (u "withdrawn") example_requests
            = (Ok r, s') ∧ rq_closed_at r = None.
Proof.
  destruct (transition_request example_env 1%N "cancel" (u "admin") (u "withdrawn") example_requests)
    as [[r|e] s'] eqn:E; [|vm_compute in E; discriminate E].
  exists r, s'. split; [done|].
  exact (proj1 (transition_closing _ _ _ _ _ _ _ _ _ example_requests_keyed
    (eq_refl : st_requests example_requests !! 1%N = Some example_request) E)).
Defined.
