(* ===== verification/Telegram.v ===== *)
(** * The Telegram channel: callbacks, messages and transport

    [jawnix/telegram.py]: the data a button carries and the parsers that read
    it back, the text and keyboard of a message, and the calls of the bot API
    with the errors they are reported as. *)

From S2P Require Import Prelude PyText PyInt States Models PyObject Jobs Fulfillment.

Open Scope Z_scope.

(** ** Callback data *)

Definition ACTION_PREFIX : text := u "jawnix".
Definition ANOMALY_PREFIX : text := u "jawnix-a".
Definition CONFLICT_PREFIX : text := u "jawnix-c".
Definition RECOMMENDATION_PREFIX : text := u "jawnix-r".
Definition EXCLUSION_PREFIX : text := u "jawnix-e".
Definition ALLOWED_ACTIONS : list text := u <$> ["approve"; "reject"; "retry"; "retry_delivery"]%string.
Definition ALLOWED_ANOMALY_ACTIONS : list text := u <$> ["confirm"; "deny"]%string.
Definition ALLOWED_CONFLICT_ACTIONS : list text := u <$> ["confirm"; "deny"]%string.
Definition ALLOWED_RECOMMENDATION_ACTIONS : list text := u <$> ["approve"; "deny"]%string.
Definition ALLOWED_EXCLUSION_ACTIONS : list text := u <$> ["confirm"; "deny"]%string.
Definition NIGHTLY_KEYBOARD_ROWS : nat := 50.

Definition COLON : text := [58%N].

(** [hmac.compare_digest] of two byte strings is their equality. *)
Definition verify_telegram_secret (provided expected : text) : outcome bool :=
  if bool_decide (provided = []) || bool_decide (expected = []) then Ok false else
  match utf8_encode provided, utf8_encode expected with
  | Some a, Some b => Ok (bool_decide (a = b))
  | _, _ => Err UnicodeEncodeError
  end.

(** The limit the bot API puts on a button's data. *)
Definition within_64_bytes (value : text) : outcome text :=
  match utf8_encode value with
  | None => Err UnicodeEncodeError
  | Some bytes => if (64 <? length bytes)%nat then Err (ValueError (u "Telegram callback data exceeds 64 bytes."))
                  else Ok value
  end.

Definition callback_data (action : text) (request_id : uuid) : outcome text :=
  if negb (bool_decide (action ∈ ALLOWED_ACTIONS))
  then Err (ValueError (u "Unsupported Telegram action: " ++ action)) else
  within_64_bytes (ACTION_PREFIX ++ COLON ++ action ++ COLON ++ str_of_uuid request_id).

Definition conflict_callback_data (action : text) (conflict_id : uuid) : outcome text :=
  if negb (bool_decide (action ∈ ALLOWED_CONFLICT_ACTIONS))
  then Err (ValueError (u "Unsupported Inventory Conflict action: " ++ action)) else
  within_64_bytes (CONFLICT_PREFIX ++ COLON ++ action ++ COLON ++ str_of_uuid conflict_id).

Definition exclusion_callback_data (action : text) (exclusion_list_id : uuid) : outcome text :=
  if negb (bool_decide (action ∈ ALLOWED_EXCLUSION_ACTIONS))
  then Err (ValueError (u "Unsupported Exclusion List action: " ++ action)) else
  within_64_bytes (EXCLUSION_PREFIX ++ COLON ++ action ++ COLON ++ str_of_uuid exclusion_list_id).

(** [{"confirm": "c", "deny": "d"}] and [{"approve": "a", "deny": "d"}] *)
Definition ANOMALY_SHORT : list (text * text) := [(u "confirm", u "c"); (u "deny", u "d")].
Definition RECOMMENDATION_SHORT : list (text * text) := [(u "approve", u "a"); (u "deny", u "d")].
Definition short_of (table : list (text * text)) (action : text) : option text :=
  snd <$> List.find (λ e, bool_decide (e.1 = action)) table.
Definition long_of (table : list (text * text)) (short : text) : option text :=
  fst <$> List.find (λ e, bool_decide (e.2 = short)) table.

Definition version_text (configuration_version : option Z) : text :=
  match configuration_version with Some v => format_hex v | None => u "-" end.
Definition checksum_text (checksum : text) : text :=
  if bool_decide (take 8 checksum = []) then u "-" else take 8 checksum.

(** A callback bound to the evidence it decides on. *)
Definition bound_callback (prefix short : text) (id : uuid) (checksum : text) (configuration_version : option Z)
    : outcome text :=
  within_64_bytes (prefix ++ COLON ++ short ++ COLON ++ hex_of_uuid id ++ COLON ++ version_text configuration_version ++
                   COLON ++ checksum_text checksum).

Definition anomaly_callback_data (action : text) (anomaly_id : uuid) (dataset_checksum : text)
    (configuration_version : option Z) : outcome text :=
  match short_of ANOMALY_SHORT action with
  | Some short => bound_callback ANOMALY_PREFIX short anomaly_id dataset_checksum configuration_version
  | None => Err (ValueError (u "Unsupported Scrape Anomaly action: " ++ action))
  end.

Definition recommendation_callback_data (action : text) (recommendation_id : uuid) (evidence_checksum : text)
    (configuration_version : option Z) : outcome text :=
  match short_of RECOMMENDATION_SHORT action with
  | Some short => bound_callback RECOMMENDATION_PREFIX short recommendation_id evidence_checksum configuration_version
  | None => Err (ValueError (u "Unsupported Source Recommendation action: " ++ action))
  end.

(** *** Reading it back *)

Definition parse_plain (prefix : text) (allowed : list text) (malformed unsupported : string) (value : text)
    : outcome (text * uuid) :=
  match split_max 58 2 value with
  | [p; action; raw_id] =>
      match uuid_of_text raw_id with
      | None => Err (ValueError (u malformed))
      | Some id => if negb (bool_decide (p = prefix)) || negb (bool_decide (action ∈ allowed))
                   then Err (ValueError (u unsupported)) else Ok (action, id)
      end
  | _ => Err (ValueError (u malformed))
  end.

Definition parse_callback_data : text → outcome (text * uuid) :=
  parse_plain ACTION_PREFIX ALLOWED_ACTIONS "Malformed Telegram callback data." "Unsupported Telegram callback data.".
Definition parse_conflict_callback_data : text → outcome (text * uuid) :=
  parse_plain CONFLICT_PREFIX ALLOWED_CONFLICT_ACTIONS "Malformed Telegram conflict callback data."
    "Unsupported Telegram conflict callback data.".
Definition parse_exclusion_callback_data : text → outcome (text * uuid) :=
  parse_plain EXCLUSION_PREFIX ALLOWED_EXCLUSION_ACTIONS "Malformed Telegram exclusion callback data."
    "Unsupported Telegram exclusion callback data.".

(** [re.fullmatch(r"[0-9a-f]{8}", checksum)] *)
Definition hex_char (c : N) : bool := ((48 <=? c) && (c <=? 57) || (97 <=? c) && (c <=? 102))%N.
Definition is_short_checksum (t : text) : bool := (length t =? 8)%nat && forallb hex_char t.

Definition BoundTarget : Type := text * uuid * option Z * text.

Definition parse_bound (prefix : text) (table : list (text * text)) (malformed unsupported : string) (value : text)
    : outcome BoundTarget :=
  match split_max 58 4 value with
  | [p; short; raw_id; raw_version; checksum] =>
      match long_of table short, uuid_of_text raw_id with
      | Some action, Some id =>
          let version := if bool_decide (raw_version = u "-") then Some None else Some <$> (py_int 16 raw_version) in
          match version with
          | None => Err (ValueError (u malformed))
          | Some configuration_version =>
              if negb (bool_decide (checksum = u "-")) && negb (is_short_checksum checksum)
              then Err (ValueError (u malformed))
              else if negb (bool_decide (p = prefix)) then Err (ValueError (u unsupported))
              else Ok (action, id, configuration_version, if bool_decide (checksum = u "-") then [] else checksum)
          end
      | _, _ => Err (ValueError (u malformed))
      end
  | _ => Err (ValueError (u malformed))
  end.

Definition parse_anomaly_callback_data : text → outcome BoundTarget :=
  parse_bound ANOMALY_PREFIX ANOMALY_SHORT "Malformed Telegram anomaly callback data."
    "Unsupported Telegram anomaly callback data.".
Definition parse_recommendation_callback_data : text → outcome BoundTarget :=
  parse_bound RECOMMENDATION_PREFIX RECOMMENDATION_SHORT "Malformed Telegram recommendation callback data."
    "Unsupported Telegram recommendation callback data.".

(** ** Messages *)

Definition NEWLINE : text := [10%N].

Definition button (label data : text) : json := JObj [("text", JStr label); ("callback_data", JStr data)]%string.
Definition keyboard_of (rows : list (list json)) : json := JObj [("inline_keyboard"%string, JList (JList <$> rows))].

(** [status.replace('_', ' ').title()] *)
Definition status_title (status : text) : text := ascii_title (replace_cp 95 32 status).

Definition request_text (profile : CustomerProfile) (customer : Customer) (request : LeadRequest) : text :=
  let parts := List.filter (λ p, negb (bool_decide (p = []))) [pf_first_name profile; pf_last_name profile] in
  let full := strip (join (u " ") parts) in
  let name := if bool_decide (full = []) then pf_email profile else full in
  join NEWLINE
    ([u "Jawnix batch request"; [];
      u "Customer: " ++ name;
      u "Email: " ++ pf_email profile;
      u "Customer: " ++ cu_name customer;
      u "Rows: " ++ format_thousands (rq_lead_count request);
      u "States: " ++ join (u ", ") (rq_states_snapshot request);
      u "Status: " ++ status_title (u (status_value (rq_status request)))] ++
     match rq_available_count request with Some n => [u "Available: " ++ format_thousands n] | None => [] end ++
     (if bool_decide (rq_status_message request = []) then [] else [[]; take 3000 (rq_status_message request)]) ++
     [[]; u "Request: " ++ str_of_uuid (rq_id request)]).

(** The context the keyboard is judged in: the defaults of
    [RequestActionContext] but for the status and the artifact. *)
Definition keyboard_context (s : Store) (request : LeadRequest) : RequestActionContext :=
  mkContext (rq_status request) (bool_decide (is_Some (st_artifacts s !! rq_id request))) false 0 false false.

Definition keyboard_buttons (s : Store) (request : LeadRequest) : outcome (list json) :=
  mapM (λ action, data ← callback_data (u (fa_name action)) (rq_id request);
                  mret (button (u (fa_label action)) data))
    (telegram_actions (keyboard_context s request)).

Definition keyboard (s : Store) (request : LeadRequest) : outcome json :=
  buttons ← keyboard_buttons s request;
  mret (keyboard_of (match buttons with [] => [] | _ => [buttons] end)).

(** *** The Nightly Review *)

(** [v == "..."] *)
Definition json_is (s : string) (v : json) : bool :=
  match v with JStr t => bool_decide (t = u s) | _ => false end.
Definition EMPTY : json := JObj [].
Definition NO_ITEMS : json := JList [].

(** [t[:n]] *)
Definition slice_to (n : Z) (t : text) : text :=
  if 0 <=? n then take (Z.to_nat n) t else take (Z.to_nat (Z.of_nat (length t) + n)) t.

Class TitleCase : Type := { py_title : text → text }.

Section Messages.
Context `{PyRepr} `{TitleCase} (settings : Settings).

(** [int(v) if v is not None else None] *)
Definition optional_int (v : json) : outcome (option Z) :=
  match v with JNull => Ok None | _ => n ← json_int v; mret (Some n) end.

(** [v.get(k, 0)] *)
Definition get_or_zero (k : string) (v : json) : outcome json :=
  match v with
  | JObj d => Ok (default (JNum 0) (dict_get k d))
  | _ => Err (AttributeError (u "get"))
  end.

Definition review_url : text := public_base_url settings ++ u "/app/admin/acquisition#nightly-reviews".

Definition anomaly_row (anomaly : ScrapeAnomaly) (configuration_version : option Z) (confirm_label : string)
    : outcome (list json) :=
  confirm ← anomaly_callback_data (u "confirm") (an_id anomaly) (an_dataset_checksum anomaly) configuration_version;
  deny ← anomaly_callback_data (u "deny") (an_id anomaly) (an_dataset_checksum anomaly) configuration_version;
  mret [button (u confirm_label) confirm; button (u "Deny") deny].

Definition recommendation_row (it : json) : outcome (list json) :=
  raw_id ← json_item "id" it;
  recommendation_id ← json_uuid raw_id;
  action ← json_get "action" it;
  segment ← json_get "segment" it;
  let label := py_title (py_str (json_or action (JStr []))) ++ u " " ++ take 24 (py_str (json_or segment (JStr []))) in
  checksum ← json_get "evidenceChecksum" it;
  version ← json_get "configurationVersion" it;
  configuration_version ← optional_int version;
  let evidence_checksum := py_str (json_or checksum (JStr [])) in
  approve ← recommendation_callback_data (u "approve") recommendation_id evidence_checksum configuration_version;
  deny ← recommendation_callback_data (u "deny") recommendation_id evidence_checksum configuration_version;
  mret [button (u "Approve " ++ label) approve; button (u "Deny") deny].

Definition exclusion_row (it : json) : outcome (list json) :=
  raw_id ← json_item "id" it;
  exclusion_list_id ← json_uuid raw_id;
  confirm ← exclusion_callback_data (u "confirm") exclusion_list_id;
  deny ← exclusion_callback_data (u "deny") exclusion_list_id;
  mret [button (u "Confirm Global Exclusion") confirm; button (u "Deny") deny].

(** [[item for item in items if item.get("status") == value]] *)
Definition with_status (value : string) (items : list json) : outcome (list json) :=
  flagged ← mapM (λ it, status ← json_get "status" it; mret (it, json_is value status)) items;
  mret (fst <$> List.filter snd flagged).

Definition exclusion_line (it : json) : outcome text :=
  customer ← json_get "customer" it;
  kind ← json_get "type" it;
  impact ← get_or_zero "poolImpact" it;
  n ← json_int impact;
  mret (py_str (json_or customer (JStr (u "Customer"))) ++ u " " ++
        replace_cp 95 32 (py_str (json_or kind (JStr []))) ++ u ": removes " ++ format_thousands n ++
        u " currently-available " ++ (if n =? 1 then u "lead" else u "leads")).

Definition ELLIPSIS : text := [8230%N].

(** The rows of decisions still open, before the cap. *)
Definition nightly_rows (review : NightlyReview) (anomaly : option ScrapeAnomaly) : outcome (list (list json)) :=
  let field k := json_or (get k (nr_summary review)) in
  let configuration := field "configuration"%string EMPTY in
  exclusion_lists ← json_iter (field "exclusionLists"%string NO_ITEMS);
  pending_exclusions ← with_status "pending_confirmation" exclusion_lists;
  anomaly_rows ←
    match anomaly with
    | Some a =>
        if String.eqb (an_status a) "pending"
        then version ← json_get "version" configuration;
             configuration_version ← optional_int version;
             row ← anomaly_row a configuration_version "Confirm staged dataset";
             mret [row]
        else mret []
    | None => mret []
    end;
  recommendations ← json_iter (field "recommendations"%string NO_ITEMS);
  pending_recommendations ← with_status "pending" recommendations;
  recommendation_rows ← mapM recommendation_row pending_recommendations;
  exclusion_rows ← mapM exclusion_row pending_exclusions;
  mret (anomaly_rows ++ recommendation_rows ++ exclusion_rows).

Definition nightly_text (review : NightlyReview) (undecidable_here : Z) : outcome text :=
  let field k := json_or (get k (nr_summary review)) in
  exclusion_lists ← json_iter (field "exclusionLists"%string NO_ITEMS);
  pending_exclusions ← with_status "pending_confirmation" exclusion_lists;
  version ← json_get "version" (field "configuration"%string EMPTY);
  run_status ← json_get "status" (field "run"%string EMPTY);
  dataset_version ← json_get "version" (field "dataset"%string EMPTY);
  sync_status ← json_get "syncStatus" (field "dataset"%string EMPTY);
  segment_count ← json_len (field "segments"%string NO_ITEMS);
  segments ← json_iter (field "segments"%string NO_ITEMS);
  anomalous ← mapM (λ it, flag ← json_get "anomalous" it; mret (truthy flag)) segments;
  total ← get_or_zero "total" (field "inventory"%string EMPTY);
  inventory_total ← json_int total;
  waiting ← json_len (field "waitingRequests"%string NO_ITEMS);
  conflicts ← json_len (field "inventoryConflicts"%string NO_ITEMS);
  recommendation_count ← json_len (field "recommendations"%string NO_ITEMS);
  exclusion_count ← json_len (field "exclusionLists"%string NO_ITEMS);
  failures ← json_len (field "failures"%string NO_ITEMS);
  lines ← mapM exclusion_line (take 20 pending_exclusions);
  let more := Z.of_nat (length pending_exclusions) - 20 in
  mret (join NEWLINE
    ([u "Jawnix Nightly Review"; [];
      u "Configuration: v" ++ py_str (json_or version (JStr (u "none")));
      u "Run: " ++ py_str (json_or run_status (JStr (u "unknown")));
      u "Dataset: v" ++ py_str (json_or dataset_version (JStr (u "none"))) ++ u " (" ++
        py_str (json_or sync_status (JStr (u "not synchronized"))) ++ u ")";
      u "Segments: " ++ format_thousands segment_count ++ u " (" ++
        format_thousands (Z.of_nat (length (List.filter id anomalous))) ++ u " anomalous)";
      u "Inventory: " ++ format_thousands inventory_total;
      u "Waiting requests: " ++ format_thousands waiting;
      u "Inventory conflicts: " ++ format_thousands conflicts;
      u "Recommendations: " ++ format_thousands recommendation_count;
      u "Exclusion lists: " ++ format_thousands exclusion_count;
      u "Failures: " ++ format_thousands failures] ++ lines ++
     [if 20 <? Z.of_nat (length pending_exclusions)
      then ELLIPSIS ++ u "and " ++ format_thousands more ++ u " more pending Exclusion Lists" else [];
      if undecidable_here =? 0 then []
      else format_thousands undecidable_here ++
           u " further decisions do not fit on this keyboard; decide them in Jawnix.";
      []; u "Review: " ++ review_url])).

(** The bot API refuses a longer message. *)
Definition truncate_message (message : text) : text :=
  if 4096 <? Z.of_nat (length message)
  then let suffix := NEWLINE ++ ELLIPSIS ++ NEWLINE ++ u "Review: " ++ review_url in
       slice_to (4096 - Z.of_nat (length suffix)) message ++ suffix
  else message.

Definition nightly_review_message (review : NightlyReview) (anomaly : option ScrapeAnomaly) : outcome (text * json) :=
  rows ← nightly_rows review anomaly;
  let undecidable_here := Z.max 0 (Z.of_nat (length rows) - Z.of_nat NIGHTLY_KEYBOARD_ROWS) in
  text ← nightly_text review undecidable_here;
  mret (truncate_message text, keyboard_of (take NIGHTLY_KEYBOARD_ROWS rows)).

(** *** Anomalies and conflicts *)

Definition anomaly_message (anomaly : ScrapeAnomaly) (run : ScraperRun) (configuration_version : option Z)
    : outcome (text * json) :=
  names ← json_iter (json_or (get "anomalousSegments" (sr_details run)) NO_ITEMS);
  parts ← mapM (λ v, match v with JStr t => Ok t | _ => Err (TypeError (u "expected str instance")) end) names;
  let segments := join (u ", ") parts in
  let text := join NEWLINE
    [u "Jawnix Scrape Anomaly"; [];
     u "Run: " ++ str_of_Z (sr_id run);
     u "Segments: " ++ (if bool_decide (segments = []) then u "Unknown" else segments);
     u "Checksum: " ++ an_dataset_checksum anomaly;
     u "Status: " ++ status_title (u (an_status anomaly)); [];
     u "Confirm publishes this exact staged dataset. Deny preserves the current dataset."] in
  if String.eqb (an_status anomaly) "pending"
  then row ← anomaly_row anomaly configuration_version "Confirm"; mret (text, keyboard_of [row])
  else mret (text, keyboard_of []).

Definition inventory_conflict_message (conflict : InventoryConflict) : outcome (text * json) :=
  shared ← json_len (json_or (get "sharedLeadIds" (ic_inventory_snapshot conflict)) NO_ITEMS);
  let text := join NEWLINE
    [u "Jawnix Inventory Conflict"; [];
     u "Older request: " ++ str_of_uuid (ic_older_request_id conflict);
     u "Newer request: " ++ str_of_uuid (ic_newer_request_id conflict);
     u "Shared eligible leads: " ++ format_thousands shared;
     u "Status: " ++ status_title (u (conflict_status_value (ic_status conflict))); [];
     u "Confirm authorizes one allocation attempt for this exact inventory snapshot. " ++
     u "Deny leaves the newer request waiting."] in
  match ic_status conflict with
  | conflict_pending =>
      confirm ← conflict_callback_data (u "confirm") (ic_id conflict);
      deny ← conflict_callback_data (u "deny") (ic_id conflict);
      mret (text, keyboard_of [[button (u "Confirm once") confirm; button (u "Deny") deny]])
  | _ => mret (text, keyboard_of [])
  end.
End Messages.

(** ** Transport *)

(** What the bot API answers to a call, or that it was not reached; the body
    is [None] when it is not JSON. *)
Inductive TelegramReply : Type :=
| NotReached (detail : text)
| Replied (status_code : Z) (body : option json) (response_text : text).

Class TelegramApi : Type := { telegram_post : string → json → TelegramReply }.

Section Client.
Context `{CaseMapping} `{PyRepr} `{TitleCase} `{TelegramApi} (settings : Settings).

(** [timedelta(seconds=min(seconds, 3600))] of a positive [retry_after] *)
Definition retry_after_of (data : json) : option Z :=
  match data with
  | JObj d =>
      match get "parameters" d with
      | JObj parameters =>
          let n := match json_int (get "retry_after" parameters) with Ok n => n | Err _ => 0 end in
          if 0 <? n then Some (seconds (Z.min n 3600)) else None
      | _ => None
      end
  | _ => None
  end.

Definition call (method : string) (payload : json) : outcome json :=
  if bool_decide (telegram_bot_token settings = []) then Err (RuntimeError (u "Telegram is not configured.")) else
  match telegram_post method payload with
  | NotReached detail => Err (TelegramTransientError None (u "Telegram " ++ u method ++ u " transport failed: " ++ detail))
  | Replied status_code body response_text =>
      let data := default EMPTY body in
      ok ← json_get "ok" data;
      if (status_code =? 200) && truthy ok then mret data else
      raw ← json_get "description" data;
      let description := py_str (json_or raw (JStr response_text)) in
      let description_lower := py_lower description in
      let edit := String.eqb method "editMessageText" in
      let message := u "Telegram " ++ u method ++ u " failed: " ++ description in
      if edit && contains (u "message is not modified") description_lower then mret data
      else if edit && contains (u "message to edit not found") description_lower
      then Err (TelegramEditTargetMissingError message)
      else if status_code =? 429 then Err (TelegramTransientError (retry_after_of data) message)
      else if 500 <=? status_code then Err (TelegramTransientError None message)
      else Err (RuntimeError message)
  end.

Definition require_chat_id : outcome unit :=
  refuse_if (bool_decide (telegram_chat_id settings = [])) (RuntimeError (u "TELEGRAM_CHAT_ID is not configured.")).

(** [str(data["result"]["message_id"])], and with it the chat's id *)
Definition message_id_of (data : json) : outcome text :=
  result ← json_item "result" data;
  message_id ← json_item "message_id" result;
  mret (py_str message_id).
Definition posted_message (data : json) : outcome (text * text) :=
  result ← json_item "result" data;
  chat ← json_item "chat" result;
  chat_id ← json_item "id" chat;
  message_id ← json_item "message_id" result;
  mret (py_str chat_id, py_str message_id).

Definition send_message (chat_id text : text) (markup : json) : outcome json :=
  call "sendMessage" (JObj [("chat_id", JStr chat_id); ("text", JStr text); ("reply_markup", markup)]%string).
Definition edit_message (chat_id : text) (n : Z) (text : text) (markup : json) : outcome unit :=
  _ ← call "editMessageText" (JObj [("chat_id", JStr chat_id); ("message_id", JNum n); ("text", JStr text);
                                    ("reply_markup", markup)]%string);
  mret tt.

(** [request.profile] and [request.customer], which the row's keys reach. *)
Definition request_message (s : Store) (request : LeadRequest) : outcome (text * json) :=
  match st_profiles s !! rq_user_id request, st_customers s !! rq_agent_id request with
  | Some profile, Some customer =>
      markup ← keyboard s request;
      mret (request_text profile customer request, markup)
  | _, _ => Err (AttributeError (u "profile"))
  end.

Definition post_request (s : Store) (request : LeadRequest) : outcome (text * text) :=
  _ ← require_chat_id;
  '(text, markup) ← request_message s request;
  data ← send_message (telegram_chat_id settings) text markup;
  posted_message data.
Definition edit_request (s : Store) (request : LeadRequest) (chat_id message_id : text) : outcome unit :=
  n ← json_int (JStr message_id);
  '(text, markup) ← request_message s request;
  edit_message chat_id n text markup.

Definition answer_callback (callback_query_id text : text) : outcome unit :=
  if bool_decide (callback_query_id = []) then mret tt else
  _ ← call "answerCallbackQuery"
        (JObj [("callback_query_id", JStr callback_query_id); ("text", JStr (take 200 text))]%string);
  mret tt.

Definition post_action_failure (message : text) : outcome text :=
  _ ← require_chat_id;
  data ← call "sendMessage" (JObj [("chat_id", JStr (telegram_chat_id settings)); ("text", JStr (take 4000 message))]%string);
  message_id_of data.

Definition post_nightly_review (review : NightlyReview) (anomaly : option ScrapeAnomaly) : outcome text :=
  _ ← require_chat_id;
  '(text, markup) ← nightly_review_message settings review anomaly;
  data ← send_message (telegram_chat_id settings) text markup;
  message_id_of data.
Definition update_nightly_review (review : NightlyReview) (anomaly : option ScrapeAnomaly) : outcome unit :=
  '(text, markup) ← nightly_review_message settings review anomaly;
  n ← json_int (JStr (nr_telegram_message_id review));
  edit_message (telegram_chat_id settings) n text markup.

Definition post_scrape_anomaly (anomaly : ScrapeAnomaly) (run : ScraperRun) (configuration_version : option Z)
    : outcome (text * text) :=
  '(text, markup) ← anomaly_message anomaly run configuration_version;
  data ← send_message (telegram_chat_id settings) text markup;
  posted_message data.
Definition update_scrape_anomaly (anomaly : ScrapeAnomaly) (run : ScraperRun) (configuration_version : option Z)
    : outcome unit :=
  '(text, markup) ← anomaly_message anomaly run configuration_version;
  n ← json_int (JStr (an_telegram_message_id anomaly));
  edit_message (an_telegram_chat_id anomaly) n text markup.

Definition post_inventory_conflict (conflict : InventoryConflict) : outcome (text * text) :=
  '(text, markup) ← inventory_conflict_message conflict;
  data ← send_message (telegram_chat_id settings) text markup;
  posted_message data.
Definition update_inventory_conflict (conflict : InventoryConflict) : outcome unit :=
  '(text, markup) ← inventory_conflict_message conflict;
  n ← json_int (JStr (ic_telegram_message_id conflict));
  edit_message (ic_telegram_chat_id conflict) n text markup.
End Client.

Definition TELEGRAM_NOTIFY_MAX_ATTEMPTS : Z := 10.
Definition NOTIFY_RETRY_DELAYS_SECONDS : list Z := [30; 60; 300; 900; 1800].
Definition telegram_retry_delay (attempts : Z) : Z := retry_delay NOTIFY_RETRY_DELAYS_SECONDS attempts.

(** ** Callback data reads back *)

(** ASCII is its own encoding. *)
Lemma utf8_encode_ascii t : Forall (λ c, (c < 128)%N) t → utf8_encode t = Some t.
Proof.
  induction 1 as [|c t Hc _ IH]; [done|]. cbn [utf8_encode]. rewrite IH. unfold utf8_cp.
  rewrite (proj2 (N.ltb_lt c 128)) by done. done.
Qed.

Lemma within_64_ok t : Forall (λ c, (c < 128)%N) t → (length t ≤ 64)%nat → within_64_bytes t = Ok t.
Proof.
  intros Ha Hl. unfold within_64_bytes. rewrite utf8_encode_ascii by done.
  by rewrite (proj2 (Nat.ltb_ge 64 (length t))).
Qed.

Lemma length_str_of_uuid n : length (str_of_uuid n) = 36%nat.
Proof.
  unfold str_of_uuid. assert (length (hex_digits 32 n []) = 32%nat) as Hl by (by rewrite length_hex_digits).
  revert Hl. generalize (hex_digits 32 n []). intros h Hl.
  repeat (rewrite length_app; cbn [length]). rewrite !length_take, !length_drop, Hl. reflexivity.
Qed.

Lemma uuid_char_ascii c : uuid_char c → (c < 128)%N ∧ c ≠ 58%N.
Proof. unfold uuid_char, is_hex. lia. Qed.

Lemma str_of_uuid_ascii n : Forall (λ c, (c < 128)%N) (str_of_uuid n) ∧ 58%N ∉ str_of_uuid n.
Proof.
  destruct (str_of_uuid_chars n) as [Hc _]. split.
  - eapply Forall_impl; [exact Hc|]. intros c []%uuid_char_ascii. done.
  - intros Hin. rewrite Forall_forall in Hc. by apply Hc, uuid_char_ascii in Hin as [_ ?].
Qed.

Lemma hex_ascii t : Forall is_hex t → Forall (λ c, (c < 128)%N) t ∧ 58%N ∉ t.
Proof.
  intros Ht. split; [eapply Forall_impl; [exact Ht|]; unfold is_hex; lia|].
  intros Hin. rewrite Forall_forall in Ht. apply Ht in Hin. unfold is_hex in Hin. lia.
Qed.

(** A parser accepts its own prefix only. *)
Lemma split_head k p t : 58%N ∉ p → ∃ ps, split_max 58 (S k) (p ++ 58%N :: t) = p :: ps.
Proof. intros Hp. rewrite split_max_cons by done. eauto. Qed.

Lemma parse_plain_other prefix allowed m n p t :
  58%N ∉ p → p ≠ prefix → ∃ e, parse_plain prefix allowed m n (p ++ 58%N :: t) = Err e.
Proof.
  intros Hp Hne. unfold parse_plain. destruct (split_head 1 p t Hp) as [ps ->].
  destruct ps as [|a [|i [|]]]; try by eauto. destruct (uuid_of_text i); [|by eauto].
  rewrite (bool_decide_eq_false_2 (p = prefix)) by done. cbn. eauto.
Qed.

Lemma parse_bound_other prefix table m n p t :
  58%N ∉ p → p ≠ prefix → ∃ e, parse_bound prefix table m n (p ++ 58%N :: t) = Err e.
Proof.
  intros Hp Hne. unfold parse_bound. destruct (split_head 3 p t Hp) as [ps ->].
  destruct ps as [|a [|i [|v [|c [|]]]]]; try by eauto.
  destruct (long_of table a); [|by eauto]. destruct (uuid_of_text i); [|by eauto].
  rewrite (bool_decide_eq_false_2 (p = prefix)) by done. cbn [negb]. repeat case_match; by eauto.
Qed.

Lemma parse_plain_value prefix allowed m n action id :
  58%N ∉ prefix → 58%N ∉ action → action ∈ allowed → (id < 2 ^ 128)%N →
  parse_plain prefix allowed m n (prefix ++ COLON ++ action ++ COLON ++ str_of_uuid id) = Ok (action, id).
Proof.
  intros Hp Ha Hin Hid. unfold parse_plain, COLON. cbn [app].
  rewrite split_max_cons, split_max_cons, split_max_last by (try done; apply str_of_uuid_ascii).
  rewrite uuid_of_str by done. by rewrite !bool_decide_eq_true_2 by done.
Qed.

(** Versions of at most eleven hexadecimal digits. *)
Definition version_fits (v : option Z) : bool :=
  match v with Some n => (0 <=? n) && (n <? 16 ^ 11) | None => true end.
(** No checksum, or eight hexadecimal digits of it. *)
Definition checksum_fits (c : text) : bool := bool_decide (c = []) || is_short_checksum c.

Lemma format_hex_spec z : 0 ≤ z < 16 ^ 11 → Forall is_hex (format_hex z) ∧ (1 ≤ length (format_hex z) ≤ 11)%nat.
Proof.
  intros Hz. unfold format_hex. rewrite (proj2 (Z.ltb_ge z 0)) by lia. cbn [app].
  split; [apply hex_digits_spec; constructor|]. rewrite length_hex_digits. cbn [length].
  assert (N.log2 (Z.abs_N z) / 4 < 11)%N as Hd; [|revert Hd; generalize (N.log2 (Z.abs_N z) / 4)%N; lia].
  apply N.Div0.div_lt_upper_bound.
  destruct (decide (z = 0)) as [->|]; [done|]. apply N.log2_lt_pow2; [lia|].
  change (2 ^ (4 * 11))%N with (16 ^ 11)%N. lia.
Qed.

Lemma hex_char_spec c : hex_char c = true ↔ is_hex c.
Proof. unfold hex_char, is_hex. rewrite orb_true_iff, !andb_true_iff, !N.leb_le. done. Qed.

Lemma short_checksum_spec t : is_short_checksum t = true ↔ length t = 8%nat ∧ Forall is_hex t.
Proof.
  unfold is_short_checksum. rewrite andb_true_iff, Nat.eqb_eq, forallb_forall, Forall_forall.
  setoid_rewrite <- list_elem_of_In. by setoid_rewrite hex_char_spec.
Qed.

Lemma version_text_spec v :
  version_fits v = true →
  Forall (λ c, (c < 128)%N) (version_text v) ∧ (58%N ∉ version_text v) ∧ (length (version_text v) ≤ 11)%nat ∧
  (if bool_decide (version_text v = u "-") then Some None else Some <$> (py_int 16 (version_text v))) = Some v.
Proof.
  destruct v as [n|]; unfold version_fits; cbn [version_text]; [|intros _; split_and!; [by apply (bool_decide_unpack _)..|apply Nat.leb_le; reflexivity|done]].
  intros [Hlo%Z.leb_le Hhi%Z.ltb_lt]%andb_true_iff.
  destruct (format_hex_spec n (conj Hlo Hhi)) as [Hh [Hlen1 Hlen2]]. destruct (hex_ascii _ Hh). split_and!; [done..|].
  rewrite py_int_format_hex, bool_decide_eq_false_2; [done|]. intros E. rewrite E in Hh.
  change (Forall is_hex [45%N]) in Hh. apply Forall_cons in Hh as [Hh _]. unfold is_hex in Hh. lia.
Qed.

Lemma checksum_text_spec full c :
  take 8 full = c → checksum_fits c = true →
  Forall (λ c, (c < 128)%N) (checksum_text full) ∧ (58%N ∉ checksum_text full) ∧ (length (checksum_text full) ≤ 8)%nat ∧
  (bool_decide (checksum_text full = u "-") = false → is_short_checksum (checksum_text full) = true) ∧
  (if bool_decide (checksum_text full = u "-") then [] else checksum_text full) = c.
Proof.
  intros <- Hc. unfold checksum_text, checksum_fits in *. destruct (bool_decide_reflect (take 8 full = [])) as [E|E].
  { rewrite E. split_and!; [by apply (bool_decide_unpack _)..|apply Nat.leb_le; reflexivity|done|done]. }
  cbn in Hc. pose proof Hc as [Hl Hh]%short_checksum_spec. destruct (hex_ascii _ Hh). rewrite bool_decide_eq_false_2.
  - split_and!; [done..|lia|done|done].
  - intros Ed. by rewrite Ed in Hl.
Qed.

(** *** A bound callback *)
Lemma bound_value prefix table m n short action id full c v :
  58%N ∉ prefix → Forall (λ c, (c < 128)%N) prefix → length prefix = 8%nat →
  58%N ∉ short → Forall (λ c, (c < 128)%N) short → length short = 1%nat → long_of table short = Some action →
  (id < 2 ^ 128)%N → version_fits v = true → take 8 full = c → checksum_fits c = true →
  ∃ value t, bound_callback prefix short id full v = Ok value ∧ value = prefix ++ 58%N :: t ∧
    parse_bound prefix table m n value = Ok (action, id, v, c).
Proof.
  intros Hp Hpa Hpl Hs Hsa Hsl Hlong Hid (Hva & Hvc & Hvl & Hv)%version_text_spec Hfull Hfits.
  destruct (checksum_text_spec full c Hfull Hfits) as (Hca & Hcc & Hcl & Hshort & Hc).
  destruct (hex_ascii _ (hex_of_uuid_is_hex id)) as [Hia Hic].
  assert (length (hex_of_uuid id) = 32%nat) as Hil by (unfold hex_of_uuid; by rewrite length_hex_digits).
  eexists _, _. split; [|split; [reflexivity|]].
  - apply within_64_ok; unfold COLON.
    + repeat first [apply Forall_app; split | done | constructor; [done|] | constructor].
    + repeat (rewrite length_app; cbn [length]). lia.
  - unfold parse_bound, COLON. cbn [app]. rewrite !split_max_cons, split_max_last by done.
    rewrite Hlong, uuid_of_hex by done. rewrite Hv. rewrite (bool_decide_eq_true_2 (prefix = prefix)) by done.
    destruct (bool_decide_reflect (checksum_text full = u "-")) as [E|E].
    + cbn [negb andb]. by rewrite Hc.
    + rewrite Hshort by done. cbn [negb andb]. by rewrite Hc.
Qed.
