(* ===== verification/TelegramWebhook.v ===== *)
(** * The Telegram webhook

    [POST /api/integrations/telegram/webhook] of [jawnix/api.py]: who may
    decide, what a callback is about, the receipt that makes an update count
    once, and the job each decision becomes. *)

From S2P Require Import Prelude PyText PyInt States Models PyObject Jobs Fulfillment Telegram.

Open Scope Z_scope.

(** [Settings.telegram_approvers] *)
Definition telegram_approvers (settings : Settings) : list text :=
  List.filter (λ v, negb (bool_decide (v = [])))
    (strip <$> split_max 44 (length (telegram_approver_user_ids settings)) (telegram_approver_user_ids settings)).

(** What a callback decides on. *)
Inductive Target : Type :=
| RequestTarget (action : text) (id : uuid)
| AnomalyTarget (action : text) (id : uuid) (configuration_version : option Z) (dataset_checksum : text)
| ConflictTarget (action : text) (id : uuid)
| ExclusionTarget (action : text) (id : uuid)
| RecommendationTarget (action : text) (id : uuid) (configuration_version : option Z) (evidence_checksum : text).

(** The parsers are tried in turn; they raise nothing but [ValueError]. *)
Definition parse_target (value : text) : outcome Target :=
  match parse_callback_data value with
  | Ok (action, id) => Ok (RequestTarget action id)
  | Err _ =>
  match parse_anomaly_callback_data value with
  | Ok (action, id, version, checksum) => Ok (AnomalyTarget action id version checksum)
  | Err _ =>
  match parse_conflict_callback_data value with
  | Ok (action, id) => Ok (ConflictTarget action id)
  | Err _ =>
  match parse_exclusion_callback_data value with
  | Ok (action, id) => Ok (ExclusionTarget action id)
  | Err _ =>
  match parse_recommendation_callback_data value with
  | Ok (action, id, version, checksum) => Ok (RecommendationTarget action id version checksum)
  | Err _ => Err (HTTPException 400 (u "Malformed Telegram callback."))
  end end end end end.

(** A button rendered against evidence that has changed since. *)
Definition stale_target (s : Store) (target : Target) : bool :=
  match target with
  | AnomalyTarget _ id version checksum =>
      match List.find (λ a, bool_decide (an_id a = id)) (st_anomalies s) with
      | None => true
      | Some anomaly =>
          let current := sc_version <$> st_configurations s !! an_configuration_id anomaly in
          (negb (bool_decide (checksum = [])) && negb (bool_decide (checksum = take 8 (an_dataset_checksum anomaly)))) ||
          (bool_decide (is_Some version) && negb (bool_decide (version = current)))
      end
  | _ => false
  end.

(** The job a decision becomes: its kind, its request and its payload. *)
Definition decision_job (target : Target) (callback_query_id user_id : text) : string * option uuid * dict :=
  let decided action := [("action"%string, JStr action)] in
  let by_user := [("callback_query_id", JStr callback_query_id); ("approver_user_id", JStr user_id)]%string in
  match target with
  | RequestTarget action id => ("telegram_action"%string, Some id, decided action ++ by_user)
  | AnomalyTarget action id _ _ =>
      ("telegram_anomaly_action"%string, None, decided action ++ [("anomaly_id"%string, JStr (str_of_uuid id))] ++ by_user)
  | ConflictTarget action id =>
      ("telegram_inventory_conflict_action"%string, None,
       decided action ++ [("conflict_id"%string, JStr (str_of_uuid id))] ++ by_user)
  | ExclusionTarget action id =>
      ("telegram_exclusion_action"%string, None,
       decided action ++ [("exclusion_list_id"%string, JStr (str_of_uuid id))] ++ by_user)
  | RecommendationTarget action id version checksum =>
      ("telegram_recommendation_action"%string, None,
       decided action ++ [("recommendation_id"%string, JStr (str_of_uuid id))] ++ by_user ++
       [("configuration_version"%string, json_opt JNum version); ("evidence_checksum"%string, JStr checksum)])
  end.

(** What the handler returns; the texts are the answers it schedules for the
    person who pressed the button. *)
Inductive WebhookResult : Type :=
| Ignored
| NotAuthorized
| Stale
| Duplicate
| Queued (job : Job).

Section Webhook.
Context `{PyRepr} (env : Env).

(** [payload["update_id"]] and the callback, and the fields read from it; a
    missing key is a malformed update. *)
Definition as_400 {A} (detail : string) (o : outcome A) : outcome A :=
  match o with
  | Err (KeyError _) | Err (ValueError _) => Err (HTTPException 400 (u detail))
  | _ => o
  end.

Record Callback : Type := mkCallback {
  cb_id : text;
  cb_user_id : text;
  cb_chat_id : text;
  cb_data : text
}.

Definition read_update (body : option json) : outcome (text * json) :=
  as_400 "Malformed Telegram update."
    (payload ← match body with Some v => Ok v | None => Err (ValueError (u "Expecting value")) end;
     update_id ← json_item "update_id" payload;
     callback ← json_get "callback_query" payload;
     mret (py_str update_id, callback)).

Definition read_callback (callback : json) : outcome Callback :=
  as_400 "Malformed Telegram callback."
    (callback_query_id ← json_item "id" callback;
     from ← json_item "from" callback;
     user_id ← json_item "id" from;
     message ← json_item "message" callback;
     chat ← json_item "chat" message;
     chat_id ← json_item "id" chat;
     data ← json_item "data" callback;
     mret (mkCallback (py_str callback_query_id) (py_str user_id) (py_str chat_id) (py_str data))).

Definition authorized (cb : Callback) : bool :=
  bool_decide (cb_user_id cb ∈ telegram_approvers (settings env)) &&
  bool_decide (cb_chat_id cb = telegram_chat_id (settings env)).

(** The update is read before the database is touched. *)
Definition read_press (secret_token : text) (body : option json) : outcome (option (text * Callback * Target)) :=
  verified ← verify_telegram_secret secret_token (telegram_webhook_secret (settings env));
  _ ← refuse_if (negb verified) (HTTPException 401 (u "Invalid Telegram webhook secret."));
  '(update_id, callback) ← read_update body;
  if negb (truthy callback) then mret None else
  cb ← read_callback callback;
  target ← parse_target (cb_data cb);
  mret (Some (update_id, cb, target)).

(** [jobs.request_id] references a request. *)
Definition dangling_request (s : Store) (request_id : option uuid) : bool :=
  match request_id with Some id => bool_decide (st_requests s !! id = None) | None => false end.

Definition telegram_webhook (secret_token : text) (body : option json) : M Store WebhookResult :=
  press ← lift (read_press secret_token body);
  match press with
  | None => mret Ignored
  | Some (update_id, cb, target) =>
      if negb (authorized cb) then mret NotAuthorized else
      stale ← gets (λ s, stale_target s target);
      if (stale : bool) then mret Stale else
      receipts ← gets st_webhook_receipts;
      if bool_decide ((u "telegram", update_id) ∈ receipts) then mret Duplicate else
      transaction rollback (
        modify (λ s, s <| st_webhook_receipts := {[ (u "telegram", update_id) ]} ∪ st_webhook_receipts s |>) ;;
        let decision := decision_job target (cb_id cb) (cb_user_id cb) in
        job ← enqueue_job env decision.1.1 decision.1.2 decision.2;
        dangling ← gets (λ s, dangling_request s decision.1.2);
        raise_if dangling (IntegrityError (u "jobs_request_id_fkey")) ;;
        mret (Queued job))
  end.
End Webhook.

(** ** Callback data reads back *)

(** The data a button about a target carries; a checksum is cut to its first
    eight characters. *)
Definition renders (target : Target) (data : outcome text) : Prop :=
  match target with
  | RequestTarget action id => data = callback_data action id
  | AnomalyTarget action id version checksum =>
      ∃ full, take 8 full = checksum ∧ data = anomaly_callback_data action id full version
  | ConflictTarget action id => data = conflict_callback_data action id
  | ExclusionTarget action id => data = exclusion_callback_data action id
  | RecommendationTarget action id version checksum =>
      ∃ full, take 8 full = checksum ∧ data = recommendation_callback_data action id full version
  end.

Definition target_id (target : Target) : uuid :=
  match target with
  | RequestTarget _ id | AnomalyTarget _ id _ _ | ConflictTarget _ id | ExclusionTarget _ id
  | RecommendationTarget _ id _ _ => id
  end.

Definition well_formed (target : Target) : bool :=
  (target_id target <? 2 ^ 128)%N &&
  match target with
  | RequestTarget action _ => bool_decide (action ∈ ALLOWED_ACTIONS)
  | AnomalyTarget action _ version checksum =>
      bool_decide (action ∈ ALLOWED_ANOMALY_ACTIONS) && version_fits version && checksum_fits checksum
  | ConflictTarget action _ => bool_decide (action ∈ ALLOWED_CONFLICT_ACTIONS)
  | ExclusionTarget action _ => bool_decide (action ∈ ALLOWED_EXCLUSION_ACTIONS)
  | RecommendationTarget action _ version checksum =>
      bool_decide (action ∈ ALLOWED_RECOMMENDATION_ACTIONS) && version_fits version && checksum_fits checksum
  end.

(** The prefixes, none of which holds a colon. *)
Definition PREFIXES : list text :=
  [ACTION_PREFIX; ANOMALY_PREFIX; CONFLICT_PREFIX; EXCLUSION_PREFIX; RECOMMENDATION_PREFIX].

Lemma prefix_plain p : p ∈ PREFIXES → (58%N ∉ p) ∧ Forall (λ c, (c < 128)%N) p ∧ (length p ≤ 8)%nat.
Proof.
  assert (Forall (λ p, (58%N ∉ p) ∧ Forall (λ c, (c < 128)%N) p ∧ (length p ≤ 8)%nat) PREFIXES) as H.
  { apply (bool_decide_unpack _). vm_compute. exact I. }
  rewrite Forall_forall in H. apply H.
Qed.

(** An action's name is short and holds no colon. *)
Definition plain_action (a : text) : Prop := (58%N ∉ a) ∧ Forall (λ c, (c < 128)%N) a ∧ (length a ≤ 14)%nat.

Lemma allowed_plain allowed a :
  allowed ∈ [ALLOWED_ACTIONS; ALLOWED_CONFLICT_ACTIONS; ALLOWED_EXCLUSION_ACTIONS] → a ∈ allowed → plain_action a.
Proof.
  intros Hl Ha. assert (Forall (Forall plain_action) [ALLOWED_ACTIONS; ALLOWED_CONFLICT_ACTIONS; ALLOWED_EXCLUSION_ACTIONS])
    as H by (unfold plain_action; apply (bool_decide_unpack _); vm_compute; exact I).
  rewrite Forall_forall in H. specialize (H _ Hl). rewrite Forall_forall in H. by apply H.
Qed.

Lemma plain_fits prefix action id :
  prefix ∈ PREFIXES → plain_action action →
  within_64_bytes (prefix ++ COLON ++ action ++ COLON ++ str_of_uuid id) =
  Ok (prefix ++ 58%N :: action ++ COLON ++ str_of_uuid id).
Proof.
  intros (_ & Hpa & Hpl)%prefix_plain (_ & Haa & Hal). apply within_64_ok; unfold COLON.
  - destruct (str_of_uuid_ascii id) as [Hia _].
    apply Forall_app. split; [done|]. constructor; [done|]. apply Forall_app. split; [done|]. by constructor.
  - repeat (rewrite length_app; cbn [length]). rewrite length_str_of_uuid. lia.
Qed.

(** The chain of parsers answers with the parser of the prefix. *)
Ltac skip_parser :=
  match goal with
  | |- context [parse_plain ?q ?al ?m ?n (?p ++ 58%N :: ?t)] =>
      let e := fresh "e" in let E := fresh "E" in
      destruct (parse_plain_other q al m n p t) as [e E];
        [apply (bool_decide_unpack _); vm_compute; exact I | done | rewrite E; clear e E]
  | |- context [parse_bound ?q ?al ?m ?n (?p ++ 58%N :: ?t)] =>
      let e := fresh "e" in let E := fresh "E" in
      destruct (parse_bound_other q al m n p t) as [e E];
        [apply (bool_decide_unpack _); vm_compute; exact I | done | rewrite E; clear e E]
  end.

Lemma plain_round_trip prefix allowed m n action id :
  prefix ∈ PREFIXES → plain_action action → action ∈ allowed → (id < 2 ^ 128)%N →
  parse_plain prefix allowed m n (prefix ++ 58%N :: action ++ COLON ++ str_of_uuid id) = Ok (action, id).
Proof.
  intros [Hp _]%prefix_plain [Ha _] Hin Hid. exact (parse_plain_value prefix allowed m n action id Hp Ha Hin Hid).
Qed.

Lemma bound_round_trip prefix table m n action short id full v c :
  prefix ∈ [ANOMALY_PREFIX; RECOMMENDATION_PREFIX] →
  (prefix, table) ∈ [(ANOMALY_PREFIX, ANOMALY_SHORT); (RECOMMENDATION_PREFIX, RECOMMENDATION_SHORT)] →
  short_of table action = Some short → (id < 2 ^ 128)%N → version_fits v = true → take 8 full = c →
  checksum_fits c = true →
  ∃ t, bound_callback prefix short id full v = Ok (prefix ++ 58%N :: t) ∧
    parse_bound prefix table m n (prefix ++ 58%N :: t) = Ok (action, id, v, c).
Proof.
  intros Hpre Ht Hshort Hid Hv Hfull Hc.
  assert (length prefix = 8%nat) as Hlen by (apply elem_of_cons in Hpre as [-> | ->%list_elem_of_singleton]; reflexivity).
  assert (prefix ∈ PREFIXES) as (Hp & Hpa & _)%prefix_plain by (unfold PREFIXES; set_solver).
  assert ((58%N ∉ short) ∧ Forall (λ c, (c < 128)%N) short ∧ length short = 1%nat ∧ long_of table short = Some action)
    as (Hs & Hsa & Hsl & Hlong).
  { assert (table ∈ [ANOMALY_SHORT; RECOMMENDATION_SHORT]) as Hin by set_solver. clear Ht.
    apply elem_of_cons in Hin as [-> | ->%list_elem_of_singleton]; unfold short_of in Hshort; cbn in Hshort;
      repeat case_bool_decide; simplify_eq/=; repeat split; (by apply (bool_decide_unpack _)) || reflexivity. }
  destruct (bound_value prefix table m n short action id full c v) as (value & t & Hb & -> & Hparse); try done.
  eauto.
Qed.

Lemma renders_within target value : renders target (Ok value) → within_64_bytes value = Ok value.
Proof.
  assert (∀ v, Ok value = within_64_bytes v → within_64_bytes value = Ok value) as Hv.
  { intros v Hw. symmetry in Hw. pose proof Hw as Hw'. unfold within_64_bytes in Hw'. by repeat case_match; simplify_eq. }
  destruct target; cbn [renders];
    [intros Hd|intros (full & _ & Hd)|intros Hd|intros Hd|intros (full & _ & Hd)];
    unfold callback_data, anomaly_callback_data, conflict_callback_data, exclusion_callback_data,
      recommendation_callback_data in Hd; repeat case_match; simplify_eq; by eapply Hv.
Qed.

Lemma renders_parses target data :
  well_formed target = true → renders target data → ∃ value, data = Ok value ∧ parse_target value = Ok target.
Proof.
  unfold well_formed. intros [Hid%N.ltb_lt Hwf]%andb_true_iff.
  destruct target as [a id|a id v c|a id|a id|a id v c]; cbn [renders target_id] in *.
  - intros ->. apply bool_decide_eq_true in Hwf. assert (plain_action a) by (by eapply allowed_plain; [left|]).
    unfold callback_data. rewrite bool_decide_eq_true_2 by done. rewrite plain_fits by (try done; left).
    eexists. split; [done|]. unfold parse_target, parse_callback_data. by rewrite plain_round_trip by (try done; left).
  - intros (full & Hfull & ->). rewrite !andb_true_iff, bool_decide_eq_true in Hwf. destruct Hwf as [[Ha Hv] Hc].
    assert (∃ short, short_of ANOMALY_SHORT a = Some short) as [short Hs].
    { revert a Ha. apply Forall_forall. repeat constructor; eexists; reflexivity. }
    unfold anomaly_callback_data. rewrite Hs.
    destruct (bound_round_trip ANOMALY_PREFIX ANOMALY_SHORT "Malformed Telegram anomaly callback data."
      "Unsupported Telegram anomaly callback data." a short id full v c) as (t & -> & Hp); [set_solver..|done|done|done|done|done|].
    eexists. split; [done|]. unfold parse_target, parse_callback_data. skip_parser.
    unfold parse_anomaly_callback_data. by rewrite Hp.
  - intros ->. apply bool_decide_eq_true in Hwf. assert (plain_action a) by (by eapply allowed_plain; [right; left|]).
    unfold conflict_callback_data. rewrite bool_decide_eq_true_2 by done.
    rewrite plain_fits by (try done; unfold PREFIXES; set_solver).
    eexists. split; [done|]. unfold parse_target, parse_callback_data, parse_anomaly_callback_data. do 2 skip_parser.
    unfold parse_conflict_callback_data. by rewrite plain_round_trip by (try done; unfold PREFIXES; set_solver).
  - intros ->. apply bool_decide_eq_true in Hwf. assert (plain_action a) by (by eapply allowed_plain; [right; right; left|]).
    unfold exclusion_callback_data. rewrite bool_decide_eq_true_2 by done.
    rewrite plain_fits by (try done; unfold PREFIXES; set_solver).
    eexists. split; [done|]. unfold parse_target, parse_callback_data, parse_anomaly_callback_data,
      parse_conflict_callback_data. do 3 skip_parser.
    unfold parse_exclusion_callback_data. by rewrite plain_round_trip by (try done; unfold PREFIXES; set_solver).
  - intros (full & Hfull & ->). rewrite !andb_true_iff, bool_decide_eq_true in Hwf. destruct Hwf as [[Ha Hv] Hc].
    assert (∃ short, short_of RECOMMENDATION_SHORT a = Some short) as [short Hs].
    { revert a Ha. apply Forall_forall. repeat constructor; eexists; reflexivity. }
    unfold recommendation_callback_data. rewrite Hs.
    destruct (bound_round_trip RECOMMENDATION_PREFIX RECOMMENDATION_SHORT "Malformed Telegram recommendation callback data."
      "Unsupported Telegram recommendation callback data." a short id full v c) as (t & -> & Hp);
      [set_solver..|done|done|done|done|done|].
    eexists. split; [done|]. unfold parse_target, parse_callback_data, parse_anomaly_callback_data,
      parse_conflict_callback_data, parse_exclusion_callback_data. do 4 skip_parser.
    unfold parse_recommendation_callback_data. by rewrite Hp.
Qed.

(** C37: A button's data leads back to what it was rendered for.  Whatever
    identifier, action, configuration version (below 16^11) and hexadecimal
    checksum a message shows,
    its buttons fit the sixty-four bytes the bot API allows, and the webhook
    reads each of them as the same decision about the same record: no button
    of one kind is taken for another kind. *)
Theorem callbacks_round_trip target data :
  well_formed target = true → renders target data →
  ∃ value bytes, data = Ok value ∧ utf8_encode value = Some bytes ∧ (length bytes ≤ 64)%nat ∧
    parse_target value = Ok target.
Proof.
  intros Hwf Hr. assert (∃ value, data = Ok value ∧ parse_target value = Ok target) as (value & -> & Hp).
  { by apply renders_parses. }
  assert (within_64_bytes value = Ok value) as Hw by (by eapply renders_within).
  unfold within_64_bytes in Hw. destruct (utf8_encode value) as [bytes|] eqn:E; [|done].
  destruct (Nat.ltb_spec 64 (length bytes)); [done|]. eauto 6.
Qed.

(** ** One update, one decision *)

Section WebhookProperties.
Context `{PyRepr}.

(** What a queued press went through, and all it changed. *)
Lemma webhook_Queued_inv env token body s job s' :
  telegram_webhook env token body s = (Ok (Queued job), s') →
  ∃ update_id cb target,
    read_press env token body = Ok (Some (update_id, cb, target)) ∧ authorized env cb = true ∧
    stale_target s target = false ∧ ((u "telegram", update_id) ∉ st_webhook_receipts s) ∧
    job = new_job env (st_next_job s) (decision_job target (cb_id cb) (cb_user_id cb)).1.1
            (decision_job target (cb_id cb) (cb_user_id cb)).1.2 (decision_job target (cb_id cb) (cb_user_id cb)).2 ∧
    s' = s <| st_webhook_receipts := {[ (u "telegram", update_id) ]} ∪ st_webhook_receipts s |>
           <| st_next_job := st_next_job s + 1 |> <| st_jobs := <[st_next_job s := job]> (st_jobs s) |>.
Proof.
  unfold telegram_webhook. intros Hrun. run_inv. rewrite lift_run in Hm. injection Hm as Hp <-.
  destruct a as [[[update_id cb] target]|]; [|by run_inv]. exists update_id, cb, target.
  destruct (authorized env cb) eqn:Ha; cbn [negb] in Hk; [|by run_inv].
  run_inv. destruct (stale_target s target) eqn:Hs; [by run_inv|]. run_inv.
  case_bool_decide as Hr; [by run_inv|].
  match goal with Ht : transaction _ _ _ = _ |- _ => apply transaction_Ok_inv in Ht end. run_inv.
  match goal with He : enqueue_job _ _ _ _ _ = _ |- _ => unfold enqueue_job in He end. run_inv.
  match goal with Eq : Queued _ = Queued _ |- _ => injection Eq as <- end. by split_and!.
Qed.

Lemma webhook_run_fresh env token body s update_id cb target :
  read_press env token body = Ok (Some (update_id, cb, target)) → authorized env cb = true →
  stale_target s target = false → (u "telegram", update_id) ∉ st_webhook_receipts s →
  dangling_request s (decision_job target (cb_id cb) (cb_user_id cb)).1.2 = false →
  ∃ job s', telegram_webhook env token body s = (Ok (Queued job), s').
Proof.
  intros Hp Ha Hs Hr Hd. unfold telegram_webhook.
  rewrite (bind_Ok _ _ s (Some (update_id, cb, target)) s) by (by rewrite lift_run, Hp).
  rewrite Ha. cbn [negb]. rewrite bind_gets, Hs, bind_gets, bool_decide_eq_false_2 by done.
  unfold transaction. rewrite bind_modify. cbv zeta.
  erewrite bind_Ok by apply enqueue_job_run. rewrite bind_gets.
  match goal with |- context [dangling_request ?s1 ?r] => change (dangling_request s1 r) with (dangling_request s r) end.
  rewrite Hd. do 2 eexists. reflexivity.
Qed.

(** The secret was given, and the press came from an approver in the
    configured chat. *)
Definition entitled (env : Env) (token : text) (cb : Callback) : Prop :=
  token ≠ [] ∧ token = telegram_webhook_secret (settings env) ∧
  cb_user_id cb ∈ telegram_approvers (settings env) ∧ cb_chat_id cb = telegram_chat_id (settings env).

Lemma read_press_inv env token body update_id cb target :
  read_press env token body = Ok (Some (update_id, cb, target)) → authorized env cb = true →
  entitled env token cb ∧ parse_target (cb_data cb) = Ok target.
Proof.
  unfold read_press, authorized. intros Hp [Hu%bool_decide_eq_true Hc%bool_decide_eq_true]%andb_true_iff.
  apply obind_Ok_inv in Hp as (v & Hv & Hp). apply obind_Ok_inv in Hp as ([] & Hg%refuse_if_Ok_inv & Hp).
  apply negb_false_iff in Hg as ->. apply obind_Ok_inv in Hp as ([uid callback] & _ & Hp).
  destruct (truthy callback); cbn [negb] in Hp; [|done].
  apply obind_Ok_inv in Hp as (cb' & _ & Hp). apply obind_Ok_inv in Hp as (target' & Ht & [= <- <- <-]).
  split; [|done]. unfold verify_telegram_secret in Hv.
  destruct (bool_decide_reflect (token = [])); [done|]. destruct (bool_decide _); cbn [orb] in Hv; [done|].
  destruct (utf8_encode token) eqn:E1; [|done]. destruct (utf8_encode (telegram_webhook_secret _)) eqn:E2; [|done].
  injection Hv as ->%bool_decide_eq_true. split; [done|]. split; [|done].
  apply utf8_decode_encode in E1, E2. congruence.
Qed.

(** C20: An update decides at most once, and only for those entitled.  A press
    becomes a job only when the webhook secret was given and the person is an
    approver in the configured chat; the job is exactly the decision that the
    pressed data names, and nothing else in the database changes.  Once it has,
    the same update, delivered again at any later time and however its body
    was altered, queues nothing and changes nothing. *)
Theorem webhook_counts_once env token body s job s' :
  telegram_webhook env token body s = (Ok (Queued job), s') →
  ∃ update_id cb target,
    read_press env token body = Ok (Some (update_id, cb, target)) ∧
    entitled env token cb ∧ parse_target (cb_data cb) = Ok target ∧
    job = new_job env (st_next_job s) (decision_job target (cb_id cb) (cb_user_id cb)).1.1
            (decision_job target (cb_id cb) (cb_user_id cb)).1.2 (decision_job target (cb_id cb) (cb_user_id cb)).2 ∧
    s' = s <| st_webhook_receipts := {[ (u "telegram", update_id) ]} ∪ st_webhook_receipts s |>
           <| st_next_job := st_next_job s + 1 |> <| st_jobs := <[st_next_job s := job]> (st_jobs s) |> ∧
    ∀ env2 token2 body2 cb2 target2 s2,
      st_webhook_receipts s' ⊆ st_webhook_receipts s2 →
      read_press env2 token2 body2 = Ok (Some (update_id, cb2, target2)) →
      ∃ r, telegram_webhook env2 token2 body2 s2 = (Ok r, s2) ∧ ∀ j, r ≠ Queued j.
Proof.
  intros (update_id & cb & target & Hp & Ha & _ & _ & Hj & Hs')%webhook_Queued_inv.
  destruct (read_press_inv _ _ _ _ _ _ Hp Ha) as [He Ht]. exists update_id, cb, target. split_and!; [done..|].
  intros env2 token2 body2 cb2 target2 s2 Hsub Hp2. unfold telegram_webhook.
  rewrite (bind_Ok _ _ s2 (Some (update_id, cb2, target2)) s2) by (by rewrite lift_run, Hp2).
  destruct (authorized env2 cb2); cbn [negb]; [|by eauto]. rewrite bind_gets.
  destruct (stale_target s2 target2); [by eauto|].
  rewrite bind_gets, bool_decide_eq_true_2; [by eauto|]. apply Hsub. rewrite Hs'. apply elem_of_union. left.
  by apply elem_of_singleton.
Qed.

(** What the bot API sends when a person presses a button. *)
Definition press (update_id : Z) (callback_query_id : text) (user_id : Z) (chat_id : text) (data : text) : json :=
  JObj [("update_id", JNum update_id);
        ("callback_query", JObj [("id", JStr callback_query_id); ("from", JObj [("id", JNum user_id)]);
           ("message", JObj [("chat", JObj [("id", JStr chat_id)])]); ("data", JStr data)])]%string.

(** A button does what it says.  When an approver presses a button that a
    message in the configured chat shows, and the evidence has not changed,
    the webhook queues the decision the button was rendered for. *)
Theorem button_press_queues_decision env s update_id callback_query_id user_id target value :
  well_formed target = true → renders target (Ok value) → stale_target s target = false →
  utf8_encode (telegram_webhook_secret (settings env)) ≠ None → telegram_webhook_secret (settings env) ≠ [] →
  str_of_Z user_id ∈ telegram_approvers (settings env) →
  (u "telegram", str_of_Z update_id) ∉ st_webhook_receipts s →
  (∀ action id, target = RequestTarget action id → is_Some (st_requests s !! id)) →
  ∃ job s', telegram_webhook env (telegram_webhook_secret (settings env))
      (Some (press update_id callback_query_id user_id (telegram_chat_id (settings env)) value)) s = (Ok (Queued job), s') ∧
    (jb_kind job, jb_request_id job, jb_payload job) = decision_job target callback_query_id (str_of_Z user_id) ∧
    st_jobs s' !! jb_id job = Some job ∧ jb_status job = queued.
Proof.
  intros Hwf Hr Hst Henc Hsec Hu Hrec Hfound.
  destruct (renders_parses target _ Hwf Hr) as (v & [= <-] & Hparse).
  set (cb := mkCallback callback_query_id (str_of_Z user_id) (telegram_chat_id (settings env)) value).
  assert (read_press env (telegram_webhook_secret (settings env))
    (Some (press update_id callback_query_id user_id (telegram_chat_id (settings env)) value)) =
    Ok (Some (str_of_Z update_id, cb, target))) as Hp.
  { unfold read_press, verify_telegram_secret. rewrite !bool_decide_eq_false_2 by done. cbn [orb].
    destruct (utf8_encode _) as [b|]; [|done]. rewrite bool_decide_eq_true_2 by done.
    cbn. by rewrite Hparse. }
  assert (authorized env cb = true) as Ha.
  { unfold authorized. by rewrite !bool_decide_eq_true_2 by done. }
  destruct (webhook_run_fresh env _ _ s _ _ _ Hp Ha Hst Hrec) as (job & s' & Hrun).
  { destruct target as [action id| | | |]; try done. destruct (Hfound action id eq_refl) as [q Hq].
    apply bool_decide_eq_false. cbn. by rewrite Hq. }
  exists job, s'. split; [done|].
  apply webhook_Queued_inv in Hrun as (uid & cb' & target' & Hp' & _ & _ & _ & -> & ->).
  rewrite Hp in Hp'. injection Hp' as <- <- <-. split; [|split; [apply lookup_insert_eq | done]].
  cbn. by destruct (decision_job _ _ _) as [[? ?] ?].
Qed.
End WebhookProperties.

(** *** A press, and the same update once more *)

Definition example_data : text := ACTION_PREFIX ++ COLON ++ u "approve" ++ COLON ++ str_of_uuid 1.
Definition example_press : json := press 900 (u "cb-1") 42 (u "-100") example_data.
Definition example_pressable : Store := empty_store <| st_requests := {[ 1%N := example_request ]} |>.
Definition example_pressed : outcome WebhookResult * Store :=
  @telegram_webhook plain_repr example_env (u "hook") (Some example_press) example_pressable.

Lemma example_renders : renders (RequestTarget (u "approve") 1) (Ok example_data).
Proof. vm_compute. reflexivity. Qed.

Lemma callbacks_round_trip_witness :
  ∃ bytes, utf8_encode example_data = Some bytes ∧ parse_target example_data = Ok (RequestTarget (u "approve") 1).
Proof.
  destruct (callbacks_round_trip (RequestTarget (u "approve") 1) (Ok example_data) eq_refl example_renders)
    as (v & bytes & [= <-] & Hb & _ & Hp).
  exists bytes. split; [exact Hb | exact Hp].
Defined.

Example example_anomaly_reads_back :
  (anomaly_callback_data (u "deny") 77 (u "0123456789abcdef") (Some 18) ≫= parse_target) =
  Ok (AnomalyTarget (u "deny") 77 (Some 18) (u "01234567")).
Proof. vm_compute. reflexivity. Qed.

Lemma button_press_queues_decision_witness :
  ∃ job s', example_pressed = (Ok (Queued job), s') ∧ st_jobs s' !! jb_id job = Some job.
Proof.
  destruct (@button_press_queues_decision plain_repr example_env example_pressable 900 (u "cb-1") 42
    (RequestTarget (u "approve") 1) example_data eq_refl example_renders eq_refl) as (job & s' & Hrun & _ & Hj & _);
    [discriminate | discriminate | apply (bool_decide_unpack _); vm_compute; exact I
    | apply not_elem_of_empty | intros action id [= _ <-]; by eexists |].
  exists job, s'. split; [exact Hrun | exact Hj].
Defined.

Lemma webhook_counts_once_witness :
  ∃ job s' r, example_pressed = (Ok (Queued job), s') ∧
    @telegram_webhook plain_repr example_env (u "hook") (Some example_press) s' = (Ok r, s') ∧ ∀ j, r ≠ Queued j.
Proof.
  destruct example_pressed as [[r|e] s'] eqn:E; [|vm_compute in E; discriminate E].
  destruct r as [| | | |job]; try (vm_compute in E; discriminate E).
  destruct (@webhook_counts_once plain_repr example_env (u "hook") (Some example_press) example_pressable job s' E)
    as (uid & cb & target & Hp & _ & _ & _ & _ & Hagain).
  destruct (Hagain example_env (u "hook") (Some example_press) cb target s' (reflexivity _) Hp) as (r & Hr & Hno).
  exists job, s', r. split; [reflexivity|]. split; [exact Hr | exact Hno].
Defined.
