(* ===== verification/TelegramKeyboard.v ===== *)
(** * What the Telegram keyboards promise

    The buttons of a Batch Request's message against what enforcement accepts
    ([jawnix/telegram.py], [jawnix/fulfillment.py], [jawnix/transitions.py]),
    and the limits of the Nightly Review's message. *)

From S2P Require Import Prelude PyText PyInt States Models PyObject Jobs Billing Fulfillment Transitions Telegram TelegramWebhook.
From Stdlib Require String.

Open Scope Z_scope.

(** ** The buttons of a Batch Request *)

Lemma telegram_names action :
  action ∈ TELEGRAM_ACTIONS → u action ∈ ALLOWED_ACTIONS ∧ action ∈ TRANSITION_ACTIONS.
Proof.
  revert action. apply Forall_forall.
  repeat constructor; apply (bool_decide_unpack _); vm_compute; exact I.
Qed.

(** What Telegram offers depends on the status and the artifact alone. *)
Lemma telegram_offer_agrees a ctx ctx' :
  a ∈ ACTIONS → fa_name a ∈ TELEGRAM_ACTIONS → ctx_status ctx = ctx_status ctx' →
  ctx_has_artifact ctx = ctx_has_artifact ctx' → is_offered a ctx = is_offered a ctx'.
Proof.
  rewrite list_elem_of_In. unfold ACTIONS. cbn [In]. intros H Ht Es Ea. unfold is_offered. rewrite Es.
  repeat destruct H as [<-|H]; try done; cbn; rewrite ?Ea; try done;
    apply (bool_decide_pack _) in Ht; vm_compute in Ht; done.
Qed.

Lemma elem_of_telegram_actions a ctx :
  a ∈ telegram_actions ctx ↔ a ∈ ACTIONS ∧ fa_name a ∈ TELEGRAM_ACTIONS ∧ is_offered a ctx = true.
Proof.
  unfold telegram_actions, available_actions. rewrite list_elem_of_In, !filter_In, existsb_elem_of, <- list_elem_of_In. tauto.
Qed.

(** The data on an action's button. *)
Definition button_data (request : LeadRequest) (action : FulfillmentAction) : text :=
  ACTION_PREFIX ++ COLON ++ u (fa_name action) ++ COLON ++ str_of_uuid (rq_id request).

Lemma mapM_Ok {A B} (f : A → outcome B) (g : A → B) l :
  (∀ x, x ∈ l → f x = Ok (g x)) → mapM f l = Ok (g <$> l).
Proof.
  induction l as [|x l IH]; intros Hf; [done|].
  change (mapM f (x :: l)) with (y ← f x; k ← mapM f l; mret (y :: k)).
  rewrite Hf by (by left). cbn [mbind outcome_bind]. rewrite IH; [done|]. intros y Hy. apply Hf. by right.
Qed.

Lemma keyboard_buttons_run s request :
  keyboard_buttons s request =
  Ok ((λ a, button (u (fa_label a)) (button_data request a)) <$> telegram_actions (keyboard_context s request)).
Proof.
  apply mapM_Ok. intros a (_ & Ha & _)%elem_of_telegram_actions. unfold callback_data.
  destruct (telegram_names _ Ha) as [Hin _]. rewrite bool_decide_eq_true_2 by done. cbn [negb].
  rewrite plain_fits; [|by left|by eapply allowed_plain; [left|]]. reflexivity.
Qed.

Lemma button_data_parses request a :
  (rq_id request < 2 ^ 128)%N → fa_name a ∈ TELEGRAM_ACTIONS →
  parse_target (button_data request a) = Ok (RequestTarget (u (fa_name a)) (rq_id request)).
Proof.
  intros Hid [Hin _]%telegram_names. assert (plain_action (u (fa_name a))) as (? & _ & _) by (by eapply allowed_plain; [left|]).
  unfold parse_target, parse_callback_data, button_data. by rewrite parse_plain_value by (try done; apply (prefix_plain ACTION_PREFIX); left).
Qed.

(** The keyboard of a Batch Request tells the truth.  Rendering it never
    fails; a button whose data names an action is on it exactly when that
    action is one Telegram carries and enforcement would accept it in the
    request's present state (a retry, provided its hold can be armed again):
    no button leads to a refusal, and none that would work is missing. *)
Theorem keyboard_is_true env s item actor reason :
  st_requests s !! rq_id item = Some item → (rq_id item < 2 ^ 128)%N → strip actor ≠ [] → strip reason ≠ [] →
  (∃ s1, reinstate_batch_hold item s = (Ok tt, s1)) →
  ∃ buttons, keyboard_buttons s item = Ok buttons ∧
    ∀ action,
      (∃ label data, button label data ∈ buttons ∧ parse_target data = Ok (RequestTarget (u action) (rq_id item))) ↔
      action ∈ TELEGRAM_ACTIONS ∧ ∃ r s', transition_request env (rq_id item) action actor reason s = (Ok r, s').
Proof.
  intros Hi Hid Hactor Hreason Hretry. eexists. split; [apply keyboard_buttons_run|]. intros action.
  rewrite (accepted_iff_offered env (rq_id item) action actor reason s item false) by done. split.
  - intros (label & data & (a & E & Ha)%list_elem_of_fmap & Hp). injection E as -> ->.
    apply elem_of_telegram_actions in Ha as (Ha & Ht & Ho). rewrite button_data_parses in Hp by done.
    injection Hp as Hn%(inj u). subst action. split; [done|]. split; [by apply telegram_names|].
    apply elem_of_available_named; [done|]. by rewrite <- (telegram_offer_agrees a (keyboard_context s item)).
  - intros (Ht & _ & (a & Ha & <- & Ho)%elem_of_available).
    exists (u (fa_label a)), (button_data item a). split; [|by apply button_data_parses].
    apply list_elem_of_fmap. exists a. split; [done|]. apply elem_of_telegram_actions. split_and!; [done..|].
    by rewrite (telegram_offer_agrees a _ (request_context s item false (now env))).
Qed.

Lemma keyboard_is_true_witness :
  ∃ buttons, keyboard_buttons example_requests example_request = Ok buttons ∧
    ∃ label data, button label data ∈ buttons ∧ parse_target data = Ok (RequestTarget (u "approve") 1).
Proof.
  destruct (keyboard_is_true example_env example_requests example_request (u "telegram:42")
    (u "Telegram Batch Request decision")) as (buttons & Hb & Hiff);
    [reflexivity | reflexivity | by vm_compute | by vm_compute | by eexists |].
  exists buttons. split; [exact Hb|]. apply Hiff. split; [apply existsb_elem_of; reflexivity|].
  destruct (transition_request example_env (rq_id example_request) "approve" (u "telegram:42")
    (u "Telegram Batch Request decision") example_requests) as [[r|e] s'] eqn:E; [|vm_compute in E; discriminate E].
  exists r, s'. reflexivity.
Defined.

(** ** The limits of the Nightly Review *)

Lemma mapM_length {A B} (f : A → outcome B) l k : mapM f l = Ok k → length k = length l.
Proof.
  revert k. induction l as [|x l IH]; intros k; [by intros [= <-]|].
  change (mapM f (x :: l)) with (y ← f x; k ← mapM f l; mret (y :: k)).
  intros (y & _ & H)%obind_Ok_inv. apply obind_Ok_inv in H as (k' & Hk & [= <-]). cbn. by rewrite (IH k').
Qed.

Section Nightly.
Context `{PyRepr} `{TitleCase} (settings : Settings).

(** The decisions a review leaves open: a pending anomaly, and the pending
    recommendations and Exclusion Lists of its summary. *)
Definition open_decisions (review : NightlyReview) (anomaly : option ScrapeAnomaly) : outcome Z :=
  recommendations ← json_iter (json_or (get "recommendations" (nr_summary review)) NO_ITEMS);
  exclusion_lists ← json_iter (json_or (get "exclusionLists" (nr_summary review)) NO_ITEMS);
  pending_recommendations ← with_status "pending" recommendations;
  pending_exclusions ← with_status "pending_confirmation" exclusion_lists;
  mret ((match anomaly with Some a => if String.eqb (an_status a) "pending" then 1 else 0 | None => 0 end) +
        Z.of_nat (length pending_recommendations) + Z.of_nat (length pending_exclusions)).

Lemma nightly_rows_open review anomaly rows :
  nightly_rows review anomaly = Ok rows → open_decisions review anomaly = Ok (Z.of_nat (length rows)).
Proof.
  unfold nightly_rows, open_decisions.
  intros (xs & Exs & H1)%obind_Ok_inv. apply obind_Ok_inv in H1 as (px & Epx & H1).
  apply obind_Ok_inv in H1 as (ar & Ear & H1). apply obind_Ok_inv in H1 as (rs & Ers & H1).
  apply obind_Ok_inv in H1 as (pr & Epr & H1). apply obind_Ok_inv in H1 as (rr & Err & H1).
  apply obind_Ok_inv in H1 as (xr & Exr & [= <-]).
  rewrite Ers. cbn [mbind outcome_bind]. rewrite Exs. cbn [mbind outcome_bind]. rewrite Epr.
  cbn [mbind outcome_bind]. rewrite Epx. cbn [mbind outcome_bind mret outcome_ret]. f_equal.
  rewrite !length_app, (mapM_length _ _ _ Err), (mapM_length _ _ _ Exr).
  assert (Z.of_nat (length ar) =
    match anomaly with Some a => if String.eqb (an_status a) "pending" then 1 else 0 | None => 0 end) as Har; [|rewrite <- Har; lia].
  destruct anomaly as [a|]; [destruct (String.eqb (an_status a) "pending")|]; [|by injection Ear as <-..].
  apply obind_Ok_inv in Ear as (v & _ & H1). apply obind_Ok_inv in H1 as (cv & _ & H1).
  by apply obind_Ok_inv in H1 as (row & _ & [= <-]).
Qed.

Lemma truncate_message_spec m :
  (length (review_url settings) ≤ 4000)%nat → (∃ t, m = t ++ u "Review: " ++ review_url settings) →
  (length (truncate_message settings m) ≤ 4096)%nat ∧
  ∃ t, truncate_message settings m = t ++ u "Review: " ++ review_url settings.
Proof.
  intros Hurl Hm. unfold truncate_message. destruct (Z.ltb_spec 4096 (Z.of_nat (length m))) as [Hlong|Hshort].
  2:{ split; [lia|done]. }
  set (suffix := NEWLINE ++ ELLIPSIS ++ NEWLINE ++ u "Review: " ++ review_url settings).
  assert (length suffix = 11 + length (review_url settings))%nat as Hl.
  { unfold suffix. rewrite !length_app. reflexivity. }
  split.
  - unfold slice_to. rewrite (proj2 (Z.leb_le 0 _)) by lia. rewrite length_app, length_take. lia.
  - exists (slice_to (4096 - Z.of_nat (length suffix)) m ++ NEWLINE ++ ELLIPSIS ++ NEWLINE).
    by rewrite <- !(assoc_L (++)).
Qed.

Lemma join_last sep l x : ∃ t, join sep (l ++ [x]) = t ++ x.
Proof.
  induction l as [|y l [t IH]]; [by exists []|]. destruct l as [|z l]; cbn [app] in *.
  - exists (y ++ sep). cbn. by rewrite (assoc_L (++)).
  - exists (y ++ sep ++ t). change (join sep (y :: z :: l ++ [x])) with (y ++ sep ++ join sep (z :: l ++ [x])).
    by rewrite IH, !(assoc_L (++)).
Qed.

Lemma nightly_text_ends review n t :
  nightly_text settings review n = Ok t → ∃ t', t = t' ++ u "Review: " ++ review_url settings.
Proof.
  unfold nightly_text. intros Ht. repeat (apply obind_Ok_inv in Ht as (? & _ & Ht)).
  assert (∀ a b : text, Ok a = Ok b → a = b) as Hinj by congruence. apply Hinj in Ht as <-.
  match goal with |- ∃ t', join NEWLINE (?a ++ ?b ++ [?p; ?q; ?r; ?x]) = _ =>
    replace (a ++ b ++ [p; q; r; x]) with ((a ++ b ++ [p; q; r]) ++ [x]) by (by rewrite <- !(assoc_L (++))) end.
  apply join_last.
Qed.

(** C38: The Nightly Review fits what the bot API takes and hides nothing.  With
    a configured URL of at most 4,000 characters, its text is at most 4,096 characters and always ends with the link to the
    review; its keyboard has at most fifty rows; and the decisions on the
    keyboard together with the number the text says are left out are all the
    decisions the review leaves open. *)
Theorem nightly_message_fits review anomaly text markup :
  (length (review_url settings) ≤ 4000)%nat → nightly_review_message settings review anomaly = Ok (text, markup) →
  (length text ≤ 4096)%nat ∧ (∃ t, text = t ++ u "Review: " ++ review_url settings) ∧
  ∃ rows left_out full,
    markup = keyboard_of rows ∧ (length rows ≤ NIGHTLY_KEYBOARD_ROWS)%nat ∧ 0 ≤ left_out ∧
    open_decisions review anomaly = Ok (Z.of_nat (length rows) + left_out) ∧
    nightly_text settings review left_out = Ok full ∧ ((length full ≤ 4096)%nat → text = full).
Proof.
  intros Hurl Hm. unfold nightly_review_message in Hm.
  apply obind_Ok_inv in Hm as (rows & Hrows & Hm). apply obind_Ok_inv in Hm as (full & Hfull & [= <- <-]).
  destruct (truncate_message_spec full Hurl (nightly_text_ends _ _ _ Hfull)) as [Hlen Hend].
  split_and!; [done..|]. exists (take NIGHTLY_KEYBOARD_ROWS rows), (Z.max 0 (Z.of_nat (length rows) - Z.of_nat NIGHTLY_KEYBOARD_ROWS)), full.
  split_and!; [done|rewrite length_take; lia|lia| |done|].
  - rewrite (nightly_rows_open _ _ _ Hrows), length_take. f_equal. lia.
  - intros Hs. unfold truncate_message. by rewrite (proj2 (Z.ltb_ge 4096 _)) by lia.
Qed.
End Nightly.

(** *** A review with one open Exclusion List *)

Definition ascii_titles : TitleCase := {| py_title := ascii_title |}.
Definition example_review : NightlyReview :=
  mkNightlyReview 9%N (Some 1) None None 1
    [("exclusionLists", JList [JObj [("id", JStr (str_of_uuid 5)); ("status", JStr (u "pending_confirmation"));
                                     ("customer", JStr (u "Acme")); ("poolImpact", JNum 3)]])]%string [] "pending" None [].
Definition example_message : outcome (text * json) :=
  @nightly_review_message plain_repr ascii_titles (settings example_env) example_review None.

Lemma nightly_message_fits_witness :
  ∃ text markup, example_message = Ok (text, markup) ∧ (length text ≤ 4096)%nat.
Proof.
  destruct example_message as [[text markup]|e] eqn:E; [|vm_compute in E; discriminate E].
  exists text, markup. split; [reflexivity|].
  refine (proj1 (@nightly_message_fits plain_repr ascii_titles (settings example_env) example_review None text markup _ E)).
  apply Nat.leb_le. vm_compute. reflexivity.
Defined.
