(* ===== verification/NichePolicy.v ===== *)
(** * [jawnix/niche_policy.py]: which Niches a Customer accepts

    Validation of the rows an administrator saves, their storage, and the two
    forms of the eligibility condition: the correlated one the allocator runs
    against the saved policy, and the one previews run against a draft. *)

From S2P Require Import Prelude PyText States Models Sql.

Open Scope Z_scope.

(** ** Normalization *)

(** One row as the API receives it. *)
Record PolicyInput : Type := mkPolicyInput {
  pi_state : option text;
  pi_mode : text;
  pi_niches : list text
}.

(** One flattened row. *)
Record PolicyEntry : Type := mkPolicyEntry {
  pe_state : option text;
  pe_mode : NicheMode;
  pe_niche : text
}.

Section Normalize.
Context `{CaseMapping}.

Definition policy_mode (raw : text) : option NicheMode :=
  let mode := py_casefold (strip raw) in
  if bool_decide (mode = u "exclude") then Some exclude
  else if bool_decide (mode = u "only") then Some only
  else None.

(** [str(state_value).strip().upper() if state_value else None] *)
Definition policy_state (raw : option text) : option text :=
  match raw with
  | None | Some [] => None
  | Some t => Some (py_upper (strip t))
  end.

Abbreviation seen_key := (option text * text)%type.

(** The loop over one row's Niches. *)
Fixpoint flatten_niches (state : option text) (mode : NicheMode) (niches : list text)
    (acc : list PolicyEntry * list seen_key) : outcome (list PolicyEntry * list seen_key) :=
  match niches with
  | [] => Ok acc
  | raw_niche :: rest =>
      let niche := strip raw_niche in
      refuse_if (bool_decide (niche = [])) (NichePolicyError (u "Niches cannot be blank.")) ;;
      refuse_if (160 <? length niche)%nat
        (NichePolicyError (u "Niches must be at most 160 characters.")) ;;
      let key := (state, py_casefold niche) in
      if bool_decide (key ∈ acc.2) then flatten_niches state mode rest acc
      else flatten_niches state mode rest
             (acc.1 ++ [mkPolicyEntry state mode niche], key :: acc.2)
  end.

(** [seen_states[state]], as an association list whose head wins. *)
Fixpoint seen_mode (state : option text) (seen : list (option text * NicheMode)) : option NicheMode :=
  match seen with
  | [] => None
  | (st, m) :: rest => if bool_decide (st = state) then Some m else seen_mode state rest
  end.

Definition unsupported_state (state : option text) : bool :=
  match state with Some st => bool_decide (st ∉ US_STATES) | None => false end.
Definition mixes_modes (prior : option NicheMode) (mode : NicheMode) : bool :=
  match prior with Some p => bool_decide (p ≠ mode) | None => false end.

Fixpoint normalize_rows (rows : list PolicyInput) (seen_states : list (option text * NicheMode))
    (acc : list PolicyEntry * list seen_key) : outcome (list PolicyEntry) :=
  match rows with
  | [] => Ok acc.1
  | row :: rest =>
      let state := policy_state (pi_state row) in
      refuse_if (unsupported_state state)
        (NichePolicyError (u "Unsupported state code: " ++ default [] state ++ u ".")) ;;
      mode ← (match policy_mode (pi_mode row) with
              | Some mode => Ok mode
              | None => Err (NichePolicyError (u "Niche Policy mode must be 'exclude' or 'only'."))
              end);
      refuse_if (mixes_modes (seen_mode state seen_states) mode)
        (NichePolicyError (default (u "all-states") state ++ u " cannot mix exclude and only modes.")) ;;
      refuse_if (match pi_niches row with [] => true | _ => false end)
        (NichePolicyError (u "Each Niche Policy row needs at least one Niche.")) ;;
      acc' ← flatten_niches state mode (pi_niches row) acc;
      normalize_rows rest ((state, mode) :: seen_states) acc'
  end.

Definition normalize_policy_rows (rows : list PolicyInput) : outcome (list PolicyEntry) :=
  normalize_rows rows [] ([], []).
End Normalize.

(** ** Storage *)

(** [ORDER BY state, mode, niche]: a NULL state sorts last. *)
Definition nulls_last_le (a b : option text) : Prop :=
  match a, b with
  | _, None => True
  | None, Some _ => False
  | Some x, Some y => text_le x y
  end.
Definition mode_rank (m : NicheMode) : Z := match m with exclude => 0 | only => 1 end.
Definition policy_row_le (a b : NichePolicyRow) : Prop :=
  (np_state a ≠ np_state b ∧ nulls_last_le (np_state a) (np_state b)) ∨
  (np_state a = np_state b ∧
   (mode_rank (np_mode a) < mode_rank (np_mode b) ∨
    (np_mode a = np_mode b ∧ text_le (np_niche a) (np_niche b)))).
#[export] Instance policy_row_le_dec : RelDecision policy_row_le.
Proof.
  intros a b. unfold policy_row_le, nulls_last_le.
  destruct (np_state a), (np_state b); apply _.
Defined.

(** One group as [load_policy] answers it: the state, the mode, the Niches. *)
Definition load_policy (s : Store) (customer_id : Z) : list ((option text * NicheMode) * list text) :=
  group_by (λ r, (np_state r, np_mode r)) np_niche
    (merge_sort policy_row_le
       (List.filter (λ r, np_customer_id r =? customer_id) (st_niche_policy s))).

Fixpoint number_rows (customer_id next : Z) (entries : list PolicyEntry) : list NichePolicyRow :=
  match entries with
  | [] => []
  | e :: rest => mkNichePolicyRow next customer_id (pe_state e) (pe_mode e) (pe_niche e)
                 :: number_rows customer_id (next + 1) rest
  end.

Section Store.
Context `{CaseMapping}.

Definition replace_policy (customer_id : Z) (rows : list PolicyInput)
    : M Store (list ((option text * NicheMode) * list text)) :=
  normalized ← (match normalize_policy_rows rows with Ok n => mret n | Err e => raise e end);
  modify (λ s, s <| st_niche_policy :=
    List.filter (λ r, negb (np_customer_id r =? customer_id)) (st_niche_policy s) |>) ;;
  next ← gets st_next_niche_row;
  modify (λ s, s <| st_niche_policy :=
                      st_niche_policy s ++ number_rows customer_id next normalized |>
                 <| st_next_niche_row := next + Z.of_nat (length normalized) |>) ;;
  gets (λ s, load_policy s customer_id).
End Store.

(** ** Eligibility *)

(** [effective_niche_expression]: a Lead's confirmed source mapping wins over a
    manual assignment of its phone. *)
Definition effective_niche (mapping : option SourceNicheMapping) (assignment : option NicheAssignment)
    : option text :=
  match mapping with
  | Some m => Some (sm_niche m)
  | None => na_niche <$> assignment
  end.

Section Clauses.
Context `{CaseMapping}.
Open Scope sql_scope.

(** The condition against the saved policy. *)
Definition policy_clause (rows : list NichePolicyRow) (customer_id : Z) (niche state : option text)
    : sqlbool :=
  let state_override := sql_exists rows (λ o,
    sql_eq (Some (np_customer_id o)) (Some customer_id) AND sql_eq (np_state o) state) in
  let policy_scope (p : NichePolicyRow) :=
    sql_eq (Some (np_customer_id p)) (Some customer_id) AND
    (sql_eq (np_state p) state OR (sql_is_null (np_state p) AND NOT state_override)) in
  let comparable_niche (p : NichePolicyRow) :=
    sql_not_null niche AND sql_eq (Some (sql_lower (np_niche p))) (sql_lower <$> niche) in
  let mode_is (m : NicheMode) (p : NichePolicyRow) := sql_eq (Some (np_mode p)) (Some m) in
  let excluded := sql_exists rows (λ p, policy_scope p AND mode_is exclude p AND comparable_niche p) in
  let has_only := sql_exists rows (λ p, policy_scope p AND mode_is only p) in
  let allowed_only := sql_exists rows (λ p, policy_scope p AND mode_is only p AND comparable_niche p) in
  NOT excluded AND (NOT has_only OR allowed_only).

Definition some_state (states : list (option text)) : list text := omap id states.

(** The Niche test of one of the draft's states: its rows share a mode. *)
Definition draft_niche_test (niche : option text) (state_rows : list PolicyEntry) : sqlbool :=
  let mode := match state_rows with r :: _ => pe_mode r | [] => exclude end in
  let niches := (λ r, py_casefold (pe_niche r)) <$> state_rows in
  let lowered := sql_lower <$> niche in
  match mode with
  | exclude => sql_is_null niche OR NOT (sql_in lowered niches)
  | only => sql_in lowered niches
  end.

(** The part of the draft's condition for one of its states. *)
Definition draft_part (specific_states : list text) (niche state : option text)
    (group : option text * list PolicyEntry) : sqlbool :=
  let state_match :=
    match group.1 with
    | None => match specific_states with [] => Some true | _ => NOT (sql_in state specific_states) end
    | Some st => sql_eq state (Some st)
    end in
  state_match AND draft_niche_test niche group.2.

Definition sql_any (l : list sqlbool) : sqlbool := foldr sql_or (Some false) l.

(** The disjuncts: one per state of the draft, and, without an all-states
    default, one that admits every unlisted state. *)
Definition draft_parts (normalized : list PolicyEntry) (niche state : option text) : list sqlbool :=
  let by_state := group_by pe_state id normalized in
  let specific_states := some_state by_state.*1 in
  let parts := draft_part specific_states niche state <$> by_state in
  if bool_decide (specific_states ≠ []) && negb (bool_decide (None ∈ by_state.*1))
  then parts ++ [NOT (sql_in state specific_states)] else parts.

(** The condition against an in-memory draft. *)
Definition policy_clause_for_rows (rows : list PolicyInput) (niche state : option text)
    : outcome sqlbool :=
  normalized ← normalize_policy_rows rows;
  if bool_decide (length normalized = 0%nat) then Ok (Some true) else
  Ok (match draft_parts normalized niche state with [] => Some true | parts => sql_any parts end).
End Clauses.

(** [unmapped_inventory_query]: the rows without a source-derived Niche. *)
Definition listing_mapping (s : Store) (observation_id : option Z) : option SourceNicheMapping :=
  o ← observation_id ≫= λ id, st_observations s !! id;
  m ← st_niche_mappings s !! ob_source o;
  if bool_decide (sm_denied_at m = None) then Some m else None.

Definition unmapped_le (a b : Lead) : Prop :=
  (ld_state a ≠ ld_state b ∧ text_le (ld_state a) (ld_state b)) ∨
  (ld_state a = ld_state b ∧
   ((ld_title a ≠ ld_title b ∧ text_le (ld_title a) (ld_title b)) ∨
    (ld_title a = ld_title b ∧ text_le (ld_phone a) (ld_phone b)))).
#[export] Instance unmapped_le_dec : RelDecision unmapped_le.
Proof. intros a b. unfold unmapped_le. apply _. Defined.

Definition unmapped_inventory_query (s : Store) : list Lead :=
  merge_sort unmapped_le
    (List.filter (λ l, bool_decide (listing_mapping s (ld_current_listing_observation_id l) = None))
       (map_to_list (st_leads s)).*2).

(** ** Lemmas *)

Section Facts.
Context `{CaseMapping}.

Definition entry_key (e : PolicyEntry) : option text * text := (pe_state e, py_casefold (pe_niche e)).

Definition entry_valid (e : PolicyEntry) : Prop :=
  pe_niche e ≠ [] ∧ strip (pe_niche e) = pe_niche e ∧ (length (pe_niche e) ≤ 160)%nat ∧
  unsupported_state (pe_state e) = false.

(** What the loops keep of the entries collected so far. *)
Record entries_ok (seen : list (option text * NicheMode))
    (acc : list PolicyEntry * list (option text * text)) : Prop := {
  eo_valid : Forall entry_valid acc.1;
  eo_mode : ∀ e, e ∈ acc.1 → seen_mode (pe_state e) seen = Some (pe_mode e);
  eo_keys : NoDup (entry_key <$> acc.1);
  eo_seen : ∀ k, k ∈ acc.2 ↔ k ∈ entry_key <$> acc.1
}.

Lemma flatten_niches_ok state mode niches acc acc' seen :
  flatten_niches state mode niches acc = Ok acc' → unsupported_state state = false →
  seen_mode state seen = Some mode → entries_ok seen acc → entries_ok seen acc'.
Proof.
  intros Hf Hst Hm. revert acc Hf. induction niches as [|raw rest IH]; intros acc Hf Hok; cbn [flatten_niches] in Hf.
  { by injection Hf as <-. }
  apply obind_Ok_inv in Hf as ([] & Hb%refuse_if_Ok_inv & Hf).
  apply obind_Ok_inv in Hf as ([] & Hl%refuse_if_Ok_inv & Hf). apply Nat.ltb_ge in Hl.
  case_bool_decide as Hk; [by eapply IH|]. eapply IH; [done|].
  destruct Hok as [Hv Hmode Hn Hseen]. destruct acc as [es ks]. cbn [fst snd] in *.
  apply bool_decide_eq_false in Hb.
  split; cbn.
  - apply Forall_app_2; [done|]. constructor; [|constructor]. split_and!; try done.
    cbn. apply strip_idemp.
  - intros e [He|He%list_elem_of_singleton]%elem_of_app; [by apply Hmode | by subst].
  - rewrite fmap_app. apply NoDup_app. split_and!; [done| |apply NoDup_singleton].
    intros k Hk1 Hk2%list_elem_of_singleton. apply Hk, Hseen. by rewrite Hk2 in Hk1.
  - intros k. rewrite fmap_app, elem_of_app, elem_of_cons, Hseen. cbn.
    rewrite list_elem_of_singleton. tauto.
Qed.

Lemma entries_ok_seen state mode seen acc :
  mixes_modes (seen_mode state seen) mode = false → entries_ok seen acc →
  entries_ok ((state, mode) :: seen) acc.
Proof.
  intros Hmix [Hv Hmode Hn Hseen]. split; try done. intros e He. cbn.
  case_bool_decide as E; [|by apply Hmode]. rewrite E, (Hmode e He) in Hmix. cbn in Hmix.
  by apply bool_decide_eq_false, dec_stable in Hmix as ->.
Qed.

Lemma normalize_rows_ok rows seen acc n :
  normalize_rows rows seen acc = Ok n → entries_ok seen acc → ∃ seen' ks, entries_ok seen' (n, ks).
Proof.
  revert seen acc. induction rows as [|row rest IH]; intros seen acc Hr Hok; cbn in Hr.
  { injection Hr as <-. exists seen, acc.2. by destruct acc. }
  apply obind_Ok_inv in Hr as ([] & Hst%refuse_if_Ok_inv & Hr).
  apply obind_Ok_inv in Hr as (mode & _ & Hr).
  apply obind_Ok_inv in Hr as ([] & Hmix%refuse_if_Ok_inv & Hr).
  apply obind_Ok_inv in Hr as ([] & _ & Hr).
  apply obind_Ok_inv in Hr as (acc' & Hf & Hr).
  apply (IH _ _ Hr). eapply flatten_niches_ok; [done|done| |by apply entries_ok_seen].
  cbn. by rewrite bool_decide_eq_true_2.
Qed.

Lemma normalize_policy_rows_ok rows n :
  normalize_policy_rows rows = Ok n → ∃ seen ks, entries_ok seen (n, ks).
Proof.
  intros Hn. apply (normalize_rows_ok _ _ _ _ Hn). split; cbn; [constructor| |constructor|done].
  intros e He. by apply not_elem_of_nil in He.
Qed.

Lemma normalized_one_mode rows n e e' :
  normalize_policy_rows rows = Ok n → e ∈ n → e' ∈ n → pe_state e = pe_state e' →
  pe_mode e = pe_mode e'.
Proof.
  intros (seen & ks & [_ Hm _ _])%normalize_policy_rows_ok He He' E.
  pose proof (Hm _ He). pose proof (Hm _ He'). cbn in *. congruence.
Qed.
End Facts.

(** The rows in force for a state: its own, or else the all-states default. *)
Definition effective_rows (rows : list NichePolicyRow) (customer_id : Z) (state : text)
    : list NichePolicyRow :=
  let mine := List.filter (λ r, np_customer_id r =? customer_id) rows in
  let own := List.filter (λ r, bool_decide (np_state r = Some state)) mine in
  match own with
  | [] => List.filter (λ r, bool_decide (np_state r = None)) mine
  | _ => own
  end.

Definition niche_matches `{CaseMapping} (niche : option text) (policy_niche : text) : Prop :=
  ∃ n, niche = Some n ∧ sql_lower policy_niche = sql_lower n.

Lemma elem_of_effective_rows rows cid st r :
  r ∈ effective_rows rows cid st ↔
  r ∈ rows ∧ np_customer_id r = cid ∧
  (np_state r = Some st ∨
   (np_state r = None ∧ ∀ o, o ∈ rows → np_customer_id o = cid → np_state o ≠ Some st)).
Proof.
  unfold effective_rows. cbv zeta. set (mine := List.filter _ rows).
  assert (∀ x, x ∈ mine ↔ x ∈ rows ∧ np_customer_id x = cid) as Hmine.
  { intros x. unfold mine. rewrite list_elem_of_In, filter_In, <- list_elem_of_In, Z.eqb_eq. done. }
  assert (∀ f x, x ∈ List.filter f mine ↔ (x ∈ rows ∧ np_customer_id x = cid) ∧ f x = true) as Hf.
  { intros f x. by rewrite list_elem_of_In, filter_In, <- list_elem_of_In, Hmine. }
  destruct (List.filter (λ r, bool_decide (np_state r = Some st)) mine) as [|o own] eqn:E.
  - assert (∀ o, o ∈ rows → np_customer_id o = cid → np_state o ≠ Some st) as Hno.
    { intros o Ho Hc Hs. apply (not_elem_of_nil o). rewrite <- E. apply Hf. by rewrite bool_decide_eq_true. }
    rewrite Hf, bool_decide_eq_true. split; [|naive_solver].
    intros [[? ?] Hn]. split_and!; try done. by right.
  - rewrite <- E, Hf, bool_decide_eq_true. split; [naive_solver|]. intros (Hr & Hc & [?|[_ Hno]]); [done|].
    exfalso. assert (o ∈ o :: own) as Ho by constructor. rewrite <- E in Ho.
    apply Hf in Ho as [[? ?] ?%bool_decide_eq_true]. by eapply Hno.
Qed.

Section ClauseFacts.
Context `{CaseMapping}.

(** The saved policy's condition, read in terms of the rows in force. *)
Lemma policy_clause_true rows cid niche st :
  policy_clause rows cid niche (Some st) = Some true ↔
  (∀ r, r ∈ effective_rows rows cid st → np_mode r = exclude → ¬ niche_matches niche (np_niche r)) ∧
  ((∃ r, r ∈ effective_rows rows cid st ∧ np_mode r = only) →
   ∃ r, r ∈ effective_rows rows cid st ∧ np_mode r = only ∧ niche_matches niche (np_niche r)).
Proof.
  assert (∀ r, r ∈ rows →
    ((sql_eq (Some (np_customer_id r)) (Some cid) AND
      (sql_eq (np_state r) (Some st) OR (sql_is_null (np_state r) AND NOT sql_exists rows (λ o,
        sql_eq (Some (np_customer_id o)) (Some cid) AND sql_eq (np_state o) (Some st)))))%sql
     = Some true ↔ r ∈ effective_rows rows cid st)) as Hscope.
  { intros r Hr. rewrite elem_of_effective_rows.
    rewrite sql_and_true, sql_eq_Some2_true, sql_or_true, sql_and_true, sql_eq_Some_true,
      sql_is_null_true, sql_not_exists_true.
    setoid_rewrite sql_and_true. setoid_rewrite sql_eq_Some2_true. setoid_rewrite sql_eq_Some_true.
    naive_solver. }
  assert (∀ r, (sql_not_null niche AND sql_eq (Some (sql_lower (np_niche r))) (sql_lower <$> niche))%sql
    = Some true ↔ niche_matches niche (np_niche r)) as Hcomp.
  { intros r. rewrite sql_and_true, sql_not_null_true, sql_eq_true. unfold niche_matches.
    destruct niche as [n|]; cbn; split.
    - intros [_ (a & [= <-] & [= E])]. eauto.
    - intros (n' & [= <-] & E). split; [eauto|]. exists (sql_lower n). by rewrite E.
    - intros [[? [=]] _].
    - intros (? & [=] & _). }
  assert (∀ r, r ∈ effective_rows rows cid st → r ∈ rows) as Hin.
  { intros r Hr. by apply elem_of_effective_rows in Hr as [? _]. }
  unfold policy_clause. rewrite sql_and_true, sql_or_true, !sql_not_exists_true, sql_exists_true.
  setoid_rewrite sql_and_true. setoid_rewrite Hcomp. setoid_rewrite sql_and_true at 1.
  setoid_rewrite sql_and_true at 3. setoid_rewrite sql_eq_Some2_true. split.
  - intros [Hex Honly]. split.
    + intros r Hr Hm Hn. apply (Hex r (Hin r Hr)). by rewrite Hscope by auto.
    + intros (r & Hr & Hm). destruct Honly as [Hno|(r' & Hr' & [Hs Hm'] & Hn)].
      * destruct (Hno r (Hin r Hr)). by rewrite Hscope by auto.
      * exists r'. by rewrite Hscope in Hs by auto.
  - intros [Hex Honly]. split.
    + intros r Hr [[Hs Hm] Hn]. rewrite Hscope in Hs by done. by eapply Hex.
    + destruct (decide (Exists (λ r, np_mode r = only) (effective_rows rows cid st))) as [He|He];
        rewrite Exists_exists in He.
      * right. destruct (Honly He) as (r & Hr & Hm & Hn). exists r. rewrite Hscope by auto. auto.
      * left. intros r Hr [Hs Hm]. rewrite Hscope in Hs by done. eauto.
Qed.

(** The draft's entries in force for a state. *)
Definition state_entries (n : list PolicyEntry) (k : option text) : list PolicyEntry :=
  List.filter (λ e, bool_decide (pe_state e = k)) n.
Definition effective_entries (n : list PolicyEntry) (st : text) : list PolicyEntry :=
  match state_entries n (Some st) with
  | [] => state_entries n None
  | own => own
  end.

Lemma elem_of_by_state n k vs :
  (k, vs) ∈ group_by pe_state id n ↔ vs = state_entries n k ∧ vs ≠ [].
Proof. rewrite elem_of_group_by, list_fmap_id. done. Qed.

Lemma sql_any_true l : sql_any l = Some true ↔ Some true ∈ l.
Proof.
  induction l as [|c l IH]; cbn; [split; [done | by intros ?%not_elem_of_nil]|].
  rewrite sql_or_true, IH, elem_of_cons. naive_solver.
Qed.

Lemma elem_of_specific n st :
  st ∈ some_state (group_by pe_state id n).*1 ↔
  state_entries n (Some st) ≠ [].
Proof.
  unfold some_state. rewrite list_elem_of_omap. setoid_rewrite list_elem_of_fmap. split.
  - intros (x & ([k vs] & -> & Hin) & E). cbn in E. subst k. by apply elem_of_by_state in Hin as [<- ?].
  - intros Hne. exists (Some st). split; [|done]. eexists (Some st, _). split; [done|].
    by apply elem_of_by_state.
Qed.

Lemma draft_part_true spec niche st k vs :
  draft_part spec niche (Some st) (k, vs) = Some true ↔
  (k = Some st ∨ (k = None ∧ st ∉ spec)) ∧ draft_niche_test niche vs = Some true.
Proof.
  unfold draft_part. cbn [fst snd]. rewrite sql_and_true.
  assert (∀ P Q R : Prop, (P ↔ Q) → (P ∧ R ↔ Q ∧ R)) as Hand by tauto. apply Hand.
  destruct k as [st'|].
  - rewrite sql_eq_Some2_true. naive_solver.
  - destruct spec as [|x spec]; [set_solver|]. rewrite sql_not_true, sql_in_false. naive_solver.
Qed.

Lemma by_state_nonempty n : n ≠ [] → group_by pe_state id n ≠ [].
Proof.
  destruct n as [|e n]; [done|]. intros _ E. apply (not_elem_of_nil
    (pe_state e, state_entries (e :: n) (pe_state e))).
  rewrite <- E. apply elem_of_by_state. split; [done|]. cbn. by rewrite bool_decide_eq_true_2.
Qed.

(** A state without entries of its own falls to the default; without a
    default it is admitted. *)
Lemma draft_parts_true n niche st :
  n ≠ [] →
  Some true ∈ draft_parts n niche (Some st) ↔
  effective_entries n st = [] ∨ draft_niche_test niche (effective_entries n st) = Some true.
Proof.
  intros Hne. unfold draft_parts. cbv zeta. set (by_state := group_by pe_state id n).
  set (spec := some_state by_state.*1).
  set (own := state_entries n).
  assert (Hparts : Some true ∈ draft_part spec niche (Some st) <$> by_state ↔
    ∃ k, (k = Some st ∨ (k = None ∧ st ∉ spec)) ∧ draft_niche_test niche (own k) = Some true ∧ own k ≠ []).
  { rewrite list_elem_of_fmap. split.
    - intros ([k vs] & E & Hin). symmetry in E. apply draft_part_true in E as [? ?].
      apply elem_of_by_state in Hin as [-> ?]. eauto 6.
    - intros (k & Hk & Ht & Hvs). exists (k, own k). split; [|by apply elem_of_by_state].
      symmetry. by apply draft_part_true. }
  assert (Hspec : st ∈ spec ↔ own (Some st) ≠ []) by apply elem_of_specific.
  assert (Hdef : None ∈ by_state.*1 ↔ own None ≠ []).
  { rewrite list_elem_of_fmap. split.
    - intros ([k vs] & -> & [-> ?]%elem_of_by_state). done.
    - intros ?. exists (None, own None). split; [done|]. by apply elem_of_by_state. }
  assert (Hextra : Some true ∈ [sql_not (sql_in (Some st) spec)] ↔ st ∉ spec).
  { rewrite list_elem_of_singleton, <- (sql_in_false st spec), <- sql_not_true. done. }
  assert (Hall : Some true ∈ (if bool_decide (spec ≠ []) && negb (bool_decide (None ∈ by_state.*1))
    then (draft_part spec niche (Some st) <$> by_state) ++ [sql_not (sql_in (Some st) spec)]
    else draft_part spec niche (Some st) <$> by_state) ↔
    Some true ∈ draft_part spec niche (Some st) <$> by_state ∨
    (own None = [] ∧ st ∉ spec)).
  { case_bool_decide as Hs; cbn [andb]; [case_bool_decide as Hd; cbn [negb]|].
    - apply Hdef in Hd. tauto.
    - rewrite elem_of_app, Hextra. assert (own None = []) by (destruct (own None); [done | by destruct Hd; apply Hdef]).
      tauto.
    - split; [tauto|]. intros [?|[Hd _]]; [done|]. exfalso.
      destruct by_state as [|[k vs] rest] eqn:Eb; [by apply by_state_nonempty in Hne|].
      assert ((k, vs) ∈ group_by pe_state id n) as [-> Hk]%elem_of_by_state.
      { fold by_state. rewrite Eb. constructor. }
      destruct k as [k|]; [discriminate Hs | done]. }
  rewrite Hall, Hparts. unfold effective_entries. fold own.
  destruct (own (Some st)) as [|e es] eqn:E0.
  - assert (st ∉ spec) as Hns by (rewrite Hspec; tauto). split.
    + intros [(k & [->|[-> _]] & Ht & Hk)|[? _]]; [congruence | by right | by left].
    + destruct (decide (own None = [])) as [Ed|Ed]; [by right|]. intros [?|Ht]; [done|].
      left. exists None. auto.
  - assert (st ∈ spec) as Hs by (rewrite Hspec; done). split.
    + intros [(k & [->|[-> ?]] & Ht & Hk)|[_ ?]]; [|done|done]. right. congruence.
    + intros [?|Ht]; [done|]. left. exists (Some st). rewrite E0. auto.
Qed.

(** The draft's condition is its Niche test on the entries in force. *)
Lemma policy_clause_for_rows_true rows n niche st :
  normalize_policy_rows rows = Ok n →
  ∃ b, policy_clause_for_rows rows niche (Some st) = Ok b ∧
    (b = Some true ↔
     effective_entries n st = [] ∨ draft_niche_test niche (effective_entries n st) = Some true).
Proof.
  intros Hn. unfold policy_clause_for_rows. rewrite Hn. cbn [mbind outcome_bind].
  case_bool_decide as Hlen.
  { destruct n; [|done]. eexists. split; [reflexivity|]. cbn. tauto. }
  assert (n ≠ []) as Hne by (intros ->; done).
  exists (match draft_parts n niche (Some st) with [] => Some true | parts => sql_any parts end).
  split; [done|]. rewrite <- (draft_parts_true n niche st Hne), <- sql_any_true.
  assert (draft_parts n niche (Some st) ≠ []) as Hp.
  { unfold draft_parts. pose proof (by_state_nonempty n Hne).
    destruct (group_by pe_state id n); [done|]. by destruct (_ && _). }
  by destruct (draft_parts n niche (Some st)).
Qed.

Lemma elem_of_effective_entries n st e :
  e ∈ effective_entries n st ↔
  e ∈ n ∧ (pe_state e = Some st ∨ (pe_state e = None ∧ ∀ o, o ∈ n → pe_state o ≠ Some st)).
Proof.
  assert (∀ k x, x ∈ state_entries n k ↔ x ∈ n ∧ pe_state x = k) as Hf.
  { intros k x. unfold state_entries.
    by rewrite list_elem_of_In, filter_In, <- list_elem_of_In, bool_decide_eq_true. }
  unfold effective_entries. destruct (state_entries n (Some st)) as [|o own] eqn:E.
  - assert (∀ o, o ∈ n → pe_state o ≠ Some st) as Hno.
    { intros o Ho Hs. apply (not_elem_of_nil o). rewrite <- E. by apply Hf. }
    rewrite Hf. split; [intros [? ?]; auto|]. intros [He [Hs|[? _]]]; [by apply Hno in Hs | done].
  - rewrite <- E, Hf. split; [intros [? ?]; auto|]. intros [He [?|[_ Hno]]]; [done|].
    assert (o ∈ o :: own) as Ho by constructor. rewrite <- E in Ho. apply Hf in Ho as [? ?]. by eapply Hno in H1.
Qed.

(** A draft entry matches a Niche under Python's case folding. *)
Definition draft_matches (niche : option text) (policy_niche : text) : Prop :=
  ∃ n, niche = Some n ∧ py_casefold policy_niche = sql_lower n.

Lemma draft_niche_test_true niche es m :
  es ≠ [] → (∀ e, e ∈ es → pe_mode e = m) →
  draft_niche_test niche es = Some true ↔
  match m with
  | exclude => ∀ e, e ∈ es → ¬ draft_matches niche (pe_niche e)
  | only => ∃ e, e ∈ es ∧ draft_matches niche (pe_niche e)
  end.
Proof.
  intros Hne Hm. unfold draft_niche_test. destruct es as [|e0 es]; [done|].
  rewrite (Hm e0) by constructor. set (es' := e0 :: es).
  assert (∀ n, sql_lower n ∈ (λ r, py_casefold (pe_niche r)) <$> es' ↔
    ∃ e, e ∈ es' ∧ py_casefold (pe_niche e) = sql_lower n) as Hin.
  { intros n. rewrite list_elem_of_fmap. split; intros (e & ? & ?); exists e; auto. }
  unfold draft_matches. destruct m.
  - rewrite sql_or_true, sql_is_null_true, sql_not_true. destruct niche as [n|]; cbn [fmap option_fmap option_map].
    + rewrite sql_in_false, Hin. split.
      * intros [[=]|Hno] e He (n' & [= <-] & E). apply Hno. eauto.
      * intros Hno. right. intros (e & He & E). apply (Hno e He). eauto.
    + split; [|by left]. intros _ e _ (? & [=] & _).
  - rewrite sql_in_true. destruct niche as [n|]; cbn [fmap option_fmap option_map].
    + setoid_rewrite (inj_iff Some). split.
      * intros (a & <- & (e & ? & ?)%Hin). eauto 6.
      * intros (e & He & n' & -> & E). exists (sql_lower n'). split; [done|]. apply Hin. eauto.
    + split; [intros (? & [=] & _) | intros (? & _ & ? & [=] & _)].
Qed.

(** The rows a draft is saved as. *)
Definition row_is (cid : Z) (r : NichePolicyRow) (e : PolicyEntry) : Prop :=
  np_customer_id r = cid ∧ np_state r = pe_state e ∧ np_mode r = pe_mode e ∧ np_niche r = pe_niche e.

Lemma number_rows_elem cid k n :
  (∀ r, r ∈ number_rows cid k n → ∃ e, e ∈ n ∧ row_is cid r e) ∧
  (∀ e, e ∈ n → ∃ r, r ∈ number_rows cid k n ∧ row_is cid r e).
Proof.
  revert k. induction n as [|e0 n IH]; intros k; cbn.
  { split; intros ? Hx; by apply not_elem_of_nil in Hx. }
  destruct (IH (k + 1)) as [IH1 IH2]. split.
  - intros r [->|Hr]%elem_of_cons; [exists e0; split; [by left | done]|].
    destruct (IH1 r Hr) as (e & ? & ?). exists e. split; [by right | done].
  - intros e [->|He]%elem_of_cons; [eexists; split; [by left | done]|].
    destruct (IH2 e He) as (r & ? & ?). exists r. split; [by right | done].
Qed.

Definition saved_rows (others : list NichePolicyRow) (cid k : Z) (n : list PolicyEntry)
    : list NichePolicyRow :=
  List.filter (λ r, negb (np_customer_id r =? cid)) others ++ number_rows cid k n.

Lemma elem_of_saved_rows others cid k n r :
  np_customer_id r = cid → r ∈ saved_rows others cid k n ↔ r ∈ number_rows cid k n.
Proof.
  intros Hc. unfold saved_rows. rewrite elem_of_app. split; [|by right]. intros [Hr|?]; [|done].
  apply list_elem_of_In, filter_In in Hr as [_ Hr]. by rewrite Hc, Z.eqb_refl in Hr.
Qed.

(** The saved rows in force are the draft's entries in force. *)
Lemma saved_effective others cid k n st (P : NicheMode → text → Prop) :
  (∃ r, r ∈ effective_rows (saved_rows others cid k n) cid st ∧ P (np_mode r) (np_niche r)) ↔
  (∃ e, e ∈ effective_entries n st ∧ P (pe_mode e) (pe_niche e)).
Proof.
  destruct (number_rows_elem cid k n) as [Hre Her].
  assert (Hno : (∀ o, o ∈ saved_rows others cid k n → np_customer_id o = cid → np_state o ≠ Some st) ↔
                (∀ o, o ∈ n → pe_state o ≠ Some st)).
  { split.
    - intros Ho e He. destruct (Her e He) as (r & Hr & Hc & <- & _). apply Ho; [|done].
      by apply elem_of_saved_rows.
    - intros Ho r Hr Hc. apply elem_of_saved_rows in Hr; [|done].
      destruct (Hre r Hr) as (e & He & _ & -> & _). by apply Ho. }
  setoid_rewrite elem_of_effective_rows. setoid_rewrite elem_of_effective_entries. split.
  - intros (r & (Hr & Hc & Hs) & HP). apply elem_of_saved_rows in Hr; [|done].
    destruct (Hre r Hr) as (e & He & _ & Es & Em & En). exists e. rewrite <- Em, <- En, <- Es.
    split; [|done]. split; [done|]. rewrite <- Hno. done.
  - intros (e & (He & Hs) & HP). destruct (Her e He) as (r & Hr & Hc & Es & Em & En). exists r.
    rewrite Em, En, Es. split; [|done]. rewrite elem_of_saved_rows by done. split; [done|]. split; [done|].
    rewrite Hno. done.
Qed.
End ClauseFacts.

Lemma replace_policy_inv `{CaseMapping} cid rows s g s' :
  replace_policy cid rows s = (Ok g, s') →
  ∃ n, normalize_policy_rows rows = Ok n ∧ g = load_policy s' cid ∧
    s' = s <| st_niche_policy := saved_rows (st_niche_policy s) cid (st_next_niche_row s) n |>
           <| st_next_niche_row := st_next_niche_row s + Z.of_nat (length n) |>.
Proof.
  unfold replace_policy. intros Hr. destruct (normalize_policy_rows rows) as [n|e]; run_inv.
  eexists. split_and!; [reflexivity | done..].
Qed.

(** Entries in force for one state share their mode. *)
Lemma effective_entries_mode `{CaseMapping} rows n st e e' :
  normalize_policy_rows rows = Ok n → e ∈ effective_entries n st → e' ∈ effective_entries n st →
  pe_mode e = pe_mode e'.
Proof.
  intros Hn [He Hs]%elem_of_effective_entries [He' Hs']%elem_of_effective_entries.
  apply (normalized_one_mode rows n); try done.
  destruct Hs as [Hs|[Hs Hno]], Hs' as [Hs'|[Hs' Hno']]; try congruence.
  - by apply Hno' in Hs.
  - by apply Hno in Hs'.
Qed.

(** ** Properties *)

(** what validation accepts is well formed: every Niche is trimmed,
    not blank and at most 160 characters, every state is a US state or the
    all-states default, a state never mixes modes, and no state lists a Niche
    twice up to case. *)
Theorem normalize_policy_rows_wf `{CaseMapping} rows n :
  normalize_policy_rows rows = Ok n →
  (∀ e, e ∈ n → pe_niche e ≠ [] ∧ strip (pe_niche e) = pe_niche e ∧ (length (pe_niche e) ≤ 160)%nat ∧
     (∀ st, pe_state e = Some st → st ∈ US_STATES)) ∧
  (∀ e e', e ∈ n → e' ∈ n → pe_state e = pe_state e' → pe_mode e = pe_mode e') ∧
  NoDup ((λ e, (pe_state e, py_casefold (pe_niche e))) <$> n).
Proof.
  intros Hn. split_and!.
  - destruct (normalize_policy_rows_ok _ _ Hn) as (seen & ks & [Hv _ _ _]). intros e He.
    rewrite Forall_forall in Hv. destruct (Hv e He) as (? & ? & ? & Hu). split_and!; try done.
    intros st E. unfold unsupported_state in Hu. rewrite E in Hu. by apply bool_decide_eq_false, dec_stable in Hu.
  - intros e e'. by apply normalized_one_mode with rows.
  - by destruct (normalize_policy_rows_ok _ _ Hn) as (seen & ks & [_ _ Hd _]).
Qed.

(** a state's own rows override the all-states default; they are not
    merged with it.  A Lead passes exactly when none of the rows in force for
    its state excludes its Niche and, if they are an allow-list, one of them
    names it; a Lead without a Niche passes every exclusion and no
    allow-list. *)
Theorem policy_overrides_not_merges `{CaseMapping} rows customer_id niche state :
  kept (policy_clause rows customer_id niche (Some state)) = true ↔
  (∀ r, r ∈ effective_rows rows customer_id state → np_mode r = exclude →
        ¬ niche_matches niche (np_niche r)) ∧
  ((∃ r, r ∈ effective_rows rows customer_id state ∧ np_mode r = only) →
   ∃ r, r ∈ effective_rows rows customer_id state ∧ np_mode r = only ∧ niche_matches niche (np_niche r)).
Proof. by rewrite kept_true, policy_clause_true. Qed.

(** a preview of a draft answers what the saved policy will answer: for
    every Lead state and Niche, the in-memory condition on the submitted rows
    keeps a Lead exactly when the correlated condition keeps it once the rows
    have been saved, provided Python's case folding and SQL's [lower] agree on
    the policy's Niches. *)
Theorem draft_preview_agrees `{CaseMapping} customer_id rows n niche state s g s' :
  normalize_policy_rows rows = Ok n →
  (∀ e, e ∈ n → py_casefold (pe_niche e) = sql_lower (pe_niche e)) →
  replace_policy customer_id rows s = (Ok g, s') →
  ∃ b, policy_clause_for_rows rows niche (Some state) = Ok b ∧
       kept b = kept (policy_clause (st_niche_policy s') customer_id niche (Some state)).
Proof.
  intros Hn Hcase (n' & Hn' & _ & Hs')%replace_policy_inv.
  assert (n' = n) as -> by congruence.
  destruct (policy_clause_for_rows_true rows n niche state Hn) as (b & Hb & Hiff).
  exists b. split; [done|]. apply eq_true_iff_eq. rewrite !kept_true, Hiff, policy_clause_true, Hs'. rsimpl.
  set (others := st_niche_policy s). set (k := st_next_niche_row s).
  pose proof (saved_effective others customer_id k n state) as Hsaved.
  destruct (effective_entries n state) as [|e0 es] eqn:Ee.
  { assert (∀ r, r ∉ effective_rows (saved_rows others customer_id k n) customer_id state) as Hno.
    { intros r Hr. destruct (proj1 (Hsaved (λ _ _, True))) as (e & He & _); [by exists r|].
      by apply not_elem_of_nil in He. }
    split; [|by left]. intros _. split; [intros r Hr; by apply Hno in Hr | intros (r & Hr & _); by apply Hno in Hr]. }
  assert (∀ e, e ∈ e0 :: es → pe_mode e = pe_mode e0) as Hmode.
  { intros e He. rewrite <- Ee in He. apply (effective_entries_mode rows n state); try done.
    rewrite Ee. constructor. }
  assert (∀ e, e ∈ e0 :: es → draft_matches niche (pe_niche e) ↔ niche_matches niche (pe_niche e)) as Hmatch.
  { intros e He. rewrite <- Ee in He. apply elem_of_effective_entries in He as [He _].
    unfold draft_matches, niche_matches. by setoid_rewrite (Hcase e He). }
  rewrite (draft_niche_test_true niche (e0 :: es) (pe_mode e0)) by done.
  assert (∀ P Q : Prop, (e0 :: es = [] ∨ P ↔ Q) ↔ (P ↔ Q)) as -> by naive_solver.
  assert (Hex : (∀ r, r ∈ effective_rows (saved_rows others customer_id k n) customer_id state →
      np_mode r = exclude → ¬ niche_matches niche (np_niche r)) ↔
      ¬ ∃ e, e ∈ e0 :: es ∧ pe_mode e = exclude ∧ niche_matches niche (pe_niche e)).
  { rewrite <- (Hsaved (λ m x, m = exclude ∧ niche_matches niche x)). naive_solver. }
  rewrite Hex, (Hsaved (λ m _, m = only)), (Hsaved (λ m x, m = only ∧ niche_matches niche x)).
  destruct (pe_mode e0) eqn:Em.
  - split.
    + intros Hno. split; [intros (e & He & _ & Hm); by apply (Hno e He), Hmatch|].
      intros (e & He & Hm). by rewrite Hmode in Hm.
    + intros [Hno _] e He Hm. apply Hno. exists e. by rewrite <- Hmatch, Hmode.
  - split.
    + intros (e & He & Hm). split; [intros (e' & He' & Hx & _); by rewrite Hmode in Hx|].
      intros _. exists e. by rewrite <- Hmatch, Hmode.
    + intros [_ Hall]. destruct Hall as (e & He & _ & Hm); [exists e0; split; [constructor | done]|].
      exists e. by rewrite Hmatch.
Qed.

Lemma load_policy_elem s cid st m x :
  (∃ xs, ((st, m), xs) ∈ load_policy s cid ∧ x ∈ xs) ↔
  ∃ r, r ∈ st_niche_policy s ∧ np_customer_id r = cid ∧ np_state r = st ∧ np_mode r = m ∧ np_niche r = x.
Proof.
  unfold load_policy. set (l := merge_sort _ _).
  assert (∀ r, r ∈ l ↔ r ∈ st_niche_policy s ∧ np_customer_id r = cid) as Hl.
  { intros r. unfold l. rewrite (merge_sort_Permutation policy_row_le).
    by rewrite list_elem_of_In, filter_In, <- list_elem_of_In, Z.eqb_eq. }
  setoid_rewrite elem_of_group_by. split.
  - intros (xs & [-> _] & (r & -> & Hr)%list_elem_of_fmap).
    apply list_elem_of_In, filter_In in Hr as [Hr%list_elem_of_In [= <- <-]%bool_decide_eq_true].
    apply Hl in Hr as [? ?]. eauto 8.
  - intros (r & Hr & Hc & <- & <- & <-).
    assert (np_niche r ∈ np_niche <$> List.filter
      (λ a, bool_decide ((np_state a, np_mode a) = (np_state r, np_mode r))) l) as Hin.
    { apply list_elem_of_fmap. exists r. split; [done|]. apply list_elem_of_In, filter_In.
      rewrite <- list_elem_of_In, bool_decide_eq_true, Hl. done. }
    eexists. split; [split; [reflexivity|] | exact Hin].
    intros E. rewrite E in Hin. by apply not_elem_of_nil in Hin.
Qed.

Lemma load_policy_other others cid k n c :
  c ≠ cid →
  List.filter (λ r, np_customer_id r =? c) (saved_rows others cid k n) =
  List.filter (λ r, np_customer_id r =? c) others.
Proof.
  intros Hc. unfold saved_rows. rewrite List.filter_app.
  assert (List.filter (λ r, np_customer_id r =? c) (number_rows cid k n) = []) as ->.
  { revert k. induction n as [|e n IH]; intros k; cbn; [done|].
    rewrite (proj2 (Z.eqb_neq cid c)) by done. apply IH. }
  rewrite app_nil_r. induction others as [|r others IH]; [done|]. cbn.
  destruct (np_customer_id r =? cid) eqn:E1; cbn; destruct (np_customer_id r =? c) eqn:E2; rewrite ?IH; try done.
  apply Z.eqb_eq in E1, E2. congruence.
Qed.

(** saving replaces.  What is loaded back after a save is exactly the
    normalized rows of that save, and no other Customer's policy changes; a
    refused save changes nothing. *)
Theorem replace_then_load `{CaseMapping} customer_id rows s r s' :
  replace_policy customer_id rows s = (r, s') →
  match r with
  | Ok g => ∃ n, normalize_policy_rows rows = Ok n ∧ g = load_policy s' customer_id ∧
      (∀ st m x, (∃ xs, ((st, m), xs) ∈ g ∧ x ∈ xs) ↔ mkPolicyEntry st m x ∈ n) ∧
      (∀ c, c ≠ customer_id → load_policy s' c = load_policy s c)
  | Err e => normalize_policy_rows rows = Err e ∧ s' = s
  end.
Proof.
  intros Hr. destruct r as [g|e].
  - apply replace_policy_inv in Hr as (n & Hn & -> & ->). exists n. split_and!; try done.
    + intros st m x. rewrite load_policy_elem. rsimpl.
      destruct (number_rows_elem customer_id (st_next_niche_row s) n) as [Hre Her]. split.
      * intros (r & Hr & Hc & <- & <- & <-). apply elem_of_saved_rows in Hr; [|done].
        destruct (Hre r Hr) as ([] & He & _ & -> & -> & ->). done.
      * intros He. destruct (Her _ He) as (r & Hr & Hc & ? & ? & ?). exists r.
        by rewrite elem_of_saved_rows.
    + intros c Hc. unfold load_policy. rsimpl. by rewrite load_policy_other.
  - unfold replace_policy in Hr. destruct (normalize_policy_rows rows) as [n|e'] eqn:E; [done|].
    by injection Hr as <- <-.
Qed.

(** *** Concrete runs *)

Definition example_policy : list PolicyInput :=
  [mkPolicyInput None (u "exclude") [u "Roofing"; u "roofing "];
   mkPolicyInput (Some (u "pa")) (u "Only") [u "Plumbing"; u "HVAC"]].

Section Examples.
#[local] Existing Instance ascii_case.

Definition example_entries : list PolicyEntry :=
  [mkPolicyEntry None exclude (u "Roofing"); mkPolicyEntry (Some (u "PA")) only (u "Plumbing");
   mkPolicyEntry (Some (u "PA")) only (u "HVAC")].

Example example_policy_normalized : normalize_policy_rows example_policy = Ok example_entries.
Proof. vm_compute. reflexivity. Qed.

Lemma normalize_policy_rows_wf_witness :
  NoDup ((λ e, (pe_state e, py_casefold (pe_niche e))) <$> example_entries).
Proof.
  exact (proj2 (proj2 (normalize_policy_rows_wf example_policy example_entries
    example_policy_normalized))).
Defined.

(** In Pennsylvania the allow-list decides, elsewhere the exclusion. *)
Lemma draft_preview_agrees_witness :
  ∃ g s' b, replace_policy 7 example_policy empty_store = (Ok g, s') ∧
    policy_clause_for_rows example_policy (Some (u "roofing")) (Some (u "PA")) = Ok b ∧
    kept b = kept (policy_clause (st_niche_policy s') 7 (Some (u "roofing")) (Some (u "PA"))).
Proof.
  destruct (replace_policy 7 example_policy empty_store) as [[g|e] s'] eqn:E;
    [|vm_compute in E; discriminate E].
  destruct (draft_preview_agrees 7 example_policy example_entries (Some (u "roofing")) (u "PA")
    empty_store g s' example_policy_normalized) as (b & Hb & Hk); [|exact E|].
  - intros e _. reflexivity.
  - exists g, s', b. split; [reflexivity|]. split; [exact Hb | exact Hk].
Defined.

Lemma replace_then_load_witness :
  ∃ g s', replace_policy 7 example_policy empty_store = (Ok g, s') ∧ g = load_policy s' 7.
Proof.
  destruct (replace_policy 7 example_policy empty_store) as [[g|e] s'] eqn:E;
    [|vm_compute in E; discriminate E].
  destruct (replace_then_load 7 example_policy empty_store (Ok g) s' E) as (n & _ & Hg & _).
  exists g, s'. split; [reflexivity | exact Hg].
Defined.
End Examples.

(** Python folds the German sharp s to two letters; SQL's [lower] keeps it. *)
Definition sharp_s_case : CaseMapping := {|
  py_upper := map ascii_upper_cp;
  py_lower := map ascii_lower_cp;
  py_casefold := λ t, t ≫= λ c, if N.eqb c 223 then [115; 115]%N else [ascii_lower_cp c];
  sql_lower := map ascii_lower_cp
|}.

(** There is a draft its preview and the saved policy decide differently:
    with a Niche spelled with a sharp s, which casefold expands and SQL's lower
    keeps, the preview of an allow-list refuses the very Leads the saved policy
    admits. *)
Theorem preview_differs_on_sharp_s :
  let rows := [mkPolicyInput None (u "only") [[70; 117; 223]%N]] in
  ∃ g s' b, replace_policy (H := sharp_s_case) 7 rows empty_store = (Ok g, s') ∧
    policy_clause_for_rows (H := sharp_s_case) rows (Some [70; 117; 223]%N) (Some (u "PA")) = Ok b ∧
    kept b = false ∧
    kept (policy_clause (H := sharp_s_case) (st_niche_policy s') 7 (Some [70; 117; 223]%N) (Some (u "PA")))
      = true.
Proof. do 3 eexists. split; [vm_compute; reflexivity|]. split; [vm_compute; reflexivity|]. by vm_compute. Qed.
