(* ===== verification/Eligible.v ===== *)
(** * Eligible Leads: [eligible_query] of [jawnix/allocation.py]

    The query that decides which Leads a Batch Request may draw, condition by
    condition in SQL's three-valued logic, and what it means in plain terms. *)

From S2P Require Import Prelude PyText Models Sql LeadDatabases NichePolicy.

Open Scope Z_scope.

Definition DEACTIVATED_RECIPIENT_HOLD_DAYS : Z := 3.

(** [SELECT id FROM table WHERE cond] *)
Definition select_ids {A} (id : A → Z) (cond : A → bool) (table : gmap Z A) : list Z :=
  id <$> List.filter cond (map_to_list table).*2.

Definition active_customers (s : Store) : list Z :=
  select_ids cu_id (λ c, cu_active c && bool_decide (cu_deleted_at c = None)) (st_customers s).
Definition active_agencies (s : Store) : list Z :=
  select_ids ag_id (λ a, ag_active a && bool_decide (ag_deleted_at a = None)) (st_agencies s).

Section Clauses.
Open Scope sql_scope.

Definition active_recipient (s : Store) (e : DistributionEvent) : sqlbool :=
  sql_in (ev_agent_id e) (active_customers s) OR
  (sql_is_null (ev_agent_id e) AND sql_in (ev_agency_id e) (active_agencies s)).

Definition inactive_recipient (s : Store) (e : DistributionEvent) : sqlbool :=
  (sql_not_null (ev_agent_id e) AND NOT (sql_in (ev_agent_id e) (active_customers s))) OR
  (sql_is_null (ev_agent_id e) AND
   (sql_is_null (ev_agency_id e) OR NOT (sql_in (ev_agency_id e) (active_agencies s)))).

Definition same_recipient_clause (s : Store) (customer : Customer) (e : DistributionEvent) : sqlbool :=
  let permanent_customers := select_ids cu_id
    (λ c, bool_decide (cu_permanent_history_key c = cu_permanent_history_key customer)) (st_customers s) in
  let permanent_agencies := select_ids ag_id
    (λ a, bool_decide (ag_permanent_history_key a = cu_permanent_history_key customer)) (st_agencies s) in
  let permanent_history :=
    sql_in (ev_agent_id e) permanent_customers OR sql_in (ev_agency_id e) permanent_agencies in
  let same_recipient :=
    match cu_agency_id customer with
    | None => sql_eq (ev_agent_id e) (Some (cu_id customer)) OR permanent_history
    | Some agency =>
        let same_agency_customers := select_ids cu_id
          (λ c, bool_decide (cu_agency_id c = Some agency)) (st_customers s) in
        sql_eq (ev_agent_id e) (Some (cu_id customer)) OR
        sql_eq (ev_agency_id e) (Some agency) OR
        (sql_is_null (ev_agency_id e) AND sql_in (ev_agent_id e) same_agency_customers) OR
        permanent_history
    end in
  active_recipient s e AND same_recipient.

(** [max(1, int(cooldown_window_days or 7))] *)
Definition cooldown_days (customer : Customer) : Z :=
  Z.max 1 (if cu_cooldown_window_days customer =? 0 then 7 else cu_cooldown_window_days customer).

Definition cutoff (customer : Customer) (instant : datetime) : datetime :=
  instant - days (cooldown_days customer).
Definition inactive_cutoff (instant : datetime) : datetime :=
  instant - days DEACTIVATED_RECIPIENT_HOLD_DAYS.

Definition cooling_down (s : Store) (customer : Customer) (instant : datetime) (lead : Lead) : sqlbool :=
  let oldest_cutoff := Z.min (cutoff customer instant) (inactive_cutoff instant) in
  sql_not_null (ld_last_distributed_at lead) AND
  sql_gt (ld_last_distributed_at lead) (Some oldest_cutoff) AND
  sql_exists (st_events s) (λ e,
    sql_eq (Some (ev_lead_id e)) (Some (ld_id lead)) AND
    ((sql_gt (Some (ev_delivered_at e)) (Some (cutoff customer instant)) AND active_recipient s e) OR
     (sql_gt (Some (ev_delivered_at e)) (Some (inactive_cutoff instant)) AND inactive_recipient s e))).

Definition previously_sent (s : Store) (customer : Customer) (lead : Lead) : sqlbool :=
  sql_exists (st_events s) (λ e,
    sql_eq (Some (ev_lead_id e)) (Some (ld_id lead)) AND same_recipient_clause s customer e).

Definition actively_held (s : Store) (lead : Lead) : sqlbool :=
  sql_exists (st_eligibility_holds s) (λ h,
    sql_eq (Some (eh_lead_id h)) (Some (ld_id lead)) AND Some (eh_active h)).

(** The join with the list drops phones whose list is gone. *)
Definition excluded_phone (s : Store) (customer : Customer) (lead : Lead) : sqlbool :=
  sql_exists (st_exclusion_phones s) (λ p,
    match st_exclusion_lists s !! xp_exclusion_list_id p with
    | None => Some false
    | Some l =>
        sql_eq (Some (xp_phone p)) (Some (ld_phone lead)) AND
        (Some (xl_global_effective l) OR sql_eq (xl_customer_id l) (Some (cu_id customer)))
    end).

(** The outer joins: the listing counts for DB1 only; a denied mapping does
    not count; a phone has at most one assignment. *)
Definition lead_niche (s : Store) (database : Database) (lead : Lead) : option text :=
  effective_niche
    (match database with
     | db1 => listing_mapping s (ld_current_listing_observation_id lead)
     | db2 => None
     end)
    (st_niche_assignments s !! ld_phone lead).

(** The [WHERE] of the query, on top of the inventory scope. *)
Definition eligible_where (niche_filter : option text → option text → sqlbool) (s : Store)
    (request : LeadRequest) (customer : Customer) (instant : datetime) (lead : Lead) : sqlbool :=
  let database := inventory_database customer in
  Some (inventory_scope s database lead) AND
  sql_in (inventory_state s database lead) (rq_states_snapshot request) AND
  Some (negb (ld_suppressed lead)) AND
  NOT (cooling_down s customer instant lead) AND
  NOT (previously_sent s customer lead) AND
  NOT (actively_held s lead) AND
  NOT (excluded_phone s customer lead) AND
  niche_filter (lead_niche s database lead) (inventory_state s database lead).
End Clauses.

(** [ORDER BY last_distributed_at NULLS FIRST, id] *)
Definition lead_leb (a b : Lead) : bool :=
  if bool_decide (ld_last_distributed_at a = ld_last_distributed_at b) then ld_id a <=? ld_id b
  else nulls_first_leb (ld_last_distributed_at a) (ld_last_distributed_at b).
Definition lead_le (a b : Lead) : Prop := lead_leb a b = true.
#[export] Instance lead_le_dec : RelDecision lead_le.
Proof. intros a b. unfold lead_le. apply _. Defined.

Section Query.
Context `{CaseMapping}.

Definition saved_policy (s : Store) (customer : Customer) (niche state : option text) : sqlbool :=
  policy_clause (st_niche_policy s) (cu_id customer) niche state.

Definition eligible_with (niche_filter : option text → option text → sqlbool) (s : Store)
    (request : LeadRequest) (customer : Customer) (instant : datetime) : list Lead :=
  merge_sort lead_le
    (List.filter (λ l, kept (eligible_where niche_filter s request customer instant l))
       (map_to_list (st_leads s)).*2).

(** The query under the Customer's saved policy. *)
Definition eligible_query (s : Store) (request : LeadRequest) (customer : Customer)
    (instant : datetime) : list Lead :=
  eligible_with (saved_policy s customer) s request customer instant.

(** The query under a draft; an invalid draft is refused before it runs. *)
Definition eligible_query_draft (rows : list PolicyInput) (s : Store) (request : LeadRequest)
    (customer : Customer) (instant : datetime) : outcome (list Lead) :=
  _ ← normalize_policy_rows rows;
  Ok (eligible_with (λ niche state,
        match policy_clause_for_rows rows niche state with Ok c => c | Err _ => None end)
        s request customer instant).

Definition inventory_count (s : Store) (request : LeadRequest) (customer : Customer)
    (instant : datetime) : Z :=
  Z.of_nat (length (eligible_query s request customer instant)).
End Query.

(** ** What the clauses mean *)

(** The recipient of an event counts as active now. *)
Definition recipient_active (s : Store) (e : DistributionEvent) : Prop :=
  match ev_agent_id e with
  | Some a => a ∈ active_customers s
  | None => match ev_agency_id e with Some g => g ∈ active_agencies s | None => False end
  end.
#[export] Instance recipient_active_dec s e : Decision (recipient_active s e).
Proof.
  unfold recipient_active. destruct (ev_agent_id e); [apply _|]. destruct (ev_agency_id e); apply _.
Defined.

Lemma active_recipient_true s e : active_recipient s e = Some true ↔ recipient_active s e.
Proof.
  unfold active_recipient, recipient_active. rewrite sql_or_true, sql_and_true, !sql_in_true, sql_is_null_true.
  destruct (ev_agent_id e), (ev_agency_id e); naive_solver.
Qed.

Lemma inactive_recipient_true s e : inactive_recipient s e = Some true ↔ ¬ recipient_active s e.
Proof.
  unfold inactive_recipient, recipient_active.
  rewrite !sql_or_true, !sql_and_true, sql_or_true, !sql_is_null_true, !sql_not_true, sql_not_null_true.
  destruct (ev_agent_id e) as [a|], (ev_agency_id e) as [g|]; rewrite ?sql_in_false; naive_solver.
Qed.

(** A past delivery went to this Customer: to its own identity, to its
    Agency, or under the permanent history it inherited. *)
Definition same_recipient (s : Store) (customer : Customer) (e : DistributionEvent) : Prop :=
  ev_agent_id e = Some (cu_id customer) ∨
  (∃ agency, cu_agency_id customer = Some agency ∧
     (ev_agency_id e = Some agency ∨
      (ev_agency_id e = None ∧
       ∃ id c, st_customers s !! id = Some c ∧ cu_agency_id c = Some agency ∧ ev_agent_id e = Some (cu_id c)))) ∨
  (∃ id c, st_customers s !! id = Some c ∧ ev_agent_id e = Some (cu_id c) ∧
           cu_permanent_history_key c = cu_permanent_history_key customer) ∨
  (∃ id a, st_agencies s !! id = Some a ∧ ev_agency_id e = Some (ag_id a) ∧
           ag_permanent_history_key a = cu_permanent_history_key customer).

Lemma elem_of_select_ids {A} (id : A → Z) cond (table : gmap Z A) x :
  x ∈ select_ids id cond table ↔ ∃ k a, table !! k = Some a ∧ cond a = true ∧ x = id a.
Proof.
  unfold select_ids. rewrite list_elem_of_fmap. split.
  - intros (a & -> & Ha). apply list_elem_of_In, filter_In in Ha as [Ha%list_elem_of_In Hc].
    apply list_elem_of_fmap in Ha as ([k a'] & -> & Hk%elem_of_map_to_list). eauto.
  - intros (k & a & Hk & Hc & ->). exists a. split; [done|]. apply list_elem_of_In, filter_In.
    split; [|done]. apply list_elem_of_In, list_elem_of_fmap. exists (k, a). by rewrite elem_of_map_to_list.
Qed.

Lemma same_recipient_clause_true s customer e :
  same_recipient_clause s customer e = Some true ↔ recipient_active s e ∧ same_recipient s customer e.
Proof.
  unfold same_recipient_clause, same_recipient. rewrite sql_and_true, active_recipient_true.
  assert (∀ P Q R : Prop, (Q ↔ R) → (P ∧ Q ↔ P ∧ R)) as Hand by tauto. apply Hand. clear Hand.
  assert (∀ (x : option Z) A (id : A → Z) cond (m : gmap Z A),
    sql_in x (select_ids id cond m) = Some true ↔
    ∃ k a, m !! k = Some a ∧ cond a = true ∧ x = Some (id a)) as Hin.
  { intros x A id cond m. rewrite sql_in_true. setoid_rewrite elem_of_select_ids. naive_solver. }
  destruct (cu_agency_id customer) as [agency|].
  - rewrite !sql_or_true, sql_and_true, !Hin, !sql_eq_Some_true, sql_is_null_true.
    setoid_rewrite bool_decide_eq_true. split.
    + intros [[[?|?]|[? (k & a & ? & ? & ?)]]|[(k & a & ? & ? & ?)|(k & a & ? & ? & ?)]]; [by left|..].
      * right. left. exists agency. auto.
      * right. left. exists agency. split; [done|]. right. eauto 6.
      * right. right. left. eauto 6.
      * right. right. right. eauto 6.
    + intros [?|[(g & [= <-] & [?|[? (k & a & ? & ? & ?)]])|[(k & a & ? & ? & ?)|(k & a & ? & ? & ?)]]].
      * by do 3 left.
      * left. left. by right.
      * left. right. eauto 6.
      * right. left. eauto 6.
      * right. right. eauto 6.
  - rewrite !sql_or_true, !Hin, sql_eq_Some_true. setoid_rewrite bool_decide_eq_true. naive_solver.
Qed.

(** A delivery of the Lead is recent enough to hold it back. *)
Definition recent (s : Store) (customer : Customer) (instant : datetime) (e : DistributionEvent) : Prop :=
  (recipient_active s e ∧ cutoff customer instant < ev_delivered_at e) ∨
  (¬ recipient_active s e ∧ inactive_cutoff instant < ev_delivered_at e).

(** Every delivery of a Lead is at most as recent as the Lead's own stamp. *)
Definition leads_stamped (s : Store) : Prop :=
  ∀ e id l, e ∈ st_events s → st_leads s !! id = Some l → ld_id l = ev_lead_id e →
    ∃ t, ld_last_distributed_at l = Some t ∧ ev_delivered_at e ≤ t.

Lemma cooling_down_false s customer instant id lead :
  leads_stamped s → st_leads s !! id = Some lead →
  sql_not (cooling_down s customer instant lead) = Some true ↔
  ∀ e, e ∈ st_events s → ev_lead_id e = ld_id lead → ¬ recent s customer instant e.
Proof.
  intros Hst Hl. unfold cooling_down. cbv zeta.
  assert (Hrow : ∀ e, (sql_eq (Some (ev_lead_id e)) (Some (ld_id lead)) AND
      ((sql_gt (Some (ev_delivered_at e)) (Some (cutoff customer instant)) AND active_recipient s e) OR
       (sql_gt (Some (ev_delivered_at e)) (Some (inactive_cutoff instant)) AND inactive_recipient s e)))%sql
      = Some true ↔ ev_lead_id e = ld_id lead ∧ recent s customer instant e).
  { intros e. rewrite sql_and_true, sql_eq_Some2_true, sql_or_true, !sql_and_true, active_recipient_true,
      inactive_recipient_true, !sql_gt_true. unfold recent. naive_solver. }
  set (ex := sql_exists _ _).
  assert (Hex : ex = Some false ↔ ∀ e, e ∈ st_events s → ev_lead_id e = ld_id lead → ¬ recent s customer instant e).
  { unfold ex. rewrite <- sql_not_true, sql_not_exists_true. setoid_rewrite Hrow. naive_solver. }
  rewrite <- Hex, sql_not_true.
  assert (Hnn : ex ≠ None) by (by unfold ex, sql_exists).
  destruct (ld_last_distributed_at lead) as [t|] eqn:Et.
  - cbn. destruct (Z.ltb_spec (Z.min (cutoff customer instant) (inactive_cutoff instant)) t) as [Hlt|Hge].
    + destruct ex as [[]|]; cbn; naive_solver.
    + split; [|by destruct ex as [[]|]]. intros _. apply Hex. intros e He Hle Hr.
      destruct (Hst e id lead He Hl) as (t' & Ht' & Hd); [done|].
      unfold recent in Hr. assert (t' = t) as -> by congruence. lia.
  - cbn. split; [|by destruct ex as [[]|]]. intros _. apply Hex. intros e He Hle Hr.
    destruct (Hst e id lead He Hl) as (t' & Ht' & _); [done|]. congruence.
Qed.

(** What it takes, in plain terms, for a Lead to be drawn by a request. *)
Record eligible (niche_ok : option text → option text → Prop) (s : Store) (request : LeadRequest)
    (customer : Customer) (instant : datetime) (lead : Lead) : Prop := {
  el_scope : inventory_scope s (inventory_database customer) lead = true;
  el_state : ∃ st, inventory_state s (inventory_database customer) lead = Some st ∧
                   st ∈ rq_states_snapshot request;
  el_unsuppressed : ld_suppressed lead = false;
  el_rested : ∀ e, e ∈ st_events s → ev_lead_id e = ld_id lead → ¬ recent s customer instant e;
  el_unrepeated : ∀ e, e ∈ st_events s → ev_lead_id e = ld_id lead →
    recipient_active s e → ¬ same_recipient s customer e;
  el_unheld : ∀ h, h ∈ st_eligibility_holds s → eh_lead_id h = ld_id lead → eh_active h = false;
  el_unexcluded : ∀ p l, p ∈ st_exclusion_phones s → xp_phone p = ld_phone lead →
    st_exclusion_lists s !! xp_exclusion_list_id p = Some l →
    xl_global_effective l = false ∧ xl_customer_id l ≠ Some (cu_id customer);
  el_niche : niche_ok (lead_niche s (inventory_database customer) lead)
               (inventory_state s (inventory_database customer) lead)
}.

(** Only the truth of the Niche test matters. *)
#[export] Instance eligible_proper :
  Proper (pointwise_relation _ (pointwise_relation _ iff) ==> eq ==> eq ==> eq ==> eq ==> eq ==> iff) eligible.
Proof.
  intros P Q HPQ ? s -> ? rq -> ? cu -> ? i -> ? l ->.
  split; intros []; split; try done; by apply HPQ.
Qed.

Lemma eligible_where_true niche_filter s request customer instant id lead :
  leads_stamped s → st_leads s !! id = Some lead →
  eligible_where niche_filter s request customer instant lead = Some true ↔
  eligible (λ n st, niche_filter n st = Some true) s request customer instant lead.
Proof.
  intros Hst Hl. unfold eligible_where. cbv zeta.
  rewrite !sql_and_true, (cooling_down_false _ _ _ _ _ Hst Hl), sql_in_true.
  unfold previously_sent, actively_held, excluded_phone. rewrite !sql_not_exists_true.
  setoid_rewrite sql_and_true. setoid_rewrite same_recipient_clause_true. setoid_rewrite sql_eq_Some2_true.
  rewrite !(inj_iff Some), negb_true_iff. split.
  - intros [[[[[[[? ?] ?] ?] Hp] Hh] Hx] ?]. split; try done.
    + intros e He Hle Ha Hs. apply (Hp e He). auto.
    + intros h Hhin Hlh. apply not_true_is_false. intros Hact. apply (Hh h Hhin). by rewrite Hact.
    + intros p l Hpin Hph Hlk. specialize (Hx p Hpin). rewrite Hlk in Hx.
      rewrite sql_and_true, sql_or_true, sql_eq_Some2_true, sql_eq_Some_true, (inj_iff Some) in Hx.
      split; [apply not_true_is_false; tauto | tauto].
  - intros [? ? ? ? Hp Hh Hx ?]. split_and!; try done.
    + intros e He [Hle [Ha Hs]]. by apply (Hp e).
    + intros h Hhin [Hlh [= Hact]]. by rewrite (Hh h) in Hact.
    + intros p Hpin. destruct (st_exclusion_lists s !! xp_exclusion_list_id p) as [l|] eqn:Hlk; [|done].
      rewrite sql_and_true, sql_or_true, sql_eq_Some2_true, sql_eq_Some_true, (inj_iff Some).
      intros [Hph Ho]. destruct (Hx p l Hpin Hph Hlk) as [Hg Hc]. rewrite Hg in Ho. naive_solver.
Qed.

(** A Lead already sent to the same active recipient is never kept. *)
Lemma eligible_unsent niche_filter s request customer instant lead e :
  eligible_where niche_filter s request customer instant lead = Some true →
  e ∈ st_events s → ev_lead_id e = ld_id lead → recipient_active s e → ¬ same_recipient s customer e.
Proof.
  unfold eligible_where. cbv zeta. rewrite !sql_and_true. unfold previously_sent.
  rewrite !sql_not_exists_true. intros [[[[_ Hp] _] _] _] He Hid Ha Hs. apply (Hp e He).
  by rewrite sql_and_true, sql_eq_Some2_true, same_recipient_clause_true.
Qed.

(** A Lead under an active hold is never kept, nor a suppressed one. *)
Lemma eligible_unheld niche_filter s request customer instant lead h :
  eligible_where niche_filter s request customer instant lead = Some true →
  h ∈ st_eligibility_holds s → eh_lead_id h = ld_id lead → eh_active h = false.
Proof.
  unfold eligible_where. cbv zeta. rewrite !sql_and_true. unfold actively_held.
  rewrite !sql_not_exists_true. intros [[[_ Hh] _] _] Hin Hid. specialize (Hh h Hin).
  rewrite sql_and_true, sql_eq_Some2_true in Hh. destruct (eh_active h); [|done]. by destruct Hh.
Qed.
Lemma eligible_unsuppressed niche_filter s request customer instant lead :
  eligible_where niche_filter s request customer instant lead = Some true → ld_suppressed lead = false.
Proof.
  unfold eligible_where. cbv zeta. rewrite !sql_and_true, !(inj_iff Some), negb_true_iff.
  by intros [[[[[[_ ?] _] _] _] _] _].
Qed.

(** A phone on a list in effect for the Customer is never kept. *)
Lemma eligible_unexcluded niche_filter s request customer instant lead p l :
  eligible_where niche_filter s request customer instant lead = Some true →
  p ∈ st_exclusion_phones s → xp_phone p = ld_phone lead →
  st_exclusion_lists s !! xp_exclusion_list_id p = Some l →
  xl_global_effective l = false ∧ xl_customer_id l ≠ Some (cu_id customer).
Proof.
  unfold eligible_where. cbv zeta. rewrite !sql_and_true. unfold excluded_phone.
  rewrite !sql_not_exists_true. intros [[_ Hx] _] Hin Hph Hl. specialize (Hx p Hin). rewrite Hl in Hx.
  rewrite sql_and_true, sql_or_true, sql_eq_Some2_true, sql_eq_Some_true, (inj_iff Some) in Hx.
  split; [apply not_true_is_false; tauto | tauto].
Qed.

Lemma elem_of_eligible_with niche_filter s request customer instant lead :
  lead ∈ eligible_with niche_filter s request customer instant ↔
  (∃ id, st_leads s !! id = Some lead) ∧
  eligible_where niche_filter s request customer instant lead = Some true.
Proof.
  unfold eligible_with. rewrite (merge_sort_Permutation lead_le).
  rewrite list_elem_of_In, filter_In, <- list_elem_of_In, kept_true, list_elem_of_fmap.
  assert (∀ P Q R : Prop, (P ↔ Q) → (P ∧ R ↔ Q ∧ R)) as Hand by tauto. apply Hand. split.
  - intros ([k l] & -> & Hk%elem_of_map_to_list). eauto.
  - intros [k Hk]. exists (k, lead). by rewrite elem_of_map_to_list.
Qed.

Lemma lead_le_iff a b :
  lead_le a b ↔
  match ld_last_distributed_at a, ld_last_distributed_at b with
  | None, None => ld_id a ≤ ld_id b
  | None, Some _ => True
  | Some _, None => False
  | Some x, Some y => x < y ∨ (x = y ∧ ld_id a ≤ ld_id b)
  end.
Proof.
  unfold lead_le, lead_leb, nulls_first_leb.
  destruct (ld_last_distributed_at a), (ld_last_distributed_at b); case_bool_decide; simplify_eq;
    rewrite ?Z.leb_le; try done; try lia.
  assert (z ≠ z0) by congruence. lia.
Qed.

#[export] Instance lead_le_total : Total lead_le.
Proof.
  intros a b. rewrite !lead_le_iff.
  destruct (ld_last_distributed_at a), (ld_last_distributed_at b); auto; lia.
Qed.
#[export] Instance lead_le_trans : Transitive lead_le.
Proof.
  intros a b c. rewrite !lead_le_iff.
  destruct (ld_last_distributed_at a), (ld_last_distributed_at b), (ld_last_distributed_at c); try done; lia.
Qed.

(** A Lead is stored under its own id. *)
Definition keyed_leads (s : Store) : Prop := ∀ id l, st_leads s !! id = Some l → ld_id l = id.

Lemma eligible_with_sorted niche_filter s request customer instant :
  StronglySorted lead_le (eligible_with niche_filter s request customer instant).
Proof. apply (StronglySorted_merge_sort lead_le). Qed.

Lemma NoDup_filter_map_to_list (s : Store) (f : Lead → bool) :
  keyed_leads s → NoDup (ld_id <$> List.filter f (map_to_list (st_leads s)).*2).
Proof.
  intros Hk. assert (NoDup (ld_id <$> (map_to_list (st_leads s)).*2)) as Hn.
  { rewrite <- list_fmap_compose.
    assert ((ld_id ∘ snd) <$> map_to_list (st_leads s) = (map_to_list (st_leads s)).*1) as ->.
    { apply list_fmap_ext. intros i [k l] Hl%list_elem_of_lookup_2%elem_of_map_to_list. cbn. by apply Hk. }
    apply NoDup_fst_map_to_list. }
  induction ((map_to_list (st_leads s)).*2) as [|l ls IH]; [done|]. cbn in Hn.
  apply NoDup_cons in Hn as [Hl Hn]. cbn. destruct (f l); [|by apply IH]. cbn. apply NoDup_cons. split; [|by apply IH].
  intros (l' & E & Hin)%list_elem_of_fmap. apply Hl. rewrite E. apply list_elem_of_fmap.
  apply list_elem_of_In, filter_In in Hin as [Hin%list_elem_of_In _]. eauto.
Qed.

Lemma NoDup_eligible_with niche_filter s request customer instant :
  keyed_leads s → NoDup (ld_id <$> eligible_with niche_filter s request customer instant).
Proof.
  intros Hk. unfold eligible_with. rewrite (merge_sort_Permutation lead_le).
  by apply NoDup_filter_map_to_list.
Qed.

(** ** Properties *)

(** active and inactive recipients partition the deliveries: for every
    event, whatever columns are NULL, exactly one of the two conditions is
    true; the recipient's own status decides, the Agency's where no Customer
    is recorded, and an unknown recipient is inactive. *)
Theorem recipient_status_partition s e :
  (active_recipient s e = Some true ∧ inactive_recipient s e ≠ Some true ∧ recipient_active s e) ∨
  (inactive_recipient s e = Some true ∧ active_recipient s e ≠ Some true ∧ ¬ recipient_active s e).
Proof.
  rewrite inactive_recipient_true, active_recipient_true.
  destruct (decide (recipient_active s e)); [left | right]; tauto.
Qed.

(** C6: the query selects exactly the eligible Leads: in the Customer's
    inventory and requested states, not suppressed, held or excluded, with no
    delivery inside the Customer's Cooldown Window (or the three-day hold of
    an inactive recipient), never before sent to the same active recipient,
    and admitted by the Niche Policy.  The index-friendly test on
    [last_distributed_at] changes nothing as long as no delivery is newer than
    its Lead's stamp. *)
Theorem eligible_query_iff `{CaseMapping} s request customer instant lead :
  leads_stamped s →
  lead ∈ eligible_query s request customer instant ↔
  (∃ id, st_leads s !! id = Some lead) ∧
  eligible (λ niche state, kept (policy_clause (st_niche_policy s) (cu_id customer) niche state) = true)
    s request customer instant lead.
Proof.
  intros Hst. unfold eligible_query. rewrite elem_of_eligible_with.
  setoid_rewrite kept_true. split; (intros [[id Hl] He]; split; [eauto|]); by apply (eligible_where_true _ _ _ _ _ id).
Qed.

(** Leads are drawn fairly and at most once: the query lists each Lead
    once, those never distributed first, then the least recently distributed,
    ties by id; so a limit takes the Leads that have rested longest. *)
Theorem eligible_query_order `{CaseMapping} s request customer instant :
  keyed_leads s →
  NoDup (ld_id <$> eligible_query s request customer instant) ∧
  (∀ n taken left, taken ∈ take n (eligible_query s request customer instant) →
     left ∈ drop n (eligible_query s request customer instant) →
     match ld_last_distributed_at taken, ld_last_distributed_at left with
     | None, _ => True
     | Some _, None => False
     | Some t, Some t' => t ≤ t'
     end).
Proof.
  intros Hk. split; [by apply NoDup_eligible_with|]. intros n taken left Ht Hd.
  pose proof (eligible_with_sorted (saved_policy s customer) s request customer instant) as Hs.
  change (StronglySorted lead_le (eligible_query s request customer instant)) in Hs.
  rewrite <- (take_drop n (eligible_query s request customer instant)) in Hs.
  assert (lead_le taken left) as Hle.
  { induction (take n (eligible_query s request customer instant)) as [|x l IH];
      [by apply not_elem_of_nil in Ht|].
    cbn in Hs. apply StronglySorted_inv in Hs as [Hs Hall].
    apply elem_of_cons in Ht as [->|Ht]; [|by apply IH].
    rewrite Forall_forall in Hall. apply Hall, elem_of_app. by right. }
  rewrite lead_le_iff in Hle.
  destruct (ld_last_distributed_at taken), (ld_last_distributed_at left); try done; lia.
Qed.

(** *** Concrete runs *)

Definition example_inventory : Store :=
  empty_store <| st_customers := {[ 7 := example_customer ]} |>
              <| st_leads := list_to_map
                   [(1, example_lead 1 "2155550101" "Alpha");
                    (2, example_lead 2 "2155550102" "Beta" <| ld_last_distributed_at := Some (-5) |>);
                    (3, example_lead 3 "2155550103" "Gamma" <| ld_suppressed := true |>)] |>.

Lemma example_inventory_stamped : leads_stamped example_inventory.
Proof. intros e id l He. by apply not_elem_of_nil in He. Qed.

Lemma example_inventory_keyed : keyed_leads example_inventory.
Proof.
  intros id l Hl%elem_of_list_to_map_2. rewrite !elem_of_cons, elem_of_nil in Hl. naive_solver.
Qed.

Section Examples.
#[local] Existing Instance ascii_case.

(** The suppressed Lead is left out, the one never distributed comes first. *)
Example example_eligible_ids :
  ld_id <$> eligible_query example_inventory example_request example_customer 0 = [1; 2].
Proof. vm_compute. reflexivity. Qed.

Lemma eligible_query_iff_witness :
  eligible (λ niche state, kept (policy_clause [] 7 niche state) = true)
    example_inventory example_request example_customer 0 (example_lead 1 "2155550101" "Alpha").
Proof.
  refine (proj2 (proj1 (eligible_query_iff example_inventory example_request example_customer 0
    (example_lead 1 "2155550101" "Alpha") example_inventory_stamped) _)).
  apply elem_of_eligible_with. split; [exists 1; vm_compute; reflexivity | vm_compute; reflexivity].
Defined.

Lemma eligible_query_order_witness :
  NoDup (ld_id <$> eligible_query example_inventory example_request example_customer 0).
Proof.
  exact (proj1 (eligible_query_order example_inventory example_request example_customer 0
    example_inventory_keyed)).
Defined.
End Examples.
