(* ===== verification/Agencies.v ===== *)
(** * Agencies: assignment and permanent no-repeat history

    [jawnix/agency_management.py] and its assignment endpoint: which Customers
    and Agencies share no-repeat history, what an assignment would change, and
    the assignment itself, which merges histories and never splits them. *)

From S2P Require Import Prelude PyText Models Sql Activity LeadDatabases NichePolicy Eligible.
From Stdlib Require String.

Open Scope Z_scope.

(** ** Who shares a history *)

Record HistorySubjects : Type := mkSubjects {
  hs_keys : gset text;
  hs_customer_ids : gset Z;
  hs_agency_ids : gset Z
}.
Definition NO_SUBJECTS : HistorySubjects := mkSubjects ∅ ∅ ∅.
Definition join_subjects (a b : HistorySubjects) : HistorySubjects :=
  mkSubjects (hs_keys a ∪ hs_keys b) (hs_customer_ids a ∪ hs_customer_ids b) (hs_agency_ids a ∪ hs_agency_ids b).

Definition customers_where (s : Store) (p : Customer → bool) : list Customer :=
  List.filter p (map_to_list (st_customers s)).*2.
Definition agencies_where (s : Store) (p : Agency → bool) : list Agency :=
  List.filter p (map_to_list (st_agencies s)).*2.

(** What one round of the search finds: the holders of a key, their current
    Agencies, and the current members of every Agency found. *)
Definition key_customers (s : Store) (resolved : gset text) : list Customer :=
  customers_where s (λ c, bool_decide (cu_permanent_history_key c ∈ resolved)).
Definition key_agencies (s : Store) (resolved : gset text) : list Agency :=
  agencies_where s (λ a, bool_decide (ag_permanent_history_key a ∈ resolved)).
Definition current_agencies (s : Store) (resolved : gset text) : list Agency :=
  let current_agency_ids : gset Z := list_to_set (omap cu_agency_id (key_customers s resolved)) in
  agencies_where s (λ a, bool_decide (ag_id a ∈ current_agency_ids)).
Definition next_agency_ids (s : Store) (resolved : gset text) : gset Z :=
  list_to_set (ag_id <$> key_agencies s resolved) ∪ list_to_set (ag_id <$> current_agencies s resolved).
Definition current_members (s : Store) (resolved : gset text) : list Customer :=
  customers_where s (λ c,
    match cu_agency_id c with Some a => bool_decide (a ∈ next_agency_ids s resolved) | None => false end).
Definition next_subjects (s : Store) (resolved : gset text) : HistorySubjects :=
  let customers := key_customers s resolved in
  let agencies := key_agencies s resolved in
  mkSubjects
    (list_to_set (cu_permanent_history_key <$> customers) ∪ list_to_set (ag_permanent_history_key <$> agencies) ∪
     list_to_set (ag_permanent_history_key <$> current_agencies s resolved) ∪
     list_to_set (cu_permanent_history_key <$> current_members s resolved))
    (list_to_set (cu_id <$> customers) ∪ list_to_set (cu_id <$> current_members s resolved))
    (next_agency_ids s resolved).

Definition within (a b : HistorySubjects) : bool :=
  bool_decide (hs_keys a ⊆ hs_keys b) && bool_decide (hs_customer_ids a ⊆ hs_customer_ids b) &&
  bool_decide (hs_agency_ids a ⊆ hs_agency_ids b).

(** [while True], until a round finds nothing new. *)
Fixpoint search (s : Store) (fuel : nat) (found : HistorySubjects) : option HistorySubjects :=
  match fuel with
  | O => None
  | S fuel =>
      let next := next_subjects s (hs_keys found) in
      if within next found then Some found else search s fuel (join_subjects found next)
  end.

(** Every round but the last finds a key, a Customer or an Agency. *)
Definition history_fuel (s : Store) : nat := S (2 * (size (st_customers s) + size (st_agencies s))).

Definition history_subjects (s : Store) (keys : gset text) : option HistorySubjects :=
  search s (history_fuel s) (mkSubjects keys ∅ ∅).

Definition agency_of (s : Store) (customer : Customer) : option Agency :=
  cu_agency_id customer ≫= λ id, st_agencies s !! id.

(** [agency] is what the session has loaded as [customer.agency]: a loaded
    relationship is not looked up again when [agency_id] changes. *)
Definition history_with_agency (s : Store) (agency : option Agency) (customer : Customer) : HistorySubjects :=
  default NO_SUBJECTS (history_subjects s ({[ cu_permanent_history_key customer ]} ∪
    match agency with Some a => {[ ag_permanent_history_key a ]} | None => ∅ end)).
Definition history_for_customer (s : Store) (customer : Customer) : HistorySubjects :=
  history_with_agency s (agency_of s customer) customer.
Definition history_for_agency (s : Store) (agency : Agency) : HistorySubjects :=
  default NO_SUBJECTS (history_subjects s {[ ag_permanent_history_key agency ]}).

(** ** What an assignment would change *)

(** The distinct Leads ever delivered to the subjects. *)
Definition history_leads (s : Store) (subjects : HistorySubjects) : gset Z :=
  list_to_set (ev_lead_id <$> List.filter (λ e,
    match ev_agency_id e with Some a => bool_decide (a ∈ hs_agency_ids subjects) | None => false end ||
    match ev_agent_id e with Some c => bool_decide (c ∈ hs_customer_ids subjects) | None => false end) (st_events s)).
Definition count_history_leads (s : Store) (subjects : HistorySubjects) : Z := Z.of_nat (size (history_leads s subjects)).
Definition exclusive_history_lead_count (s : Store) (subjects other : HistorySubjects) : Z :=
  Z.of_nat (size (history_leads s subjects ∖ history_leads s other)).

Record Destination : Type := mkDestination {
  de_id : Z; de_name : text; de_active : bool; de_current_members : Z
}.
Record Consequences : Type := mkConsequences {
  co_customer_history_blocked : Z;
  co_destination_history_blocked : Z;
  co_merge_is_permanent : bool
}.
Record AssignmentPreview : Type := mkAssignmentPreview {
  pv_customer_id : Z;
  pv_customer_name : text;
  pv_agency_id : option Z;
  pv_agency_name : text;
  pv_destination : option Destination;
  pv_eligible_before : Z;
  pv_eligible_after : Z;
  pv_customers_after : Z;
  pv_agencies_after : Z;
  pv_distributed_leads_after : Z;
  pv_consequences : Consequences
}.

Section Assign.
Context `{CaseMapping}.

(** A request for everything the Customer could be sent. *)
Definition preview_request (customer : Customer) (user_id : uuid) : LeadRequest :=
  mkLeadRequest 0 user_id (cu_id customer) 1 0 (u "all_saved") (cu_licensed_states customer) (u "agency-preview@invalid")
    approved None [] 0 None None None None None false None None.

Definition eligible_inventory_count (s : Store) (customer : Customer) (blocked_leads : gset Z) (as_of : datetime) : Z :=
  Z.of_nat (length (List.filter (λ l, negb (bool_decide (ld_id l ∈ blocked_leads)))
    (eligible_query s (preview_request customer 0) customer as_of))).

Definition source_history (s : Store) (customer : Customer) : HistorySubjects := history_for_customer s customer.
Definition target_history (s : Store) (destination : option Agency) : HistorySubjects :=
  match destination with Some a => history_for_agency s a | None => NO_SUBJECTS end.

Definition destination_of (s : Store) (customer : Customer) (agency : Agency) : Destination :=
  mkDestination (ag_id agency) (ag_name agency) (ag_active agency)
    (Z.of_nat (length (customers_where s (λ c, bool_decide (cu_agency_id c = Some (ag_id agency)) &&
       negb (bool_decide (cu_id c = cu_id customer)) && bool_decide (cu_deleted_at c = None))))).

Definition assignment_preview (env : Env) (s : Store) (agency : option Agency) (customer : Customer)
    (destination : option Agency) : AssignmentPreview :=
  let source := history_with_agency s agency customer in
  let target := target_history s destination in
  let combined := join_subjects source target in
  let preview_as_of := now env in
  mkAssignmentPreview (cu_id customer) (cu_name customer) (cu_agency_id customer)
    (match agency with Some a => ag_name a | None => [] end)
    (destination_of s customer <$> destination)
    (eligible_inventory_count s customer (history_leads s source) preview_as_of)
    (eligible_inventory_count s customer (history_leads s combined) preview_as_of)
    (Z.of_nat (size (hs_customer_ids combined))) (Z.of_nat (size (hs_agency_ids combined)))
    (count_history_leads s combined)
    (mkConsequences (exclusive_history_lead_count s source target) (exclusive_history_lead_count s target source)
       (match destination with Some _ => true | None => false end)).

(** ** The assignment *)

(** [min(keys)] *)
Definition min_key (keys : gset text) : text := default [] (head (merge_sort text_le (elements keys))).

(** Every row of the merged histories takes the canonical key. *)
Definition rekey (keys : gset text) (s : Store) : Store :=
  let canonical_key := min_key keys in
  s <| st_customers := (λ c, if bool_decide (cu_permanent_history_key c ∈ keys)
         then c <| cu_permanent_history_key := canonical_key |> else c) <$> st_customers s |>
    <| st_agencies := (λ a, if bool_decide (ag_permanent_history_key a ∈ keys)
         then a <| ag_permanent_history_key := canonical_key |> else a) <$> st_agencies s |>.

Definition open_membership (s : Store) (customer_id : Z) : option AgencyMembershipHistory :=
  List.find (λ m, bool_decide (mh_customer_id m = customer_id) && bool_decide (mh_ended_at m = None))
    (st_membership_history s).

Definition add_membership (customer_id agency_id : Z) (started_at : datetime) (ended_at : option datetime)
    (assigned_by reason : text) : M Store unit :=
  id ← gets st_next_membership;
  modify (λ s, s <| st_next_membership := id + 1 |>
                 <| st_membership_history := st_membership_history s ++
                      [mkMembershipPeriod id customer_id agency_id started_at ended_at assigned_by reason] |>).

(** The period that ends with the assignment; a membership from before the
    periods were kept is written down as it ends. *)
Definition close_membership (env : Env) (customer : Customer) (previous_agency : option Agency) : M Store unit :=
  current_membership ← gets (λ s, open_membership s (cu_id customer));
  match current_membership, previous_agency with
  | None, Some agency =>
      add_membership (cu_id customer) (ag_id agency) (now env) (Some (now env)) (u "system:existing-membership")
        (u "Existing membership retained before reassignment.")
  | Some m, _ =>
      modify (λ s, s <| st_membership_history := (λ x, if bool_decide (mh_id x = mh_id m)
        then x <| mh_ended_at := Some (now env) |> else x) <$> st_membership_history s |>)
  | None, None => mret tt
  end.

Definition agency_json (agency : option Agency) : json :=
  JObj [("agencyId", json_opt (λ a, JNum (ag_id a)) agency);
        ("agencyName", JStr (match agency with Some a => ag_name a | None => [] end))]%string.
Definition assignment_details (previous destination : option Agency) (c : Consequences) : dict :=
  [("before", agency_json previous); ("after", agency_json destination);
   ("permanentHistory", JObj
      [("customerHistoryBlockedForDestination", JNum (co_customer_history_blocked c));
       ("destinationHistoryBlockedForCustomer", JNum (co_destination_history_blocked c));
       ("historyMergeIsPermanent", JBool (co_merge_is_permanent c))])]%string.

Definition usable (destination : option Agency) : bool :=
  match destination with
  | Some a => ag_active a && bool_decide (ag_deleted_at a = None)
  | None => true
  end.

(** The answer says whether anything was assigned ([ok]).  The preview taken
    afterwards still sees the Agency the session loaded before. *)
Definition assign_customer (env : Env) (customer : Customer) (destination : option Agency) (actor_id reason : text)
    (confirmed : bool) (precomputed_preview : option AssignmentPreview) : M Store (AssignmentPreview * bool) :=
  let reason := strip reason in
  raise_if (bool_decide (reason = []))
    (AgencyAssignmentConflict (u "An audit reason is required for an Agency assignment.")) ;;
  raise_if (negb confirmed)
    (AgencyAssignmentConflict (u "Explicit confirmation is required because history merges permanently.")) ;;
  raise_if (negb (usable destination))
    (AgencyAssignmentConflict (u "A Customer cannot join a deactivated Agency.")) ;;
  live ← gets (λ s, assignment_preview env s (agency_of s customer) customer destination);
  let preview := default live precomputed_preview in
  previous_agency ← gets (λ s, agency_of s customer);
  if bool_decide (cu_agency_id customer = ag_id <$> destination) then mret (preview, false) else
  merged_keys ← gets (λ s, hs_keys (source_history s customer) ∪ hs_keys (target_history s destination));
  match destination with Some _ => modify (rekey merged_keys) | None => mret tt end ;;
  close_membership env customer previous_agency ;;
  update_customer (cu_id customer) (λ c, c <| cu_agency_id := ag_id <$> destination |>) ;;
  match destination with
  | Some a => add_membership (cu_id customer) (ag_id a) (now env) None actor_id reason
  | None => mret tt
  end ;;
  record_activity env (u "customer_agency_assignment_changed") (u "customer") (str_of_Z (cu_id customer)) actor_id reason
    (assignment_details previous_agency destination (pv_consequences preview)) [] ;;
  result ← gets (λ s,
    let customer := default customer (st_customers s !! cu_id customer) in
    let fresh agency := (λ a, default a (st_agencies s !! ag_id a)) <$> agency in
    assignment_preview env s (fresh previous_agency) customer (fresh destination));
  mret (default result precomputed_preview, true).

Record AgencyAssignment : Type := mkAgencyAssignment {
  aa_agency_id : option Z; aa_reason : text; aa_confirmed : bool
}.

Definition live_row {A} (deleted_at : A → option datetime) (row : option A) : option A :=
  row ≫= λ a, if bool_decide (deleted_at a = None) then Some a else None.

(** The endpoint ([api.admin_customer_agency_assignment]). *)
Definition admin_customer_agency_assignment (env : Env) (customer_id : Z) (payload : AgencyAssignment) (user_id : uuid)
    : M Store (AssignmentPreview * bool) := transaction rollback (
  found ← gets (λ s, live_row cu_deleted_at (st_customers s !! customer_id));
  customer ← require found (HTTPException 404 (u "Customer was not found."));
  destination ← match aa_agency_id payload with
                | Some id => found ← gets (λ s, live_row ag_deleted_at (st_agencies s !! id));
                             a ← require found (HTTPException 404 (u "Agency was not found.")); mret (Some a)
                | None => mret None
                end;
  try_catch (assign_customer env customer destination (str_of_uuid user_id) (aa_reason payload) (aa_confirmed payload) None)
    (λ e, match e with AgencyAssignmentConflict detail => Some (raise (HTTPException 409 detail)) | _ => None end)).
End Assign.

(** ** The search finds exactly the linked subjects *)

Inductive Subject : Type := key_subject (k : text) | customer_subject (id : Z) | agency_subject (id : Z).

(** The rows that tie subjects together: a key to whoever holds it, and a
    Customer to its current Agency. *)
Inductive linked (s : Store) : Subject → Subject → Prop :=
| customer_holds id c : st_customers s !! id = Some c →
    linked s (customer_subject id) (key_subject (cu_permanent_history_key c))
| agency_holds id a : st_agencies s !! id = Some a →
    linked s (agency_subject id) (key_subject (ag_permanent_history_key a))
| member_of id c agency a : st_customers s !! id = Some c → cu_agency_id c = Some agency →
    st_agencies s !! agency = Some a → linked s (customer_subject id) (agency_subject agency).

Definition among (h : HistorySubjects) (n : Subject) : Prop :=
  match n with
  | key_subject k => k ∈ hs_keys h
  | customer_subject id => id ∈ hs_customer_ids h
  | agency_subject id => id ∈ hs_agency_ids h
  end.

Record keyed_rows (s : Store) : Prop := {
  keyed_customer id c : st_customers s !! id = Some c → cu_id c = id;
  keyed_agency id a : st_agencies s !! id = Some a → ag_id a = id
}.

Lemma within_true a b : within a b = true ↔ ∀ n, among a n → among b n.
Proof.
  unfold within. rewrite !andb_true_iff, !bool_decide_eq_true. split.
  - intros [[Hk Hc] Ha] [k|id|id]; cbn; set_solver.
  - intros H. split; [split|]; intros x Hx; [exact (H (key_subject x) Hx) | exact (H (customer_subject x) Hx) | exact (H (agency_subject x) Hx)].
Qed.

Lemma size_union_le {A} `{Countable A} (X Y : gset A) : (size (X ∪ Y) ≤ size X + size Y)%nat.
Proof. rewrite size_union_alt. pose proof (subseteq_size (Y ∖ X) Y ltac:(set_solver)). lia. Qed.

Lemma size_union_grows {A} `{Countable A} (X Y : gset A) :
  (size X ≤ size (X ∪ Y))%nat ∧ (¬ Y ⊆ X → (size X < size (X ∪ Y))%nat).
Proof. split; [apply subseteq_size; set_solver | intros HY; apply subset_size; set_solver]. Qed.

Lemma row_texts_size {A} (f : A → text) (m : gmap Z A) :
  (size (list_to_set (f <$> (map_to_list m).*2) : gset text) ≤ size m)%nat.
Proof.
  rewrite <- (length_map_to_list m), <- (length_fmap snd (map_to_list m)), <- (length_fmap f).
  generalize (f <$> (map_to_list m).*2). intros l. induction l as [|x l IH]; cbn; [by rewrite size_empty|].
  etrans; [apply size_union_le|]. rewrite size_singleton. lia.
Qed.

Section Search.
Context (s : Store) (Hkeyed : keyed_rows s).
Implicit Types (h : HistorySubjects) (R : gset text).

Lemma elem_of_rows {A} (m : gmap Z A) (p : A → bool) x :
  x ∈ List.filter p (map_to_list m).*2 ↔ (∃ k, m !! k = Some x) ∧ p x = true.
Proof.
  rewrite list_elem_of_In, filter_In, <- list_elem_of_In, list_elem_of_fmap. split.
  - intros [([k y] & -> & Hk%elem_of_map_to_list) Hp]. eauto.
  - intros [[k Hk] Hp]. split; [|done]. exists (k, x). by rewrite elem_of_map_to_list.
Qed.

(** The rows a round reaches. *)
Definition holds R c : Prop := st_customers s !! cu_id c = Some c ∧ cu_permanent_history_key c ∈ R.
Definition near R a : Prop := st_agencies s !! ag_id a = Some a ∧
  (ag_permanent_history_key a ∈ R ∨ ∃ c, holds R c ∧ cu_agency_id c = Some (ag_id a)).
Definition reached R c : Prop := st_customers s !! cu_id c = Some c ∧
  (cu_permanent_history_key c ∈ R ∨ ∃ a, near R a ∧ cu_agency_id c = Some (ag_id a)).

Lemma customer_rows p c : c ∈ customers_where s p ↔ st_customers s !! cu_id c = Some c ∧ p c = true.
Proof using Hkeyed.
  unfold customers_where. rewrite elem_of_rows. split; intros [Hk Hp]; (split; [|done]).
  - destruct Hk as [k Hk]. by rewrite (keyed_customer s Hkeyed _ _ Hk).
  - eauto.
Qed.
Lemma agency_rows p a : a ∈ agencies_where s p ↔ st_agencies s !! ag_id a = Some a ∧ p a = true.
Proof using Hkeyed.
  unfold agencies_where. rewrite elem_of_rows. split; intros [Hk Hp]; (split; [|done]).
  - destruct Hk as [k Hk]. by rewrite (keyed_agency s Hkeyed _ _ Hk).
  - eauto.
Qed.

Lemma elem_of_key_customers R c : c ∈ key_customers s R ↔ holds R c.
Proof using Hkeyed. unfold key_customers, holds. by rewrite customer_rows, bool_decide_eq_true. Qed.
Lemma elem_of_key_agencies R a :
  a ∈ key_agencies s R ↔ st_agencies s !! ag_id a = Some a ∧ ag_permanent_history_key a ∈ R.
Proof using Hkeyed. unfold key_agencies. by rewrite agency_rows, bool_decide_eq_true. Qed.
Lemma elem_of_current_agencies R a :
  a ∈ current_agencies s R ↔ st_agencies s !! ag_id a = Some a ∧ ∃ c, holds R c ∧ cu_agency_id c = Some (ag_id a).
Proof using Hkeyed.
  unfold current_agencies. rewrite agency_rows, bool_decide_eq_true, elem_of_list_to_set, list_elem_of_omap.
  setoid_rewrite elem_of_key_customers. done.
Qed.

Lemma next_agency R id : id ∈ next_agency_ids s R ↔ ∃ a, near R a ∧ id = ag_id a.
Proof using Hkeyed.
  unfold next_agency_ids, near. rewrite elem_of_union, !elem_of_list_to_set, !list_elem_of_fmap.
  setoid_rewrite elem_of_key_agencies. setoid_rewrite elem_of_current_agencies. naive_solver.
Qed.
Lemma elem_of_current_members R c : c ∈ current_members s R ↔
  st_customers s !! cu_id c = Some c ∧ ∃ a, near R a ∧ cu_agency_id c = Some (ag_id a).
Proof using Hkeyed.
  unfold current_members. rewrite customer_rows. destruct (cu_agency_id c) as [g|]; [|naive_solver].
  rewrite bool_decide_eq_true, next_agency. naive_solver.
Qed.

Lemma next_customer R id : id ∈ hs_customer_ids (next_subjects s R) ↔ ∃ c, reached R c ∧ id = cu_id c.
Proof using Hkeyed.
  unfold next_subjects, reached. cbn [hs_customer_ids]. rewrite elem_of_union, !elem_of_list_to_set, !list_elem_of_fmap.
  setoid_rewrite elem_of_key_customers. setoid_rewrite elem_of_current_members. unfold holds. naive_solver.
Qed.

Lemma next_key R k : k ∈ hs_keys (next_subjects s R) ↔
  (∃ c, reached R c ∧ k = cu_permanent_history_key c) ∨ (∃ a, near R a ∧ k = ag_permanent_history_key a).
Proof using Hkeyed.
  unfold next_subjects. cbn [hs_keys]. rewrite !elem_of_union, !elem_of_list_to_set, !list_elem_of_fmap.
  setoid_rewrite elem_of_key_customers. setoid_rewrite elem_of_key_agencies. setoid_rewrite elem_of_current_agencies.
  setoid_rewrite elem_of_current_members. unfold reached, near, holds. split.
  - intros [[[(c & -> & ?)|(a & -> & ?)]|(a & -> & ?)]|(c & -> & ?)]; [left; exists c|right; exists a|right; exists a|left; exists c];
      (split; [|done]); naive_solver.
  - intros [(c & [Hc [Hk|Hk]] & ->)|(a & [Ha [Hk|Hk]] & ->)].
    + left. left. left. by exists c.
    + right. by exists c.
    + left. left. right. by exists a.
    + left. right. by exists a.
Qed.

(** *** Only what is linked is found *)

Definition connected (keys : gset text) (n : Subject) : Prop :=
  ∃ k, k ∈ keys ∧ rtsc (linked s) (key_subject k) n.

Lemma connected_link keys a b : connected keys a → linked s a b ∨ linked s b a → connected keys b.
Proof. intros (k & Hk & Hs) Hab. exists k. split; [done|]. eapply rtc_r; [exact Hs|]. by destruct Hab; [left|right]. Qed.

Lemma next_connected keys h : (∀ n, among h n → connected keys n) → ∀ n, among (next_subjects s (hs_keys h)) n → connected keys n.
Proof using Hkeyed.
  intros Hsound.
  assert (∀ c, holds (hs_keys h) c → connected keys (customer_subject (cu_id c))) as Hholds.
  { intros c [Hc Hk]. eapply connected_link; [exact (Hsound (key_subject _) Hk)|]. right. by apply (customer_holds s _ c). }
  assert (∀ a, near (hs_keys h) a → connected keys (agency_subject (ag_id a))) as Hnear.
  { intros a [Ha [Hk|(c & Hh & E)]].
    - eapply connected_link; [exact (Hsound (key_subject _) Hk)|]. right. by apply (agency_holds s _ a).
    - eapply connected_link; [exact (Hholds c Hh)|]. left. destruct Hh as [Hc _]. by eapply member_of. }
  assert (∀ c, reached (hs_keys h) c → connected keys (customer_subject (cu_id c))) as Hreached.
  { intros c [Hc [Hk|(a & Hn & E)]]; [by apply Hholds|]. pose proof Hn as [Ha _].
    eapply connected_link; [exact (Hnear a Hn)|]. right. by eapply member_of. }
  intros [k|id|id]; cbn [among].
  - rewrite next_key. intros [(c & Hr & ->)|(a & Hn & ->)].
    + eapply connected_link; [exact (Hreached c Hr)|]. left. destruct Hr as [Hc _]. by apply (customer_holds s _ c).
    + eapply connected_link; [exact (Hnear a Hn)|]. left. destruct Hn as [Ha _]. by apply (agency_holds s _ a).
  - rewrite next_customer. intros (c & Hr & ->). by apply Hreached.
  - change (id ∈ next_agency_ids s (hs_keys h) → connected keys (agency_subject id)).
    rewrite next_agency. intros (a & Hn & ->). by apply Hnear.
Qed.

(** *** Everything linked is found *)

(** Whoever was found is found with its key. *)
Record closed_rows h : Prop := {
  closed_customer id : id ∈ hs_customer_ids h → ∃ c, st_customers s !! id = Some c ∧ cu_permanent_history_key c ∈ hs_keys h;
  closed_agency id : id ∈ hs_agency_ids h → ∃ a, st_agencies s !! id = Some a ∧ ag_permanent_history_key a ∈ hs_keys h
}.

Lemma join_closed h : closed_rows h → closed_rows (join_subjects h (next_subjects s (hs_keys h))).
Proof using Hkeyed.
  intros [Hc Ha].
  assert (∀ id, id ∈ hs_customer_ids (next_subjects s (hs_keys h)) → ∃ c, st_customers s !! id = Some c ∧
    cu_permanent_history_key c ∈ hs_keys (next_subjects s (hs_keys h))) as Hnc.
  { intros id (c & Hr & ->)%next_customer. exists c. split; [apply Hr|]. apply next_key. eauto. }
  assert (∀ id, id ∈ hs_agency_ids (next_subjects s (hs_keys h)) → ∃ a, st_agencies s !! id = Some a ∧
    ag_permanent_history_key a ∈ hs_keys (next_subjects s (hs_keys h))) as Hna.
  { intros id (a & Hn & ->)%next_agency. exists a. split; [apply Hn|]. apply next_key. eauto. }
  revert Hnc Hna. generalize (next_subjects s (hs_keys h)). intros next Hnc Hna.
  split; intros id; cbn; rewrite elem_of_union; setoid_rewrite elem_of_union; naive_solver.
Qed.

(** A search that found nothing new is closed under links. *)
Lemma settled_closed h : closed_rows h → within (next_subjects s (hs_keys h)) h = true →
  ∀ a b, among h a → linked s a b ∨ linked s b a → among h b.
Proof using Hkeyed.
  intros [Hc Ha] Hw a b Hin Hl. rewrite within_true in Hw.
  assert (∀ c, holds (hs_keys h) c → among h (customer_subject (cu_id c))) as Hholds.
  { intros c [Hrow Hk]. apply Hw. cbn [among]. apply next_customer. exists c. split; [|done]. split; [done|by left]. }
  assert (∀ a, near (hs_keys h) a → among h (agency_subject (ag_id a))) as Hnear.
  { intros a' Hn. apply Hw. cbn [among]. apply next_agency. eauto. }
  destruct Hl as [Hl|Hl]; destruct Hl as [id c Hrow|id g Hrow|id c agency g Hrow E Hg]; cbn [among] in *.
  - destruct (Hc id Hin) as (c' & E & Hk). assert (c' = c) as -> by congruence. exact Hk.
  - destruct (Ha id Hin) as (g' & E & Hk). assert (g' = g) as -> by congruence. exact Hk.
  - destruct (Hc id Hin) as (c' & E' & Hk). assert (c' = c) as -> by congruence. pose proof (keyed_agency s Hkeyed _ _ Hg) as <-.
    apply (Hnear g). split; [done|]. right. exists c. split; [|done]. split; [|done]. by rewrite (keyed_customer s Hkeyed _ _ Hrow).
  - pose proof (keyed_customer s Hkeyed _ _ Hrow) as <-. by apply (Hholds c).
  - pose proof (keyed_agency s Hkeyed _ _ Hrow) as <-. apply (Hnear g). split; [done|by left].
  - destruct (Ha agency Hin) as (g' & E' & Hk). assert (g' = g) as -> by congruence. pose proof (keyed_agency s Hkeyed _ _ Hg) as Eg.
    pose proof (keyed_customer s Hkeyed _ _ Hrow) as <-. apply (Hw (customer_subject (cu_id c))). cbn [among].
    apply next_customer. exists c. split; [|done]. split; [done|]. right. exists g. split; [|by rewrite Eg].
    split; [by rewrite Eg|by left].
Qed.

Lemma search_spec keys fuel h h' :
  search s fuel h = Some h' → closed_rows h → (∀ n, among h n → connected keys n) → keys ⊆ hs_keys h →
  ∀ n, among h' n ↔ connected keys n.
Proof using Hkeyed.
  revert h. induction fuel as [|fuel IH]; intros h; cbn [search]; [done|].
  destruct (within (next_subjects s (hs_keys h)) h) eqn:Ew.
  - intros [= <-] Hcl Hsound Hsub n. split; [apply Hsound|]. intros (k & Hk & Hs).
    assert (among h (key_subject k)) as Hin by (cbn; set_solver). clear Hk.
    induction Hs as [|a b c Hab _ IHs]; [done|]. apply IHs. by eapply settled_closed.
  - intros Hrun Hcl Hsound Hsub. eapply IH; [exact Hrun | by apply join_closed | | cbn; set_solver].
    assert (∀ n, among (join_subjects h (next_subjects s (hs_keys h))) n →
      among h n ∨ among (next_subjects s (hs_keys h)) n) as Hsplit by (intros [k|id|id]; cbn; set_solver).
    intros n [Hn|Hn]%Hsplit; [by apply Hsound | by eapply next_connected].
Qed.

(** *** The search ends *)

Definition measure h : nat := size (hs_keys h) + size (hs_customer_ids h) + size (hs_agency_ids h).
Definition row_keys : gset text :=
  list_to_set (cu_permanent_history_key <$> (map_to_list (st_customers s)).*2) ∪
  list_to_set (ag_permanent_history_key <$> (map_to_list (st_agencies s)).*2).

Record bounded (keys : gset text) h : Prop := {
  bounded_keys : hs_keys h ⊆ keys ∪ row_keys;
  bounded_customers : hs_customer_ids h ⊆ dom (st_customers s);
  bounded_agencies : hs_agency_ids h ⊆ dom (st_agencies s)
}.

Lemma row_keys_size : (size row_keys ≤ size (st_customers s) + size (st_agencies s))%nat.
Proof using s.
  clear Hkeyed. unfold row_keys. etrans; [apply size_union_le|]. apply Nat.add_le_mono; apply row_texts_size.
Qed.

Lemma join_bounded keys h : bounded keys h → bounded keys (join_subjects h (next_subjects s (hs_keys h))).
Proof using Hkeyed.
  intros [Hk Hc Ha].
  assert (∀ id c, st_customers s !! id = Some c → cu_permanent_history_key c ∈ row_keys) as Hck.
  { intros id c Hid. unfold row_keys. apply elem_of_union_l, elem_of_list_to_set, list_elem_of_fmap. exists c. split; [done|].
    apply list_elem_of_fmap. exists (id, c). by rewrite elem_of_map_to_list. }
  assert (∀ id a, st_agencies s !! id = Some a → ag_permanent_history_key a ∈ row_keys) as Hak.
  { intros id a Hid. unfold row_keys. apply elem_of_union_r, elem_of_list_to_set, list_elem_of_fmap. exists a. split; [done|].
    apply list_elem_of_fmap. exists (id, a). by rewrite elem_of_map_to_list. }
  split; cbn [join_subjects hs_keys hs_customer_ids hs_agency_ids]; apply union_least; try done; intros x.
  - intros [(c & [Hr _] & ->)|(a & [Hr _] & ->)]%next_key; apply elem_of_union_r; eauto.
  - intros (c & [Hr _] & ->)%next_customer. by apply elem_of_dom.
  - intros (a & [Hr _] & ->)%next_agency. by apply elem_of_dom.
Qed.

(** A round that is not the last finds something. *)
Lemma join_grows h next : within next h = false → (measure h < measure (join_subjects h next))%nat.
Proof using s.
  clear Hkeyed. unfold measure, within. cbn [join_subjects hs_keys hs_customer_ids hs_agency_ids]. intros Hw.
  pose proof (size_union_grows (hs_keys h) (hs_keys next)) as [Hk Hk'].
  pose proof (size_union_grows (hs_customer_ids h) (hs_customer_ids next)) as [Hc Hc'].
  pose proof (size_union_grows (hs_agency_ids h) (hs_agency_ids next)) as [Ha Ha'].
  apply andb_false_iff in Hw as [[Hw|Hw]%andb_false_iff|Hw]; apply bool_decide_eq_false in Hw.
  - specialize (Hk' Hw). lia.
  - specialize (Hc' Hw). lia.
  - specialize (Ha' Hw). lia.
Qed.

Lemma search_ends keys fuel h :
  bounded keys h →
  (size (keys ∪ row_keys) + size (st_customers s) + size (st_agencies s) < measure h + fuel)%nat →
  is_Some (search s fuel h).
Proof using Hkeyed.
  revert h. induction fuel as [|fuel IH]; intros h Hb Hm.
  - exfalso. destruct Hb as [Hk%subseteq_size Hc%subseteq_size Ha%subseteq_size]. rewrite size_dom in Hc. rewrite size_dom in Ha.
    unfold measure in Hm. lia.
  - cbn [search]. destruct (within _ h) eqn:Ew; [done|]. apply IH; [by apply join_bounded|].
    apply join_grows in Ew. lia.
Qed.
End Search.

Lemma history_subjects_spec s keys :
  keyed_rows s → ∃ h, history_subjects s keys = Some h ∧ ∀ n, among h n ↔ connected s keys n.
Proof.
  intros Hkeyed. assert (bounded s keys (mkSubjects keys ∅ ∅)) as Hb by (split; cbn; set_solver).
  destruct (search_ends s Hkeyed keys (history_fuel s) (mkSubjects keys ∅ ∅) Hb) as [h Hh].
  { unfold measure, history_fuel. cbn [hs_keys hs_customer_ids hs_agency_ids]. rewrite !size_empty.
    pose proof (size_union_le keys (row_keys s)). pose proof (row_keys_size s). lia. }
  exists h. split; [exact Hh|]. eapply search_spec; [done|exact Hh| | |done].
  - split; intros id; cbn; set_solver.
  - intros [k|id|id]; cbn; [|set_solver..]. intros Hk. exists k. by split.
Qed.

(** The keys a search starts from all belong to one subject. *)
Lemma connected_component s keys n0 n k0 :
  k0 ∈ keys → linked s n0 (key_subject k0) → (∀ k, k ∈ keys → rtsc (linked s) n0 (key_subject k)) →
  connected s keys n ↔ rtsc (linked s) n0 n.
Proof.
  intros Hk0 Hl Hall. split.
  - intros (k & Hk & Hs). etrans; [by apply Hall | exact Hs].
  - intros Hs. exists k0. split; [done|]. eapply rtc_l; [right; exact Hl | exact Hs].
Qed.

Lemma history_for_customer_spec s id c n :
  keyed_rows s → st_customers s !! id = Some c →
  among (history_for_customer s c) n ↔ rtsc (linked s) (customer_subject id) n.
Proof.
  intros Hkeyed Hc. unfold history_for_customer, history_with_agency.
  match goal with |- context [history_subjects s ?keys] => destruct (history_subjects_spec s keys Hkeyed) as (h & -> & Hh);
    cbn [default from_option]; rewrite Hh; apply (connected_component s keys _ _ (cu_permanent_history_key c)) end.
  - set_solver.
  - by apply customer_holds.
  - intros k [->%elem_of_singleton|Hk]%elem_of_union; [apply rtc_once; left; by apply customer_holds|].
    unfold agency_of in Hk. destruct (cu_agency_id c) as [g|] eqn:Eg; cbn in Hk; [|set_solver].
    destruct (st_agencies s !! g) as [a|] eqn:Ea; [|set_solver]. apply elem_of_singleton in Hk as ->.
    eapply rtc_l; [left; by eapply member_of|]. apply rtc_once. left. by apply agency_holds.
Qed.

Lemma history_for_agency_spec s id a n :
  keyed_rows s → st_agencies s !! id = Some a →
  among (history_for_agency s a) n ↔ rtsc (linked s) (agency_subject id) n.
Proof.
  intros Hkeyed Ha. unfold history_for_agency.
  match goal with |- context [history_subjects s ?keys] => destruct (history_subjects_spec s keys Hkeyed) as (h & -> & Hh);
    cbn [default from_option]; rewrite Hh; apply (connected_component s keys _ _ (ag_permanent_history_key a)) end.
  - set_solver.
  - by apply agency_holds.
  - intros k ->%elem_of_singleton. apply rtc_once. left. by apply agency_holds.
Qed.

(** C10: the search for a shared history ends, within a bound the tables give,
    and the history of a Customer or Agency is exactly what the rows link to
    it, through any chain of shared keys and current memberships: no key,
    Customer or Agency is missed and none is added. *)
Theorem history_is_the_component s :
  keyed_rows s →
  (∀ keys, is_Some (history_subjects s keys)) ∧
  (∀ id c n, st_customers s !! id = Some c →
     among (history_for_customer s c) n ↔ rtsc (linked s) (customer_subject id) n) ∧
  (∀ id a n, st_agencies s !! id = Some a →
     among (history_for_agency s a) n ↔ rtsc (linked s) (agency_subject id) n).
Proof.
  intros Hkeyed. split_and!.
  - intros keys. destruct (history_subjects_spec s keys Hkeyed) as (h & -> & _). by eexists.
  - intros. by apply history_for_customer_spec.
  - intros. by apply history_for_agency_spec.
Qed.

(** ** What an assignment does *)

Section Assignment.
Context `{CaseMapping}.
Implicit Types (customer : Customer) (destination : option Agency).

(** The keys an assignment merges. *)
Definition merged_keys (s : Store) customer destination : gset text :=
  hs_keys (source_history s customer) ∪ hs_keys (target_history s destination).

Definition rekeyed (s : Store) customer destination : Store :=
  match destination with Some _ => rekey (merged_keys s customer destination) s | None => s end.

(** The tables an assignment leaves alone. *)
Definition unassigned_tables (s : Store) :=
  (st_events s, st_leads s, st_requests s, st_ledger s, st_holds s, st_artifacts s, st_eligibility_holds s).

Record assigned (env : Env) (s s' : Store) customer destination (actor_id reason : text) : Prop := {
  as_customers : st_customers s' =
    alter (λ c, c <| cu_agency_id := ag_id <$> destination |>) (cu_id customer) (st_customers (rekeyed s customer destination));
  as_agencies : st_agencies s' = st_agencies (rekeyed s customer destination);
  as_others : unassigned_tables s' = unassigned_tables s;
  as_memberships : ∃ closed, close_membership env customer (agency_of s customer) (rekeyed s customer destination) = (Ok tt, closed) ∧
    st_membership_history s' = st_membership_history closed ++
      match destination with
      | Some a => [mkMembershipPeriod (st_next_membership closed) (cu_id customer) (ag_id a) (now env) None actor_id (strip reason)]
      | None => []
      end ∧
    st_next_membership s' = st_next_membership closed + match destination with Some _ => 1 | None => 0 end
}.

Lemma close_membership_run env customer previous s : ∃ s',
  close_membership env customer previous s = (Ok tt, s') ∧
  st_customers s' = st_customers s ∧ st_agencies s' = st_agencies s ∧ unassigned_tables s' = unassigned_tables s.
Proof.
  unfold close_membership. rewrite bind_gets. destruct (open_membership s (cu_id customer)) as [m|].
  - eexists. split; [reflexivity|]. by split_and!.
  - destruct previous as [a|]; [|by eexists]. eexists. split; [reflexivity|]. by split_and!.
Qed.

Lemma assign_Ok_inv env customer destination actor_id reason confirmed precomputed s preview ok s' :
  assign_customer env customer destination actor_id reason confirmed precomputed s = (Ok (preview, ok), s') →
  confirmed = true ∧ strip reason ≠ [] ∧ usable destination = true ∧
  if ok then cu_agency_id customer ≠ ag_id <$> destination ∧ assigned env s s' customer destination actor_id reason
  else cu_agency_id customer = ag_id <$> destination ∧ s' = s.
Proof.
  intros Hrun. unfold assign_customer in Hrun. cbv zeta in Hrun.
  apply bind_Ok_inv in Hrun as ([] & s0 & Hr & Hrun). apply raise_if_Ok_inv in Hr as (Hr%bool_decide_eq_false & -> & _).
  apply bind_Ok_inv in Hrun as ([] & s0 & Hc & Hrun). apply raise_if_Ok_inv in Hc as (Hc%negb_false_iff & -> & _).
  apply bind_Ok_inv in Hrun as ([] & s0 & Hu & Hrun). apply raise_if_Ok_inv in Hu as (Hu%negb_false_iff & -> & _).
  do 3 (split; [done|]). rewrite !bind_gets in Hrun.
  destruct (decide (cu_agency_id customer = ag_id <$> destination)) as [E|E].
  { rewrite (bool_decide_eq_true_2 _ E) in Hrun. by injection Hrun as <- <- <-. }
  rewrite (bool_decide_eq_false_2 _ E) in Hrun. rewrite bind_gets in Hrun. fold (merged_keys s customer destination) in Hrun.
  assert (∀ B (k : unit → M Store B),
    ((match destination with Some _ => modify (rekey (merged_keys s customer destination)) | None => mret tt end) ≫= k) s =
    k tt (rekeyed s customer destination)) as Hre by (intros; unfold rekeyed; by destruct destination).
  rewrite Hre in Hrun. clear Hre.
  destruct (close_membership_run env customer (agency_of s customer) (rekeyed s customer destination))
    as (closed & Ec & Hcu & Hag & Hot).
  rewrite (bind_Ok _ _ _ _ _ Ec) in Hrun. unfold update_customer in Hrun. rewrite bind_modify in Hrun.
  apply bind_Ok_inv in Hrun as ([] & s1 & Hadd & Hrun). apply bind_Ok_inv in Hrun as (entry & s2 & Hact & Hrun).
  apply record_activity_inv in Hact as (_ & _ & _ & _ & _ & _ & _ & ->). rewrite bind_gets in Hrun. injection Hrun as <- <- <-.
  split; [done|]. assert (unassigned_tables (rekeyed s customer destination) = unassigned_tables s) as Hre
    by (unfold rekeyed; by destruct destination).
  clear Hr Hc Hu E. destruct destination as [a|]; cbn in Hadd.
  - unfold add_membership in Hadd. rewrite bind_gets in Hadd. injection Hadd as <-.
    split; [by rewrite <- Hcu | exact Hag | by rewrite <- Hre, <- Hot |]. exists closed. by split_and!.
  - injection Hadd as <-. split; [by rewrite <- Hcu | exact Hag | by rewrite <- Hre, <- Hot |].
    exists closed. rewrite app_nil_r, Z.add_0_r. by split_and!.
Qed.

(** *** Keys *)

(** The permanent key of a Customer or an Agency. *)
Definition holder_key (s : Store) (n : Subject) : option text :=
  match n with
  | key_subject _ => None
  | customer_subject id => cu_permanent_history_key <$> st_customers s !! id
  | agency_subject id => ag_permanent_history_key <$> st_agencies s !! id
  end.

Definition new_key (keys : gset text) (k : text) : text := if bool_decide (k ∈ keys) then min_key keys else k.

Lemma min_key_in keys k : k ∈ keys → min_key keys ∈ keys.
Proof.
  intros Hk. unfold min_key. pose proof (merge_sort_Permutation text_le (elements keys)) as Hp.
  destruct (merge_sort text_le (elements keys)) as [|x l] eqn:E; cbn.
  - apply elem_of_elements in Hk. rewrite <- Hp in Hk. by apply elem_of_nil in Hk.
  - apply elem_of_elements. rewrite <- Hp. apply elem_of_cons. by left.
Qed.

Lemma rekey_key keys s n : holder_key (rekey keys s) n = new_key keys <$> holder_key s n.
Proof.
  unfold holder_key, rekey. destruct n as [k|id|id]; [done| |]; rsimpl; rewrite lookup_fmap.
  - destruct (st_customers s !! id) as [c|]; [|done]. cbn. unfold new_key. by destruct (bool_decide _).
  - destruct (st_agencies s !! id) as [a|]; [|done]. cbn. unfold new_key. by destruct (bool_decide _).
Qed.

Lemma assigned_key env s s' customer destination actor_id reason n :
  assigned env s s' customer destination actor_id reason → holder_key s' n = holder_key (rekeyed s customer destination) n.
Proof.
  intros [Hc Ha _ _]. destruct n as [k|id|id]; cbn; [done| |by rewrite Ha]. rewrite Hc.
  destruct (decide (id = cu_id customer)) as [->|Hne].
  - rewrite lookup_alter_eq. by destruct (st_customers _ !! _).
  - by rewrite lookup_alter_ne.
Qed.

Lemma holder_linked s n k : holder_key s n = Some k → linked s n (key_subject k).
Proof.
  destruct n as [k'|id|id]; cbn; [done| |]; intros (x & Hx & ->)%fmap_Some; [by apply customer_holds | by apply agency_holds].
Qed.

(** The subjects whose histories an assignment joins. *)
Definition joined (s : Store) (customer_id agency_id : Z) (n : Subject) : Prop :=
  rtsc (linked s) (customer_subject customer_id) n ∨ rtsc (linked s) (agency_subject agency_id) n.

Lemma joined_key s id aid n k : holder_key s n = Some k → joined s id aid n ↔ joined s id aid (key_subject k).
Proof.
  intros Hk%holder_linked. unfold joined. split; (intros [Hj|Hj]; [left|right]); (eapply rtc_r; [exact Hj|]); first [by left | by right].
Qed.

Lemma merged_iff s id customer aid a k :
  keyed_rows s → st_customers s !! id = Some customer → st_agencies s !! aid = Some a →
  k ∈ merged_keys s customer (Some a) ↔ joined s id aid (key_subject k).
Proof.
  intros Hkeyed Hc Ha. unfold merged_keys, source_history, target_history. rewrite elem_of_union.
  pose proof (history_for_customer_spec s id customer (key_subject k) Hkeyed Hc) as Hs.
  pose proof (history_for_agency_spec s aid a (key_subject k) Hkeyed Ha) as Ht. cbn in Hs, Ht. unfold joined. by rewrite Hs, Ht.
Qed.

Lemma new_key_eq keys kx ky : new_key keys kx = new_key keys ky ↔ kx = ky ∨ (kx ∈ keys ∧ ky ∈ keys).
Proof.
  unfold new_key. destruct (decide (kx ∈ keys)) as [Hx|Hx], (decide (ky ∈ keys)) as [Hy|Hy];
    rewrite ?(bool_decide_eq_true_2 _ Hx), ?(bool_decide_eq_false_2 _ Hx), ?(bool_decide_eq_true_2 _ Hy),
      ?(bool_decide_eq_false_2 _ Hy); split; try tauto.
  - intros <-. exfalso. by apply Hy, (min_key_in keys kx).
  - intros [->|[_ ?]]; done.
  - intros ->. exfalso. by apply Hx, (min_key_in keys ky).
  - intros [->|[? _]]; done.
Qed.

(** *** Assignments through the endpoint *)

(** What a successful call of the endpoint did. *)
Lemma endpoint_Ok_inv env customer_id payload user_id s preview ok s' :
  admin_customer_agency_assignment env customer_id payload user_id s = (Ok (preview, ok), s') →
  ∃ customer destination,
    st_customers s !! customer_id = Some customer ∧ cu_deleted_at customer = None ∧
    (destination = None ∧ aa_agency_id payload = None ∨
     ∃ a id, destination = Some a ∧ aa_agency_id payload = Some id ∧ st_agencies s !! id = Some a ∧
       ag_active a = true ∧ ag_deleted_at a = None) ∧
    aa_confirmed payload = true ∧ strip (aa_reason payload) ≠ [] ∧
    if ok then cu_agency_id customer ≠ ag_id <$> destination ∧
      assigned env s s' customer destination (str_of_uuid user_id) (aa_reason payload)
    else s' = s.
Proof.
  intros Hrun. unfold admin_customer_agency_assignment in Hrun. apply transaction_Ok_inv in Hrun.
  rewrite bind_gets in Hrun. apply bind_Ok_inv in Hrun as (customer & s0 & Hc & Hrun).
  apply require_Ok_inv in Hc as [Hc ->]. unfold live_row in Hc. apply bind_Some in Hc as (c & Hcu & Hlive).
  destruct (decide (cu_deleted_at c = None)) as [Hdel|Hdel];
    [rewrite (bool_decide_eq_true_2 _ Hdel) in Hlive | by rewrite (bool_decide_eq_false_2 _ Hdel) in Hlive].
  injection Hlive as ->. apply bind_Ok_inv in Hrun as (destination & s1 & Hd & Hrun).
  assert (s1 = s ∧ (destination = None ∧ aa_agency_id payload = None ∨
     ∃ a id, destination = Some a ∧ aa_agency_id payload = Some id ∧ st_agencies s !! id = Some a ∧ ag_deleted_at a = None))
    as [-> Hdest].
  { destruct (aa_agency_id payload) as [id|]; [|injection Hd as <- <-; by auto].
    rewrite bind_gets in Hd. apply bind_Ok_inv in Hd as (a & s2 & Ha & Hd). apply require_Ok_inv in Ha as [Ha ->].
    injection Hd as <- <-. split; [done|]. right. unfold live_row in Ha. apply bind_Some in Ha as (a' & Ha' & Hlive).
    destruct (decide (ag_deleted_at a' = None)) as [Hdl|Hdl];
      [rewrite (bool_decide_eq_true_2 _ Hdl) in Hlive | by rewrite (bool_decide_eq_false_2 _ Hdl) in Hlive].
    injection Hlive as ->. by exists a, id. }
  unfold try_catch in Hrun. destruct (assign_customer _ _ _ _ _ _ _ _) as [[r|e] s2] eqn:Ea.
  2:{ destruct e; discriminate Hrun. }
  injection Hrun as -> ->. apply assign_Ok_inv in Ea as (Hconf & Hr & Hu & Hok).
  exists customer, destination. split_and!; try done.
  - destruct Hdest as [?|(a & id & -> & Hid & Ha & Hdl)]; [by left|right]. exists a, id. split_and!; try done.
    cbn in Hu. by apply andb_true_iff in Hu as [-> _].
  - destruct ok; [done|]. by destruct Hok.
Qed.

Lemma endpoint_Err_rows env customer_id payload user_id s e s' :
  admin_customer_agency_assignment env customer_id payload user_id s = (Err e, s') → ∃ s1, s' = rollback s s1.
Proof. intros (s1 & _ & ->)%transaction_Err_inv. by exists s1. Qed.

Definition assignment_step (s s' : Store) : Prop :=
  ∃ env customer_id payload user_id o, admin_customer_agency_assignment env customer_id payload user_id s = (o, s').

(** Whoever shares a key goes on sharing one. *)
Definition shares (s : Store) (x y : Subject) : Prop := ∃ k, holder_key s x = Some k ∧ holder_key s y = Some k.

Lemma rekeyed_key s customer destination n :
  holder_key (rekeyed s customer destination) n =
  match destination with
  | Some _ => new_key (merged_keys s customer destination) <$> holder_key s n
  | None => holder_key s n
  end.
Proof. unfold rekeyed. destruct destination; [apply rekey_key | done]. Qed.

Lemma step_shares s s' x y : assignment_step s s' → shares s x y → shares s' x y.
Proof.
  intros (env & cid & payload & user & [[preview ok]|e] & E).
  - apply endpoint_Ok_inv in E as (customer & destination & _ & _ & _ & _ & _ & Hok). destruct ok; [|by subst].
    destruct Hok as [_ Has]. intros (k & Hx & Hy). unfold shares.
    rewrite !(assigned_key _ _ _ _ _ _ _ _ Has), !rekeyed_key, Hx, Hy. destruct destination; eexists; by split.
  - apply endpoint_Err_rows in E as (s1 & ->). done.
Qed.

Lemma step_keyed s s' : assignment_step s s' → keyed_rows s → keyed_rows s'.
Proof.
  intros (env & cid & payload & user & [[preview ok]|e] & E) [Hc Ha].
  - apply endpoint_Ok_inv in E as (customer & destination & _ & _ & _ & _ & _ & Hok). destruct ok; [|by subst].
    destruct Hok as [_ [Hcu Hag _ _]]. assert (keyed_rows (rekeyed s customer destination)) as [Hrc Hra].
    { unfold rekeyed. destruct destination; [|done]. split; intros i r; unfold rekey; rsimpl; rewrite lookup_fmap;
        intros (r0 & Hr0 & ->)%fmap_Some; [apply Hc in Hr0 | apply Ha in Hr0]; by destruct (bool_decide _). }
    split; intros i r.
    + rewrite Hcu. destruct (decide (i = cu_id customer)) as [->|Hne].
      * rewrite lookup_alter_eq. intros (r0 & Hr0 & ->)%fmap_Some. by apply Hrc in Hr0.
      * rewrite lookup_alter_ne by done. apply Hrc.
    + rewrite Hag. apply Hra.
  - apply endpoint_Err_rows in E as (s1 & ->). by split.
Qed.

(** C11: an assignment to an Agency merges two histories and does nothing else to history.
    Afterwards two Customers or Agencies share a permanent key exactly when
    they did before, or both were linked to the Customer or to its new Agency;
    the Customer, alone, has another Agency, and deliveries, Leads, requests
    and money are as they were. *)
Theorem assignment_merges_histories env customer_id aid reason confirmed user_id s preview s' :
  keyed_rows s →
  admin_customer_agency_assignment env customer_id (mkAgencyAssignment (Some aid) reason confirmed) user_id s =
    (Ok (preview, true), s') →
  (∀ x y kx ky, holder_key s x = Some kx → holder_key s y = Some ky →
     holder_key s' x = holder_key s' y ↔ kx = ky ∨ (joined s customer_id aid x ∧ joined s customer_id aid y)) ∧
  (∀ id, cu_agency_id <$> st_customers s' !! id =
     if decide (id = customer_id) then Some (Some aid) else cu_agency_id <$> st_customers s !! id) ∧
  unassigned_tables s' = unassigned_tables s.
Proof.
  intros Hkeyed Hrun. apply endpoint_Ok_inv in Hrun as (customer & destination & Hc & _ & Hd & _ & _ & _ & Has).
  cbn in Hd. destruct Hd as [[_ ?]|(a & id & -> & [= <-] & Ha & _)]; [done|].
  pose proof (keyed_agency s Hkeyed _ _ Ha) as Haid. pose proof (keyed_customer s Hkeyed _ _ Hc) as Hcid. split_and!.
  - intros x y kx ky Hx Hy.
    rewrite !(assigned_key _ _ _ _ _ _ _ _ Has), !rekeyed_key, Hx, Hy. cbn [fmap option_fmap option_map].
    rewrite (inj_iff Some), new_key_eq, !(merged_iff s customer_id customer aid a) by done.
    by rewrite <- !(joined_key s customer_id aid) by done.
  - intros id. rewrite (as_customers _ _ _ _ _ _ _ Has), Hcid. destruct (decide (id = customer_id)) as [->|Hne].
    + rewrite lookup_alter_eq. unfold rekeyed, rekey. rsimpl. rewrite lookup_fmap, Hc. cbn. by rewrite Haid.
    + rewrite lookup_alter_ne by done. unfold rekeyed, rekey. rsimpl. rewrite lookup_fmap.
      destruct (st_customers s !! id) as [c|]; [|done]. cbn. by destruct (bool_decide _).
  - apply (as_others _ _ _ _ _ _ _ Has).
Qed.

(** *** No repeats across a merged history *)

Definition delivered_to (e : DistributionEvent) (n : Subject) : Prop :=
  match n with
  | key_subject _ => False
  | customer_subject id => ev_agent_id e = Some id
  | agency_subject id => ev_agency_id e = Some id
  end.

(** A delivery to whoever shares a Customer's key counts as one to the Customer. *)
Lemma shared_recipient s id c n e :
  keyed_rows s → st_customers s !! id = Some c → shares s (customer_subject id) n → delivered_to e n → same_recipient s c e.
Proof.
  intros Hkeyed Hc (k & Hk & Hn) Hd. cbn in Hk. rewrite Hc in Hk. injection Hk as Hk. unfold same_recipient.
  destruct n as [?|i|i]; [done| |]; cbn in Hn, Hd; apply fmap_Some in Hn as (r & Hr & Hrk).
  - right. right. left. exists i, r. by rewrite (keyed_customer s Hkeyed _ _ Hr), Hk.
  - right. right. right. exists i, r. by rewrite (keyed_agency s Hkeyed _ _ Hr), Hk.
Qed.

Lemma steps_share s s' x y : rtc assignment_step s s' → shares s x y → shares s' x y.
Proof. induction 1 as [|a b c Hab _ IH]; [done|]. intros Hs. by apply IH, (step_shares a). Qed.
Lemma steps_keyed s s' : rtc assignment_step s s' → keyed_rows s → keyed_rows s'.
Proof. induction 1 as [|a b c Hab _ IH]; [done|]. intros Hs. by eapply IH, step_keyed. Qed.

(** Linked rows, once joined, hold one key. *)
Lemma joined_share env s s' customer a customer_id aid actor_id reason x y kx ky :
  keyed_rows s → st_customers s !! customer_id = Some customer → st_agencies s !! aid = Some a →
  assigned env s s' customer (Some a) actor_id reason →
  holder_key s x = Some kx → holder_key s y = Some ky → joined s customer_id aid x → joined s customer_id aid y → shares s' x y.
Proof.
  intros Hkeyed Hc Ha Has Hx Hy Hjx Hjy. apply (joined_key _ _ _ _ _ Hx) in Hjx. apply (joined_key _ _ _ _ _ Hy) in Hjy.
  apply (merged_iff s customer_id customer aid a _ Hkeyed Hc Ha) in Hjx, Hjy.
  exists (min_key (merged_keys s customer (Some a))).
  rewrite !(assigned_key _ _ _ _ _ _ _ _ Has), !rekeyed_key, Hx, Hy. cbn. unfold new_key.
  by rewrite (bool_decide_eq_true_2 _ Hjx), (bool_decide_eq_true_2 _ Hjy).
Qed.

(** C9: once assigned, never repeated.  After an assignment to an Agency, and any
    further assignments of anyone, no Lead is on offer to a Customer whose
    history was joined that was ever delivered to any Customer or Agency whose
    history was joined, as long as the recipient of that delivery is active:
    moving on does not bring a Lead back. *)
Theorem assignment_blocks_inventory env customer_id aid reason confirmed user_id s preview s1 s2 id n c k niche_filter request instant lead e :
  keyed_rows s →
  admin_customer_agency_assignment env customer_id (mkAgencyAssignment (Some aid) reason confirmed) user_id s =
    (Ok (preview, true), s1) →
  rtc assignment_step s1 s2 →
  joined s customer_id aid (customer_subject id) → joined s customer_id aid n →
  is_Some (st_customers s !! id) → holder_key s n = Some k →
  st_customers s2 !! id = Some c → lead ∈ eligible_with niche_filter s2 request c instant →
  e ∈ st_events s2 → ev_lead_id e = ld_id lead → delivered_to e n → ¬ recipient_active s2 e.
Proof.
  intros Hkeyed Hrun Hsteps Hj Hjn [c0 Hc0] Hn Hc [_ Hel]%elem_of_eligible_with He Hid Hd Hact.
  assert (assignment_step s s1) as Hstep by (by eexists _, _, _, _, _).
  apply endpoint_Ok_inv in Hrun as (customer & destination & Hcu & _ & Hdest & _ & _ & _ & Has).
  cbn in Hdest. destruct Hdest as [[_ ?]|(a & i & -> & [= <-] & Ha & _)]; [done|].
  assert (shares s1 (customer_subject id) n) as Hsh.
  { eapply joined_share; [exact Hkeyed|exact Hcu|exact Ha|exact Has| |exact Hn|exact Hj|exact Hjn]. cbn. by rewrite Hc0. }
  apply (steps_share _ _ _ _ Hsteps) in Hsh. apply (eligible_unsent _ _ _ _ _ _ _ Hel He Hid Hact).
  eapply shared_recipient; [|exact Hc|exact Hsh|exact Hd]. eapply steps_keyed; [exact Hsteps|]. by eapply step_keyed.
Qed.

(** *** Periods of membership *)

Record periods_ok (s : Store) : Prop := {
  po_ids : NoDup (mh_id <$> st_membership_history s);
  po_next m : m ∈ st_membership_history s → mh_id m < st_next_membership s;
  po_current m : m ∈ st_membership_history s → mh_ended_at m = None →
    ∃ c, st_customers s !! mh_customer_id m = Some c ∧ cu_agency_id c = Some (mh_agency_id m);
  po_unique m m' : m ∈ st_membership_history s → m' ∈ st_membership_history s → mh_ended_at m = None → mh_ended_at m' = None →
    mh_customer_id m = mh_customer_id m' → m = m'
}.

Lemma open_membership_Some s id m :
  open_membership s id = Some m → m ∈ st_membership_history s ∧ mh_customer_id m = id ∧ mh_ended_at m = None.
Proof.
  unfold open_membership. intros [Hin Hp]%find_some. apply andb_true_iff in Hp as [Hc%bool_decide_eq_true Ho%bool_decide_eq_true].
  by rewrite list_elem_of_In.
Qed.
Lemma open_membership_None s id m :
  open_membership s id = None → m ∈ st_membership_history s → mh_ended_at m = None → mh_customer_id m ≠ id.
Proof.
  unfold open_membership. intros Hf Hin%list_elem_of_In Ho Hc. pose proof (find_none _ _ Hf m Hin) as Hn. cbn in Hn.
  by rewrite !bool_decide_eq_true_2 in Hn.
Qed.

(** Closing the Customer's period leaves the open periods of the others. *)
Record period_closed (customer_id : Z) (s s' : Store) : Prop := {
  pc_ids : NoDup (mh_id <$> st_membership_history s');
  pc_next m : m ∈ st_membership_history s' → mh_id m < st_next_membership s';
  pc_open m : m ∈ st_membership_history s' → mh_ended_at m = None →
    m ∈ st_membership_history s ∧ mh_customer_id m ≠ customer_id
}.

Lemma append_period (s : Store) m l :
  NoDup (mh_id <$> l) → (∀ x, x ∈ l → mh_id x < st_next_membership s) → mh_id m = st_next_membership s →
  NoDup (mh_id <$> l ++ [m]) ∧ ∀ x, x ∈ l ++ [m] → mh_id x < st_next_membership s + 1.
Proof.
  intros Hnd Hlt Hm. split.
  - rewrite fmap_app, NoDup_app. split_and!; [done| |apply NoDup_singleton].
    intros i (x & -> & Hx%Hlt)%list_elem_of_fmap. cbn. rewrite list_elem_of_singleton. lia.
  - intros x [Hx%Hlt| ->%list_elem_of_singleton]%elem_of_app; lia.
Qed.

Lemma close_membership_periods env customer previous s s' :
  periods_ok s → close_membership env customer previous s = (Ok tt, s') → period_closed (cu_id customer) s s'.
Proof.
  intros [Hids Hnext Hcur Huniq] Hrun. unfold close_membership in Hrun. rewrite bind_gets in Hrun.
  destruct (open_membership s (cu_id customer)) as [m|] eqn:Eo.
  - apply open_membership_Some in Eo as (Hm & Hc & Ho). injection Hrun as <-.
    assert (∀ x, mh_id (if bool_decide (mh_id x = mh_id m) then x <| mh_ended_at := Some (now env) |> else x) = mh_id x) as Hid
      by (intros x; by destruct (bool_decide _)).
    split; rsimpl.
    + rewrite <- list_fmap_compose. erewrite list_fmap_ext; [exact Hids|]. intros i x _. apply Hid.
    + intros x (y & -> & Hy)%list_elem_of_fmap. rewrite Hid. by apply Hnext.
    + intros x (y & -> & Hy)%list_elem_of_fmap. destruct (decide (mh_id y = mh_id m)) as [E|E];
        [by rewrite (bool_decide_eq_true_2 _ E) | rewrite (bool_decide_eq_false_2 _ E)].
      intros Hoy. split; [done|]. intros Hcy. apply E. f_equal. apply Huniq; try done. by rewrite Hcy.
  - pose proof (λ m Hin Ho, open_membership_None s (cu_id customer) m Eo Hin Ho) as Hnone.
    destruct previous as [a|]; [|injection Hrun as <-; by split; auto].
    unfold add_membership in Hrun. rewrite bind_gets in Hrun. injection Hrun as <-.
    set (m := mkMembershipPeriod _ _ _ _ _ _ _). destruct (append_period s m (st_membership_history s)) as [Hnd Hlt]; try done.
    split; rsimpl; [exact Hnd|exact Hlt|]. intros x [Hx| ->%list_elem_of_singleton]%elem_of_app Ho; [by auto | done].
Qed.

Lemma next_membership_grows env customer destination actor_id reason confirmed precomputed n :
  preserves (λ s, n ≤ st_next_membership s) (assign_customer env customer destination actor_id reason confirmed precomputed).
Proof.
  unfold assign_customer, close_membership, add_membership, update_customer.
  assert (∀ env a b c d e f g, preserves (λ s, n ≤ st_next_membership s) (record_activity env a b c d e f g)) as Hact.
  { intros. intros s Hs. pose proof (record_activity_frame st_next_membership env0 a b c d e f g (st_next_membership s)
      ltac:(reflexivity) ltac:(reflexivity) s eq_refl) as E. cbv beta in E. by rewrite E. }
  repeat first [apply Hact | apply pres_raise_if | apply pres_gets | apply pres_ret | apply pres_if
    | apply pres_modify; intros s Hs; unfold rekey; rsimpl; lia
    | match goal with |- preserves _ (match ?x with _ => _ end) => destruct x end
    | apply pres_bind; intros].
Qed.

(** C12: the periods of membership tell the truth after every assignment,
    successful or refused: numbers are unique and drawn from the sequence, a
    Customer has at most one open period, and it names the Agency the
    Customer is in. *)
Theorem periods_tell_membership s s' :
  keyed_rows s → periods_ok s → assignment_step s s' → periods_ok s'.
Proof.
  intros Hkeyed Hok (env & cid & payload & user & [[preview ok]|e] & E).
  2:{ unfold admin_customer_agency_assignment in E. destruct Hok as [Hids Hnext Hcur Huniq].
      assert (st_next_membership s ≤ st_next_membership s') as Hle.
      { match type of E with transaction _ ?m _ = _ =>
          assert (preserves (λ s0, st_next_membership s ≤ st_next_membership s0) m) as Hp end.
        { repeat first [apply pres_gets | apply pres_require | apply pres_ret | apply next_membership_grows
            | apply pres_try_catch; [|intros x k; destruct x; try done; intros [= <-]; apply pres_raise]
            | match goal with |- preserves _ (match ?x with _ => _ end) => destruct x end
            | apply pres_bind; intros]. }
        apply transaction_Err_inv in E as (s1 & E & ->). specialize (Hp s (Z.le_refl _)). rewrite E in Hp. exact Hp. }
      apply transaction_Err_inv in E as (s1 & _ & ->). split; try done. intros m Hm. rsimpl.
      specialize (Hnext m Hm). cbn in Hle. lia. }
  apply endpoint_Ok_inv in E as (customer & destination & Hc & _ & Hd & _ & _ & Hres). destruct ok; [|by subst].
  destruct Hres as [Hne [Hcu Hag _ (closed & Hclose & Hh & Hn)]]. pose proof (keyed_customer s Hkeyed _ _ Hc) as <-.
  assert (periods_ok (rekeyed s customer destination)) as Hrk.
  { destruct Hok as [Hids Hnext Hcur Huniq]. unfold rekeyed. destruct destination; [|by split]. split; try done.
    intros m Hm Ho. destruct (Hcur m Hm Ho) as (c & Hc1 & Hc2). unfold rekey. rsimpl. rewrite lookup_fmap, Hc1. cbn.
    eexists. split; [reflexivity|]. by destruct (bool_decide _). }
  apply close_membership_periods in Hclose as [Hids Hnext Hopen]; [|done].
  assert (∀ m, m ∈ st_membership_history closed → mh_ended_at m = None →
    ∃ c, st_customers s' !! mh_customer_id m = Some c ∧ cu_agency_id c = Some (mh_agency_id m)) as Hkept.
  { intros m Hm Ho. destruct (Hopen m Hm Ho) as [Hm' Hne']. destruct (po_current _ Hrk m Hm' Ho) as (c & Hc1 & Hc2).
    exists c. by rewrite Hcu, lookup_alter_ne. }
  assert (∀ m m', m ∈ st_membership_history closed → m' ∈ st_membership_history closed → mh_ended_at m = None →
    mh_ended_at m' = None → mh_customer_id m = mh_customer_id m' → m = m') as Huniq.
  { intros m m' Hm Hm' Ho Ho'. apply (po_unique _ Hrk); [by apply Hopen|by apply Hopen|done|done]. }
  destruct destination as [a|].
  2:{ rewrite app_nil_r in Hh. rewrite Z.add_0_r in Hn. split; rewrite ?Hh, ?Hn; done. }
  set (fresh := mkMembershipPeriod _ _ _ _ _ _ _) in Hh.
  destruct (append_period closed fresh (st_membership_history closed)) as [Hnd Hlt]; try done.
  assert (∀ m, m ∈ st_membership_history closed → mh_ended_at m = None → mh_customer_id m ≠ mh_customer_id fresh) as Hother
    by (intros m Hm Ho; by apply Hopen).
  split; rewrite ?Hh, ?Hn; [done|done| |].
  - intros m [Hm| ->%list_elem_of_singleton]%elem_of_app Ho; [by apply Hkept|]. cbn [fresh mh_customer_id mh_agency_id].
    rewrite Hcu, lookup_alter_eq. unfold rekeyed, rekey. rsimpl. rewrite lookup_fmap, Hc. cbn. eexists. by split.
  - intros m m' [Hm| ->%list_elem_of_singleton]%elem_of_app [Hm'| ->%list_elem_of_singleton]%elem_of_app Ho Ho' Hcc; try done.
    + by apply Huniq.
    + by destruct (Hother m Hm Ho).
    + by destruct (Hother m' Hm' Ho').
Qed.
End Assignment.

(** ** A Customer moves to an Agency with a history of its own *)

#[local] Existing Instance ascii_case.

Definition example_agency (id : Z) (key : string) : Agency := mkAgency id (u "agency") (u "Agency") true (u key) None None.
Definition example_member (id : Z) (agency : option Z) (key : string) : Customer :=
  example_customer <| cu_id := id |> <| cu_agency_id := agency |> <| cu_permanent_history_key := u key |>.
Definition example_agencies : Store :=
  empty_store
    <| st_agencies := <[1 := example_agency 1 "east"]> {[ 2 := example_agency 2 "west" ]} |>
    <| st_customers := <[7 := example_member 7 (Some 1) "east"]> (<[8 := example_member 8 (Some 2) "west"]>
         {[ 9 := example_member 9 None "alone" ]}) |>
    <| st_membership_history := [mkMembershipPeriod 1 8 2 0 None (u "admin") (u "joined")] |>
    <| st_next_membership := 2 |>.
Definition example_assignment : AgencyAssignment := mkAgencyAssignment (Some 2) (u "moved offices") true.
Definition example_assigned : outcome (AssignmentPreview * bool) * Store :=
  admin_customer_agency_assignment example_env 7 example_assignment 3%N example_agencies.

Lemma example_agencies_keyed : keyed_rows example_agencies.
Proof.
  split; intros id r Hr.
  - change ((<[7 := example_member 7 (Some 1) "east"]> (<[8 := example_member 8 (Some 2) "west"]>
      {[ 9 := example_member 9 None "alone" ]}) : gmap Z Customer) !! id = Some r) in Hr.
    rewrite !lookup_insert_Some, lookup_singleton_Some in Hr. naive_solver.
  - change ((<[1 := example_agency 1 "east"]> {[ 2 := example_agency 2 "west" ]} : gmap Z Agency) !! id = Some r) in Hr.
    rewrite lookup_insert_Some, lookup_singleton_Some in Hr. naive_solver.
Qed.

Lemma example_assigned_Ok : ∃ preview s', example_assigned = (Ok (preview, true), s').
Proof.
  assert (match example_assigned with (Ok (_, ok), _) => ok | _ => false end = true) as E by (vm_compute; reflexivity).
  destruct example_assigned as [[[preview ok]|e] s']; [|discriminate E]. exists preview, s'. by rewrite E.
Qed.

Lemma history_is_the_component_witness :
  among (history_for_customer example_agencies (example_member 7 (Some 1) "east")) (agency_subject 1) ∧
  rtsc (linked example_agencies) (customer_subject 7) (agency_subject 1).
Proof.
  assert (among (history_for_customer example_agencies (example_member 7 (Some 1) "east")) (agency_subject 1)) as Hin.
  { refine (proj1 (bool_decide_eq_true (1 ∈ hs_agency_ids (history_for_customer example_agencies
      (example_member 7 (Some 1) "east")))) _). vm_compute. reflexivity. }
  split; [exact Hin|]. destruct (history_is_the_component example_agencies example_agencies_keyed) as (_ & Hc & _).
  apply (Hc 7 (example_member 7 (Some 1) "east")); [reflexivity|exact Hin].
Defined.

Lemma assignment_merges_histories_witness :
  ∃ preview s', example_assigned = (Ok (preview, true), s') ∧
    holder_key s' (customer_subject 7) = holder_key s' (customer_subject 8) ∧
    holder_key s' (customer_subject 7) ≠ holder_key s' (customer_subject 9).
Proof.
  destruct example_assigned_Ok as (preview & s' & E). exists preview, s'. split; [exact E|].
  destruct (assignment_merges_histories example_env 7 2 (u "moved offices") true 3%N example_agencies preview s'
    example_agencies_keyed E) as (Hkeys & _ & _). split.
  - apply (Hkeys _ _ (u "east") (u "west")); [reflexivity..|]. right. split; [left; apply rtc_refl|right].
    apply rtc_once. right. by eapply (member_of _ 8 (example_member 8 (Some 2) "west") 2 (example_agency 2 "west")).
  - intros Heq. apply (Hkeys _ _ (u "east") (u "alone")) in Heq; [|reflexivity..].
    destruct Heq as [Heq|[_ Hj]]; [discriminate Heq|]. revert Hj.
    assert (joined example_agencies 7 2 (customer_subject 9) → 9 ∈ hs_customer_ids (join_subjects
      (history_for_customer example_agencies (example_member 7 (Some 1) "east"))
      (history_for_agency example_agencies (example_agency 2 "west")))) as Hin.
    { intros [Hj|Hj]; cbn [join_subjects hs_customer_ids]; apply elem_of_union; [left|right].
      - by apply (history_for_customer_spec example_agencies 7 (example_member 7 (Some 1) "east") (customer_subject 9) example_agencies_keyed).
      - by apply (history_for_agency_spec example_agencies 2 (example_agency 2 "west") (customer_subject 9) example_agencies_keyed). }
    intros Hj%Hin%(bool_decide_eq_true_2 _). revert Hj. vm_compute. discriminate.
Defined.

(** A Lead delivered to a member of the new Agency before the assignment. *)
Definition example_delivery : DistributionEvent :=
  mkDistributionEvent db1 1 100 (Some 8) (u "Acme") (Some 2) (u "Agency") None (u "2155550101") (u "Alpha") (u "PA") []
    (u "") (u "") (u "") (u "") 0 (u "").
Definition example_delivered : Store := example_agencies <| st_events := [example_delivery] |>.
Definition example_reassigned : outcome (AssignmentPreview * bool) * Store :=
  admin_customer_agency_assignment example_env 7 example_assignment 3%N example_delivered.

Lemma example_delivered_keyed : keyed_rows example_delivered.
Proof. destruct example_agencies_keyed. by split. Qed.

Lemma example_reassigned_Ok : ∃ preview s1 c,
  example_reassigned = (Ok (preview, true), s1) ∧ st_customers s1 !! 7 = Some c ∧ recipient_active s1 example_delivery ∧
  example_delivery ∈ st_events s1.
Proof.
  assert (match example_reassigned with
          | (Ok (_, ok), s1) => ok && bool_decide (is_Some (st_customers s1 !! 7)) &&
              bool_decide (recipient_active s1 example_delivery) && bool_decide (ev_id <$> st_events s1 = [1])
          | _ => false end = true) as E by (vm_compute; reflexivity).
  assert (st_events example_reassigned.2 = [example_delivery]) as Hev by (vm_compute; reflexivity).
  destruct example_reassigned as [[[preview ok]|e] s1]; [|discriminate E].
  rewrite !andb_true_iff, !bool_decide_eq_true in E. destruct E as [[[-> [c Hc]] Ha] _].
  exists preview, s1, c. cbn in Hev. rewrite Hev. split_and!; try done. by apply list_elem_of_singleton.
Qed.

Lemma assignment_blocks_inventory_witness :
  ∃ s1 c, st_customers s1 !! 7 = Some c ∧ example_reassigned.2 = s1 ∧
    Forall (λ lead, ld_id lead ≠ 100) (eligible_query s1 example_request c 0).
Proof.
  destruct example_reassigned_Ok as (preview & s1 & c & E & Hc & Hact & He). exists s1, c. split; [exact Hc|].
  split; [by rewrite E|]. apply Forall_forall. intros lead Hlead Hid.
  refine (assignment_blocks_inventory example_env 7 2 (u "moved offices") true 3%N example_delivered preview s1 s1 7
    (customer_subject 8) c (u "west") _ example_request 0 lead example_delivery example_delivered_keyed E (rtc_refl _ _)
    _ _ _ _ Hc Hlead He (eq_sym Hid) eq_refl Hact).
  - left. apply rtc_refl.
  - right. apply rtc_once. right. by eapply (member_of _ 8 (example_member 8 (Some 2) "west") 2 (example_agency 2 "west")).
  - by eexists.
  - reflexivity.
Defined.

Lemma example_agencies_periods : periods_ok example_agencies.
Proof.
  split; unfold example_agencies; rsimpl.
  - apply NoDup_singleton.
  - intros m ->%list_elem_of_singleton. cbn. lia.
  - intros m ->%list_elem_of_singleton _. by eexists.
  - by intros m m' ->%list_elem_of_singleton ->%list_elem_of_singleton.
Qed.

Lemma periods_tell_membership_witness : periods_ok example_assigned.2.
Proof.
  apply (periods_tell_membership example_agencies); [exact example_agencies_keyed|exact example_agencies_periods|].
  exists example_env, 7, example_assignment, 3%N, example_assigned.1. apply surjective_pairing.
Defined.

Example example_periods :
  (λ m, (mh_id m, mh_customer_id m, mh_agency_id m, bool_decide (mh_ended_at m = None))) <$> st_membership_history example_assigned.2 =
  [(1, 8, 2, true); (2, 7, 1, false); (3, 7, 2, true)].
Proof. vm_compute. reflexivity. Qed.
