(* ===== verification/Listing.v ===== *)
(** * Listing provenance: [_listing_lookups] and [_listing_snapshot] of
    [jawnix/allocation.py]

    Where the title and state of a delivered Lead came from, read row by row
    or from batched lookups. *)

From S2P Require Import Prelude PyText Models LeadDatabases.

Open Scope Z_scope.

Record ListingLookups : Type := mkListingLookups {
  lk_observations : gmap Z ListingObservation;
  lk_publications : gmap text DatasetPublication;
  lk_runs : gset Z;
  lk_configurations : gmap uuid ScraperConfiguration;
  lk_corrections : gmap uuid LeadCorrectionEvent
}.

(** [load]: the rows of a table whose key is among [values], a thousand keys
    per query. *)
Definition load `{Countable K} {A} (table : gmap K A) (values : gset K) : gmap K A :=
  foldl (λ result keys, filter (λ kv, kv.1 ∈ (keys : list K)) table ∪ result) ∅
    (chunks (size values) 1000 (elements values)).
Definition load_ids (table values : gset Z) : gset Z :=
  foldl (λ result keys, filter (λ id, id ∈ (keys : list Z)) table ∪ result) ∅
    (chunks (size values) 1000 (elements values)).

Definition listing_lookups (s : Store) (leads : list Lead) : option ListingLookups :=
  let observation_ids := list_to_set (omap ld_current_listing_observation_id leads) : gset Z in
  let correction_ids := list_to_set (omap ld_active_correction_id leads) : gset uuid in
  if bool_decide (observation_ids = ∅) && bool_decide (correction_ids = ∅) then None else
  let observations := load (st_observations s) observation_ids in
  let publications := load (st_publications s)
    (list_to_set (ob_dataset_checksum <$> (map_to_list observations).*2) : gset text) in
  Some (mkListingLookups observations publications
    (load_ids (dom (st_scraper_runs s))
       (list_to_set (dp_scraper_run_id <$> (map_to_list publications).*2)))
    (load (st_configurations s)
       (list_to_set (dp_configuration_id <$> (map_to_list publications).*2) : gset uuid))
    (load (st_corrections s) correction_ids)).

(** A snapshot: provenance, source kind, segment key and Niche. *)
Definition Snapshot : Type := dict * text * text * text.

Section Snapshot.
Context `{CaseMapping}.

(** How rows are fetched: from the lookups, or one [session.get] each. *)
Variable get_observation : Z → option ListingObservation.
Variable get_publication : text → option DatasetPublication.
Variable has_run : Z → bool.
Variable get_configuration : uuid → option ScraperConfiguration.
Variable get_correction : uuid → option LeadCorrectionEvent.

Definition snapshot_of (lead : Lead) : Snapshot :=
  let observation := ld_current_listing_observation_id lead ≫= get_observation in
  let publication := observation ≫= λ o, get_publication (ob_dataset_checksum o) in
  let scrape_run := publication ≫= λ p,
    if has_run (dp_scraper_run_id p) then Some (dp_scraper_run_id p) else None in
  let configuration := publication ≫= λ p, get_configuration (dp_configuration_id p) in
  let acquisition_provenance :=
    [("datasetVersion", json_opt (λ p, JNum (dp_version p)) publication);
     ("scrapeRunId", json_opt JNum scrape_run);
     ("configurationId", json_opt (λ c, JStr (str_of_uuid (sc_id c))) configuration);
     ("configurationVersion", json_opt (λ c, JNum (sc_version c)) configuration)]%string in
  let correction := ld_active_correction_id lead ≫= get_correction in
  match correction, observation with
  | Some c, Some o =>
      ([("kind", JStr (u "lead_correction")); ("correctionId", JStr (str_of_uuid (co_id c)));
        ("underlyingObservationId", JNum (ob_id o))]%string ++ acquisition_provenance,
       u "google_maps", ob_source o, ob_niche o)
  | Some c, None =>
      ([("kind", JStr (u "lead_correction")); ("correctionId", JStr (str_of_uuid (co_id c)))]%string,
       u "legacy", [], [])
  | None, None =>
      ([("kind", JStr (u "legacy")); ("source", JStr (ld_source_flow lead))]%string,
       u "legacy", [], [])
  | None, Some o =>
      ([("kind", JStr (u "current_listing")); ("observationId", JNum (ob_id o));
        ("datasetChecksum", JStr (ob_dataset_checksum o)); ("source", JStr (ob_source o));
        ("niche", JStr (ob_niche o))]%string ++ acquisition_provenance,
       u "google_maps", ob_source o, py_lower (ob_niche o))
  end.
End Snapshot.

Definition listing_snapshot `{CaseMapping} (s : Store) (lookups : option ListingLookups) (lead : Lead)
    : Snapshot :=
  match lookups with
  | Some l => snapshot_of (λ id, lk_observations l !! id) (λ c, lk_publications l !! c)
                (λ id, bool_decide (id ∈ lk_runs l)) (λ id, lk_configurations l !! id)
                (λ id, lk_corrections l !! id) lead
  | None => snapshot_of (λ id, st_observations s !! id) (λ c, st_publications s !! c)
              (λ id, bool_decide (id ∈ dom (st_scraper_runs s))) (λ id, st_configurations s !! id)
              (λ id, st_corrections s !! id) lead
  end.

(** ** Lemmas *)

Lemma elem_of_chunks {A} (l : list A) x : x ∈ mjoin (chunks (length l) 1000 l) ↔ x ∈ l.
Proof. rewrite concat_chunks by lia. done. Qed.

Lemma lookup_load_fold `{Countable K} {A} (table : gmap K A) chs acc k :
  foldl (λ result keys, filter (λ kv, kv.1 ∈ (keys : list K)) table ∪ result) acc chs !! k =
  match table !! k with
  | Some a => if decide (k ∈ mjoin chs) then Some a else acc !! k
  | None => acc !! k
  end.
Proof.
  revert acc. induction chs as [|ch chs IH]; intros acc; cbn.
  { destruct (table !! k); [|done]. case_decide as D; [by apply not_elem_of_nil in D | done]. }
  rewrite IH, lookup_union, map_lookup_filter.
  destruct (table !! k) as [a|]; cbn; [|by destruct (acc !! k)].
  destruct (decide (k ∈ mjoin chs)), (decide (k ∈ ch)); cbn;
    rewrite ?option_guard_True, ?option_guard_False by done; cbn.
  all: match goal with
       | |- context [decide (?x ∈ ?l)] => destruct (decide (x ∈ l)) as [D|D]; rewrite elem_of_app in D
       end; try tauto.
  all: match goal with |- context [?m !! ?x] => by destruct (m !! x) end.
Qed.

Lemma lookup_load `{Countable K} {A} (table : gmap K A) (values : gset K) k :
  k ∈ values → load table values !! k = table !! k.
Proof.
  intros Hk. unfold load. rewrite lookup_load_fold. destruct (table !! k); [|done].
  rewrite decide_True; [done|]. apply elem_of_chunks. by apply elem_of_elements.
Qed.

Lemma elem_of_load_ids table values id : id ∈ values → id ∈ load_ids table values ↔ id ∈ table.
Proof.
  intros Hk. unfold load_ids.
  assert (∀ chs acc, id ∈ foldl (λ result keys, filter (λ x, x ∈ (keys : list Z)) table ∪ result) acc chs ↔
    (id ∈ table ∧ id ∈ mjoin chs) ∨ id ∈ acc) as Hf.
  { induction chs as [|ch chs IH]; intros acc; cbn; [set_solver|].
    rewrite IH, elem_of_union, elem_of_filter, elem_of_app. tauto. }
  rewrite Hf. change (size values) with (length (elements values)).
  rewrite elem_of_chunks, elem_of_elements. set_solver.
Qed.

(** A snapshot depends on the rows it reaches only. *)
Lemma snapshot_of_ext `{CaseMapping} go go' gp gp' gr gr' gc gc' gk gk' lead :
  (∀ id, ld_current_listing_observation_id lead = Some id → go id = go' id) →
  (∀ id o, ld_current_listing_observation_id lead = Some id → go' id = Some o →
     gp (ob_dataset_checksum o) = gp' (ob_dataset_checksum o)) →
  (∀ id o p, ld_current_listing_observation_id lead = Some id → go' id = Some o →
     gp' (ob_dataset_checksum o) = Some p →
     gr (dp_scraper_run_id p) = gr' (dp_scraper_run_id p) ∧
     gc (dp_configuration_id p) = gc' (dp_configuration_id p)) →
  (∀ id, ld_active_correction_id lead = Some id → gk id = gk' id) →
  snapshot_of go gp gr gc gk lead = snapshot_of go' gp' gr' gc' gk' lead.
Proof.
  intros Ho Hp Hr Hk. unfold snapshot_of.
  assert (ld_active_correction_id lead ≫= gk = ld_active_correction_id lead ≫= gk') as ->.
  { destruct (ld_active_correction_id lead); [by apply Hk | done]. }
  destruct (ld_current_listing_observation_id lead) as [id|]; [|done].
  cbn [mbind option_bind]. rewrite (Ho id) by done.
  destruct (go' id) as [o|] eqn:Eo; [|done]. cbn [mbind option_bind]. rewrite (Hp id o) by done.
  destruct (gp' (ob_dataset_checksum o)) as [p|] eqn:Ep; [|done]. cbn [mbind option_bind].
  by destruct (Hr id o p) as [-> ->].
Qed.

(** ** Properties *)

(** the batched lookups are invisible: for every Lead of the batch they
    were loaded for, the snapshot taken from them is the one that fetches each
    row from the database. *)
Theorem listing_lookups_agree `{CaseMapping} s leads lead :
  lead ∈ leads → listing_snapshot s (listing_lookups s leads) lead = listing_snapshot s None lead.
Proof.
  intros Hin. unfold listing_lookups. cbv zeta. destruct (_ && _); [done|].
  unfold listing_snapshot. cbn [lk_observations lk_publications lk_runs lk_configurations lk_corrections].
  set (obs := load (st_observations s) _). set (pubs := load (st_publications s) _).
  assert (Ho : ∀ id, ld_current_listing_observation_id lead = Some id → obs !! id = st_observations s !! id).
  { intros id E. apply lookup_load, elem_of_list_to_set, list_elem_of_omap. eauto. }
  assert (Hp : ∀ id o, ld_current_listing_observation_id lead = Some id → st_observations s !! id = Some o →
    pubs !! ob_dataset_checksum o = st_publications s !! ob_dataset_checksum o).
  { intros id o E Eo. apply lookup_load, elem_of_list_to_set, list_elem_of_fmap. exists o. split; [done|].
    apply list_elem_of_fmap. exists (id, o). rewrite elem_of_map_to_list, (Ho id) by done. done. }
  apply snapshot_of_ext; [exact Ho | exact Hp | |].
  - intros id o p E Eo Ep.
    assert (p ∈ (map_to_list pubs).*2) as Hpub.
    { apply list_elem_of_fmap. exists (ob_dataset_checksum o, p). rewrite elem_of_map_to_list.
      split; [done|]. rewrite (Hp id o) by done. done. }
    split.
    + apply bool_decide_ext, elem_of_load_ids, elem_of_list_to_set, list_elem_of_fmap. eauto.
    + apply lookup_load, elem_of_list_to_set, list_elem_of_fmap. eauto.
  - intros id E. apply lookup_load, elem_of_list_to_set, list_elem_of_omap. eauto.
Qed.

(** A corrected Lead with a listing on file. *)
Definition example_listed_lead : Lead :=
  example_lead 1 "2155550101" "Alpha" <| ld_current_listing_observation_id := Some 5 |>
                                      <| ld_active_correction_id := Some 9%N |>.

Lemma listing_lookups_agree_witness :
  listing_snapshot (H := ascii_case) empty_store
    (listing_lookups empty_store [example_listed_lead]) example_listed_lead =
  listing_snapshot (H := ascii_case) empty_store None example_listed_lead.
Proof.
  apply (listing_lookups_agree (H := ascii_case) empty_store [example_listed_lead] example_listed_lead).
  apply list_elem_of_singleton. reflexivity.
Defined.
