(* ===== verification/Artifact.v ===== *)
(** * Batch Artifacts: the files of [jawnix/allocation.py]

    The CSV a Customer receives, cut into parts and archived under a name the
    request determines, and the row that records it.  Deflate and SHA-256 are
    the interface [Platform]; everything around them is here. *)

From S2P Require Import Prelude PyText PyTime States Models LeadDatabases.

Open Scope Z_scope.

(** [zipfile] with the fixed entry timestamp and mode the code sets, and
    [hashlib.sha256(...).hexdigest()]: functions of what they are given. *)
Class Platform : Type := {
  zip_archive : list (text * list N) → list N;
  sha256_hex : list N → text
}.

(** ** The CSV *)

(** [csv.QUOTE_MINIMAL]: a field is quoted when it holds the delimiter, the
    quote or a line break. *)
Definition csv_special (c : N) : bool := bool_decide (c ∈ [44; 34; 10; 13]%N).
Definition csv_field (t : text) : text :=
  if existsb csv_special t
  then 34%N :: (t ≫= λ c, if (c =? 34)%N then [34; 34]%N else [c]) ++ [34%N]
  else t.
Definition csv_row (fields : list text) : text := join [44%N] (csv_field <$> fields) ++ [10%N].

Definition TITLE_MAX_BYTES : nat := 180.

(** The lines of a part; a row is its phone and title. *)
Fixpoint csv_lines (rows : list (text * text)) : outcome text :=
  match rows with
  | [] => Ok []
  | (phone, title) :: rest =>
      title' ← truncate_utf8 title TITLE_MAX_BYTES;
      lines ← csv_lines rest;
      Ok (csv_row [phone; title'] ++ lines)
  end.

Definition csv_bytes (rows : list (text * text)) : outcome (list N) :=
  lines ← csv_lines rows;
  match utf8_encode (csv_row [u "phone"; u "title"] ++ lines) with
  | Some bytes => Ok bytes
  | None => Err UnicodeEncodeError
  end.

(** [range(0, len(rows), rows_per_file)] refuses a zero step and is empty for
    a negative one. *)
Definition part_rows {A} (rows : list A) (rows_per_file : Z) : outcome (list (list A)) :=
  if rows_per_file =? 0 then Err (ValueError (u "range() arg 3 must not be zero"))
  else if rows_per_file <? 0 then Ok []
  else Ok (chunks (length rows) (Z.to_nat rows_per_file) rows).

(** ** Names *)

(** [Path(name).stem] of a name without directories: up to the last dot,
    unless that is its first or last character. *)
Fixpoint split_last_dot (t : text) : option (text * text) :=
  match t with
  | [] => None
  | c :: t' =>
      match split_last_dot t' with
      | Some (a, b) => Some (c :: a, b)
      | None => if (c =? 46)%N then Some ([], t') else None
      end
  end.
Definition path_stem (name : text) : text :=
  match split_last_dot name with
  | Some ([], _) | Some (_, []) | None => name
  | Some (stem, _) => stem
  end.

Definition ends_with (suffix t : text) : bool :=
  bool_decide (suffix = drop (length t - length suffix) t).

(** [_artifact_path]; the batch directory is in the normal form of [Path]. *)
Definition artifact_path (env : Env) (request : LeadRequest) (customer : Customer) : text * text :=
  let date_text := date_isoformat (rq_created_at request) in
  let filename := cu_slug customer ++ u "_batch_" ++ str_of_uuid (rq_id request) ++ u "_" ++ date_text
                  ++ u ".zip" in
  (batch_dir (settings env) ++ u "/" ++ date_text ++ u "/" ++ filename, filename).

Fixpoint number_parts (stem : text) (index : Z) (count : nat) : list text :=
  match count with
  | O => []
  | S count => (stem ++ u "_part_" ++ zero_pad 3 index ++ u ".csv")
               :: number_parts stem (index + 1) count
  end.

(** ** Generation *)

Fixpoint csv_parts (names : list text) (parts : list (list (text * text)))
    : outcome (list (text * list N)) :=
  match names, parts with
  | n :: names, p :: parts =>
      bytes ← csv_bytes p;
      rest ← csv_parts names parts;
      Ok ((n, bytes) :: rest)
  | [], [] => Ok []
  | _, _ => Err (ValueError (u "zip() arguments have different lengths"))
  end.

Section Generate.
Context `{CaseMapping} `{Platform}.

(** The names and rows of the parts of a (re)generated artifact, and whether
    it is a bare CSV of an earlier release. *)
Definition plan_parts (artifact : option BatchArtifact) (filename : text) (rows : list (text * text))
    (rows_per_file : Z) : outcome (bool * list text * list (list (text * text))) :=
  let legacy_csv := bool_decide (is_Some artifact) && ends_with (u ".csv") (py_lower filename) in
  parts ← (if legacy_csv then Ok [rows] else part_rows rows rows_per_file);
  let fresh := if legacy_csv then [filename]
               else number_parts (path_stem filename) 1 (length parts) in
  let names := match artifact with
               | Some a => if (length (ar_parts a) =? length parts)%nat then (ar_parts a).*1 else fresh
               | None => fresh
               end in
  Ok (legacy_csv, names, parts).

(** The bytes of the file. *)
Definition artifact_bytes (legacy_csv : bool) (names : list text) (parts : list (list (text * text)))
    (rows : list (text * text)) : outcome (list N) :=
  if legacy_csv then csv_bytes rows
  else contents ← csv_parts names parts; Ok (zip_archive contents).

(** [customer] is [request.customer]; [rows] are the phones and titles. *)
Definition generate_artifact (env : Env) (request : LeadRequest) (customer : Customer)
    (rows : list (text * text)) : M Store BatchArtifact :=
  artifact ← gets (λ s, st_artifacts s !! rq_id request);
  let '(path, filename) :=
    match artifact with
    | None => artifact_path env request customer
    | Some a => (ar_path a, ar_filename a)
    end in
  plan ← lift (plan_parts artifact filename rows (rq_rows_per_file request));
  let '(legacy_csv, names, parts) := plan in
  raise_if (negb (length names =? length parts)%nat)
    (ValueError (u "zip() arguments have different lengths")) ;;
  let metadata := zip names ((λ p, Z.of_nat (length p)) <$> parts) in
  raise_if (negb (disk_ok env)) (OSError (u "No space left on device")) ;;
  bytes ← lift (artifact_bytes legacy_csv names parts rows);
  modify (λ s, s <| st_files := <[path := bytes]> (st_files s) |>) ;;
  let expires_at := Some (now env + days (batch_retention_days (settings env))) in
  saved ← (match artifact with
    | None =>
        id ← gets st_next_artifact;
        modify (λ s, s <| st_next_artifact := id + 1 |>) ;;
        mret (mkBatchArtifact id (rq_id request) path filename (Z.of_nat (length rows)) metadata
                (Z.of_nat (length bytes)) (sha256_hex bytes) delivery_pending 0 [] [] (now env)
                expires_at None)
    | Some a =>
        mret (a <| ar_path := path |> <| ar_filename := filename |>
                <| ar_row_count := Z.of_nat (length rows) |> <| ar_parts := metadata |>
                <| ar_byte_count := Z.of_nat (length bytes) |> <| ar_sha256 := sha256_hex bytes |>
                <| ar_created_at := now env |> <| ar_expires_at := expires_at |>)
    end);
  modify (λ s, s <| st_artifacts := <[rq_id request := saved]> (st_artifacts s) |>) ;;
  mret saved.
End Generate.

(** ** Lemmas *)

(** Every part but the last is full. *)
Lemma chunks_full {A} fuel size (l : list A) i part :
  (0 < size)%nat → chunks fuel size l !! i = Some part → is_Some (chunks fuel size l !! S i) →
  length part = size.
Proof.
  intros Hs. revert l i. induction fuel as [|fuel IH]; intros l i Hp [next Hn]; cbn in Hp, Hn; [done|].
  destruct l as [|x l]; [done|]. destruct i as [|i]; cbn [lookup list_lookup] in Hp, Hn; [|by eapply IH].
  injection Hp as <-. rewrite length_take. destruct fuel; [done|]. cbn in Hn.
  destruct (drop size (x :: l)) eqn:E; [done|]. apply (f_equal length) in E.
  rewrite length_drop in E. cbn in E |- *. lia.
Qed.

Lemma number_parts_length stem i n : length (number_parts stem i n) = n.
Proof. revert i. induction n; intros; cbn; auto. Qed.

Lemma ends_with_app suffix t : ends_with suffix (t ++ suffix) = true.
Proof.
  unfold ends_with. apply bool_decide_eq_true. rewrite length_app, Nat.add_sub. by rewrite drop_app_length.
Qed.

Lemma ends_with_unique s1 s2 t :
  length s1 = length s2 → ends_with s1 t = true → ends_with s2 t = true → s1 = s2.
Proof. unfold ends_with. intros El E1 E2. bool_inv. by rewrite E1, E2, El. Qed.

Section Facts.
Context `{CaseMappingLaws} `{Platform}.

(** A fresh artifact is an archive, not a bare CSV. *)
Lemma zip_name_not_csv t : ends_with (u ".csv") (py_lower (t ++ u ".zip")) = false.
Proof using Type*.
  destruct (py_lower_suffix t (u ".zip")) as [t' ->].
  { vm_compute. repeat constructor; by intros []. }
  apply not_true_is_false. intros Hc.
  by pose proof (ends_with_unique (u ".csv") (u ".zip") _ eq_refl Hc (ends_with_app _ _)).
Qed.

(** What a generation writes. *)
Lemma generate_artifact_inv env request customer rows s a s' :
  generate_artifact env request customer rows s = (Ok a, s') →
  let artifact := st_artifacts s !! rq_id request in
  ∃ legacy names parts bytes,
    plan_parts artifact (ar_filename a) rows (rq_rows_per_file request) = Ok (legacy, names, parts) ∧
    length names = length parts ∧ artifact_bytes legacy names parts rows = Ok bytes ∧
    (ar_path a, ar_filename a) = match artifact with
      | None => artifact_path env request customer
      | Some a0 => (ar_path a0, ar_filename a0) end ∧
    ar_request_id a = match artifact with None => rq_id request | Some a0 => ar_request_id a0 end ∧
    ar_parts a = zip names ((λ p, Z.of_nat (length p)) <$> parts) ∧
    ar_row_count a = Z.of_nat (length rows) ∧ ar_sha256 a = sha256_hex bytes ∧
    ar_byte_count a = Z.of_nat (length bytes) ∧
    ar_expires_at a = Some (now env + days (batch_retention_days (settings env))) ∧
    s' = s <| st_files := <[ar_path a := bytes]> (st_files s) |>
           <| st_artifacts := <[rq_id request := a]> (st_artifacts s) |>
           <| st_next_artifact := st_next_artifact s' |>.
Proof.
  unfold generate_artifact, lift. intros H2. cbv zeta.
  apply bind_Ok_inv in H2 as (artifact & s1 & Hg & H2). apply gets_Ok_inv in Hg as [-> ->].
  destruct (st_artifacts s !! rq_id request) as [a0|] eqn:Ea.
  - destruct (plan_parts _ _ _ _) as [[[legacy names] parts]|] eqn:Hp in H2; [|run_inv].
    cbn [mbind] in H2. run_inv. destruct (artifact_bytes _ _ _ _) as [bytes|] eqn:Hby in *; run_inv.
    rsimpl. exists legacy, names, parts. eexists. split_and!; [done| |exact Hby|..]; try done.
    bool_inv. by apply Nat.eqb_eq.
  - destruct (artifact_path env request customer) as [path filename] eqn:Epath.
    destruct (plan_parts _ _ _ _) as [[[legacy names] parts]|] eqn:Hp in H2; [|run_inv].
    run_inv. destruct (artifact_bytes _ _ _ _) as [bytes|] eqn:Hby in *; run_inv.
    rsimpl. exists legacy, names, parts. eexists. split_and!; [done| |exact Hby|..]; try done.
    bool_inv. by apply Nat.eqb_eq.
Qed.

(** Rebuilding an artifact that is on record. *)
Lemma regenerate_run env request customer rows s a0 legacy names parts bytes :
  st_artifacts s !! rq_id request = Some a0 →
  plan_parts (Some a0) (ar_filename a0) rows (rq_rows_per_file request) = Ok (legacy, names, parts) →
  length names = length parts → artifact_bytes legacy names parts rows = Ok bytes →
  disk_ok env = true →
  ∃ a s', generate_artifact env request customer rows s = (Ok a, s') ∧ ar_id a = ar_id a0.
Proof.
  intros Ha Hp Hl Hb Hd. unfold generate_artifact, lift. rewrite bind_gets, Ha, Hp. cbn [mbind].
  rewrite bind_ret, bind_raise_if_false by (by rewrite Hl, Nat.eqb_refl).
  rewrite bind_raise_if_false by (by rewrite Hd). rewrite Hb, bind_ret, bind_modify, bind_ret, bind_modify.
  by eexists _, _.
Qed.

Lemma plan_parts_fresh filename rows k legacy names parts :
  plan_parts None filename rows k = Ok (legacy, names, parts) →
  legacy = false ∧ part_rows rows k = Ok parts ∧
  names = number_parts (path_stem filename) 1 (length parts).
Proof.
  unfold plan_parts. cbn [is_Some]. rewrite bool_decide_eq_false_2 by (by intros [? [=]]). cbn [andb].
  intros (ps & Hp & [= <- <- <-])%obind_Ok_inv. auto.
Qed.

(** The artifact on record plans the same parts and bytes again. *)
Lemma fresh_plan_again env request customer rows s s1 a a2 :
  st_artifacts s !! rq_id request = None →
  generate_artifact env request customer rows s = (Ok a, s1) →
  ar_filename a2 = ar_filename a → ar_parts a2 = ar_parts a →
  ∃ names parts bytes,
    plan_parts (Some a2) (ar_filename a2) rows (rq_rows_per_file request) = Ok (false, names, parts) ∧
    length names = length parts ∧ artifact_bytes false names parts rows = Ok bytes ∧
    ar_parts a = zip names ((λ p, Z.of_nat (length p)) <$> parts) ∧
    ar_sha256 a = sha256_hex bytes ∧ ar_byte_count a = Z.of_nat (length bytes) ∧
    ar_row_count a = Z.of_nat (length rows) ∧ st_files s1 !! ar_path a = Some bytes.
Proof using Type*.
  intros Hnone Hg Ef Epa.
  apply generate_artifact_inv in Hg as (legacy & names & parts & bytes & Hplan & Hlen & Hb & Hpath & _ &
    Hparts & Hrc & Hsha & Hbc & _ & Hs1).
  rewrite Hnone in Hplan, Hpath. destruct (plan_parts_fresh _ _ _ _ _ _ Hplan) as (-> & Hpr & Hn).
  assert (Hzip : ∃ t, ar_filename a = t ++ u ".zip").
  { injection Hpath as _ ->. exists (cu_slug customer ++ u "_batch_" ++ str_of_uuid (rq_id request)
      ++ u "_" ++ date_isoformat (rq_created_at request)). by rewrite <- !app_assoc. }
  assert (Hfst : (ar_parts a).*1 = names).
  { rewrite Hparts. apply fst_zip. rewrite length_fmap. lia. }
  exists names, parts, bytes. split_and!; try done; [|rewrite Hs1; rsimpl; apply lookup_insert_eq].
  unfold plan_parts. rewrite Ef, Epa. destruct Hzip as [t ->]. rewrite zip_name_not_csv, andb_false_r, Hpr.
  cbn [mbind outcome_bind]. rewrite Hfst. replace (length (ar_parts a)) with (length parts).
  - by rewrite Nat.eqb_refl.
  - rewrite <- Hlen, <- Hfst. by rewrite length_fmap.
Qed.
End Facts.

(** ** Properties *)

(** cutting a Batch into files loses and repeats nothing: read in order,
    the parts are the rows; no part is empty or longer than the requested
    size, and every part but the last is full. *)
Theorem part_rows_partition {A} (rows : list A) rows_per_file :
  0 < rows_per_file →
  ∃ parts, part_rows rows rows_per_file = Ok parts ∧ mjoin parts = rows ∧
    (∀ p, p ∈ parts → p ≠ [] ∧ Z.of_nat (length p) ≤ rows_per_file) ∧
    (∀ i p, parts !! i = Some p → is_Some (parts !! S i) → Z.of_nat (length p) = rows_per_file).
Proof.
  intros Hk. unfold part_rows. rewrite (proj2 (Z.eqb_neq _ _)), (proj2 (Z.ltb_ge _ _)) by lia.
  eexists. split; [done|]. split_and!.
  - apply concat_chunks; lia.
  - intros p Hp. assert (0 < Z.to_nat rows_per_file)%nat as Hpos by lia.
    destruct (chunks_bound _ _ _ _ Hpos Hp). split; [done | lia].
  - intros i p Hp Hn. assert (0 < Z.to_nat rows_per_file)%nat as Hpos by lia.
    rewrite (chunks_full _ _ _ _ _ Hpos Hp Hn). lia.
Qed.

(** C31: regeneration reproduces the delivered file.  Rebuilding an artifact
    from the same rows, at any later time and however its row changed meanwhile
    but for path, name and parts, writes the same bytes to the same path, keeps
    names, row counts and checksum, and only starts a new retention period. *)
Theorem regeneration_reproduces `{CaseMappingLaws} `{Platform} env env' request customer customer'
    rows s s1 s2 a a2 :
  st_artifacts s !! rq_id request = None →
  generate_artifact env request customer rows s = (Ok a, s1) →
  st_artifacts s2 !! rq_id request = Some a2 →
  ar_path a2 = ar_path a → ar_filename a2 = ar_filename a → ar_parts a2 = ar_parts a →
  disk_ok env' = true →
  ∃ a3 s3, generate_artifact env' request customer' rows s2 = (Ok a3, s3) ∧
    st_files s3 !! ar_path a = st_files s1 !! ar_path a ∧ is_Some (st_files s1 !! ar_path a) ∧
    ar_path a3 = ar_path a ∧ ar_filename a3 = ar_filename a ∧ ar_parts a3 = ar_parts a ∧
    ar_sha256 a3 = ar_sha256 a ∧ ar_row_count a3 = ar_row_count a ∧ ar_byte_count a3 = ar_byte_count a ∧
    ar_expires_at a3 = Some (now env' + days (batch_retention_days (settings env'))).
Proof.
  intros Hnone Hgen Ha2 Ep Ef Epa Hdisk.
  destruct (fresh_plan_again _ _ _ _ _ _ _ _ Hnone Hgen Ef Epa)
    as (names & parts & bytes & Hplan & Hlen & Hb & Hparts & Hsha & Hbc & Hrc & Hfile).
  destruct (regenerate_run env' request customer' rows s2 a2 false names parts bytes Ha2 Hplan Hlen Hb Hdisk)
    as (a3 & s3 & Hgen3 & _).
  exists a3, s3. split; [done|].
  apply generate_artifact_inv in Hgen3 as (legacy' & names' & parts' & bytes' & Hplan3 & _ & Hb3 & Hpath3 & _ &
    Hparts3 & Hrc3 & Hsha3 & Hbc3 & Hex3 & Hs3).
  rewrite Ha2 in Hplan3, Hpath3. injection Hpath3 as Ep3 Ef3. rewrite Ef3, Hplan in Hplan3.
  injection Hplan3 as <- <- <-. assert (bytes' = bytes) as -> by congruence.
  rewrite Hs3, Hfile. rsimpl. rewrite Ep3, Ep, lookup_insert_eq.
  split_and!; try done; congruence.
Qed.

(** *** Concrete runs *)

Lemma part_rows_partition_witness :
  ∃ parts, part_rows [1; 2; 3; 4; 5] 2 = Ok parts ∧ mjoin parts = [1; 2; 3; 4; 5].
Proof.
  destruct (part_rows_partition [1; 2; 3; 4; 5] 2 ltac:(lia)) as (parts & H1 & H2 & _).
  exists parts. split; [exact H1 | exact H2].
Defined.

(** An archive without compression and a digest that counts bytes. *)
Definition example_platform : Platform :=
  {| zip_archive := λ parts, parts ≫= (λ p, p.1 ++ p.2); sha256_hex := λ b, str_of_Z (Z.of_nat (length b)) |}.

Section Examples.
#[local] Existing Instance ascii_case.
#[local] Existing Instance example_platform.

Definition example_rows : list (text * text) :=
  [(u "2155550101", u "Alpha, Inc."); (u "2155550102", u "Beta")].

Example example_csv :
  csv_bytes example_rows = Ok (u "phone,title" ++ [10%N] ++ u "2155550101," ++ [34%N] ++ u "Alpha, Inc."
    ++ [34%N; 10%N] ++ u "2155550102,Beta" ++ [10%N]).
Proof. vm_compute. reflexivity. Qed.

Definition example_generated : outcome BatchArtifact * Store :=
  generate_artifact example_env example_request example_customer example_rows empty_store.

Lemma example_generated_Ok :
  ∃ a s1, example_generated = (Ok a, s1) ∧ st_artifacts s1 !! 1%N = Some a.
Proof.
  assert (match example_generated with (Ok _, _) => true | _ => false end = true) as H by (vm_compute; reflexivity).
  destruct example_generated as [[a|e] s1] eqn:E; [|discriminate H].
  exists a, s1. split; [done|]. unfold example_generated in E.
  apply generate_artifact_inv in E as (? & ? & ? & ? & _ & _ & _ & _ & _ & _ & _ & _ & _ & _ & Es).
  rewrite Es. rsimpl. apply lookup_insert_eq.
Qed.

Lemma regeneration_reproduces_witness :
  ∃ a s1 a3 s3, example_generated = (Ok a, s1) ∧
    generate_artifact example_env example_request example_customer example_rows s1 = (Ok a3, s3) ∧
    ar_sha256 a3 = ar_sha256 a.
Proof.
  destruct example_generated_Ok as (a & s1 & E & Ha).
  destruct (regeneration_reproduces example_env example_env example_request example_customer
    example_customer example_rows empty_store s1 s1 a a eq_refl E Ha eq_refl eq_refl eq_refl eq_refl)
    as (a3 & s3 & H3 & _ & _ & _ & _ & _ & Hsha & _).
  exists a, s1, a3, s3. split; [exact E|]. split; [exact H3 | exact Hsha].
Defined.
End Examples.
