(* ===== verification/Recommendations.v ===== *)
(** * Source Recommendations: one decision, bound to its evidence

    [jawnix/recommendations.py] and the endpoint that calls it: a decision in
    the browser or in Telegram denies a recommendation, approves it in shadow,
    or schedules the configuration that applies it. *)

From S2P Require Import Prelude PyText PyInt States Models PyJson PyObject Activity Artifact.
From Stdlib Require String.

Open Scope Z_scope.

(** ** Identity of a source segment ([optimization.materialize_source_identity]) *)

(** [re.sub(r"\s+", " ", t)] *)
Fixpoint collapse_spaces (in_run : bool) (t : text) : text :=
  match t with
  | [] => []
  | c :: t' => if is_space c then (if in_run then collapse_spaces true t' else 32%N :: collapse_spaces true t')
               else c :: collapse_spaces false t'
  end.

Definition upper_letter (c : N) : bool := ((65 <=? c) && (c <=? 90))%N.

Definition materialize_source_identity `{CaseMapping} (keyword state : text) : outcome text :=
  let normalized_keyword := py_casefold (collapse_spaces false (strip keyword)) in
  let normalized_state := py_upper (strip state) in
  refuse_if (bool_decide (normalized_keyword = [])) (ValueError (u "Source Segment keyword is required.")) ;;
  refuse_if (negb ((length normalized_state =? 2)%nat && forallb upper_letter normalized_state))
    (ValueError (u "Source Segment state must be a two-letter code.")) ;;
  Ok (normalized_state ++ u "::" ++ normalized_keyword).

(** ** Decisions *)

Definition evidence_matches (recommendation : SourceRecommendation) (checksum : option text) : bool :=
  match checksum with
  | None | Some [] => true
  | Some prefix => starts_with prefix (sn_evidence_checksum recommendation)
  end.

Definition DAY : Z := 86400000000.

(** Eight o'clock tomorrow. *)
Definition scheduled_acquisition (t : datetime) : datetime := (t + days 1) / DAY * DAY + seconds (8 * 3600).

(** [t.partition("::")[0]] *)
Fixpoint before_colons (t : text) : text :=
  match t with
  | 58%N :: 58%N :: _ => []
  | c :: t' => c :: before_colons t'
  | [] => []
  end.

(** The status, cadence and weight an action gives its segment. *)
Definition action_parameters (action : string) : outcome (string * text * text) :=
  (if String.eqb action "expand" then Ok ("active", u "1.0", u "1.25")
   else if String.eqb action "reduce" then Ok ("reduced", u "0.5", u "0.5")
   else if String.eqb action "pause" then Ok ("paused", u "0.0", u "0.0")
   else Err (KeyError (u action)))%string.

Definition next_parameters (recommendation : SourceRecommendation) (parameters : dict) : outcome dict :=
  let action := sn_action recommendation in
  '(status, cadence, weight) ← action_parameters action;
  Ok (dict_set "adjacent_generation_enabled" (JBool (String.eqb action "expand"))
     (dict_set "enabled" (JBool (negb (String.eqb action "pause")))
     (dict_set "relative_weight" (JFloat weight)
     (dict_set "cadence_multiplier" (JFloat cadence)
     (dict_set "status" (JStr (u status))
     (dict_set "recommendation_action" (JStr (u action)) parameters)))))).

Definition next_segment (recommendation : SourceRecommendation) (segment : SourceSegment) : outcome SourceSegment :=
  if bool_decide (ss_key segment = sn_segment_key recommendation)
  then parameters ← next_parameters recommendation (ss_parameters segment);
       Ok (segment <| ss_parameters := parameters |>)
  else Ok segment.

Section Decide.
Context `{CaseMapping} `{Platform} `{PyRepr}.

Definition adjacent_segment (recommendation : SourceRecommendation) (state key : text) (keyword : json) : SourceSegment :=
  mkSourceSegment key (sn_niche recommendation) (strip (py_str keyword)) state
    [("status", JStr (u "active")); ("cadence_multiplier", JFloat (u "1.0")); ("niche_confirmed", JBool true);
     ("seed_segment_key", JStr (sn_segment_key recommendation));
     ("performance_state", JStr (u "insufficient_data"))]%string.

(** The adjacent keywords that are new, in order. *)
Fixpoint adjacent_segments (recommendation : SourceRecommendation) (state : text) (existing_keys : list text)
    (keywords : list json) : outcome (list SourceSegment) :=
  match keywords with
  | [] => Ok []
  | keyword :: rest =>
      key ← materialize_source_identity (py_str keyword) state;
      if bool_decide (key ∈ existing_keys) then adjacent_segments recommendation state existing_keys rest else
      segments ← adjacent_segments recommendation state (key :: existing_keys) rest;
      Ok (adjacent_segment recommendation state key keyword :: segments)
  end.

Definition next_segments (latest : ScraperConfiguration) (recommendation : SourceRecommendation)
    : outcome (list SourceSegment) :=
  segments ← mapM (next_segment recommendation) (sc_segments latest);
  refuse_if (negb (bool_decide (sn_segment_key recommendation ∈ ss_key <$> sc_segments latest)))
    (RecommendationDecisionError (u "The recommended Source Segment is not in the current configuration.")) ;;
  if negb (String.eqb (sn_action recommendation) "expand") then Ok segments else
  let evidence := sn_evidence recommendation in
  let state := py_upper (py_str (json_or (get "state" evidence)
                 (JStr (before_colons (sn_segment_key recommendation))))) in
  keywords ← json_iter (json_or (get "adjacentKeywords" evidence) (JList []));
  adjacent ← adjacent_segments recommendation state (ss_key <$> segments) keywords;
  Ok (segments ++ adjacent).

Definition segment_json (s : SourceSegment) : json :=
  JObj [("key", JStr (ss_key s)); ("niche", JStr (ss_niche s)); ("query", JStr (ss_query s));
        ("geography", JStr (ss_geography s)); ("parameters", JObj (ss_parameters s))]%string.
Definition configuration_checksum (segments : list SourceSegment) (anomaly_thresholds : dict) : text :=
  sha256_hex (json_dumps (JObj [("segments", JList (segment_json <$> segments));
                                ("anomaly_thresholds", JObj anomaly_thresholds)]%string)).

(** [ORDER BY version DESC LIMIT 1] *)
Definition newer_version (a b : ScraperConfiguration) : Prop := sc_version b ≤ sc_version a.
#[export] Instance newer_version_dec : RelDecision newer_version.
Proof. intros a b. unfold newer_version. apply _. Defined.
Definition latest_configuration (s : Store) : option ScraperConfiguration :=
  head (merge_sort newer_version (map_to_list (st_configurations s)).*2).

(** A configuration's segments are read in the order of their keys. *)
Definition segment_le (a b : SourceSegment) : Prop := text_le (ss_key a) (ss_key b).
#[export] Instance segment_le_dec : RelDecision segment_le.
Proof. intros a b. unfold segment_le. apply _. Defined.

Definition put_recommendation (r : SourceRecommendation) : M Store unit :=
  modify (λ s, s <| st_recommendations := <[sn_id r := r]> (st_recommendations s) |>).

Definition decided (env : Env) (actor_id reason : text) (r : SourceRecommendation) : SourceRecommendation :=
  r <| sn_decision_by := actor_id |> <| sn_decision_reason := reason |> <| sn_decided_at := Some (now env) |>.

Definition STALE_REFUSAL : exn := RecommendationDecisionError
  (u "Source Recommendation is stale; production was not changed.").

(** The evidence was gathered on another configuration than the latest. *)
Definition outdated (latest : option ScraperConfiguration) (r : SourceRecommendation) : bool :=
  match sn_configuration_version r with
  | None => false
  | Some version => match latest with Some c => negb (sc_version c =? version) | None => true end
  end.

Definition mark_stale (env : Env) (actor_id reason : text) (latest : option ScraperConfiguration)
    (r : SourceRecommendation) : M Store unit :=
  put_recommendation (decided env actor_id reason r <| sn_status := "stale"%string |>) ;;
  record_activity env (u "source_recommendation_stale") (u "source_recommendation") (str_of_uuid (sn_id r)) actor_id reason
    [("before", JObj [("status", JStr (u "pending"))]); ("after", JObj [("status", JStr (u "stale"))]);
     ("evidenceChecksum", JStr (sn_evidence_checksum r));
     ("evidenceConfigurationVersion", json_opt JNum (sn_configuration_version r));
     ("currentConfigurationVersion", json_opt JNum (sc_version <$> latest))]%string [] ;;
  raise STALE_REFUSAL.

Definition replace_scheduled (c : ScraperConfiguration) : ScraperConfiguration :=
  if String.eqb (sc_status c) "scheduled" then c <| sc_status := "schedule_replaced"%string |> else c.

Definition BAD_UUID : exn := ValueError (u "badly formed hexadecimal UUID string").

(** Scheduling the configuration that applies an approval. *)
Definition schedule_next (env : Env) (actor_id reason : text) (latest : option ScraperConfiguration)
    (r : SourceRecommendation) : M Store SourceRecommendation :=
  latest ← require latest (RecommendationDecisionError (u "Create a Scraper Configuration first."));
  modify (λ s, s <| st_configurations := replace_scheduled <$> st_configurations s |>) ;;
  segments ← lift (next_segments latest r);
  created_by ← require (uuid_of_text actor_id) BAD_UUID;
  id ← uuid4;
  modify (λ s, s <| st_configurations := <[id := mkScraperConfiguration id (sc_version latest + 1)
      (configuration_checksum segments (sc_anomaly_thresholds latest)) "scheduled" (sc_anomaly_thresholds latest)
      created_by reason (now env) (Some (scheduled_acquisition (now env))) (Some (sc_id latest))
      (merge_sort segment_le segments)]>
    (st_configurations s) |>) ;;
  mret (r <| sn_status := "approved"%string |> <| sn_resulting_configuration_id := Some id |>).

Definition resolve_decision (env : Env) (action : string) (actor_id reason : text) (apply_enabled shadow_mode : bool)
    (latest : option ScraperConfiguration) (r : SourceRecommendation) : M Store SourceRecommendation :=
  if String.eqb action "deny" then mret (r <| sn_status := "denied"%string |>)
  else if shadow_mode || negb apply_enabled then mret (r <| sn_status := "approved_shadow"%string |>)
  else schedule_next env actor_id reason latest r.

Definition decision_details (r : SourceRecommendation) (shadow_mode : bool) : dict :=
  [("before", JObj [("status", JStr (u "pending"))]); ("after", JObj [("status", JStr (u (sn_status r)))]);
   ("proposedAction", JStr (u (sn_action r))); ("segment", JStr (sn_segment_key r));
   ("evidenceChecksum", JStr (sn_evidence_checksum r));
   ("evidenceConfigurationVersion", json_opt JNum (sn_configuration_version r));
   ("resultingConfigurationId", json_opt (λ id, JStr (str_of_uuid id)) (sn_resulting_configuration_id r));
   ("shadowMode", JBool shadow_mode)]%string.

Definition decide_recommendation (env : Env) (recommendation_id : uuid) (action : string) (actor_id reason : text)
    (apply_enabled shadow_mode : bool) (expected_evidence_checksum : option text) : M Store SourceRecommendation :=
  raise_if (negb (String.eqb action "approve" || String.eqb action "deny"))
    (RecommendationDecisionError (u "Unknown decision action.")) ;;
  found ← gets (λ s, st_recommendations s !! recommendation_id);
  recommendation ← require found (LookupError (u "Source Recommendation was not found."));
  raise_if (negb (evidence_matches recommendation expected_evidence_checksum))
    (RecommendationDecisionError (u "The evidence changed since it was shown; production was not changed.")) ;;
  raise_if (negb (String.eqb (sn_status recommendation) "pending"))
    (RecommendationDecisionError (u "Source Recommendation was already decided.")) ;;
  latest ← gets latest_configuration;
  if outdated latest recommendation then
    mark_stale env actor_id reason latest recommendation ;; mret recommendation
  else
    let r := decided env actor_id reason recommendation in
    put_recommendation r ;;
    r ← resolve_decision env action actor_id reason apply_enabled shadow_mode latest r;
    put_recommendation r ;;
    record_activity env (u "source_recommendation_" ++ u (sn_status r)) (u "source_recommendation")
      (str_of_uuid (sn_id r)) actor_id reason (decision_details r shadow_mode) [] ;;
    mret r.

(** The endpoint ([api.decide_source_recommendation]): a refused decision is
    committed, so that a stale recommendation stays stale.  A [KeyError] is a
    [LookupError] whose text is the key's [repr]. *)
Definition decide_source_recommendation (env : Env) (recommendation_id : uuid) (action : string) (user_id : uuid)
    (reason : text) (evidence_checksum : option text) : M Store SourceRecommendation := λ s,
  if negb (String.eqb action "approve" || String.eqb action "deny")
  then (Err (HTTPException 404 (u "Unknown action.")), s) else
  match decide_recommendation env recommendation_id action (str_of_uuid user_id) (strip reason)
          (recommendation_apply_enabled (settings env)) (recommendation_shadow_mode (settings env)) evidence_checksum s with
  | (Ok r, s') => (Ok r, s')
  | (Err (LookupError detail), s') => (Err (HTTPException 404 detail), rollback s s')
  | (Err (KeyError key), s') => (Err (HTTPException 404 (py_repr (JStr key))), rollback s s')
  | (Err (RecommendationDecisionError detail), s') => (Err (HTTPException 409 detail), s')
  | (Err e, s') => (Err e, rollback s s')
  end.
End Decide.
