(* ===== verification/Csv.v ===== *)
(** * Python's [csv.reader] over a text file

    What the uploads of the program are read with: a file opened with
    [encoding="utf-8-sig", newline=""] and [csv.reader] in its default
    dialect.  The reader is the state machine of the standard library; it is
    the inverse of the writer of Artifact.v. *)

From S2P Require Import Prelude PyText States Models LeadDatabases Artifact.

Open Scope N_scope.

(** ** The file *)

(** What depends on the interpreter that runs the code: the longest field
    [csv.field_size_limit()] admits, and how much of an ill-formed file the
    buffered decoder has handed out when it meets the ill-formed byte. *)
Class TextReader : Type := {
  field_size_limit : nat;
  decoded_before_error : list N → text
}.

(** [bs.decode("utf-8")]: strict. *)
Definition utf8_decode (bs : list N) : option text :=
  let t := utf8_decode_ignore bs in
  if bool_decide (utf8_encode t = Some bs) then Some t else None.

(** [utf-8-sig] drops one byte order mark. *)
Definition drop_bom (bs : list N) : list N :=
  match bs with 239 :: 187 :: 191 :: rest => rest | _ => bs end.

(** The lines a file opened with [newline=""] yields: they end at a line feed,
    a carriage return or both, and keep what ended them. *)
Fixpoint split_lines (t : text) : list text :=
  match t with
  | [] => []
  | c :: t' =>
      if c =? 10 then [c] :: split_lines t'
      else if (c =? 13) && negb (bool_decide (head t' = Some 10)) then [c] :: split_lines t'
      else match split_lines t' with
           | [] => [[c]]
           | l :: ls => (c :: l) :: ls
           end
  end.

(** The lines of a stream that breaks off: the last one only if it is complete. *)
Definition complete_lines (t : text) : list text :=
  let lines := split_lines t in
  match last lines with
  | Some l => if bool_decide (last l = Some 10) then lines else removelast lines
  | None => []
  end.

(** ** The reader *)

Inductive csv_state : Type :=
| START_RECORD | START_FIELD | IN_FIELD | IN_QUOTED_FIELD | QUOTE_IN_QUOTED_FIELD | EAT_CRNL.
#[export] Instance csv_state_eq_dec : EqDecision csv_state.
Proof. solve_decision. Defined.

(** The field and the fields read so far are reversed. *)
Record csv_parser : Type := mkCsvParser {
  cp_state : csv_state;
  cp_field : text;
  cp_fields : list text
}.
Definition csv_start : csv_parser := mkCsvParser START_RECORD [] [].

Section Reader.
Context (limit : nat).

Definition add_char (c : N) (st : csv_state) (p : csv_parser) : option csv_parser :=
  if (limit <=? length (cp_field p))%nat then None
  else Some (mkCsvParser st (c :: cp_field p) (cp_fields p)).
Definition save_field (st : csv_state) (p : csv_parser) : option csv_parser :=
  Some (mkCsvParser st [] (rev (cp_field p) :: cp_fields p)).
Definition in_state (st : csv_state) (p : csv_parser) : option csv_parser :=
  Some (mkCsvParser st (cp_field p) (cp_fields p)).

Definition is_eol (c : N) : bool := (c =? 10) || (c =? 13).

(** One character, or the end of a line ([None]); no answer is [csv.Error]. *)
Definition process_char (c : option N) (p : csv_parser) : option csv_parser :=
  match cp_state p, c with
  | START_RECORD, None => in_state START_RECORD p
  | START_RECORD, Some c | START_FIELD, Some c =>
      if is_eol c then
        match cp_state p with START_RECORD => in_state EAT_CRNL p | _ => save_field EAT_CRNL p end
      else if c =? 34 then in_state IN_QUOTED_FIELD p
      else if c =? 44 then save_field START_FIELD p
      else add_char c IN_FIELD p
  | START_FIELD, None | IN_FIELD, None | QUOTE_IN_QUOTED_FIELD, None => save_field START_RECORD p
  | IN_FIELD, Some c =>
      if is_eol c then save_field EAT_CRNL p
      else if c =? 44 then save_field START_FIELD p
      else add_char c IN_FIELD p
  | IN_QUOTED_FIELD, None => in_state IN_QUOTED_FIELD p
  | IN_QUOTED_FIELD, Some c =>
      if c =? 34 then in_state QUOTE_IN_QUOTED_FIELD p else add_char c IN_QUOTED_FIELD p
  | QUOTE_IN_QUOTED_FIELD, Some c =>
      if c =? 34 then add_char c IN_QUOTED_FIELD p
      else if c =? 44 then save_field START_FIELD p
      else if is_eol c then save_field EAT_CRNL p
      else add_char c IN_FIELD p
  | EAT_CRNL, None => in_state START_RECORD p
  | EAT_CRNL, Some c => if is_eol c then in_state EAT_CRNL p else None
  end.

Fixpoint process_chars (line : text) (p : csv_parser) : option csv_parser :=
  match line with
  | [] => Some p
  | c :: line => p ← process_char (Some c) p; process_chars line p
  end.
Definition process_line (line : text) (p : csv_parser) : option csv_parser :=
  p ← process_chars line p; process_char None p.

(** The rows the reader yields, and whether it then raises.  [broken] is a
    stream that raises where another ends; one that ends inside a quoted field
    yields what it has. *)
Fixpoint csv_rows (broken : bool) (p : csv_parser) (lines : list text) : list (list text) * bool :=
  match lines with
  | [] =>
      if broken then ([], true)
      else if bool_decide (cp_state p = IN_QUOTED_FIELD)
           then ([rev (rev (cp_field p) :: cp_fields p)], false) else ([], false)
  | line :: lines =>
      match process_line line p with
      | None => ([], true)
      | Some p =>
          if bool_decide (cp_state p = START_RECORD)
          then let '(rows, raised) := csv_rows broken csv_start lines in (rev (cp_fields p) :: rows, raised)
          else csv_rows broken p lines
      end
  end.
End Reader.

(** [csv.reader(path.open("r", encoding="utf-8-sig", newline=""))] on the bytes
    of the file: the rows, and whether reading on raises. *)
Definition read_csv `{TextReader} (bytes : list N) : list (list text) * bool :=
  match utf8_decode (drop_bom bytes) with
  | Some t => csv_rows field_size_limit false csv_start (split_lines t)
  | None => csv_rows field_size_limit true csv_start (complete_lines (decoded_before_error bytes))
  end.

(** ** The same machine over the text

    The lines disappear: the end of a line is an event between characters. *)

Section Text.
Context (limit : nat).

Definition ends_line (c : N) (rest : text) : bool :=
  (c =? 10) || ((c =? 13) && negb (bool_decide (head rest = Some 10))) || bool_decide (rest = []).

Fixpoint csv_text (p : csv_parser) (t : text) : list (list text) * bool :=
  match t with
  | [] => csv_rows limit false p []
  | c :: t' =>
      match process_char limit (Some c) p with
      | None => ([], true)
      | Some p1 =>
          if ends_line c t' then
            match process_char limit None p1 with
            | None => ([], true)
            | Some p2 =>
                if bool_decide (cp_state p2 = START_RECORD)
                then let '(rows, raised) := csv_text csv_start t' in (rev (cp_fields p2) :: rows, raised)
                else csv_text p2 t'
            end
          else csv_text p1 t'
      end
  end.

Lemma csv_text_cons p c t :
  csv_text p (c :: t) =
  match process_char limit (Some c) p with
  | None => ([], true)
  | Some p1 =>
      if ends_line c t then
        match process_char limit None p1 with
        | None => ([], true)
        | Some p2 =>
            if bool_decide (cp_state p2 = START_RECORD)
            then let '(rows, raised) := csv_text csv_start t in (rev (cp_fields p2) :: rows, raised)
            else csv_text p2 t
        end
      else csv_text p1 t
  end.
Proof. done. Qed.

Lemma csv_rows_cons c l ls p :
  csv_rows limit false p ((c :: l) :: ls) =
  match process_char limit (Some c) p with
  | None => ([], true)
  | Some p1 => csv_rows limit false p1 (l :: ls)
  end.
Proof.
  cbn [csv_rows]. unfold process_line. cbn [process_chars]. by destruct (process_char limit (Some c) p).
Qed.

Lemma csv_rows_text p t : csv_rows limit false p (split_lines t) = csv_text p t.
Proof.
  revert p. induction t as [|c t IH]; intros p; [done|].
  assert (∀ ls, csv_rows limit false p ([c] :: ls) =
    match process_char limit (Some c) p with
    | None => ([], true)
    | Some p1 => match process_char limit None p1 with
                 | None => ([], true)
                 | Some p2 => if bool_decide (cp_state p2 = START_RECORD)
                     then let '(rows, raised) := csv_rows limit false csv_start ls in (rev (cp_fields p2) :: rows, raised)
                     else csv_rows limit false p2 ls
                 end
    end) as Hline.
  { intros ls. rewrite csv_rows_cons. by destruct (process_char limit (Some c) p). }
  cbn [split_lines csv_text]. unfold ends_line. destruct (c =? 10); cbn [orb].
  { rewrite Hline. destruct (process_char _ _ _) as [p1|]; [|done]. destruct (process_char _ None p1); [|done].
    by rewrite !IH. }
  destruct ((c =? 13) && _); cbn [orb].
  { rewrite Hline. destruct (process_char _ _ _) as [p1|]; [|done]. destruct (process_char _ None p1); [|done].
    by rewrite !IH. }
  destruct (split_lines t) as [|l ls] eqn:E.
  - assert (t = []) as ->.
    { destruct t as [|d t]; [done|]. cbn in E. repeat case_match; discriminate. }
    rewrite bool_decide_eq_true_2 by done. rewrite Hline.
    destruct (process_char _ _ _) as [p1|]; [|done]. by destruct (process_char _ None p1).
  - rewrite bool_decide_eq_false_2 by (by intros ->). rewrite csv_rows_cons.
    destruct (process_char _ _ _) as [p1|]; [|done]. apply IH.
Qed.

(** *** Reading what the writer wrote *)

Lemma ends_line_plain c d t : is_eol c = false → ends_line c (d :: t) = false.
Proof.
  unfold ends_line, is_eol. intros [-> ->]%orb_false_iff. cbn. done.
Qed.

Lemma add_char_fit c st p :
  (length (cp_field p) < limit)%nat → add_char limit c st p = Some (mkCsvParser st (c :: cp_field p) (cp_fields p)).
Proof. intros H. unfold add_char. by rewrite (proj2 (Nat.leb_gt _ _) H). Qed.

Lemma csv_special_false c : csv_special c = false → c ≠ 44 ∧ c ≠ 34 ∧ is_eol c = false.
Proof.
  unfold csv_special, is_eol. intros H%bool_decide_eq_false. rewrite !elem_of_cons, elem_of_nil in H.
  split; [naive_solver|]. split; [naive_solver|]. apply orb_false_iff. rewrite !N.eqb_neq. naive_solver.
Qed.

(** Plain characters inside a field. *)
Lemma read_plain w f fs d rest :
  existsb csv_special w = false → (length f + length w ≤ limit)%nat →
  csv_text (mkCsvParser IN_FIELD f fs) (w ++ d :: rest) = csv_text (mkCsvParser IN_FIELD (rev w ++ f) fs) (d :: rest).
Proof.
  revert f. induction w as [|c w IH]; intros f Hs Hl; [done|].
  cbn in Hs. apply orb_false_iff in Hs as [(H44 & H34 & Heol)%csv_special_false Hs].
  cbn [app csv_text]. unfold process_char. cbn [cp_state]. rewrite Heol, (proj2 (N.eqb_neq _ _) H44).
  rewrite add_char_fit by (cbn in *; lia). cbn [cp_field cp_fields].
  assert (ends_line c (w ++ d :: rest) = false) as -> by (destruct w; by apply ends_line_plain).
  rewrite IH by (cbn in *; (done || lia)). cbn [rev]. by rewrite <- app_assoc.
Qed.

(** The escaped body of a quoted field. *)
Lemma read_quoted w f fs rest :
  (length f + length w ≤ limit)%nat →
  csv_text (mkCsvParser IN_QUOTED_FIELD f fs) ((w ≫= λ c, if c =? 34 then [34; 34] else [c]) ++ 34 :: rest) =
  csv_text (mkCsvParser IN_QUOTED_FIELD (rev w ++ f) fs) (34 :: rest).
Proof.
  revert f. induction w as [|c w IH]; intros f Hl; [done|]. cbn [rev mbind list_bind]. rewrite <- !app_assoc.
  destruct (c =? 34) eqn:Ec.
  - apply N.eqb_eq in Ec as ->. cbn [app csv_text]. unfold process_char at 1. cbn [cp_state N.eqb Pos.eqb in_state].
    unfold in_state. cbn [cp_field cp_fields].
    rewrite (ends_line_plain 34) by done. unfold process_char at 1. cbn [cp_state N.eqb Pos.eqb].
    rewrite add_char_fit by (cbn in *; lia). cbn [cp_field cp_fields].
    assert (∀ t : text, t ≠ [] → ends_line 34 t = false) as Hne by (intros [|]; [done | intros _; by apply ends_line_plain]).
    rewrite Hne by (by destruct w as [|x ?]; cbn; [|destruct (x =? 34)]).
    rewrite IH by (cbn in *; lia). done.
  - cbn [app csv_text]. unfold process_char at 1. cbn [cp_state]. rewrite Ec.
    rewrite add_char_fit by (cbn in *; lia). cbn [cp_field cp_fields].
    destruct (ends_line c _); [unfold process_char at 1; cbn [cp_state]; unfold in_state; cbn|];
      rewrite IH by (cbn in *; lia); done.
Qed.

(** What follows a field: a comma opens the next one, a line feed ends the
    record.  A blank line is the one record that is not what was written. *)
Definition after_field (st : csv_state) (t : text) (fs : list text) (d : N) (rest : text) : list (list text) * bool :=
  if d =? 44 then csv_text (mkCsvParser START_FIELD [] (t :: fs)) rest
  else let '(rows, raised) := csv_text csv_start rest in (rev (t :: fs) :: rows, raised).

Lemma field_start c st fs :
  st = START_RECORD ∨ st = START_FIELD → is_eol c = false →
  process_char limit (Some c) (mkCsvParser st [] fs) =
    if c =? 34 then Some (mkCsvParser IN_QUOTED_FIELD [] fs)
    else if c =? 44 then Some (mkCsvParser START_FIELD [] ([] :: fs))
    else add_char limit c IN_FIELD (mkCsvParser st [] fs).
Proof. intros [-> | ->] H; unfold process_char; cbn [cp_state]; by rewrite H. Qed.

Lemma ends_line_lf rest : ends_line 10 rest = true.
Proof. done. Qed.

Lemma read_field st t fs d rest :
  st = START_RECORD ∨ st = START_FIELD → (length t ≤ limit)%nat →
  (d = 44 ∧ rest ≠ []) ∨ (d = 10 ∧ (st = START_RECORD → t ≠ [])) →
  csv_text (mkCsvParser st [] fs) (csv_field t ++ d :: rest) = after_field st t fs d rest.
Proof.
  intros Hst Hl Hd.
  assert (∀ st' f, st' = IN_FIELD ∨ st' = QUOTE_IN_QUOTED_FIELD ∨ (st' = START_FIELD ∧ f = []) →
    csv_text (mkCsvParser st' f fs) (d :: rest) = after_field st (rev f) fs d rest) as Hend.
  { intros st' f Hst'. unfold after_field. rewrite csv_text_cons.
    destruct Hd as [[-> Hr]|[-> _]].
    - destruct rest as [|c rest]; [done|].
      destruct Hst' as [-> |[-> |[-> ->]]]; unfold process_char, save_field; cbn [cp_state is_eol N.eqb Pos.eqb orb cp_field cp_fields];
        by rewrite (ends_line_plain 44).
    - rewrite ends_line_lf.
      destruct Hst' as [-> |[-> |[-> ->]]]; unfold process_char, save_field, in_state;
        cbn [cp_state is_eol N.eqb Pos.eqb orb cp_field cp_fields]; by rewrite bool_decide_eq_true_2. }
  unfold csv_field. destruct (existsb csv_special t) eqn:Hs.
  - cbn [app]. rewrite <- app_assoc. cbn [app].
    set (body := _ ≫= _). rewrite csv_text_cons.
    assert (process_char limit (Some 34) (mkCsvParser st [] fs) = Some (mkCsvParser IN_QUOTED_FIELD [] fs)) as ->
      by (destruct Hst as [-> | ->]; done).
    assert (ends_line 34 (body ++ 34 :: d :: rest) = false) as ->.
    { destruct body; by apply ends_line_plain. }
    unfold body. rewrite read_quoted by (cbn; lia). rewrite app_nil_r. rewrite csv_text_cons.
    unfold process_char at 1, in_state. cbn [cp_state N.eqb Pos.eqb cp_field cp_fields].
    rewrite (ends_line_plain 34) by done. rewrite Hend by auto. by rewrite rev_involutive.
  - destruct t as [|c t].
    + cbn [app]. destruct Hst as [-> | ->]; [|by rewrite Hend by auto].
      destruct Hd as [[-> Hr]|[-> Hne]]; [|by destruct Hne].
      unfold after_field. rewrite csv_text_cons. cbn [N.eqb Pos.eqb]. destruct rest; [done|]. by rewrite (ends_line_plain 44).
    + cbn in Hs. apply orb_false_iff in Hs as [(H44 & H34 & Heol)%csv_special_false Hs].
      cbn [app]. rewrite csv_text_cons. rewrite field_start by done.
      rewrite (proj2 (N.eqb_neq _ _) H34), (proj2 (N.eqb_neq _ _) H44), add_char_fit by (cbn in *; lia).
      assert (ends_line c (t ++ d :: rest) = false) as -> by (destruct t; by apply ends_line_plain).
      rewrite read_plain by (cbn in *; (done || lia)). rewrite Hend by auto.
      rewrite rev_app_distr, rev_involutive. done.
Qed.

(** A row whose only field is empty is written as a blank line. *)
Definition readable (row : list text) : Prop :=
  row ≠ [] ∧ row ≠ [[]] ∧ Forall (λ t, (length t ≤ limit)%nat) row.

Lemma read_fields st fields fs rest :
  st = START_RECORD ∨ st = START_FIELD → fields ≠ [] → (st = START_RECORD → fields ≠ [[]]) →
  Forall (λ t, (length t ≤ limit)%nat) fields →
  csv_text (mkCsvParser st [] fs) (csv_row fields ++ rest) =
  let '(rows, raised) := csv_text csv_start rest in ((rev fs ++ fields) :: rows, raised).
Proof.
  unfold csv_row. revert st fs. induction fields as [|t fields IH]; intros st fs Hst Hne Hblank Hall; [done|].
  apply Forall_cons in Hall as [Ht Hall]. destruct fields as [|t' fields].
  - cbn [fmap list_fmap join]. rewrite <- app_assoc. cbn [app].
    rewrite read_field; [|done|done|right; split; [done|]; intros E ->; by apply Hblank].
    unfold after_field. cbn [N.eqb Pos.eqb]. by destruct (csv_text csv_start rest).
  - assert (join [44] (csv_field <$> t :: t' :: fields) = csv_field t ++ 44 :: join [44] (csv_field <$> t' :: fields)) as ->
      by done.
    rewrite <- !app_assoc. cbn [app]. rewrite read_field.
    + unfold after_field. cbn [N.eqb Pos.eqb]. specialize (IH START_FIELD (t :: fs)).
      rewrite <- app_assoc in IH. cbn [app] in IH. rewrite IH; [|by right|done|done|done]. cbn [rev]. destruct (csv_text csv_start rest). by rewrite <- app_assoc.
    + done.
    + done.
    + left. split; [done|]. destruct (join _ _); done.
Qed.

(** The reader gives back what the writer was given. *)
Lemma csv_roundtrip rows :
  Forall readable rows → csv_rows limit false csv_start (split_lines (concat (csv_row <$> rows))) = (rows, false).
Proof.
  intros Hall. rewrite csv_rows_text. induction Hall as [|row rows (Hne & Hblank & Hlen) _ IH]; [done|].
  cbn [fmap list_fmap concat]. unfold csv_start at 1. rewrite read_fields by auto. by rewrite IH.
Qed.
End Text.

(** ** A delivered part *)

Lemma utf8_decode_Some t bs : utf8_encode t = Some bs → utf8_decode bs = Some t.
Proof.
  intros E. unfold utf8_decode. rewrite (utf8_decode_encode _ _ E). by rewrite bool_decide_eq_true_2.
Qed.

Lemma utf8_encode_length t bs : utf8_encode t = Some bs → (length t ≤ length bs)%nat.
Proof.
  revert bs. induction t as [|c t IH]; intros bs; cbn; [intros [= <-]; cbn; lia|].
  destruct (utf8_cp c) as [b|] eqn:Hc; [|done]. cbn. destruct (utf8_encode t) as [bs'|]; [|done]. cbn.
  intros [= <-]. rewrite length_app. apply utf8_cp_length in Hc. specialize (IH _ eq_refl). lia.
Qed.

Lemma csv_lines_rows rows lines :
  csv_lines rows = Ok lines → ∃ titles,
    Forall2 (λ r t, truncate_utf8 r.2 TITLE_MAX_BYTES = Ok t) rows titles ∧
    lines = concat (csv_row <$> zip_with (λ r t, [r.1; t]) rows titles).
Proof.
  revert lines. induction rows as [|[phone title] rows IH]; intros lines; cbn [csv_lines].
  { intros [= <-]. by exists []. }
  intros (title' & Ht & H)%obind_Ok_inv. apply obind_Ok_inv in H as (rest & (titles & Hall & ->)%IH & [= <-]).
  exists (title' :: titles). split; [by constructor|]. done.
Qed.

(** the CSV a Customer receives reads back.  Whatever quotes, commas and
    line breaks its fields hold, [csv.reader] gives the header and, for every
    Lead, its phone and its title cut to the byte limit; so the parts of a
    Batch Artifact can be opened and uploaded again without loss. *)
Theorem artifact_csv_reads_back `{TextReader} rows bytes :
  csv_bytes rows = Ok bytes →
  (TITLE_MAX_BYTES ≤ field_size_limit)%nat → Forall (λ r, (length r.1 ≤ field_size_limit)%nat) rows →
  ∃ titles, Forall2 (λ r t, truncate_utf8 r.2 TITLE_MAX_BYTES = Ok t) rows titles ∧
    read_csv bytes = ([u "phone"; u "title"] :: zip_with (λ r t, [r.1; t]) rows titles, false).
Proof.
  intros Hb Hlim Hlen. unfold csv_bytes in Hb. apply obind_Ok_inv in Hb as (lines & (titles & Hall & ->)%csv_lines_rows & Hb).
  destruct (utf8_encode _) as [bs|] eqn:E in Hb; [|done]. injection Hb as <-.
  exists titles. split; [done|]. unfold read_csv.
  assert (drop_bom bs = bs) as ->.
  { assert (∃ t, csv_row [u "phone"; u "title"] = 112 :: t) as [t Et] by (eexists; vm_compute; reflexivity).
    rewrite Et in E. cbn [app utf8_encode] in E. destruct (utf8_encode (t ++ _)) in E; [|done]. by injection E as <-. }
  rewrite (utf8_decode_Some _ _ E).
  apply (csv_roundtrip _ ([u "phone"; u "title"] :: _)). apply Forall_cons. split.
  - split; [done|]. split; [done|]. unfold TITLE_MAX_BYTES in Hlim. apply Forall_cons. split; [|apply Forall_singleton];
      change (5 ≤ field_size_limit)%nat; lia.
  - clear E. induction Hall as [|[phone title] t rows titles Ht _ IH]; [constructor|].
    apply Forall_cons in Hlen as [Hp Hlen]. cbn [zip_with]. constructor; [|by apply IH].
    split; [done|]. split; [done|]. apply Forall_cons. split; [done|]. apply Forall_singleton.
    destruct (truncate_utf8_maximal _ _ _ Ht) as (rest & b & _ & Hb & Hle & _). apply utf8_encode_length in Hb. lia.
Qed.

#[local] Instance example_reader : TextReader := {| field_size_limit := 512; decoded_before_error _ := [] |}.
Definition example_rows_csv : list (text * text) :=
  [(u "2155550101", u "Ann, " ++ [34] ++ u "Al" ++ [34; 10] ++ u "& Co"); (u "2155550102", [])].

Lemma artifact_csv_reads_back_witness :
  ∃ bytes titles, csv_bytes example_rows_csv = Ok bytes ∧
    read_csv bytes = ([u "phone"; u "title"] :: zip_with (λ r t, [r.1; t]) example_rows_csv titles, false).
Proof.
  destruct (csv_bytes example_rows_csv) as [bytes|] eqn:E; [|vm_compute in E; discriminate E].
  destruct (artifact_csv_reads_back example_rows_csv bytes E) as (titles & _ & Hr).
  - cbn. unfold TITLE_MAX_BYTES. apply Nat.leb_le. vm_compute. reflexivity.
  - repeat constructor; apply Nat.leb_le; vm_compute; reflexivity.
  - exists bytes, titles. split; [reflexivity | exact Hr].
Defined.

(** Quotes inside a field, a blank line, and a quoted field the file ends in. *)
Example reader_quirks :
  read_csv (u "a " ++ [34] ++ u "b" ++ [34; 13; 10; 10] ++ [34] ++ u "c,d" ++ [10])%list =
  ([[u "a " ++ [34] ++ u "b" ++ [34]]; []; [u "c,d" ++ [10]]], false).
Proof. vm_compute. reflexivity. Qed.
