(* ===== verification/Exclusions.v ===== *)
(** * Exclusion Lists

    [jawnix/exclusions.py]: an uploaded list of phones is read, counted and
    put into effect, at once for an administrator's list, after confirmation
    beyond the uploading Customer for a Customer's. *)

From S2P Require Import Prelude PyText States Models Sql Activity Jobs LeadDatabases NichePolicy Eligible Artifact Csv.

Open Scope Z_scope.

Definition MIN_ROWS : Z := 1000.
Definition MAX_ROWS : Z := 50000.

Definition exclusion_status_value (st : ExclusionStatus) : string :=
  match st with
  | xl_queued => "queued" | xl_ingesting => "ingesting" | xl_failed => "failed"
  | xl_confirmed => "confirmed" | xl_pending_confirmation => "pending_confirmation" | xl_denied => "denied"
  end.

Definition put_exclusion_list (item : ExclusionList) : M Store unit :=
  modify (λ s, s <| st_exclusion_lists := <[xl_id item := item]> (st_exclusion_lists s) |>).

(** ** Reading the file *)

Section Read.
Context `{CaseMapping}.

(** [value.strip().casefold().replace(" ", "_")] *)
Definition header_name (value : text) : text :=
  map (λ c, if (c =? 32)%N then 95%N else c) (py_casefold (strip value)).

Fixpoint index_of (name : text) (l : list text) : option nat :=
  match l with
  | [] => None
  | x :: l => if bool_decide (x = name) then Some O else S <$> index_of name l
  end.

(** The column of the phones and whether the first row is a header. *)
Definition phone_column (first : list text) : nat * bool :=
  let header := header_name <$> first in
  match index_of (u "phone") header, index_of (u "phone_number") header, index_of (u "telephone") header with
  | Some i, _, _ => (i, true)
  | None, Some i, _ => (i, true)
  | None, None, Some i => (i, true)
  | None, None, None => (O, false)
  end.

(** What the loop over the rows keeps; the phones are newest first. *)
Record Scan : Type := mkScan {
  sc_total : Z;
  sc_invalid : Z;
  sc_duplicate : Z;
  sc_phones : list text
}.

Definition row_phone (column : nat) (row : list text) : option text :=
  normalize_phone (Some (default [] (row !! column))).

Definition scan_row (column : nat) (sc : Scan) (row : list text) : Scan :=
  match row_phone column row with
  | None => mkScan (sc_total sc + 1) (sc_invalid sc + 1) (sc_duplicate sc) (sc_phones sc)
  | Some phone =>
      if bool_decide (phone ∈ sc_phones sc)
      then mkScan (sc_total sc + 1) (sc_invalid sc) (sc_duplicate sc + 1) (sc_phones sc)
      else mkScan (sc_total sc + 1) (sc_invalid sc) (sc_duplicate sc) (phone :: sc_phones sc)
  end.

(** The loop, and whether it stopped at the row past the cap. *)
Fixpoint scan_rows (column : nat) (sc : Scan) (rows : list (list text)) : Scan * bool :=
  match rows with
  | [] => (sc, false)
  | row :: rows => if MAX_ROWS <=? sc_total sc then (sc, true) else scan_rows column (scan_row column sc row) rows
  end.

Inductive ReadFailure : Type := Unreadable | OverLimit.

(** The data rows of a file, without a header. *)
Definition data_rows (rows : list (list text)) : nat * list (list text) :=
  match rows with
  | [] => (O, [])
  | first :: rest => let '(column, is_header) := phone_column first in
                     (column, if is_header then rest else first :: rest)
  end.

Definition read_phones `{TextReader} (file : option (list N)) (sc : Scan) : Scan * option ReadFailure :=
  match file with
  | None => (sc, Some Unreadable)
  | Some bytes =>
      let '(rows, raised) := read_csv bytes in
      let '(column, data) := data_rows rows in
      let '(sc, over_limit) := scan_rows column sc data in
      (sc, if over_limit then Some OverLimit else if raised then Some Unreadable else None)
  end.
End Read.

(** ** The impact on the pool *)

Definition already_global (s : Store) (except : uuid) (phone : text) : bool :=
  existsb (λ p, bool_decide (xp_phone p = phone) && negb (bool_decide (xp_exclusion_list_id p = except)) &&
    match st_exclusion_lists s !! xp_exclusion_list_id p with
    | Some l => xl_global_effective l
    | None => false
    end) (st_exclusion_phones s).
Definition uploaded_phone (s : Store) (id : uuid) (phone : text) : bool :=
  existsb (λ p, bool_decide (xp_exclusion_list_id p = id) && bool_decide (xp_phone p = phone)) (st_exclusion_phones s).
Definition held (s : Store) (lead_id : Z) : bool :=
  existsb (λ h, (eh_lead_id h =? lead_id) && eh_active h) (st_eligibility_holds s).

Definition currently_available_pool_impact (s : Store) (id : uuid) : Z :=
  Z.of_nat (length (List.filter (λ l, negb (ld_suppressed l) && negb (held s (ld_id l)) &&
    negb (already_global s id (ld_phone l)) && uploaded_phone s id (ld_phone l)) (map_to_list (st_leads s)).*2)).

Definition refresh_pool_impact (item : ExclusionList) : M Store ExclusionList :=
  impact ← gets (λ s, currently_available_pool_impact s (xl_id item));
  mret (item <| xl_pool_impact := impact |>).

(** ** Ingestion *)

Definition UNREADABLE : text := u "The CSV could not be read.".
Definition ROWS_REQUIRED : text :=
  u "Exclusion Lists must contain 1,000" ++ [8211%N] ++ u "50,000 data rows".
Definition TOO_MANY_ROWS : text := ROWS_REQUIRED ++ u "; this file holds more than 50,000.".
Definition TOO_FEW_ROWS : text := ROWS_REQUIRED ++ u ".".

Section Ingest.
Context `{CaseMapping} `{TextReader}.

(** The row counts as the loop leaves them on the item. *)
Definition with_counts (sc : Scan) (item : ExclusionList) : ExclusionList :=
  item <| xl_total_rows := sc_total sc |> <| xl_invalid_rows := sc_invalid sc |>
       <| xl_duplicate_rows := sc_duplicate sc |>.

Definition refuse_list (error : text) (item : ExclusionList) : M Store ExclusionList :=
  let item := item <| xl_status := xl_failed |> <| xl_error := error |> in
  put_exclusion_list item ;;
  mret item.

(** [session.add_all(...)] and [session.flush()] *)
Definition add_phones (id : uuid) (phones : list text) : M Store unit :=
  taken ← gets (λ s, existsb (uploaded_phone s id) phones);
  raise_if taken (IntegrityError (u "exclusion_phones_pkey")) ;;
  modify (λ s, s <| st_exclusion_phones := st_exclusion_phones s ++ (mkExclusionPhone id <$> phones) |>).

(** The decision state of a list that was read. *)
Definition settle_list (env : Env) (item : ExclusionList) : ExclusionList :=
  let item := item <| xl_ingested_at := Some (now env) |> in
  match xl_customer_id item with
  | None =>
      item <| xl_status := xl_confirmed |> <| xl_global_effective := true |> <| xl_decided_at := xl_ingested_at item |>
           <| xl_decision_actor := xl_uploaded_by item |>
           <| xl_decision_reason := match xl_decision_reason item with
                                    | [] => u "Administrator bulk upload" | reason => reason end |>
  | Some _ => item <| xl_status := xl_pending_confirmation |>
  end.

Definition ingest_exclusion_list (env : Env) (exclusion_list_id : uuid) : M Store ExclusionList :=
  found ← gets (λ s, st_exclusion_lists s !! exclusion_list_id);
  item ← require found (LookupError (u "Exclusion List was not found."));
  if negb (bool_decide (xl_status item = xl_queued)) then mret item else
  let item := item <| xl_status := xl_ingesting |> in
  file ← gets (λ s, st_files s !! xl_storage_path item);
  let '(sc, failure) := read_phones file (mkScan (xl_total_rows item) (xl_invalid_rows item) (xl_duplicate_rows item) []) in
  let item := with_counts sc item in
  match failure with
  | Some Unreadable => refuse_list UNREADABLE item
  | Some OverLimit => refuse_list TOO_MANY_ROWS item
  | None =>
      if xl_total_rows item <? MIN_ROWS then refuse_list TOO_FEW_ROWS item else
      let phones := sorted_set (sc_phones sc) in
      let item := item <| xl_accepted_rows := Z.of_nat (length phones) |> in
      add_phones (xl_id item) phones ;;
      item ← refresh_pool_impact item;
      let item := settle_list env item in
      put_exclusion_list item ;;
      record_activity env (u "exclusion_list_ingested") (u "exclusion_list") (str_of_uuid (xl_id item))
        (match xl_customer_id item with None => xl_uploaded_by item | Some _ => u "system:exclusion-ingestion" end)
        (match xl_customer_id item with
         | None => xl_decision_reason item
         | Some _ => u "Exclusion List background ingestion completed" end)
        [("customerId", json_opt JNum (xl_customer_id item)); ("type", JStr (xl_exclusion_type item));
         ("acceptedRows", JNum (xl_accepted_rows item)); ("invalidRows", JNum (xl_invalid_rows item));
         ("duplicateRows", JNum (xl_duplicate_rows item)); ("poolImpact", JNum (xl_pool_impact item));
         ("global", JBool (xl_global_effective item))]%string [] ;;
      mret item
  end.
End Ingest.

(** ** Decision *)

(** [review.summary.get("exclusionLists") or []] *)
Definition summary_rows (summary : dict) : outcome (list json) :=
  match dict_get "exclusionLists" summary with
  | None | Some (JNull | JBool false | JNum 0 | JStr [] | JList [] | JObj []) => Ok []
  | Some (JList rows) => Ok rows
  | Some (JFloat literal) =>
      if bool_decide (literal = u "0.0" ∨ literal = u "-0.0") then Ok []
      else Err (TypeError (u "object is not iterable"))
  | Some (JBool _ | JNum _) => Err (TypeError (u "object is not iterable"))
  | Some (JStr _ | JObj _) => Err (AttributeError (u "get"))
  end.

Definition update_summary_row (item : ExclusionList) (row : json) : outcome json :=
  match row with
  | JObj fields =>
      Ok (if match dict_get "id" fields with
             | Some (JStr id) => bool_decide (id = str_of_uuid (xl_id item))
             | _ => false
             end
          then JObj (dict_set "poolImpact" (JNum (xl_pool_impact item))
                      (dict_set "status" (JStr (u (exclusion_status_value (xl_status item)))) fields))
          else row)
  | _ => Err (AttributeError (u "get"))
  end.

Fixpoint update_summary_rows (item : ExclusionList) (rows : list json) : outcome (list json) :=
  match rows with
  | [] => Ok []
  | row :: rows =>
      row ← update_summary_row item row;
      rows ← update_summary_rows item rows;
      Ok (row :: rows)
  end.

Definition update_review (env : Env) (item : ExclusionList) : M Store unit :=
  match xl_nightly_review_id item with
  | None => mret tt
  | Some review_id =>
      found ← gets (λ s, st_reviews s !! review_id);
      match found with
      | None => mret tt
      | Some review =>
          rows ← lift (rows ← summary_rows (nr_summary review); update_summary_rows item rows);
          modify (λ s, s <| st_reviews := <[review_id :=
            review <| nr_summary := dict_set "exclusionLists" (JList rows) (nr_summary review) |>]> (st_reviews s) |>) ;;
          when (negb (bool_decide (nr_telegram_message_id review = [])))
            (enqueue_job env "update_nightly_review_notification" None
               [("review_id", JStr (str_of_uuid (nr_id review)))]%string ;; mret tt)
      end
  end.

Definition decide_exclusion_list (env : Env) (exclusion_list_id : uuid) (action : string) (actor_id reason : text)
    : M Store ExclusionList :=
  raise_if (negb (bool_decide (action ∈ ["confirm"; "deny"]%string)))
    (ExclusionDecisionError (u "Unknown Exclusion List decision.")) ;;
  found ← gets (λ s, st_exclusion_lists s !! exclusion_list_id);
  item ← require found (LookupError (u "Exclusion List was not found."));
  raise_if (bool_decide (xl_customer_id item = None))
    (ExclusionDecisionError (u "Administrator uploads do not require confirmation.")) ;;
  raise_if (negb (bool_decide (xl_status item = xl_pending_confirmation)))
    (ExclusionDecisionError (u "Only a pending Exclusion List can be decided.")) ;;
  raise_if (bool_decide (strip reason = [])) (ExclusionDecisionError (u "A decision reason is required.")) ;;
  item ← refresh_pool_impact item;
  let confirm := bool_decide (action = "confirm"%string) in
  let item := item <| xl_status := if confirm then xl_confirmed else xl_denied |> <| xl_global_effective := confirm |>
                   <| xl_decision_actor := actor_id |> <| xl_decision_reason := strip reason |>
                   <| xl_decided_at := Some (now env) |> in
  put_exclusion_list item ;;
  record_activity env (u "exclusion_list_" ++ u (exclusion_status_value (xl_status item))) (u "exclusion_list")
    (str_of_uuid (xl_id item)) actor_id (strip reason)
    [("customerId", json_opt JNum (xl_customer_id item)); ("type", JStr (xl_exclusion_type item));
     ("poolImpact", JNum (xl_pool_impact item)); ("global", JBool (xl_global_effective item))]%string [] ;;
  update_review env item ;;
  mret item.

(** ** Lemmas *)

Section Scanning.
Context `{CaseMapping}.

Definition invalid_row (column : nat) (row : list text) : bool := bool_decide (row_phone column row = None).

Lemma scan_row_spec column sc row :
  NoDup (sc_phones sc) →
  let sc' := scan_row column sc row in
  sc_total sc' = sc_total sc + 1 ∧ NoDup (sc_phones sc') ∧
  sc_invalid sc' = sc_invalid sc + (if invalid_row column row then 1 else 0) ∧
  sc_total sc' - sc_invalid sc' - sc_duplicate sc' - Z.of_nat (length (sc_phones sc')) =
    sc_total sc - sc_invalid sc - sc_duplicate sc - Z.of_nat (length (sc_phones sc)) ∧
  (∀ ph, ph ∈ sc_phones sc' ↔ ph ∈ sc_phones sc ∨ row_phone column row = Some ph).
Proof.
  intros Hnd. unfold scan_row, invalid_row. destruct (row_phone column row) as [phone|]; cbv zeta.
  - rewrite (bool_decide_eq_false_2 (Some phone = None)) by done. case_bool_decide as Hin; cbn; split_and!; try done; try lia.
    + intros ph. split; [by left|]. intros [?|[= <-]]; done.
    + by constructor.
    + intros ph. rewrite elem_of_cons. naive_solver.
  - rewrite bool_decide_eq_true_2 by done. cbn. split_and!; try done; try lia. intros ph. naive_solver.
Qed.

(** A loop that ran to the end counted every row once. *)
Lemma scan_rows_spec column sc rows sc' :
  NoDup (sc_phones sc) → scan_rows column sc rows = (sc', false) →
  sc_total sc' = sc_total sc + Z.of_nat (length rows) ∧ NoDup (sc_phones sc') ∧
  sc_invalid sc' = sc_invalid sc + Z.of_nat (length (List.filter (invalid_row column) rows)) ∧
  sc_total sc' - sc_invalid sc' - sc_duplicate sc' - Z.of_nat (length (sc_phones sc')) =
    sc_total sc - sc_invalid sc - sc_duplicate sc - Z.of_nat (length (sc_phones sc)) ∧
  (∀ ph, ph ∈ sc_phones sc' ↔ ph ∈ sc_phones sc ∨ ∃ row, row ∈ rows ∧ row_phone column row = Some ph) ∧
  sc_total sc' ≤ Z.max (sc_total sc) MAX_ROWS.
Proof.
  revert sc. induction rows as [|row rows IH]; intros sc Hnd; cbn [scan_rows].
  { intros [= <-]. cbn. split_and!; try done; try lia. intros ph. split; [by left|].
    intros [|(row & Hr & _)]; [done|]. by apply not_elem_of_nil in Hr. }
  destruct (Z.leb_spec MAX_ROWS (sc_total sc)) as [|Hlt]; [done|]. intros Hrun.
  destruct (scan_row_spec column sc row Hnd) as (Ht & Hnd' & Hi & Hsum & Hph).
  destruct (IH _ Hnd' Hrun) as (Ht' & Hnd'' & Hi' & Hsum' & Hph' & Hb). cbn [length List.filter].
  split_and!; try done; try lia.
  - destruct (invalid_row column row); cbn [length]; lia.
  - intros ph. rewrite Hph', Hph. setoid_rewrite elem_of_cons. naive_solver.
Qed.

Lemma read_phones_None `{TextReader} file sc sc' :
  read_phones file sc = (sc', None) →
  ∃ bytes rows column data, file = Some bytes ∧ read_csv bytes = (rows, false) ∧ data_rows rows = (column, data) ∧
    scan_rows column sc data = (sc', false).
Proof.
  unfold read_phones. destruct file as [bytes|]; [|done].
  destruct (read_csv bytes) as [rows raised] eqn:Er. destruct (data_rows rows) as [column data] eqn:Ed.
  destruct (scan_rows column sc data) as [sc1 over] eqn:Es. destruct over, raised; try done. intros [= ->].
  by exists bytes, rows, column, data.
Qed.
End Scanning.

(** A list stays on file under its identifier. *)
Definition keyed_lists (s : Store) : Prop := ∀ k l, st_exclusion_lists s !! k = Some l → xl_id l = k.

(** Whoever a list protects is offered none of its phones. *)
Lemma list_protects `{CaseMapping} s id item (phones : list text) request customer instant lead :
  st_exclusion_lists s !! id = Some item → (∀ ph, ph ∈ phones → mkExclusionPhone id ph ∈ st_exclusion_phones s) →
  xl_global_effective item = true ∨ xl_customer_id item = Some (cu_id customer) →
  lead ∈ eligible_query s request customer instant → ld_phone lead ∉ phones.
Proof.
  intros Hl Hin Heff [_ Hw]%elem_of_eligible_with Hph.
  destruct (eligible_unexcluded _ _ _ _ _ _ (mkExclusionPhone id (ld_phone lead)) item Hw) as [Hg Hc]; try done.
  { by apply Hin. }
  destruct Heff; congruence.
Qed.

(** What a successful ingestion of a queued list did. *)
Record ingested `{CaseMapping} `{TextReader} (env : Env) (s s' : Store) (item item' : ExclusionList)
    (phones : list text) : Prop := {
  ig_rows : ∃ bytes rows column data, st_files s !! xl_storage_path item = Some bytes ∧
    read_csv bytes = (rows, false) ∧ data_rows rows = (column, data) ∧
    xl_total_rows item' = Z.of_nat (length data) ∧
    xl_invalid_rows item' = Z.of_nat (length (List.filter (invalid_row column) data)) ∧
    (∀ ph, ph ∈ phones ↔ ∃ row, row ∈ data ∧ row_phone column row = Some ph);
  ig_bounds : MIN_ROWS ≤ xl_total_rows item' ≤ MAX_ROWS;
  ig_sum : xl_total_rows item' = xl_accepted_rows item' + xl_invalid_rows item' + xl_duplicate_rows item';
  ig_nodup : NoDup phones;
  ig_accepted : xl_accepted_rows item' = Z.of_nat (length phones);
  ig_phones : st_exclusion_phones s' = st_exclusion_phones s ++ (mkExclusionPhone (xl_id item) <$> phones);
  ig_impact : xl_pool_impact item' = currently_available_pool_impact s' (xl_id item);
  ig_status : match xl_customer_id item with
              | None => xl_status item' = xl_confirmed ∧ xl_global_effective item' = true
              | Some _ => xl_status item' = xl_pending_confirmation ∧
                          xl_global_effective item' = xl_global_effective item
              end;
  ig_customer : xl_customer_id item' = xl_customer_id item;
  ig_lists : st_exclusion_lists s' = <[xl_id item := item']> (st_exclusion_lists s);
  ig_leads : st_leads s' = st_leads s
}.

Lemma add_phones_Ok id phones s r s' :
  add_phones id phones s = (Ok r, s') →
  s' = s <| st_exclusion_phones := st_exclusion_phones s ++ (mkExclusionPhone id <$> phones) |>.
Proof.
  unfold add_phones. rewrite bind_gets. intros H. apply bind_Ok_inv in H as (x & s1 & Hg & H).
  apply raise_if_Ok_inv in Hg as (_ & -> & _). by apply modify_Ok_inv in H as [_ ->].
Qed.

(** A list that is refused keeps the store, but for its own row. *)
Definition refused (s s' : Store) (item item' : ExclusionList) : Prop :=
  xl_status item' = xl_failed ∧ xl_error item' ≠ [] ∧ xl_global_effective item' = xl_global_effective item ∧
  s' = s <| st_exclusion_lists := <[xl_id item := item']> (st_exclusion_lists s) |>.

Lemma refuse_list_refused error i item s i' s' :
  refuse_list error i s = (Ok i', s') → error ≠ [] → xl_id i = xl_id item →
  xl_global_effective i = xl_global_effective item → refused s s' item i'.
Proof.
  unfold refuse_list, put_exclusion_list. cbv zeta. rewrite bind_modify. intros [<- <-]%ret_Ok_inv He Hid Hg.
  split; [done|]. split; [done|]. split; [done|]. rewrite <- Hid. reflexivity.
Qed.

(** The impact of a list does not depend on its own decision state. *)
Lemma pool_impact_frame s s' id :
  st_leads s' = st_leads s → st_eligibility_holds s' = st_eligibility_holds s →
  st_exclusion_phones s' = st_exclusion_phones s →
  (∀ k, k ≠ id → st_exclusion_lists s' !! k = st_exclusion_lists s !! k) →
  currently_available_pool_impact s' id = currently_available_pool_impact s id.
Proof.
  intros El Eh Ep Hk. unfold currently_available_pool_impact. rewrite El. do 2 f_equal. apply List.filter_ext. intros l.
  unfold held, uploaded_phone. rewrite Eh, Ep. do 2 f_equal. f_equal. unfold already_global. rewrite Ep.
  clear Ep. induction (st_exclusion_phones s) as [|p ps IH]; [done|]. cbn [existsb]. f_equal; [|done].
  destruct (decide (xp_exclusion_list_id p = id)) as [->|Hne]; [|by rewrite Hk].
  rewrite (bool_decide_eq_true_2 (id = id)) by done. cbn [negb]. by rewrite !andb_false_r.
Qed.

Lemma settle_list_spec env i :
  let i' := settle_list env i in
  (xl_id i', xl_customer_id i', xl_total_rows i', xl_invalid_rows i', xl_duplicate_rows i', xl_accepted_rows i',
   xl_pool_impact i') =
  (xl_id i, xl_customer_id i, xl_total_rows i, xl_invalid_rows i, xl_duplicate_rows i, xl_accepted_rows i,
   xl_pool_impact i) ∧
  match xl_customer_id i with
  | None => xl_status i' = xl_confirmed ∧ xl_global_effective i' = true
  | Some _ => xl_status i' = xl_pending_confirmation ∧ xl_global_effective i' = xl_global_effective i
  end.
Proof. destruct i as [? [c|]]; split; [reflexivity|by split|reflexivity|by split]. Qed.

Lemma ingest_queued `{CaseMapping} `{TextReader} env id s item item' s' :
  st_exclusion_lists s !! id = Some item → xl_status item = xl_queued →
  xl_total_rows item = 0 → xl_invalid_rows item = 0 → xl_duplicate_rows item = 0 →
  ingest_exclusion_list env id s = (Ok item', s') →
  refused s s' item item' ∨ ∃ phones, ingested env s s' item item' phones.
Proof.
  intros Hl Hq Ht Hi Hd Hrun. unfold ingest_exclusion_list in Hrun. rewrite bind_gets, Hl in Hrun.
  cbn [require] in Hrun. rewrite bind_ret, Hq, bool_decide_eq_true_2 in Hrun by done. cbn [negb] in Hrun. cbv zeta in Hrun.
  rewrite bind_gets in Hrun. change (xl_storage_path (item <| xl_status := xl_ingesting |>)) with (xl_storage_path item) in Hrun.
  change (mkScan (xl_total_rows (item <| xl_status := xl_ingesting |>)) (xl_invalid_rows (item <| xl_status := xl_ingesting |>))
    (xl_duplicate_rows (item <| xl_status := xl_ingesting |>)) [])
    with (mkScan (xl_total_rows item) (xl_invalid_rows item) (xl_duplicate_rows item) []) in Hrun.
  rewrite Ht, Hi, Hd in Hrun. destruct (read_phones _ _) as [sc [[]|]] eqn:Hread.
  1, 2: left; by eapply refuse_list_refused.
  change (xl_total_rows (with_counts sc ?i)) with (sc_total sc) in Hrun.
  destruct (Z.ltb_spec (sc_total sc) MIN_ROWS) as [|Hmin]; [left; by eapply refuse_list_refused|].
  right. exists (sorted_set (sc_phones sc)).
  apply bind_Ok_inv in Hrun as (x & s1 & ->%add_phones_Ok & Hrun).
  unfold refresh_pool_impact, put_exclusion_list in Hrun. rewrite bind_bind, bind_gets, bind_ret in Hrun.
  rewrite bind_modify in Hrun. apply bind_Ok_inv in Hrun as (e & s2 & Ha & Hrun). apply ret_Ok_inv in Hrun as [Hitem <-].
  apply record_activity_inv in Ha as (_ & _ & _ & _ & _ & _ & _ & ->).
  destruct (read_phones_None _ _ _ Hread) as (bytes & rows & column & data & Hf & Hcsv & Hdata & Hscan).
  apply scan_rows_spec in Hscan as (Htot & Hnd & Hinv & Hsum & Hph & Hmax); [|constructor].
  cbn [sc_total sc_invalid sc_duplicate sc_phones length] in *.
  assert (length (sorted_set (sc_phones sc)) = length (sc_phones sc)) as Hlen.
  { apply Permutation_length, NoDup_Permutation; [apply NoDup_sorted_set | done|]. intros ph. apply elem_of_sorted_set. }
  match type of Hitem with settle_list _ ?x = _ => set (i1 := x) in * end.
  destruct (settle_list_spec env i1) as [Hfields Hst]. rewrite Hitem in Hfields, Hst.
  injection Hfields as Eid Ecu Eto Ein Edu Eac Eim.
  split.
  - exists bytes, rows, column, data. rewrite Eto, Ein. split_and!; try done.
    intros ph. rewrite elem_of_sorted_set, Hph, elem_of_nil. naive_solver.
  - rewrite Eto. change (MIN_ROWS ≤ sc_total sc ≤ MAX_ROWS). unfold MAX_ROWS in *. lia.
  - rewrite Eto, Eac, Ein, Edu.
    change (sc_total sc = Z.of_nat (length (sorted_set (sc_phones sc))) + sc_invalid sc + sc_duplicate sc). lia.
  - apply NoDup_sorted_set.
  - rewrite Eac. reflexivity.
  - reflexivity.
  - rewrite Eim. symmetry. change (xl_pool_impact i1) with (currently_available_pool_impact
      (s <| st_exclusion_phones := st_exclusion_phones s ++
         (mkExclusionPhone (xl_id item) <$> sorted_set (sc_phones sc)) |>) (xl_id item)).
    apply pool_impact_frame; [reflexivity..|]. intros k Hne.
    change (<[xl_id (settle_list env i1) := settle_list env i1]> (st_exclusion_lists s) !! k = st_exclusion_lists s !! k).
    rewrite Hitem, Eid. by apply lookup_insert_ne.
  - exact Hst.
  - rewrite Ecu. reflexivity.
  - change (<[xl_id (settle_list env i1) := settle_list env i1]> (st_exclusion_lists s) =
      <[xl_id item := item']> (st_exclusion_lists s)). rewrite Hitem, Eid. reflexivity.
  - reflexivity.
Qed.

(** ** Properties *)

(** C39: an Exclusion List is counted and in effect.  Ingesting a queued list
    either refuses it with an error and changes nothing else, or every data
    row was counted once as accepted, invalid or duplicate, within the bounds,
    and the phones on file are exactly the distinct numbers of those rows; an
    administrator's list is then in effect for everyone and a Customer's for
    that Customer, to whom no Lead with one of its phones is offered. *)
Theorem ingestion_counts_and_protects `{CaseMapping} `{TextReader} env id s item item' s' :
  st_exclusion_lists s !! id = Some item → xl_id item = id → xl_status item = xl_queued →
  xl_total_rows item = 0 → xl_invalid_rows item = 0 → xl_duplicate_rows item = 0 →
  ingest_exclusion_list env id s = (Ok item', s') →
  refused s s' item item' ∨
  ∃ phones, ingested env s s' item item' phones ∧
    ∀ request customer instant lead, lead ∈ eligible_query s' request customer instant →
      xl_customer_id item = None ∨ xl_customer_id item = Some (cu_id customer) → ld_phone lead ∉ phones.
Proof.
  intros Hl Hid Hq Ht Hi Hd Hrun.
  destruct (ingest_queued _ _ _ _ _ _ Hl Hq Ht Hi Hd Hrun) as [|[phones Hing]]; [by left|right].
  exists phones. split; [done|]. intros request customer instant lead Hlead Hwho.
  eapply (list_protects s' id item'); [| | |exact Hlead].
  - rewrite (ig_lists _ _ _ _ _ _ Hing), Hid. apply lookup_insert_eq.
  - intros ph Hph. rewrite (ig_phones _ _ _ _ _ _ Hing), Hid. apply elem_of_app. right. by apply list_elem_of_fmap_2.
  - pose proof (ig_status _ _ _ _ _ _ Hing) as Hst. rewrite (ig_customer _ _ _ _ _ _ Hing).
    destruct Hwho as [Hnone|Hsome]; [left | by right]. rewrite Hnone in Hst. by destruct Hst.
Qed.

Lemma update_review_frame {A} (proj : Store → A) env item x :
  (∀ s v, proj (s <| st_reviews := v |>) = proj s) →
  (∀ s v w, proj (s <| st_next_job := v |> <| st_jobs := w |>) = proj s) →
  preserves (λ s, proj s = x) (update_review env item).
Proof.
  intros Hr Hj. unfold update_review, enqueue_job. destruct (xl_nightly_review_id item); [|apply pres_ret].
  apply pres_bind; [apply pres_gets|]. intros [review|]; [|apply pres_ret].
  apply pres_bind; [intros s Hs; by rewrite lift_run|]. intros rows.
  apply pres_bind; [apply pres_modify; intros s Hs; by rewrite Hr|]. intros _.
  apply pres_when. repeat (apply pres_bind; intros); try apply pres_ret; try apply pres_gets.
  apply pres_modify. intros s Hs. by rewrite Hj.
Qed.

(** The row a decision writes. *)
Definition decided (env : Env) (action : string) (actor reason : text) (impact : Z) (item : ExclusionList) : ExclusionList :=
  item <| xl_pool_impact := impact |>
       <| xl_status := if bool_decide (action = "confirm"%string) then xl_confirmed else xl_denied |>
       <| xl_global_effective := bool_decide (action = "confirm"%string) |>
       <| xl_decision_actor := actor |> <| xl_decision_reason := strip reason |> <| xl_decided_at := Some (now env) |>.

(** A decision that succeeds. *)
Lemma decide_exclusion_list_Ok env id action actor reason s item' s' :
  decide_exclusion_list env id action actor reason s = (Ok item', s') →
  ∃ item, st_exclusion_lists s !! id = Some item ∧ xl_status item = xl_pending_confirmation ∧
    is_Some (xl_customer_id item) ∧ action ∈ ["confirm"; "deny"]%string ∧ strip reason ≠ [] ∧
    item' = decided env action actor reason (currently_available_pool_impact s (xl_id item)) item ∧
    (st_exclusion_lists s', st_exclusion_phones s', st_leads s') =
      (<[xl_id item' := item']> (st_exclusion_lists s), st_exclusion_phones s, st_leads s).
Proof.
  intros Hrun. unfold decide_exclusion_list, refresh_pool_impact, put_exclusion_list in Hrun.
  apply bind_Ok_inv in Hrun as (x1 & s1 & Hg & Hrun). apply raise_if_Ok_inv in Hg as (Hact & -> & _).
  apply negb_false_iff, bool_decide_eq_true in Hact. rewrite bind_gets in Hrun.
  apply bind_Ok_inv in Hrun as (item & s1 & Hg & Hrun). apply require_Ok_inv in Hg as [Hl ->].
  apply bind_Ok_inv in Hrun as (x2 & s1 & Hg & Hrun). apply raise_if_Ok_inv in Hg as (Hcu & -> & _).
  apply bind_Ok_inv in Hrun as (x3 & s1 & Hg & Hrun). apply raise_if_Ok_inv in Hg as (Hst & -> & _).
  apply bind_Ok_inv in Hrun as (x4 & s1 & Hg & Hrun). apply raise_if_Ok_inv in Hg as (Hre & -> & _).
  apply negb_false_iff, bool_decide_eq_true in Hst. apply bool_decide_eq_false in Hcu. apply bool_decide_eq_false in Hre.
  rewrite bind_bind, bind_gets, bind_ret in Hrun. cbv zeta in Hrun.
  fold (decided env action actor reason (currently_available_pool_impact s (xl_id item)) item) in Hrun.
  remember (decided _ _ _ _ _ _) as i' eqn:Ei in Hrun. rewrite bind_modify in Hrun.
  apply bind_Ok_inv in Hrun as (e & s2 & Ha & Hrun). apply bind_Ok_inv in Hrun as (x5 & s3 & Hu & Hrun).
  apply ret_Ok_inv in Hrun as [<- <-]. exists item.
  split; [done|]. split; [done|]. split; [destruct (xl_customer_id item); [by eexists | done]|].
  split; [done|]. split; [done|]. split; [exact Ei|].
  pose proof (preserves_Ok _ _ _ _ _ (record_activity_frame (λ s, (st_exclusion_lists s, st_exclusion_phones s, st_leads s))
    _ _ _ _ _ _ _ _ _ (λ _ _, eq_refl) (λ _ _, eq_refl)) eq_refl Ha) as E1.
  pose proof (preserves_Ok _ _ _ _ _ (update_review_frame (λ s, (st_exclusion_lists s, st_exclusion_phones s, st_leads s))
    _ _ _ (λ _ _, eq_refl) (λ _ _ _, eq_refl)) E1 Hu) as E2.
  exact E2.
Qed.

(** an Exclusion List is decided once, and the decision is what holds.  A
    decision that succeeds found a Customer's list pending; confirmed, no Lead
    with one of its phones is offered to anyone; denied, it still protects the
    Customer who uploaded it; no phone is added or dropped, no other list
    changes, and a second decision of either kind is refused without effect. *)
Theorem exclusion_decided_once `{CaseMapping} env id action actor reason s item' s' :
  keyed_lists s → decide_exclusion_list env id action actor reason s = (Ok item', s') →
  ∃ item cid, st_exclusion_lists s !! id = Some item ∧ xl_status item = xl_pending_confirmation ∧
    xl_customer_id item = Some cid ∧
    xl_status item' = (if bool_decide (action = "confirm"%string) then xl_confirmed else xl_denied) ∧
    st_exclusion_lists s' = <[id := item']> (st_exclusion_lists s) ∧
    st_exclusion_phones s' = st_exclusion_phones s ∧
    (∀ request customer instant lead, lead ∈ eligible_query s' request customer instant →
       action = "confirm"%string ∨ cu_id customer = cid →
       mkExclusionPhone id (ld_phone lead) ∉ st_exclusion_phones s) ∧
    (∀ env' action' actor' reason', ∃ e,
       decide_exclusion_list env' id action' actor' reason' s' = (Err (ExclusionDecisionError e), s')).
Proof.
  intros Hk Hrun. apply decide_exclusion_list_Ok in Hrun as (item & Hl & Hst & [cid Hcu] & Hact & Hre & -> & [= El Ep Eld]).
  exists item, cid. pose proof (Hk _ _ Hl) as Hid.
  set (item' := decided _ _ _ _ _ _) in *. assert (xl_id item' = id) as Hid' by exact Hid.
  assert (xl_customer_id item' = Some cid) as Hcu' by exact Hcu.
  assert (st_exclusion_lists s' = <[id := item']> (st_exclusion_lists s)) as El' by (rewrite <- Hid' at 1; exact El).
  clear El. rename El' into El.
  assert (st_exclusion_lists s' !! id = Some item') as Hl' by (rewrite El; apply lookup_insert_eq).
  split_and!; try done.
  - intros request customer instant lead Hlead Hwho Hin.
    apply (list_protects s' id item' [ld_phone lead] request customer instant lead); [done| | |done|by left].
    + intros ph ->%list_elem_of_singleton. by rewrite Ep.
    + destruct Hwho as [-> | <-]; [by left | by right].
  - intros env' action' actor' reason'. unfold decide_exclusion_list.
    destruct (bool_decide (action' ∈ _)); cbn [negb raise_if]; [|by eexists].
    rewrite bind_ret, bind_gets, Hl'. cbn [require]. rewrite bind_ret, Hcu'.
    rewrite (bool_decide_eq_false_2 (Some cid = None)) by done. cbn [raise_if]. rewrite bind_ret.
    rewrite (bool_decide_eq_false_2 (xl_status item' = _)); [by eexists|].
    change (xl_status item') with (if bool_decide (action = "confirm"%string) then xl_confirmed else xl_denied).
    by case_bool_decide.
Qed.

(** *** Concrete runs *)

#[local] Existing Instance ascii_case.
#[local] Existing Instance example_reader.

(** One number among a thousand rows. *)
Definition example_csv : list N := u "2155550101" ++ repeat 10%N 1000.
Definition example_list (customer : option Z) : ExclusionList :=
  mkExclusionList 5%N customer (u "admin") (u "dnc") (u "dnc.csv") (u "/uploads/dnc.csv") xl_queued false
    0 0 0 0 0 [] [] [] None 0 None None.
Definition example_uploads (customer : option Z) : Store :=
  empty_store <| st_exclusion_lists := {[ 5%N := example_list customer ]} |>
              <| st_files := {[ u "/uploads/dnc.csv" := example_csv ]} |>
              <| st_leads := {[ 1 := example_lead 1 "2155550101" "Alpha" ]} |>.
Definition example_ingestion (customer : option Z) : outcome ExclusionList * Store :=
  ingest_exclusion_list example_env 5%N (example_uploads customer).

Definition ingestion_summary (r : outcome ExclusionList * Store) :=
  match r.1 with
  | Ok i => Some (xl_status i, xl_total_rows i, xl_accepted_rows i, xl_invalid_rows i, xl_duplicate_rows i, xl_pool_impact i)
  | Err _ => None
  end.
Lemma example_admin_upload :
  ingestion_summary (example_ingestion None) = Some (xl_confirmed, 1000, 1, 999, 0, 1).
Proof. vm_compute. reflexivity. Qed.
Lemma example_customer_upload :
  ingestion_summary (example_ingestion (Some 7)) = Some (xl_pending_confirmation, 1000, 1, 999, 0, 1).
Proof. vm_compute. reflexivity. Qed.

Lemma ingestion_counts_and_protects_witness :
  ∃ item' s' phones, example_ingestion None = (Ok item', s') ∧
    ingested example_env (example_uploads None) s' (example_list None) item' phones.
Proof.
  pose proof example_admin_upload as Hsum. destruct (example_ingestion None) as [[item'|] s'] eqn:E; [|discriminate Hsum].
  unfold example_ingestion in E.
  destruct (ingestion_counts_and_protects example_env 5%N (example_uploads None) (example_list None) item' s')
    as [[Hf _]|(phones & Hing & _)]; try reflexivity; [exact E| |].
  - exfalso. cbn in Hsum. rewrite Hf in Hsum. discriminate Hsum.
  - exists item', s', phones. split; [reflexivity | exact Hing].
Defined.

Definition example_decision (s : Store) : outcome ExclusionList * Store :=
  decide_exclusion_list example_env 5%N "confirm" (u "telegram:1") (u "checked") s.
Definition example_pending : Store :=
  empty_store <| st_exclusion_lists := {[ 5%N := example_list (Some 7) <| xl_status := xl_pending_confirmation |> ]} |>
              <| st_exclusion_phones := [mkExclusionPhone 5%N (u "2155550101")] |>
              <| st_leads := {[ 1 := example_lead 1 "2155550101" "Alpha" ]} |>.

Lemma example_pending_keyed : keyed_lists example_pending.
Proof.
  intros k l Hl.
  change (({[ 5%N := example_list (Some 7) <| xl_status := xl_pending_confirmation |> ]} : gmap uuid ExclusionList)
    !! k = Some l) in Hl.
  apply lookup_singleton_Some in Hl as [<- <-]. reflexivity.
Qed.

Lemma exclusion_decided_once_witness :
  ∃ item' s', example_decision example_pending = (Ok item', s') ∧
    ∃ e, decide_exclusion_list example_env 5%N "deny" (u "telegram:1") (u "again") s' = (Err (ExclusionDecisionError e), s').
Proof.
  destruct (example_decision example_pending) as [[item'|] s'] eqn:E; [|vm_compute in E; discriminate E].
  exists item', s'. split; [reflexivity|].
  destruct (exclusion_decided_once example_env 5%N "confirm" (u "telegram:1") (u "checked") example_pending item' s'
    example_pending_keyed E) as (item & cid & H).
  apply H.
Defined.
