(* ===== verification/NicheUploads.v ===== *)
(** * Uploaded Niche assignments

    The ingestion of [jawnix/niche_policy.py]: an administrator's file assigns
    Niches to phones whose Leads have no source-derived one. *)

From S2P Require Import Prelude PyText States Models LeadDatabases NichePolicy Eligible Artifact Csv Exclusions.

Open Scope Z_scope.

Definition MAX_ASSIGNMENT_ROWS : Z := 50000.

Definition put_niche_upload (item : NicheAssignmentUpload) : M Store unit :=
  modify (λ s, s <| st_niche_uploads := <[nu_id item := item]> (st_niche_uploads s) |>).

(** ** Reading the file *)

(** What the loop keeps; the assignments in the order of the file. *)
Record AssignmentScan : Type := mkAssignmentScan {
  as_total : Z;
  as_invalid : Z;
  as_duplicate : Z;
  as_assignments : list (text * text)
}.

Section Read.
Context `{CaseMapping}.

(** The phone and Niche of a row that assigns one. *)
Definition row_assignment (phone_column niche_column : nat) (row : list text) : option (text * text) :=
  let niche := strip (default [] (row !! niche_column)) in
  match row_phone phone_column row with
  | Some phone =>
      if bool_decide (niche = []) || (160 <? length niche)%nat then None else Some (phone, niche)
  | None => None
  end.

Definition scan_assignment (phone_column niche_column : nat) (sc : AssignmentScan) (row : list text) : AssignmentScan :=
  match row_assignment phone_column niche_column row with
  | None => mkAssignmentScan (as_total sc + 1) (as_invalid sc + 1) (as_duplicate sc) (as_assignments sc)
  | Some (phone, niche) =>
      if bool_decide (py_casefold phone ∈ (as_assignments sc).*1)
      then mkAssignmentScan (as_total sc + 1) (as_invalid sc) (as_duplicate sc + 1) (as_assignments sc)
      else mkAssignmentScan (as_total sc + 1) (as_invalid sc) (as_duplicate sc) (as_assignments sc ++ [(phone, niche)])
  end.

(** The loop, and whether it stopped at the row past the cap, which it counted. *)
Fixpoint scan_assignments (phone_column niche_column : nat) (sc : AssignmentScan) (rows : list (list text))
    : AssignmentScan * bool :=
  match rows with
  | [] => (sc, false)
  | row :: rows =>
      if MAX_ASSIGNMENT_ROWS <? as_total sc + 1
      then (mkAssignmentScan (as_total sc + 1) (as_invalid sc) (as_duplicate sc) (as_assignments sc), true)
      else scan_assignments phone_column niche_column (scan_assignment phone_column niche_column sc row) rows
  end.

Definition HEADERS_REQUIRED : text := u "The CSV must have phone,niche headers.".
Definition TOO_MANY_ASSIGNMENTS : text := u "Niche Assignment uploads may contain at most 50,000 data rows.".

(** The scan of a file, with the error that ends the ingestion. *)
Definition read_assignments `{TextReader} (file : option (list N)) (sc : AssignmentScan)
    : AssignmentScan * option text :=
  match file with
  | None => (sc, Some UNREADABLE)
  | Some bytes =>
      match read_csv bytes with
      | ([], raised) => (sc, Some (if raised then UNREADABLE else HEADERS_REQUIRED))
      | (header :: rows, raised) =>
          let headers := header_name <$> header in
          match index_of (u "phone") headers, index_of (u "niche") headers with
          | Some phone_column, Some niche_column =>
              let '(sc, over_limit) := scan_assignments phone_column niche_column sc rows in
              (sc, if over_limit then Some TOO_MANY_ASSIGNMENTS else if raised then Some UNREADABLE else None)
          | _, _ => (sc, Some HEADERS_REQUIRED)
          end
      end
  end.
End Read.

(** ** Ingestion *)

(** The phones of Leads whose Current Listing has a Niche of its own. *)
Definition mapped_phones (s : Store) (phones : list text) : list text :=
  remove_dups (ld_phone <$> List.filter (λ l, bool_decide (ld_phone l ∈ phones) &&
    bool_decide (is_Some (listing_mapping s (ld_current_listing_observation_id l)))) (map_to_list (st_leads s)).*2).

Definition set_assignment (env : Env) (phone niche : text) : M Store unit :=
  modify (λ s, s <| st_niche_assignments := <[phone := mkNicheAssignment phone niche (now env)]> (st_niche_assignments s) |>).

Definition ingest_niche_assignments `{CaseMapping} `{TextReader} (env : Env) (upload_id : uuid)
    : M Store NicheAssignmentUpload :=
  found ← gets (λ s, st_niche_uploads s !! upload_id);
  item ← require found (LookupError (u "Niche Assignment upload was not found."));
  if negb (String.eqb (nu_status item) "queued") then mret item else
  file ← gets (λ s, st_files s !! nu_storage_path item);
  let '(sc, error) := read_assignments file
    (mkAssignmentScan (nu_total_rows item) (nu_invalid_rows item) (nu_duplicate_rows item) []) in
  let item := item <| nu_total_rows := as_total sc |> <| nu_invalid_rows := as_invalid sc |>
                   <| nu_duplicate_rows := as_duplicate sc |> in
  match error with
  | Some error =>
      let item := item <| nu_status := "failed"%string |> <| nu_error := error |> in
      put_niche_upload item ;;
      mret item
  | None =>
      mapped ← gets (λ s, mapped_phones s (as_assignments sc).*1);
      let accepted := List.filter (λ a, negb (bool_decide (a.1 ∈ mapped))) (as_assignments sc) in
      for_each accepted (λ a, set_assignment env a.1 a.2) ;;
      let item := item <| nu_skipped_mapped_rows := Z.of_nat (length mapped) |>
                       <| nu_accepted_rows := Z.of_nat (length accepted) |> <| nu_status := "complete"%string |>
                       <| nu_ingested_at := Some (now env) |> in
      put_niche_upload item ;;
      mret item
  end.

(** ** Lemmas *)

(** The first assignment of a phone. *)
Definition assigned (phone : text) (l : list (text * text)) : option text :=
  snd <$> List.find (λ a, bool_decide (a.1 = phone)) l.

Lemma assigned_app phone l k :
  assigned phone (l ++ k) = match assigned phone l with Some n => Some n | None => assigned phone k end.
Proof.
  unfold assigned. induction l as [|a l IH]; [done|]. cbn. by case_bool_decide.
Qed.

Lemma assigned_None phone l : assigned phone l = None ↔ phone ∉ l.*1.
Proof.
  unfold assigned. induction l as [|a l IH]; cbn; [split; [intros _; apply not_elem_of_nil | done]|].
  rewrite elem_of_cons. case_bool_decide as E; cbn; [naive_solver|]. rewrite IH. naive_solver.
Qed.

(** Decimal digits have no case. *)
Class CasefoldDigits `{CaseMapping} : Prop :=
  casefold_digits t : Forall (λ c, is_decimal c = true) t → py_casefold t = t.

Lemma row_phone_decimal column row phone :
  row_phone column row = Some phone → Forall (λ c, is_decimal c = true) phone.
Proof.
  unfold row_phone. intros [_ Hd]%normalize_phone_iff. pose proof (non_digit_sub_decimal (default [] (row !! column))) as Hall.
  destruct Hd as [<-|E]; [done|]. rewrite E in Hall. by inversion Hall.
Qed.

Lemma scan_assignments_spec `{CasefoldDigits} pc nc sc rows sc' :
  scan_assignments pc nc sc rows = (sc', false) → NoDup (as_assignments sc).*1 →
  NoDup (as_assignments sc').*1 ∧
  (∀ phone, assigned phone (as_assignments sc') = assigned phone (as_assignments sc ++ omap (row_assignment pc nc) rows)) ∧
  as_total sc' = as_total sc + Z.of_nat (length rows) ∧
  as_total sc' - as_invalid sc' - as_duplicate sc' - Z.of_nat (length (as_assignments sc')) =
    as_total sc - as_invalid sc - as_duplicate sc - Z.of_nat (length (as_assignments sc)).
Proof.
  revert sc. induction rows as [|row rows IH]; intros sc; cbn [scan_assignments omap list_omap].
  { intros [= <-] Hnd. rewrite app_nil_r. cbn. split_and!; (done || lia). }
  destruct (_ <? _); [done|]. intros Hrun Hnd. unfold scan_assignment in Hrun.
  destruct (row_assignment pc nc row) as [[phone niche]|] eqn:Er.
  - assert (py_casefold phone = phone) as Ecf.
    { apply casefold_digits. unfold row_assignment in Er. destruct (row_phone pc row) eqn:Ep; [|done].
      destruct (_ || _); [done|]. injection Er as <- <-. by eapply row_phone_decimal. }
    rewrite Ecf in Hrun. case_bool_decide as Hin.
    + apply IH in Hrun as (Hnd' & Has & Ht & Hs); [|done]. cbn [as_total as_invalid as_duplicate as_assignments length] in *.
      split_and!; [done| |lia|lia]. intros ph. rewrite Has, !assigned_app. destruct (assigned ph (as_assignments sc)) eqn:E; [done|].
      apply assigned_None in E. unfold assigned at 2. cbn. rewrite bool_decide_eq_false_2 by (intros ->; done). done.
    + apply IH in Hrun as (Hnd' & Has & Ht & Hs); cbn [as_total as_invalid as_duplicate as_assignments length] in *.
      2: { rewrite fmap_app. cbn. apply NoDup_app. split; [done|]. split; [|apply NoDup_singleton].
           intros x Hx ->%list_elem_of_singleton. done. }
      rewrite length_app in Hs. cbn [length] in Hs. split_and!; [done| |lia|lia].
      intros ph. rewrite Has, <- app_assoc. done.
  - apply IH in Hrun as (Hnd' & Has & Ht & Hs); [|done]. cbn [as_total as_invalid as_duplicate as_assignments length] in *.
    split_and!; [done|done|lia|lia].
Qed.

(** Writing assignments with distinct phones. *)
Lemma set_assignments_run env l s :
  NoDup l.*1 →
  ∃ m, for_each l (λ a, set_assignment env a.1 a.2) s = (Ok tt, s <| st_niche_assignments := m |>) ∧
    ∀ phone, m !! phone = match assigned phone l with
                          | Some niche => Some (mkNicheAssignment phone niche (now env))
                          | None => st_niche_assignments s !! phone
                          end.
Proof.
  revert s. induction l as [|[phone niche] l IH]; intros s Hnd.
  { exists (st_niche_assignments s). split; [by destruct s | done]. }
  cbn [fmap list_fmap] in Hnd. apply NoDup_cons in Hnd as [Hnot Hnd].
  destruct (IH (s <| st_niche_assignments := <[phone := mkNicheAssignment phone niche (now env)]> (st_niche_assignments s) |>) Hnd)
    as (m & Hrun & Hm).
  exists m. split; [exact Hrun|].
  intros ph. rewrite Hm. unfold assigned at 2. cbn. apply assigned_None in Hnot. cbn in Hnot.
  case_bool_decide as E; cbn.
  - subst ph. rewrite Hnot. apply lookup_insert_eq.
  - fold (assigned ph l). destruct (assigned ph l); [done|]. by apply lookup_insert_ne.
Qed.

Lemma elem_of_mapped_phones s phones ph :
  ph ∈ mapped_phones s phones ↔
  ph ∈ phones ∧ ∃ id l, st_leads s !! id = Some l ∧ ld_phone l = ph ∧
    is_Some (listing_mapping s (ld_current_listing_observation_id l)).
Proof.
  unfold mapped_phones. rewrite elem_of_remove_dups, list_elem_of_fmap.
  setoid_rewrite list_elem_of_In. setoid_rewrite filter_In. setoid_rewrite <- list_elem_of_In. split.
  - intros (l & -> & Hl & Hc). apply list_elem_of_fmap in Hl as ([id l'] & -> & Hl%elem_of_map_to_list). bool_inv.
    split; [done|]. by exists id, l'.
  - intros (Hin & id & l & Hl & <- & Hm). exists l. split; [done|]. split.
    + apply list_elem_of_fmap. exists (id, l). split; [done|]. by apply elem_of_map_to_list.
    + apply andb_true_iff. split; by apply bool_decide_eq_true_2.
Qed.

Lemma NoDup_fst_filter (f : text * text → bool) l : NoDup l.*1 → NoDup (List.filter f l).*1.
Proof.
  induction l as [|a l IH]; cbn; [constructor|]. intros [Hn Hl]%NoDup_cons.
  destruct (f a); [|by apply IH]. cbn. apply NoDup_cons. split; [|by apply IH].
  intros (b & Eb & Hb)%list_elem_of_fmap. apply Hn. rewrite Eb. apply list_elem_of_fmap_2.
  apply list_elem_of_In in Hb. apply list_elem_of_In. by apply filter_In in Hb as [Hb _].
Qed.

(** What the mapped phones take away. *)
Lemma accepted_length (l : list (text * text)) (mapped : list text) :
  NoDup l.*1 → NoDup mapped → mapped ⊆ l.*1 →
  (length (List.filter (λ a, negb (bool_decide (a.1 ∈ mapped))) l) + length mapped = length l)%nat.
Proof.
  intros Hl Hm Hsub.
  assert (length (List.filter (λ a, bool_decide (a.1 ∈ mapped)) l) = length mapped) as <-.
  { rewrite <- (length_fmap fst). apply Permutation_length, NoDup_Permutation; [|done|].
    - by apply NoDup_fst_filter.
    - intros x. rewrite list_elem_of_fmap. split.
      + intros (a & -> & Ha). apply list_elem_of_In, filter_In in Ha as [_ Ha]. by bool_inv.
      + intros Hx. pose proof (Hsub x Hx) as (a & -> & Ha)%list_elem_of_fmap. exists a. split; [done|].
        apply list_elem_of_In, filter_In. split; [by apply list_elem_of_In | by apply bool_decide_eq_true_2]. }
  clear. induction l as [|a l IH]; [done|]. cbn. destruct (bool_decide _); cbn; lia.
Qed.

Lemma assigned_filter (f : text * text → bool) phone l :
  (∀ niche, f (phone, niche) = true) → assigned phone (List.filter f l) = assigned phone l.
Proof.
  intros Hf. unfold assigned. induction l as [|[ph n] l IH]; [done|]. cbn.
  destruct (decide (ph = phone)) as [->|Hne].
  - rewrite Hf. cbn. by rewrite bool_decide_eq_true_2.
  - rewrite (bool_decide_eq_false_2 (ph = phone)) by done.
    destruct (f (ph, n)); cbn; [by rewrite bool_decide_eq_false_2|done].
Qed.
Lemma assigned_filter_out (f : text * text → bool) phone l :
  (∀ niche, f (phone, niche) = false) → assigned phone (List.filter f l) = None.
Proof.
  intros Hf. unfold assigned. induction l as [|[ph n] l IH]; [done|]. cbn.
  destruct (f (ph, n)) eqn:E; [|done]. cbn. case_bool_decide as Eq; [|done]. subst. by rewrite Hf in E.
Qed.

Lemma index_of_Some name l i : index_of name l = Some i → l !! i = Some name.
Proof.
  revert i. induction l as [|x l IH]; intros i; cbn; [done|]. case_bool_decide as E; [intros [= <-]; by subst|].
  destruct (index_of name l); [|done]. intros [= <-]. by apply IH.
Qed.

(** The scan of a file without an error. *)
Lemma read_assignments_None `{CaseMapping} `{TextReader} file sc sc' :
  read_assignments file sc = (sc', None) →
  ∃ bytes header rows pc nc, file = Some bytes ∧ read_csv bytes = (header :: rows, false) ∧
    header_name <$> header !! pc = Some (u "phone") ∧ header_name <$> header !! nc = Some (u "niche") ∧
    scan_assignments pc nc sc rows = (sc', false).
Proof.
  unfold read_assignments. destruct file as [bytes|]; [|done]. destruct (read_csv bytes) as [[|header rows] raised] eqn:Er; [done|].
  destruct (index_of (u "phone") _) as [pc|] eqn:Ep; [|done]. destruct (index_of (u "niche") _) as [nc|] eqn:En; [|done].
  destruct (scan_assignments pc nc sc rows) as [sc1 over] eqn:Es. destruct over, raised; try done. intros [= ->].
  apply index_of_Some in Ep, En. rewrite list_lookup_fmap in Ep, En. by exists bytes, header, rows, pc, nc.
Qed.

(** ** Properties *)

(** uploaded assignments fill gaps only.  A queued upload that completes
    counted every row once; afterwards a Lead with a source-derived Niche has
    the Niche it had, a Lead without one has the first valid Niche the file
    gives its phone, and every other Lead the Niche it had before. *)
Theorem assignments_fill_gaps `{CasefoldDigits} `{TextReader} env id s item item' s' :
  st_niche_uploads s !! id = Some item → nu_status item = "queued"%string →
  nu_total_rows item = 0 → nu_invalid_rows item = 0 → nu_duplicate_rows item = 0 →
  (∀ i j l k, st_leads s !! i = Some l → st_leads s !! j = Some k → ld_phone l = ld_phone k → i = j) →
  ingest_niche_assignments env id s = (Ok item', s') → nu_status item' = "complete"%string →
  ∃ bytes header rows pc nc, st_files s !! nu_storage_path item = Some bytes ∧ read_csv bytes = (header :: rows, false) ∧
    header_name <$> header !! pc = Some (u "phone") ∧ header_name <$> header !! nc = Some (u "niche") ∧
    nu_total_rows item' = Z.of_nat (length rows) ∧
    nu_total_rows item' = nu_accepted_rows item' + nu_skipped_mapped_rows item' + nu_invalid_rows item' +
      nu_duplicate_rows item' ∧
    st_leads s' = st_leads s ∧
    ∀ k l, st_leads s !! k = Some l →
      lead_niche s' db1 l =
        match listing_mapping s (ld_current_listing_observation_id l) with
        | Some m => Some (sm_niche m)
        | None => match assigned (ld_phone l) (omap (row_assignment pc nc) rows) with
                  | Some niche => Some niche
                  | None => lead_niche s db1 l
                  end
        end.
Proof.
  intros Hl Hq Ht Hi Hd Huniq Hrun Hdone. unfold ingest_niche_assignments in Hrun. rewrite bind_gets, Hl in Hrun.
  cbn [require] in Hrun. rewrite bind_ret, Hq in Hrun. cbn [String.eqb Ascii.eqb Bool.eqb negb] in Hrun.
  rewrite bind_gets, Ht, Hi, Hd in Hrun.
  destruct (read_assignments _ _) as [sc [error|]] eqn:Hread; cbv zeta in Hrun; unfold put_niche_upload in Hrun.
  { rewrite bind_modify in Hrun. apply ret_Ok_inv in Hrun as [<- _]. discriminate Hdone. }
  destruct (read_assignments_None _ _ _ Hread) as (bytes & header & rows & pc & nc & Hf & Hcsv & Hp & Hn & Hscan).
  apply scan_assignments_spec in Hscan as (Hnd & Has & Htot & Hsum); [|constructor].
  cbn [as_total as_invalid as_duplicate as_assignments length app] in *.
  rewrite bind_gets in Hrun. set (mapped := mapped_phones s _) in Hrun.
  set (accepted := List.filter _ _) in Hrun.
  assert (NoDup accepted.*1) as Hnda by (by apply NoDup_fst_filter).
  destruct (set_assignments_run env accepted s Hnda) as (m & Hset & Hm).
  rewrite (bind_Ok _ _ _ _ _ Hset) in Hrun. rewrite bind_modify in Hrun. apply ret_Ok_inv in Hrun as [<- <-].
  exists bytes, header, rows, pc, nc. split; [done|]. split; [done|]. split; [done|]. split; [done|].
  split; [change (as_total sc = Z.of_nat (length rows)); lia|].
  assert (length accepted + length mapped = length (as_assignments sc))%nat as Hlen.
  { apply accepted_length; [done|apply NoDup_remove_dups|]. intros x Hx. by apply elem_of_mapped_phones in Hx as [Hx _]. }
  split; [change (as_total sc = Z.of_nat (length accepted) + Z.of_nat (length mapped) + as_invalid sc + as_duplicate sc); lia|].
  split; [reflexivity|]. intros k l Hk.
  match goal with |- _ = ?x =>
    change (effective_niche (listing_mapping s (ld_current_listing_observation_id l)) (m !! ld_phone l) = x) end.
  unfold lead_niche, effective_niche. destruct (listing_mapping s _) as [mp|] eqn:Emap; [done|].
  assert (ld_phone l ∉ mapped) as Hnot.
  { intros (_ & k' & l' & Hk' & Eph & [mp Hmp])%elem_of_mapped_phones.
    assert (k' = k) as -> by (by eapply Huniq). congruence. }
  rewrite Hm, <- Has. unfold accepted. rewrite assigned_filter by (intros; by rewrite bool_decide_eq_false_2).
  by destruct (assigned (ld_phone l) (as_assignments sc)).
Qed.

(** *** A concrete run *)

#[local] Existing Instance ascii_case.
#[local] Existing Instance example_reader.

#[export] Instance ascii_casefold_digits : @CasefoldDigits ascii_case.
Proof.
  intros t Ht. cbn. induction Ht as [|c t Hc _ IH]; cbn; [done|]. f_equal; [|done].
  unfold ascii_lower_cp. destruct (N.leb_spec 65 c), (N.leb_spec c 90); cbn [andb]; try done.
  exfalso. assert (forallb (λ k, negb (is_decimal (65 + N.of_nat k))) (seq 0 26) = true) as Hno by (vm_compute; reflexivity).
  rewrite forallb_forall in Hno. specialize (Hno (N.to_nat (c - 65))).
  replace (65 + N.of_nat (N.to_nat (c - 65)))%N with c in Hno by lia. rewrite Hc in Hno. apply diff_false_true, Hno.
  apply in_seq. lia.
Qed.

Definition example_niche_csv : list N :=
  u "Phone,Niche" ++ [10%N] ++ u "2155550101, Roofing" ++ [10%N] ++ u "2155550101,Plumbing" ++ [10%N] ++ u "none" ++ [10%N].
Definition example_niche_upload : NicheAssignmentUpload :=
  mkNicheAssignmentUpload 6%N (u "admin") (u "n.csv") (u "/uploads/n.csv") "queued" 0 0 0 0 0 [] 0 None.
Definition example_unmapped : Store :=
  empty_store <| st_niche_uploads := {[ 6%N := example_niche_upload ]} |>
              <| st_files := {[ u "/uploads/n.csv" := example_niche_csv ]} |>
              <| st_leads := {[ 1 := example_lead 1 "2155550101" "Alpha" ]} |>.

Lemma example_unmapped_unique i j l k :
  st_leads example_unmapped !! i = Some l → st_leads example_unmapped !! j = Some k → ld_phone l = ld_phone k → i = j.
Proof.
  intros Hi Hj _. change (({[ 1 := example_lead 1 "2155550101" "Alpha" ]} : gmap Z Lead) !! i = Some l) in Hi.
  change (({[ 1 := example_lead 1 "2155550101" "Alpha" ]} : gmap Z Lead) !! j = Some k) in Hj.
  apply lookup_singleton_Some in Hi as [<- _]. apply lookup_singleton_Some in Hj as [<- _]. done.
Qed.

Definition example_assigning : outcome NicheAssignmentUpload * Store :=
  ingest_niche_assignments example_env 6%N example_unmapped.

Lemma example_assigning_result :
  match example_assigning with
  | (Ok i, s) => (nu_status i, nu_accepted_rows i, nu_duplicate_rows i, nu_invalid_rows i,
                  lead_niche s db1 (example_lead 1 "2155550101" "Alpha"))
  | _ => ("", 0, 0, 0, None)%string
  end = ("complete"%string, 1, 1, 1, Some (u "Roofing")).
Proof. vm_compute. reflexivity. Qed.

Lemma assignments_fill_gaps_witness :
  ∃ item' s', example_assigning = (Ok item', s') ∧ st_leads s' = st_leads example_unmapped.
Proof.
  pose proof example_assigning_result as Hres.
  destruct example_assigning as [[item'|] s'] eqn:E; [|discriminate Hres]. injection Hres as Hst _ _ _ _.
  exists item', s'. split; [reflexivity|]. unfold example_assigning in E.
  destruct (assignments_fill_gaps example_env 6%N example_unmapped example_niche_upload item' s' eq_refl eq_refl eq_refl
    eq_refl eq_refl example_unmapped_unique E Hst) as (b & h & r & pc & nc & H). apply H.
Defined.
