(* ===== verification/Metrics.v ===== *)
(** * Emission of lead.assigned events

    [jawnix/metrics_emit.py]: a Batch Request's Distribution Events are posted
    to the metrics service in waves, a claim of the job posting a few of them
    and leaving a cursor to the next claim. *)

From S2P Require Import Prelude PyText PyTime Models Jobs LeadDatabases.

Open Scope Z_scope.

Definition EMIT_LEAD_ASSIGNED_JOB : string := "emit_lead_assigned".
Definition EMIT_CHUNK_SIZE : Z := 24.
Definition EMIT_CONCURRENCY : nat := 4.
Definition EMIT_MAX_ATTEMPTS : Z := 10.
Definition RETRY_DELAYS_SECONDS : list Z := [60; 300; 900; 1800; 3600].

Definition emit_retry_delay (attempts : Z) : Z := retry_delay RETRY_DELAYS_SECONDS attempts.

Record EmitLeadAssignedResult : Type := mkEmitResult {
  er_posted : Z;
  er_done : bool;
  er_next_after_id : option Z
}.

(** ** The body of an event *)

(** [value.astimezone(utc).isoformat().replace("+00:00", "Z")] *)
Definition as_utc_iso (t : datetime) : text :=
  let micros := t mod 1000000 in
  let second := (t / 1000000) mod 86400 in
  date_isoformat t ++ u "T" ++ zero_pad 2 (second / 3600) ++ u ":" ++ zero_pad 2 (second / 60 mod 60) ++ u ":" ++
  zero_pad 2 (second mod 60) ++ (if micros =? 0 then [] else u "." ++ zero_pad 6 micros) ++ u "Z".

Definition lead_source (event : DistributionEvent) : text :=
  match dict_get "source" (ev_listing_provenance event) with
  | Some (JStr source) => if bool_decide (strip source = []) then ev_source_kind event else strip source
  | _ => ev_source_kind event
  end.

Definition lead_assigned_body (event : DistributionEvent) : json :=
  let agent := match ev_agent_id event with Some id => str_of_Z id | None => [] end in
  let dedup_key := str_of_Z (ev_id event) in
  JObj [("dedup_key", JStr dedup_key); ("type", JStr (u "lead.assigned")); ("actor", JStr (u "system"));
        ("occurred_at", JStr (as_utc_iso (ev_delivered_at event))); ("source_agent_identity", JStr agent);
        ("contact_ref", JObj [("source_link", JStr (u "jawnix:" ++ dedup_key)); ("phone", JStr (ev_phone event))]);
        ("payload", JObj [("agent", JStr agent); ("phone", JStr (ev_phone event)); ("state", JStr (ev_state event));
                          ("source", JStr (lead_source event))])]%string.

(** ** Posting *)

(** What one claim meets outside: the service's answer to a body, whether the
    time is up before a wave, and the order in which the posts of a wave
    complete. *)
Inductive Reply : Type :=
| Unreachable (detail : text)
| Response (status_code : Z) (held : bool) (body : text).

Record World : Type := mkWorld {
  wd_post : json → Reply;
  wd_late : nat → bool;
  wd_order : list DistributionEvent → list DistributionEvent;
  wd_order_perm : ∀ wave, wd_order wave ≡ₚ wave
}.

Definition about_event (event : DistributionEvent) : text := u " distribution_event " ++ str_of_Z (ev_id event).

Definition post_lead_assigned (w : World) (event : DistributionEvent) : outcome unit :=
  match wd_post w (lead_assigned_body event) with
  | Unreachable detail =>
      Err (MetricsEmitTransientError (u "Metrics ingest unreachable for" ++ about_event event ++ u ": " ++ detail))
  | Response status_code held body =>
      if (status_code =? 200) || (status_code =? 201) then Ok tt
      else if (status_code =? 422) && held then Ok tt
      else
        let detail := take 500 body in
        if 500 <=? status_code
        then Err (MetricsEmitTransientError (u "Metrics ingest failed with HTTP " ++ str_of_Z status_code ++ u " for" ++
               about_event event ++ u ": " ++ detail))
        else Err (RuntimeError (u "Metrics ingest rejected" ++ about_event event ++ u " with HTTP " ++
               str_of_Z status_code ++ u ": " ++ detail))
  end.

Definition acknowledged (w : World) (event : DistributionEvent) : bool :=
  match post_lead_assigned w event with Ok _ => true | Err _ => false end.

(** The first post of a wave that raises, in the order they complete. *)
Fixpoint first_failure (w : World) (completed : list DistributionEvent) : option exn :=
  match completed with
  | [] => None
  | event :: rest => match post_lead_assigned w event with Ok _ => first_failure w rest | Err e => Some e end
  end.

(** How the loop over the waves ends. *)
Inductive LoopEnd : Type :=
| Ran (posted : Z) (cursor : option Z) (finished : bool)
| Yielded (posted : Z) (cursor : option Z)
| Raised (e : exn).

(** [max(event.id for event in wave)], of a wave that is not empty. *)
Definition max_id (wave : list DistributionEvent) : Z :=
  match wave with [] => 0 | e :: rest => foldr (λ e m, Z.max (ev_id e) m) (ev_id e) rest end.

(** The identifiers the service stored, and how the loop ends.  A whole wave
    is posted before its results are read. *)
Fixpoint emit_waves (w : World) (waiting : bool) (n : nat) (waves : list (list DistributionEvent)) (posted : Z)
    (cursor : option Z) : list Z * LoopEnd :=
  match waves with
  | [] => ([], Ran posted cursor true)
  | wave :: rest =>
      if (0 <? posted) && (wd_late w n || waiting) then ([], Ran posted cursor false) else
      let stored := ev_id <$> List.filter (acknowledged w) wave in
      match first_failure w (wd_order w wave) with
      | Some (MetricsEmitTransientError detail) =>
          (stored, if 0 <? posted then Yielded posted cursor else Raised (MetricsEmitTransientError detail))
      | Some e => (stored, Raised e)
      | None =>
          let '(stored', result) := emit_waves w waiting (S n) rest (posted + Z.of_nat (length wave))
                                      (Some (max_id wave)) in
          (stored ++ stored', result)
      end
  end.

Definition event_le (a b : DistributionEvent) : Prop := ev_id a ≤ ev_id b.
#[export] Instance event_le_dec : RelDecision event_le.
Proof. intros a b. unfold event_le. apply _. Defined.

Definition after_cursor (after_id : option Z) (event : DistributionEvent) : bool :=
  match after_id with Some id => id <? ev_id event | None => true end.

(** [ORDER BY id], after the cursor. *)
Definition emitted_events (s : Store) (request_id : uuid) (after_id : option Z) : list DistributionEvent :=
  merge_sort event_le (List.filter (λ e, bool_decide (ev_request_id e = Some request_id) && after_cursor after_id e)
    (st_events s)).

Definition emit_lead_assigned (w : World) (env : Env) (s : Store) (request_id : uuid) (after_id limit : option Z)
    : list Z * outcome EmitLeadAssignedResult :=
  let chunk_limit := default EMIT_CHUNK_SIZE limit in
  if bool_decide (metrics_ingest_url (settings env) = []) || bool_decide (metrics_ingest_secret (settings env) = [])
  then ([], Ok (mkEmitResult 0 true None)) else
  if chunk_limit <? 1 then ([], Err (ValueError (u "emit_lead_assigned limit must be >= 1"))) else
  let waiting := higher_priority_job_waiting env LANE_METRICS s in
  if waiting then ([], Ok (mkEmitResult 0 false after_id)) else
  let events := take (Z.to_nat (chunk_limit + 1)) (emitted_events s request_id after_id) in
  match events, after_id with
  | [], None => ([], Err (LookupError (u "No DistributionEvents for request " ++ str_of_uuid request_id ++
                                       u "; cannot emit lead.assigned.")))
  | [], Some _ => ([], Ok (mkEmitResult 0 true None))
  | _ :: _, _ =>
      let chunk := take (Z.to_nat chunk_limit) events in
      let more_beyond_chunk := (Z.to_nat chunk_limit <? length events)%nat in
      let workers := Nat.max 1 (Nat.min EMIT_CONCURRENCY (length chunk)) in
      let '(stored, result) := emit_waves w waiting 0 (chunks (length chunk) workers chunk) 0 after_id in
      (stored,
       match result with
       | Raised e => Err e
       | Yielded posted cursor => Ok (mkEmitResult posted false cursor)
       | Ran posted cursor finished =>
           if negb finished || more_beyond_chunk then Ok (mkEmitResult posted false cursor)
           else Ok (mkEmitResult posted true None)
       end)
  end.

(** ** The chain of claims

    The worker repeats a claim that fails on a transient error up to
    [EMIT_MAX_ATTEMPTS] times, and enqueues a fresh job at the new cursor when
    work remains. *)

Inductive Emission : Type :=
| Pending (after_id : option Z) (attempts : Z)
| Finished
| GaveUp (e : exn).

Definition claim (env : Env) (s : Store) (request_id : uuid) (w : World) (after_id : option Z) (attempts : Z)
    : list Z * Emission :=
  let '(stored, result) := emit_lead_assigned w env s request_id after_id None in
  (stored,
   match result with
   | Ok r => if er_done r then Finished else Pending (er_next_after_id r) 0
   | Err (MetricsEmitTransientError detail) =>
       if attempts + 1 <? EMIT_MAX_ATTEMPTS then Pending after_id (attempts + 1)
       else GaveUp (MetricsEmitTransientError detail)
   | Err e => GaveUp e
   end).

Definition emission_step (env : Env) (s : Store) (request_id : uuid) (acc : list Z * Emission) (w : World)
    : list Z * Emission :=
  match acc.2 with
  | Pending after_id attempts =>
      let '(stored, next) := claim env s request_id w after_id attempts in (acc.1 ++ stored, next)
  | Finished | GaveUp _ => acc
  end.
Definition emission (env : Env) (s : Store) (request_id : uuid) (acc : list Z * Emission) (ws : list World)
    : list Z * Emission :=
  foldl (emission_step env s request_id) acc ws.

(** ** What the waves post *)

#[local] Arguments max_id : simpl never.

(** The cursor after the waves [done]. *)
Definition cursor_after (cursor : option Z) (done : list (list DistributionEvent)) : option Z :=
  match last done with Some wave => Some (max_id wave) | None => cursor end.

Lemma first_failure_None w l : first_failure w l = None ↔ Forall (λ e, acknowledged w e = true) l.
Proof.
  induction l as [|e l IH]; cbn; [by split|]. rewrite Forall_cons. unfold acknowledged at 1.
  destruct (post_lead_assigned w e); [rewrite IH|]; naive_solver.
Qed.

Lemma first_failure_Some w l x : first_failure w l = Some x → ∃ e, e ∈ l ∧ post_lead_assigned w e = Err x.
Proof.
  induction l as [|e l IH]; cbn; [done|]. destruct (post_lead_assigned w e) eqn:E.
  - intros (e' & ? & ?)%IH. exists e'. set_solver.
  - intros [= ->]. exists e. set_solver.
Qed.

Lemma wave_acknowledged w wave :
  first_failure w (wd_order w wave) = None → Forall (λ e, acknowledged w e = true) wave.
Proof. rewrite first_failure_None. by rewrite (wd_order_perm w wave). Qed.

Lemma wave_stored w wave e :
  e ∈ wave → acknowledged w e = true → ev_id e ∈ ev_id <$> List.filter (acknowledged w) wave.
Proof. intros He Ha. apply list_elem_of_fmap. exists e. split; [done|]. apply list_elem_of_In, filter_In. by rewrite <- list_elem_of_In. Qed.

(** No event of [l] is rejected for good. *)
Definition never_rejects (l : list DistributionEvent) (w : World) : Prop :=
  ∀ e x, e ∈ l → post_lead_assigned w e = Err x → ∃ detail, x = MetricsEmitTransientError detail.
Definition accepts_all (l : list DistributionEvent) (w : World) : Prop := ∀ e, e ∈ l → acknowledged w e = true.

(** What a run of the loop has done: it posted the waves [sent], in order. *)
Definition sent_waves (posted : Z) (cursor : option Z) (sent rest : list (list DistributionEvent)) (result : LoopEnd)
    : Prop :=
  match result with
  | Ran p c finished => p = posted + Z.of_nat (length (mjoin sent)) ∧ c = cursor_after cursor sent ∧
                        (finished = true ↔ rest = [])
  | Yielded p c => 0 < p ∧ p = posted + Z.of_nat (length (mjoin sent)) ∧ c = cursor_after cursor sent ∧ rest ≠ []
  | Raised _ => True
  end.

Lemma cursor_after_cons cursor wave sent : cursor_after (Some (max_id wave)) sent = cursor_after cursor (wave :: sent).
Proof. unfold cursor_after. by destruct sent as [|w l _] using rev_ind; [|rewrite app_comm_cons, !last_snoc]. Qed.

Lemma emit_waves_spec w waiting waves : ∀ n posted cursor,
  ∃ sent rest, waves = sent ++ rest ∧
    (∀ e, e ∈ mjoin sent → ev_id e ∈ (emit_waves w waiting n waves posted cursor).1) ∧
    sent_waves posted cursor sent rest (emit_waves w waiting n waves posted cursor).2.
Proof.
  induction waves as [|wave rest IH]; intros n posted cursor; cbn.
  { exists [], []. repeat split; [set_solver| |done..]. cbn. lia. }
  destruct (_ && _).
  { exists [], (wave :: rest). repeat split; [set_solver| |done..]. cbn. lia. }
  destruct (first_failure w (wd_order w wave)) as [x|] eqn:Ef.
  - exists [], (wave :: rest). split; [done|].
    destruct x; cbn; try (split; [set_solver | done]).
    split; [set_solver|]. destruct (0 <? posted) eqn:Ep; [|done]. cbn. apply Z.ltb_lt in Ep. repeat split; [lia..|done].
  - destruct (IH (S n) (posted + Z.of_nat (length wave)) (Some (max_id wave))) as (sent & rest' & -> & Hst & Hr).
    destruct (emit_waves w waiting (S n) (sent ++ rest') _ _) as [stored result]. cbn in *.
    exists (wave :: sent), rest'. split; [done|]. split.
    + intros e. change (mjoin (wave :: sent)) with (wave ++ mjoin sent). rewrite elem_of_app. intros [He|He].
      * apply elem_of_app. left. apply wave_stored; [done|]. apply wave_acknowledged in Ef.
        by eapply Forall_forall in Ef.
      * apply elem_of_app. right. auto.
    + assert (length (mjoin (wave :: sent)) = length wave + length (mjoin sent))%nat by apply length_app.
      destruct result; cbn [sent_waves] in *; [| |done]; rewrite (cursor_after_cons cursor) in Hr.
      * destruct Hr as (-> & -> & ?). split; [lia | done].
      * destruct Hr as (? & -> & -> & ?). repeat split; [lia..|done].
Qed.

(** A loop that does not raise has posted something. *)
Lemma emit_waves_progress w waiting wave rest n cursor p c b :
  wave ≠ [] → (emit_waves w waiting n (wave :: rest) 0 cursor).2 = Ran p c b ∨
              (emit_waves w waiting n (wave :: rest) 0 cursor).2 = Yielded p c → 0 < p.
Proof.
  intros Hw. cbn. destruct (first_failure w (wd_order w wave)) as [x|]; [destruct x; naive_solver|].
  destruct (emit_waves_spec w waiting rest (S n) (Z.of_nat (length wave)) (Some (max_id wave)))
    as (sent & rest' & -> & _ & Hr).
  destruct (emit_waves w waiting (S n) (sent ++ rest') _ _) as [stored result]. cbn in *.
  destruct wave; [done|]. cbn in Hr. intros [->| ->]; cbn in Hr; lia.
Qed.

Lemma emit_waves_transient w waiting waves x : ∀ n posted cursor,
  never_rejects (mjoin waves) w → (emit_waves w waiting n waves posted cursor).2 = Raised x →
  ∃ detail, x = MetricsEmitTransientError detail.
Proof.
  induction waves as [|wave rest IH]; intros n posted cursor Hn; cbn; [done|].
  change (mjoin (wave :: rest)) with (wave ++ mjoin rest) in Hn.
  destruct (_ && _); [done|]. destruct (first_failure w (wd_order w wave)) as [y|] eqn:Ef.
  - apply first_failure_Some in Ef as (e & He & Hp). rewrite (wd_order_perm w wave) in He.
    destruct (Hn e y) as [detail ->]; [set_solver|done|]. cbn. destruct (0 <? posted); naive_solver.
  - specialize (IH (S n) (posted + Z.of_nat (length wave)) (Some (max_id wave))).
    destruct (emit_waves w waiting (S n) rest _ _). apply IH. intros e y He. apply Hn. set_solver.
Qed.

Lemma emit_waves_accepted w waiting waves x : ∀ n posted cursor,
  accepts_all (mjoin waves) w → (emit_waves w waiting n waves posted cursor).2 ≠ Raised x.
Proof.
  induction waves as [|wave rest IH]; intros n posted cursor Ha; cbn; [done|].
  change (mjoin (wave :: rest)) with (wave ++ mjoin rest) in Ha.
  destruct (_ && _); [done|].
  assert (first_failure w (wd_order w wave) = None) as ->.
  { apply first_failure_None, Forall_forall. intros e He. apply Ha. rewrite (wd_order_perm w wave) in He. set_solver. }
  specialize (IH (S n) (posted + Z.of_nat (length wave)) (Some (max_id wave))).
  destruct (emit_waves w waiting (S n) rest _ _). apply IH. intros e He. apply Ha. set_solver.
Qed.

(** ** One claim *)

Lemma max_id_elem wave : wave ≠ [] → ∃ e, e ∈ wave ∧ max_id wave = ev_id e.
Proof.
  destruct wave as [|e wave]; [done|]. intros _. unfold max_id. induction wave as [|x l IH]; cbn; [set_solver|].
  destruct IH as (y & Hy & ->). destruct (Z.max_spec (ev_id x) (ev_id y)) as [[_ ->]|[_ ->]].
  - exists y. set_solver.
  - exists x. set_solver.
Qed.

Lemma elem_of_emitted s request_id after e :
  e ∈ emitted_events s request_id after ↔ e ∈ emitted_events s request_id None ∧ after_cursor after e = true.
Proof.
  unfold emitted_events. rewrite !(merge_sort_Permutation event_le), !list_elem_of_In, !filter_In, !andb_true_iff.
  cbn. naive_solver.
Qed.

#[export] Instance event_le_total : Total event_le.
Proof. intros a b. unfold event_le. lia. Qed.
#[export] Instance event_le_trans : Transitive event_le.
Proof. intros a b c. unfold event_le. lia. Qed.

Lemma emitted_sorted s request_id after : StronglySorted event_le (emitted_events s request_id after).
Proof. apply (StronglySorted_merge_sort event_le). Qed.

(** The primary key of the table of Distribution Events. *)
Definition unique_event_ids (s : Store) : Prop := NoDup (ev_id <$> st_events s).

Lemma NoDup_fmap_filter {A B} (f : A → B) (p : A → bool) l : NoDup (f <$> l) → NoDup (f <$> List.filter p l).
Proof.
  induction l as [|x l IH]; cbn; [done|]. rewrite NoDup_cons. intros [Hx Hl]. destruct (p x); cbn; [|auto].
  apply NoDup_cons. split; [|auto]. contradict Hx. apply list_elem_of_fmap in Hx as (y & -> & Hy).
  apply list_elem_of_In, filter_In in Hy as [Hy _]. apply list_elem_of_fmap_2. by apply list_elem_of_In.
Qed.

Lemma emitted_unique s request_id after : unique_event_ids s → NoDup (ev_id <$> emitted_events s request_id after).
Proof.
  intros Hu. unfold emitted_events. rewrite (merge_sort_Permutation event_le). by apply NoDup_fmap_filter.
Qed.

(** What comes later in a sorted list has a larger identifier. *)
Lemma sorted_later a b x y :
  StronglySorted event_le (a ++ b) → NoDup (ev_id <$> a ++ b) → x ∈ a → y ∈ b → ev_id x < ev_id y.
Proof.
  intros Hs Hn Hx Hy. assert (event_le x y).
  { by eapply (StronglySorted_app_1_elem_of event_le). }
  rewrite fmap_app in Hn. apply NoDup_app in Hn as (_ & Hn & _).
  assert (ev_id x ≠ ev_id y); [|unfold event_le in *; lia]. intros E.
  apply (Hn (ev_id x)); [by apply list_elem_of_fmap_2 | rewrite E; by apply list_elem_of_fmap_2].
Qed.

Lemma cursor_after_sent cursor sent rest later c :
  StronglySorted event_le (mjoin (sent ++ rest) ++ later) → NoDup (ev_id <$> mjoin (sent ++ rest) ++ later) →
  Forall (λ wave, wave ≠ []) sent → sent ≠ [] → cursor_after cursor sent = Some c →
  (∃ e, e ∈ mjoin sent ∧ ev_id e = c) ∧ ∀ e, e ∈ mjoin rest ++ later → c < ev_id e.
Proof.
  intros Hs Hn Hne Hsent Hc. rewrite join_app, <- (assoc_L (++)) in Hs, Hn.
  destruct sent as [|wave sent' _] using rev_ind; [done|].
  unfold cursor_after in Hc. rewrite last_snoc in Hc. injection Hc as <-.
  apply Forall_app in Hne as [_ [Hw _]%Forall_cons].
  destruct (max_id_elem wave Hw) as (m & Hm & ->).
  assert (m ∈ mjoin (sent' ++ [wave])) as Hin by (rewrite join_app, elem_of_app; right; cbn; set_solver).
  split; [by exists m|]. intros e He. by eapply sorted_later.
Qed.

(** What one claim promises of the events [E] after its cursor: when it is
    done they are all stored, otherwise those up to the new cursor are; and it
    fails only where the service does. *)
Definition claim_spec (w : World) (E : list DistributionEvent) (stored : list Z)
    (result : outcome EmitLeadAssignedResult) : Prop :=
  match result with
  | Ok r =>
      if er_done r then ∀ e, e ∈ E → ev_id e ∈ stored
      else ∃ c, er_next_after_id r = Some c ∧ (∃ e, e ∈ E ∧ ev_id e = c) ∧
             ∀ e, e ∈ E → c < ev_id e ∨ ev_id e ∈ stored
  | Err x => (never_rejects E w → ∃ detail, x = MetricsEmitTransientError detail) ∧ ¬ accepts_all E w
  end.

Definition loop_result (more_beyond_chunk : bool) (result : LoopEnd) : outcome EmitLeadAssignedResult :=
  match result with
  | Raised e => Err e
  | Yielded posted cursor => Ok (mkEmitResult posted false cursor)
  | Ran posted cursor finished =>
      if negb finished || more_beyond_chunk then Ok (mkEmitResult posted false cursor)
      else Ok (mkEmitResult posted true None)
  end.

Lemma cursor_claim w after sent rest later stored p :
  StronglySorted event_le (mjoin (sent ++ rest) ++ later) → NoDup (ev_id <$> mjoin (sent ++ rest) ++ later) →
  Forall (λ wave, wave ≠ []) sent → sent ≠ [] → (∀ e, e ∈ mjoin sent → ev_id e ∈ stored) →
  claim_spec w (mjoin (sent ++ rest) ++ later) stored (Ok (mkEmitResult p false (cursor_after after sent))).
Proof.
  intros Hs Hn Hne Hsent Hst. cbn. destruct (cursor_after after sent) as [c|] eqn:Hc.
  2:{ unfold cursor_after in Hc. destruct (last sent) eqn:El; [done|]. by apply last_None in El. }
  destruct (cursor_after_sent after sent rest later c Hs Hn Hne Hsent Hc) as [(m & Hm & <-) Hlater].
  exists (ev_id m). split; [done|]. rewrite join_app. split; [exists m; set_solver|].
  intros e. rewrite !elem_of_app. intros [[He|He]|He]; [by right; auto|left..]; apply Hlater; set_solver.
Qed.

Lemma waves_claim w after wave rest later more :
  StronglySorted event_le (mjoin (wave :: rest) ++ later) → NoDup (ev_id <$> mjoin (wave :: rest) ++ later) →
  Forall (λ wave, wave ≠ []) (wave :: rest) → (more = false → later = []) →
  claim_spec w (mjoin (wave :: rest) ++ later) (emit_waves w false 0 (wave :: rest) 0 after).1
    (loop_result more (emit_waves w false 0 (wave :: rest) 0 after).2).
Proof.
  intros Hs Hn Hne Hmore.
  pose proof (emit_waves_spec w false (wave :: rest) 0 0 after) as (sent & unsent & Hw & Hst & Hr).
  pose proof (λ p c b, emit_waves_progress w false wave rest 0 after p c b) as Hp.
  pose proof (λ x, emit_waves_transient w false (wave :: rest) x 0 0 after) as Htr.
  pose proof (λ x, emit_waves_accepted w false (wave :: rest) x 0 0 after) as Hac.
  destruct (emit_waves w false 0 (wave :: rest) 0 after) as [stored result]. cbn [fst snd] in *.
  assert (wave ≠ []) as Hwave by (by apply Forall_cons in Hne as [? _]). rewrite Hw in *.
  apply Forall_app in Hne as [Hne _].
  assert (0 < Z.of_nat (length (mjoin sent)) → sent ≠ []) as Hsent by (intros ? ->; done).
  destruct result as [p c b|p c|x]; cbn [sent_waves loop_result] in Hr |- *.
  - destruct Hr as (-> & -> & Hb). specialize (Hp _ _ _ Hwave (or_introl eq_refl)).
    destruct b; cbn [negb orb]; [destruct more|].
    + by apply cursor_claim; auto.
    + rewrite (proj1 Hb eq_refl), (Hmore eq_refl), !(right_id_L [] (++)). done.
    + by apply cursor_claim; auto.
  - destruct Hr as (Hpos & -> & -> & _). apply cursor_claim; auto.
  - split.
    + intros Hnr. apply Htr; [|done]. intros e y He. apply Hnr. set_solver.
    + intros Ha. by apply (Hac x); [|done]; intros e He; apply Ha; set_solver.
Qed.

Definition configured (env : Env) : bool :=
  negb (bool_decide (metrics_ingest_url (settings env) = []) || bool_decide (metrics_ingest_secret (settings env) = [])).

Section Chain.
Context (env : Env) (s : Store) (request_id : uuid).
Context (Hconfigured : configured env = true) (Hunique : unique_event_ids s).

Lemma emit_lead_assigned_run w after :
  emit_lead_assigned w env s request_id after None =
  let events := take 25 (emitted_events s request_id after) in
  match events, after with
  | [], None => ([], Err (LookupError (u "No DistributionEvents for request " ++ str_of_uuid request_id ++
                                       u "; cannot emit lead.assigned.")))
  | [], Some _ => ([], Ok (mkEmitResult 0 true None))
  | _ :: _, _ =>
      let chunk := take 24 events in
      let '(stored, result) := emit_waves w false 0
        (chunks (length chunk) (Nat.max 1 (Nat.min EMIT_CONCURRENCY (length chunk))) chunk) 0 after in
      (stored, loop_result (24 <? length events)%nat result)
  end.
Proof using Hconfigured.
  unfold emit_lead_assigned. unfold configured in Hconfigured. apply negb_true_iff in Hconfigured.
  rewrite Hconfigured. reflexivity.
Qed.

Lemma emit_claim w after :
  emitted_events s request_id after ≠ [] ∨ is_Some after →
  claim_spec w (emitted_events s request_id after) (emit_lead_assigned w env s request_id after None).1
    (emit_lead_assigned w env s request_id after None).2.
Proof using Hconfigured Hunique.
  intros Hsome. rewrite emit_lead_assigned_run. cbv zeta.
  pose proof (emitted_sorted s request_id after) as Hs. pose proof (emitted_unique s request_id after Hunique) as Hn.
  revert Hs Hn Hsome. generalize (emitted_events s request_id after). intros E Hs Hn Hsome.
  destruct (take 25 E) as [|e0 l] eqn:Et.
  { destruct E; [|done]. destruct Hsome as [?|[c ->]]; [done|]. cbn. set_solver. }
  assert (take 24 (e0 :: l) = take 24 E) as -> by (rewrite <- Et, take_take; done).
  assert ((24 <? length (e0 :: l))%nat = false → drop 24 E = []) as Hmore.
  { rewrite <- Et, length_take, Nat.ltb_ge. intros ?. apply drop_ge. lia. }
  revert Hmore. generalize (24 <? length (e0 :: l))%nat. intros more Hmore.
  assert (∃ e E', E = e :: E') as (e & E' & HE) by (destruct E; [done|eauto]).
  set (size := Nat.max 1 (Nat.min EMIT_CONCURRENCY (length (take 24 E)))).
  assert (0 < size)%nat as Hsize by lia.
  pose proof (concat_chunks size (length (take 24 E)) (take 24 E) Hsize (le_n _)) as Hjoin.
  assert (Forall (λ wave, wave ≠ []) (chunks (length (take 24 E)) size (take 24 E))) as Hwaves.
  { apply Forall_forall. intros wave Hw. by eapply chunks_bound in Hw as [? _]. }
  rewrite <- (take_drop 24 E), <- Hjoin in Hs, Hn. rewrite <- (take_drop 24 E) at 1. rewrite <- Hjoin at 1.
  destruct (chunks (length (take 24 E)) size (take 24 E)) as [|wave rest]; [by rewrite HE in Hjoin|].
  pose proof (waves_claim w after wave rest (drop 24 E) more Hs Hn Hwaves Hmore) as Hc.
  destruct (emit_waves w false 0 (wave :: rest) 0 after) as [stored result]. exact Hc.
Qed.

(** ** The whole chain *)

Definition request_events : list DistributionEvent := emitted_events s request_id None.

(** Everything up to the cursor is stored. *)
Definition nothing_skipped (acc : list Z * Emission) : Prop :=
  match acc.2 with
  | Pending after _ => ∀ e, e ∈ request_events → after_cursor after e = false → ev_id e ∈ acc.1
  | Finished => ∀ e, e ∈ request_events → ev_id e ∈ acc.1
  | GaveUp _ => True
  end.

Lemma emission_step_nothing_skipped acc w :
  nothing_skipped acc → nothing_skipped (emission_step env s request_id acc w).
Proof using Hconfigured Hunique.
  destruct acc as [stored [after attempts| |x]]; cbn; [|done..]. intros Hk. unfold emission_step, claim. cbn.
  destruct (decide (emitted_events s request_id after ≠ [] ∨ is_Some after)) as [Hsome|Hnone].
  2:{ rewrite emit_lead_assigned_run. destruct after; [by destruct Hnone; right; eauto|].
      destruct (emitted_events s request_id None) eqn:E; [done|]. by destruct Hnone; left. }
  pose proof (emit_claim w after Hsome) as Hc.
  destruct (emit_lead_assigned w env s request_id after None) as [st [r|x]]; cbn in Hc |- *.
  2:{ destruct x; try done. destruct (attempts + 1 <? EMIT_MAX_ATTEMPTS); [|done]. cbn. set_solver. }
  assert (∀ e, e ∈ request_events → e ∈ emitted_events s request_id after ∨ ev_id e ∈ stored) as Hsplit.
  { intros e He. destruct (after_cursor after e) eqn:Ha; [left|right; auto]. by apply elem_of_emitted. }
  destruct (er_done r); cbn.
  - intros e He. apply elem_of_app. destruct (Hsplit e He); auto.
  - destruct Hc as (c & -> & _ & Hc). cbn. intros e He Hle%Z.ltb_ge. apply elem_of_app.
    destruct (Hsplit e He) as [Ha|]; [|by left]. right. destruct (Hc e Ha); [lia|done].
Qed.

Lemma emission_nothing_skipped ws : nothing_skipped (emission env s request_id ([], Pending None 0) ws).
Proof using Hconfigured Hunique.
  assert (∀ acc, nothing_skipped acc → nothing_skipped (emission env s request_id acc ws)) as H; [|by apply H].
  induction ws as [|w ws IH]; intros acc Ha; [done|]. apply IH. by apply emission_step_nothing_skipped.
Qed.

Lemma elem_of_request_events e : e ∈ request_events ↔ e ∈ st_events s ∧ ev_request_id e = Some request_id.
Proof.
  unfold request_events, emitted_events.
  rewrite (merge_sort_Permutation event_le), list_elem_of_In, filter_In, andb_true_iff, bool_decide_eq_true.
  rewrite <- list_elem_of_In. cbn. naive_solver.
Qed.

(** How many events are still to post. *)
Definition remaining (after : option Z) : nat := length (emitted_events s request_id after).

Lemma remaining_lt after c e :
  e ∈ emitted_events s request_id after → ev_id e = c → (remaining (Some c) < remaining after)%nat.
Proof using Hunique.
  intros He <-. unfold remaining. apply (submseteq_length (e :: _)), NoDup_submseteq.
  - apply NoDup_cons. split; [|by eapply NoDup_fmap_1, emitted_unique].
    rewrite elem_of_emitted. cbn. rewrite Z.ltb_irrefl. naive_solver.
  - intros x [->|Hx]%elem_of_cons; [done|]. apply elem_of_emitted in Hx as [Hx Hlt], He as [_ Ha].
    apply elem_of_emitted. split; [done|]. destruct after; cbn in *; [|done]. lia.
Qed.

Lemma claim_progress w after attempts :
  never_rejects request_events w → request_events ≠ [] →
  (claim env s request_id w after attempts).2 = Finished ∨
  (∃ after', (claim env s request_id w after attempts).2 = Pending after' 0 ∧ (remaining after' < remaining after)%nat) ∨
  ¬ accepts_all request_events w ∧
    (attempts + 1 < EMIT_MAX_ATTEMPTS → (claim env s request_id w after attempts).2 = Pending after (attempts + 1)).
Proof using Hconfigured Hunique.
  intros Hnr Hne. unfold claim.
  assert (emitted_events s request_id after ≠ [] ∨ is_Some after) as Hsome by (destruct after; [right; eauto|by left]).
  pose proof (emit_claim w after Hsome) as Hc.
  destruct (emit_lead_assigned w env s request_id after None) as [st [r|x]]; cbn in Hc |- *.
  - destruct (er_done r); [by left|]. right. left. destruct Hc as (c & -> & (e & He & Hid) & _).
    exists (Some c). split; [done|]. by eapply remaining_lt.
  - right. right. destruct Hc as [Htr Hac]. split.
    + contradict Hac. intros e [He _]%elem_of_emitted. by apply Hac.
    + destruct Htr as [detail ->]; [by intros e y [He _]%elem_of_emitted; apply Hnr|].
      intros Hlt%Z.ltb_lt. by rewrite Hlt.
Qed.

Lemma emission_done acc ws : (∀ after a, acc.2 ≠ Pending after a) → emission env s request_id acc ws = acc.
Proof.
  intros Hd. induction ws as [|w ws IH]; [done|]. unfold emission in *. cbn [foldl].
  assert (emission_step env s request_id acc w = acc) as -> by
    (unfold emission_step; destruct (acc.2) eqn:E; [by destruct (Hd after_id attempts)|done..]). done.
Qed.

Lemma emission_app acc ws ws' :
  emission env s request_id acc (ws ++ ws') = emission env s request_id (emission env s request_id acc ws) ws'.
Proof. apply foldl_app. Qed.

Lemma emission_step_Pending stored after a w :
  (emission_step env s request_id (stored, Pending after a) w).2 = (claim env s request_id w after a).2.
Proof. unfold emission_step. cbn. by destruct (claim env s request_id w after a). Qed.

(** Fewer than [EMIT_MAX_ATTEMPTS] claims in a row that may fail, then one
    that meets a service that accepts. *)
Definition block (ws : list World) : Prop :=
  ∃ bad good, ws = bad ++ [good] ∧ Z.of_nat (length bad) < EMIT_MAX_ATTEMPTS ∧
    Forall (never_rejects request_events) ws ∧ accepts_all request_events good.

Lemma emission_bad bad : ∀ stored after a,
  request_events ≠ [] → Forall (never_rejects request_events) bad → 0 ≤ a →
  a + Z.of_nat (length bad) < EMIT_MAX_ATTEMPTS →
  (emission env s request_id (stored, Pending after a) bad).2 = Finished ∨
  ∃ after' a', (emission env s request_id (stored, Pending after a) bad).2 = Pending after' a' ∧
    (remaining after' ≤ remaining after)%nat.
Proof using Hconfigured Hunique.
  induction bad as [|w bad IH]; intros stored after a Hne Hb Ha Hlen; [by right; exists after, a|].
  apply Forall_cons in Hb as [Hw Hb]. cbn [length] in Hlen.
  change (emission env s request_id ?acc (w :: bad)) with
    (emission env s request_id (emission_step env s request_id acc w) bad).
  pose proof (emission_step_Pending stored after a w) as Hs.
  destruct (emission_step env s request_id (stored, Pending after a) w) as [st next]. cbn in Hs. rewrite Hs. clear Hs.
  destruct (claim_progress w after a Hw Hne) as [->|[(after' & -> & Hlt)|[_ Hr]]].
  - left. by rewrite emission_done.
  - destruct (IH st after' 0 Hne Hb) as [->|(c & a' & -> & ?)]; [lia..|by left|]. right. exists c, a'. split; [done|lia].
  - rewrite Hr by lia. apply IH; [done..|lia|lia].
Qed.

Lemma emission_block stored after ws :
  request_events ≠ [] → block ws →
  (emission env s request_id (stored, Pending after 0) ws).2 = Finished ∨
  ∃ after', (emission env s request_id (stored, Pending after 0) ws).2 = Pending after' 0 ∧
    (remaining after' < remaining after)%nat.
Proof using Hconfigured Hunique.
  intros Hne (bad & good & -> & Hlen & Hws & Hgood). apply Forall_app in Hws as [Hbad [Hg _]%Forall_cons].
  rewrite emission_app.
  destruct (emission_bad bad stored after 0 Hne Hbad) as [Hf|(c & a & Hp & Hle)]; [lia..| |].
  - left. cbn. unfold emission_step. by rewrite Hf.
  - destruct (emission env s request_id (stored, Pending after 0) bad) as [st next]. cbn in Hp. subst next.
    change (emission env s request_id ?acc [good]) with (emission_step env s request_id acc good).
    rewrite emission_step_Pending.
    destruct (claim_progress good c a Hg Hne) as [->|[(c' & -> & ?)|[[] _]]]; [by left| |done].
    right. exists c'. split; [done|lia].
Qed.

Lemma emission_blocks blocks : ∀ stored after,
  request_events ≠ [] → Forall block blocks → (remaining after < length blocks)%nat →
  (emission env s request_id (stored, Pending after 0) (mjoin blocks)).2 = Finished.
Proof using Hconfigured Hunique.
  induction blocks as [|ws blocks IH]; intros stored after Hne Hb Hlen; cbn in Hlen; [lia|].
  apply Forall_cons in Hb as [Hws Hb]. change (mjoin (ws :: blocks)) with (ws ++ mjoin blocks).
  rewrite emission_app.
  pose proof (emission_block stored after ws Hne Hws) as Hcase.
  destruct (emission env s request_id (stored, Pending after 0) ws) as [st next]. cbn in Hcase.
  destruct Hcase as [->|(c & -> & Hlt)].
  - by rewrite emission_done.
  - apply IH; [done..|lia].
Qed.
End Chain.

(** C19: The emission of a request never skips an event, whatever the metrics
    service that is configured answers, in whatever order the posts of a wave complete, wherever
    the time runs out and however many claims were made: at any point every
    Distribution Event up to the cursor has been stored by the service, and
    when the chain reports that it is done they all have. *)
Theorem emission_never_skips env s request_id ws :
  configured env = true → unique_event_ids s →
  match emission env s request_id ([], Pending None 0) ws with
  | (stored, Pending (Some cursor) _) =>
      ∀ e, e ∈ st_events s → ev_request_id e = Some request_id → ev_id e ≤ cursor → ev_id e ∈ stored
  | (stored, Finished) => ∀ e, e ∈ st_events s → ev_request_id e = Some request_id → ev_id e ∈ stored
  | (_, Pending None _) | (_, GaveUp _) => True
  end.
Proof.
  intros Hconf Hu.
  pose proof (emission_nothing_skipped env s request_id Hconf Hu ws) as Hn.
  destruct (emission env s request_id ([], Pending None 0) ws) as [stored state].
  destruct state as [[cursor|] a| |x]; cbn in Hn |- *; [| done | |done].
  - intros e He Hr Hle. apply Hn; [by apply elem_of_request_events | by apply Z.ltb_ge].
  - intros e He Hr. apply Hn. by apply elem_of_request_events.
Qed.

(** C18: The emission of a request terminates.  If the service, once
    configured, never rejects an
    event of the request for good, and among any [EMIT_MAX_ATTEMPTS] claims in
    a row one meets a service that accepts (the others may meet outages, in any
    wave), then after one such stretch per event, and one more, the chain is
    finished and the service has stored every event. *)
Theorem emission_completes env s request_id blocks :
  configured env = true → unique_event_ids s → request_events s request_id ≠ [] →
  Forall (block s request_id) blocks → (length (request_events s request_id) < length blocks)%nat →
  (emission env s request_id ([], Pending None 0) (mjoin blocks)).2 = Finished ∧
  ∀ e, e ∈ st_events s → ev_request_id e = Some request_id →
       ev_id e ∈ (emission env s request_id ([], Pending None 0) (mjoin blocks)).1.
Proof.
  intros Hconf Hu Hne Hb Hlen.
  pose proof (emission_blocks env s request_id Hconf Hu blocks [] None Hne Hb Hlen) as Hf. split; [exact Hf|].
  pose proof (emission_nothing_skipped env s request_id Hconf Hu (mjoin blocks)) as Hn.
  unfold nothing_skipped in Hn. rewrite Hf in Hn. intros e He Hr. apply Hn. by apply elem_of_request_events.
Qed.

(** ** A concrete emission

    Three events; the first claim meets an outage, the later ones a service
    that answers 201, 200 or, for an unmapped agent, 422 with a held body. *)

Definition example_event (id : Z) (phone : string) : DistributionEvent :=
  mkDistributionEvent db1 id id (Some 7) (u "Acme") None [] (Some 1%N) (u phone) (u "Alpha") (u "PA") []
    (u "legacy") (u "legacy") (u "Plumber") (u "2026-06") 0 (u "jawnix").
Definition example_emitted : Store :=
  empty_store <| st_events := [example_event 3 "2155550103"; example_event 1 "2155550101"; example_event 2 "2155550102"] |>.

Definition outage : World := mkWorld (λ _, Response 503 false (u "down")) (λ _, false) (λ l, l) (λ l, reflexivity l).
Definition accepting : World :=
  mkWorld (λ body, match body with JObj (("dedup_key", JStr key) :: _)%string =>
                     if bool_decide (key = u "2") then Response 422 true [] else Response 201 false []
                   | _ => Response 200 false [] end)
    (λ _, true) (@rev _) (λ l, symmetry (Permutation_rev l)).

Example example_run :
  emission example_env example_emitted 1%N ([], Pending None 0) [outage; accepting; outage] = ([1; 2; 3], Finished).
Proof. vm_compute. reflexivity. Qed.

Lemma example_events_unique : unique_event_ids example_emitted.
Proof. apply (bool_decide_unpack _). vm_compute. exact I. Qed.

Lemma example_block : block example_emitted 1%N [outage; accepting].
Proof.
  assert (∀ e, e ∈ request_events example_emitted 1%N →
    e = example_event 1 "2155550101" ∨ e = example_event 2 "2155550102" ∨ e = example_event 3 "2155550103") as H3.
  { intros e [He _]%elem_of_request_events. cbn in He. set_solver. }
  exists [outage], accepting. repeat split.
  - repeat constructor; intros e x [-> | [-> | ->]]%H3 E; vm_compute in E; simplify_eq; eauto.
  - intros e [-> | [-> | ->]]%H3; reflexivity.
Qed.

Lemma emission_never_skips_witness :
  Forall (λ e, ev_request_id e = Some 1%N → ev_id e ∈ [1; 2; 3]) (st_events example_emitted).
Proof.
  pose proof (emission_never_skips example_env example_emitted 1%N [outage; accepting; outage] eq_refl
    example_events_unique) as H.
  rewrite example_run in H. apply Forall_forall. exact H.
Defined.

Lemma emission_completes_witness :
  (emission example_env example_emitted 1%N ([], Pending None 0) (mjoin (replicate 4 [outage; accepting]))).2 = Finished.
Proof.
  refine (proj1 (emission_completes example_env example_emitted 1%N (replicate 4 [outage; accepting]) eq_refl
    example_events_unique _ _ _)).
  - vm_compute. discriminate.
  - repeat constructor; exact example_block.
  - vm_compute. lia.
Defined.
