(* ===== verification/Allocation.v ===== *)
(** * [jawnix/allocation.py]: allocating Batch Requests

    [allocate_request] draws Leads for one request, all or none: a shortage
    leaves the inventory alone, a batch is recorded, filed and charged once,
    and a retry finds the recorded allocation. *)

From S2P Require Import Prelude PyText PyTime PyJson Models Sql Activity LeadDatabases Jobs Billing.
From S2P Require Import NichePolicy Eligible Listing Artifact Metrics Transitions.

Open Scope Z_scope.

Record AllocationResult : Type := mkAllocationResult {
  al_status : RequestStatus;
  al_allocated : Z;
  al_available : Z;
  al_artifact_id : option Z
}.

Definition GENERATED_MESSAGE : text := u "Batch generated; portal notification is queued.".

(** The events of a request in id order. *)
Definition is_event_of (request_id : uuid) (e : DistributionEvent) : bool :=
  bool_decide (ev_request_id e = Some request_id).
Definition events_of (s : Store) (request_id : uuid) : list DistributionEvent :=
  merge_sort event_le (List.filter (is_event_of request_id) (st_events s)).

(** ** An allocation that is already committed *)

(** Events of an earlier release carry no listing: fill them in from their Lead. *)
Definition backfill_event (lead : Lead) (e : DistributionEvent) : DistributionEvent :=
  e <| ev_phone := ld_phone lead |> <| ev_title := ld_title lead |> <| ev_state := ld_state lead |>
    <| ev_listing_provenance :=
         [("kind", JStr (u "legacy")); ("source", JStr (ld_source_flow lead))]%string |>.

Definition put_event (e : DistributionEvent) : M Store unit :=
  modify (λ s, s <| st_events := (λ e', if ev_id e' =? ev_id e then e else e') <$> st_events s |>).

Fixpoint backfill (events : list DistributionEvent) : M Store (list DistributionEvent) :=
  match events with
  | [] => mret []
  | e :: rest =>
      found ← gets (λ s, st_leads s !! ev_lead_id e);
      lead ← require found (KeyError (str_of_Z (ev_lead_id e)));
      let e' := backfill_event lead e in
      put_event e' ;;
      rest' ← backfill rest;
      mret (e' :: rest')
  end.

Definition event_row (e : DistributionEvent) : text * text := (ev_phone e, ev_title e).

Section Allocate.
Context `{CaseMapping} `{Platform}.

(** The jobs and the charge that follow a generated batch. *)
Definition finish_generated (env : Env) (request : LeadRequest) : M Store unit :=
  put_request request ;;
  enqueue env "deliver_request" (Some (rq_id request)) ;;
  enqueue env EMIT_LEAD_ASSIGNED_JOB (Some (rq_id request)) ;;
  enqueue env "update_notification" (Some (rq_id request)) ;;
  capture_batch_hold env request.

Definition allocate_existing (env : Env) (request : LeadRequest) (customer : Customer)
    (existing_events : list DistributionEvent) : M Store AllocationResult :=
  let count := Z.of_nat (length existing_events) in
  raise_if (negb (count =? rq_lead_count request))
    (RuntimeError (u "Existing allocation has an unexpected row count.")) ;;
  events ← (if existsb (λ e, bool_decide (ev_phone e = [])) existing_events
            then backfill existing_events else mret existing_events);
  artifact ← generate_artifact env request customer (event_row <$> events);
  let request := request <| rq_status := generated |> <| rq_status_message := GENERATED_MESSAGE |> in
  finish_generated env request ;;
  mret (mkAllocationResult (rq_status request) count count (Some (ar_id artifact))).

(** ** Selection *)

(** A row [FOR UPDATE SKIP LOCKED] passes over: its Lead is held by another
    session, or, for the DB2 inventory, the membership joined to it is. *)
Definition row_locked (env : Env) (database : Database) (lead : Lead) : bool :=
  bool_decide (ld_id lead ∈ locked_leads env) ||
  match database with
  | db1 => false
  | db2 => bool_decide (ld_id lead ∈ locked_memberships env)
  end.

(** [LIMIT n ... FOR UPDATE SKIP LOCKED]: the first [n] rows nobody holds. *)
Definition select_candidates (env : Env) (s : Store) (request : LeadRequest) (customer : Customer)
    : list Lead :=
  take (Z.to_nat (rq_lead_count request))
    (List.filter (λ l, negb (row_locked env (inventory_database customer) l))
       (eligible_query s request customer (now env))).

(** [add_columns(LeadDatabaseMembership.upload_id)] for the DB2 inventory. *)
Definition source_keys (s : Store) (candidates : list Lead) : list (Z * uuid) :=
  omap (λ l, (λ m, (ld_id l, mb_upload_id m)) <$> st_memberships s !! ld_id l) candidates.

Definition shortage_message (request : LeadRequest) (available : Z) : text :=
  u "Inventory shortage: requested " ++ format_thousands (rq_lead_count request) ++ u "; available "
  ++ format_thousands available ++ u ". No rows were allocated.".

Definition report_shortage (env : Env) (request : LeadRequest) (customer : Customer)
    : M Store AllocationResult :=
  available ← gets (λ s, inventory_count s request customer (now env));
  let request := request <| rq_status := waiting_inventory |> <| rq_available_count := Some available |>
                         <| rq_status_message := shortage_message request available |> in
  put_request request ;;
  enqueue_milestone_email env request ;;
  enqueue env "update_notification" (Some (rq_id request)) ;;
  mret (mkAllocationResult (rq_status request) 0 available None).

(** ** Distribution *)

(** What is delivered of one Lead: title, state, provenance, kind, segment
    and Niche. *)
Definition delivered_listing (s : Store) (database : Database) (sources : gmap Z SourceListing)
    (lookups : option ListingLookups) (lead : Lead)
    : outcome (text * text * (dict * text * text * text)) :=
  match database with
  | db2 =>
      listing ← (match sources !! ld_id lead with
                 | Some l => Ok l
                 | None => Err (KeyError (str_of_Z (ld_id lead)))
                 end);
      refuse_if (bool_decide (sl_phone listing ≠ ld_phone lead))
        (RuntimeError (u "DB2 phone identity does not match its canonical endpoint.")) ;;
      let corrected := bool_decide (is_Some (ld_active_correction_id lead)) in
      Ok (if corrected then ld_title lead else sl_title listing,
          if corrected then ld_state lead else sl_state listing,
          (dict_set "correction_id"
             (json_opt (λ id, JStr (str_of_uuid id)) (ld_active_correction_id lead))
             (sl_provenance listing),
           sl_source_kind listing, sl_segment_key listing, sl_niche listing))
  | db1 => Ok (ld_title lead, ld_state lead, listing_snapshot s lookups lead)
  end.

Definition agency_name_of (s : Store) (customer : Customer) : text :=
  default [] (ag_name <$> (cu_agency_id customer ≫= λ id, st_agencies s !! id)).

Definition distribute_lead (env : Env) (request : LeadRequest) (customer : Customer)
    (database : Database) (sources : gmap Z SourceListing) (lookups : option ListingLookups) (lead : Lead)
    : M Store DistributionEvent :=
  listing ← (λ s, lift (delivered_listing s database sources lookups lead) s);
  let '(title, state, (provenance, source_kind, segment_key, niche)) := listing in
  update_lead (ld_id lead) (λ l, l <| ld_last_distributed_at := Some (now env) |>) ;;
  agency_name ← gets (λ s, agency_name_of s customer);
  id ← gets st_next_event;
  let distribution := mkDistributionEvent database id (ld_id lead) (Some (rq_agent_id request))
    (cu_name customer) (cu_agency_id customer) agency_name (Some (rq_id request)) (ld_phone lead)
    title state provenance source_kind segment_key niche (strftime_year_month (now env)) (now env)
    (u "request") in
  modify (λ s, s <| st_next_event := id + 1 |> <| st_events := st_events s ++ [distribution] |>) ;;
  mret distribution.

Definition distribute (env : Env) (request : LeadRequest) (customer : Customer) (database : Database)
    (sources : gmap Z SourceListing) (lookups : option ListingLookups) (candidates : list Lead)
    : M Store (list DistributionEvent) :=
  fold_m candidates (λ rows lead,
    row ← distribute_lead env request customer database sources lookups lead;
    mret (rows ++ [row])) [].

Definition allocate_new (env : Env) (request : LeadRequest) (customer : Customer)
    : M Store AllocationResult :=
  let request := request <| rq_status := processing |>
                         <| rq_status_message := u "Selecting eligible inventory." |> in
  put_request request ;;
  let database := inventory_database customer in
  candidates ← gets (λ s, select_candidates env s request customer);
  let count := Z.of_nat (length candidates) in
  if count <? rq_lead_count request then report_shortage env request customer else
  sources ← gets (λ s, match database with
                       | db2 => db2_listings s (source_keys s candidates)
                       | db1 => ∅
                       end);
  raise_if (bool_decide (database = db2) && negb (Z.of_nat (size sources) =? count))
    (RuntimeError (u "The selected DB2 inventory version is unavailable.")) ;;
  lookups ← gets (λ s, match database with db1 => listing_lookups s candidates | db2 => None end);
  delivered_rows ← distribute env request customer database sources lookups candidates;
  artifact ← generate_artifact env request customer (event_row <$> delivered_rows);
  let request := request <| rq_status := generated |> <| rq_available_count := Some count |>
                         <| rq_processed_at := Some (now env) |>
                         <| rq_status_message := GENERATED_MESSAGE |> in
  finish_generated env request ;;
  mret (mkAllocationResult (rq_status request) count count (Some (ar_id artifact))).

Definition allocate_request (env : Env) (request_id : uuid) : M Store AllocationResult :=
  found ← gets (λ s, st_requests s !! request_id);
  request ← require found (LookupError (u "Request " ++ str_of_uuid request_id ++ u " was not found."));
  owner ← gets (λ s, st_customers s !! rq_agent_id request);
  customer ← require owner (AttributeError (u "customer"));
  existing_events ← gets (λ s, events_of s (rq_id request));
  match existing_events with
  | _ :: _ => allocate_existing env request customer existing_events
  | [] =>
      if bool_decide (rq_status request ∈ [approved; processing]) then allocate_new env request customer
      else mret (mkAllocationResult (rq_status request) 0 (default 0 (rq_available_count request)) None)
  end.
End Allocate.

(** ** Lemmas *)

(** What one distribution records. *)
Record event_for (env : Env) (request : LeadRequest) (customer : Customer) (lead : Lead)
    (e : DistributionEvent) : Prop := {
  ef_database : ev_inventory_database e = inventory_database customer;
  ef_lead : ev_lead_id e = ld_id lead;
  ef_agent : ev_agent_id e = Some (rq_agent_id request);
  ef_agency : ev_agency_id e = cu_agency_id customer;
  ef_request : ev_request_id e = Some (rq_id request);
  ef_phone : ev_phone e = ld_phone lead;
  ef_period : ev_distribution_period e = strftime_year_month (now env);
  ef_delivered : ev_delivered_at e = now env
}.

Definition stamp (t : datetime) (l : Lead) : Lead := l <| ld_last_distributed_at := Some t |>.
Definition stamp_all (t : datetime) (ids : list Z) (leads : gmap Z Lead) : gmap Z Lead :=
  foldl (λ m id, alter (stamp t) id m) leads ids.

(** Stamping once or often is the same, so the order does not matter. *)
Lemma stamp_all_lookup t ids leads k :
  stamp_all t ids leads !! k = (if bool_decide (k ∈ ids) then stamp t <$> leads !! k else leads !! k).
Proof.
  revert leads. induction ids as [|id ids IH]; intros leads; [done|].
  change (stamp_all t (id :: ids) leads) with (stamp_all t ids (alter (stamp t) id leads)).
  rewrite IH. destruct (decide (k = id)) as [->|Hne].
  - rewrite lookup_alter_eq, (bool_decide_eq_true_2 (id ∈ id :: ids)) by (by left).
    case_bool_decide; [|done]. by destruct (leads !! id).
  - rewrite lookup_alter_ne by done. case_bool_decide as H1; case_bool_decide as H2; try done.
    + exfalso. apply H2. by right.
    + exfalso. apply elem_of_cons in H2 as [->|?]; done.
Qed.

(** The records of a batch number on from the sequence. *)
Definition consecutive (from : Z) (events : list DistributionEvent) : Prop :=
  ev_id <$> events = seqZ from (Z.of_nat (length events)).

Section Facts.
Context `{CaseMapping} `{Platform}.

Lemma distribute_lead_inv env request customer sources lookups lead s e s' :
  distribute_lead env request customer (inventory_database customer) sources lookups lead s = (Ok e, s') →
  event_for env request customer lead e ∧ ev_id e = st_next_event s ∧
  s' = s <| st_leads := alter (stamp (now env)) (ld_id lead) (st_leads s) |>
         <| st_next_event := st_next_event s + 1 |>
         <| st_events := st_events s ++ [e] |>.
Proof.
  unfold distribute_lead, lift, update_lead. intros Hrun.
  apply bind_Ok_inv in Hrun as (listing & s1 & Hl & Hrun).
  destruct (delivered_listing _ _ _ _ _) as [d|]; [|run_inv]. apply ret_Ok_inv in Hl as [-> ->].
  destruct listing as [[title state] [[[provenance kind] segment] niche]]. run_inv. done.
Qed.

(** The loop over the candidates. *)
Lemma distribute_from env request customer sources lookups candidates acc s rows s' :
  fold_m candidates (λ rows lead,
    row ← distribute_lead env request customer (inventory_database customer) sources lookups lead;
    mret (rows ++ [row])) acc s = (Ok rows, s') →
  ∃ new, rows = acc ++ new ∧ Forall2 (event_for env request customer) candidates new ∧
    consecutive (st_next_event s) new ∧
    s' = s <| st_leads := stamp_all (now env) (ld_id <$> candidates) (st_leads s) |>
           <| st_next_event := st_next_event s + Z.of_nat (length candidates) |>
           <| st_events := st_events s ++ new |>.
Proof.
  revert acc s. induction candidates as [|lead rest IH]; intros acc s Hrun; cbn [fold_m] in Hrun.
  - apply ret_Ok_inv in Hrun as [-> ->]. exists []. rewrite app_nil_r, Z.add_0_r, app_nil_r.
    split_and!; [done | apply Forall2_nil_2 | done | by destruct s'].
  - apply bind_Ok_inv in Hrun as (acc1 & s1 & Hhd & Hrun).
    apply bind_Ok_inv in Hhd as (e & s1' & He & Hr). apply ret_Ok_inv in Hr as [<- <-].
    apply distribute_lead_inv in He as (He & Hid & ->).
    apply IH in Hrun as (new & -> & Hall & Hseq & ->). rsimpl. exists (e :: new).
    rewrite <- !app_assoc. split_and!; [done | by constructor | |].
    + unfold consecutive in *. cbn [fmap list_fmap]. rewrite Hseq, Hid. rsimpl. cbn [length].
      rewrite (seqZ_cons (st_next_event s)) by lia. f_equal. f_equal; lia.
    + cbn [length fmap list_fmap stamp_all foldl app]. unfold stamp_all.
      replace (st_next_event s + Z.of_nat (S (length rest)))
        with (st_next_event s + 1 + Z.of_nat (length rest)) by lia. reflexivity.
Qed.
Definition distribute_inv env request customer sources lookups candidates s rows s'
    (H0 : distribute env request customer (inventory_database customer) sources lookups candidates s
          = (Ok rows, s')) :=
  distribute_from env request customer sources lookups candidates [] s rows s' H0.

(** What a generation leaves alone. *)
Lemma generate_artifact_frame {A} (proj : Store → A) env request customer rows x :
  (∀ s v, proj (s <| st_files := v |>) = proj s) → (∀ s v, proj (s <| st_artifacts := v |>) = proj s) →
  (∀ s v, proj (s <| st_next_artifact := v |>) = proj s) →
  preserves (λ s, proj s = x) (generate_artifact env request customer rows).
Proof.
  intros H1 H2 H3. unfold generate_artifact, lift.
  solve_frame; apply pres_modify; intros s Hs; by rewrite ?H1, ?H2, ?H3.
Qed.

(** What an allocation that draws nothing leaves alone. *)
Definition stock (s : Store) :=
  (st_events s, st_leads s, st_artifacts s, st_files s, st_ledger s, st_holds s, st_customers s).

Lemma report_shortage_inv env request customer s res s' :
  report_shortage env request customer s = (Ok res, s') →
  let available := inventory_count s request customer (now env) in
  stock s' = stock s ∧
  st_requests s' = <[rq_id request := request <| rq_status := waiting_inventory |>
    <| rq_available_count := Some available |>
    <| rq_status_message := shortage_message request available |>]> (st_requests s) ∧
  res = mkAllocationResult waiting_inventory 0 available None.
Proof.
  intros Hrun. cbv zeta. split.
  { refine (preserves_Ok (λ t, stock t = stock s) _ s _ s' _ eq_refl Hrun).
    unfold report_shortage, put_request. solve_frame. }
  unfold report_shortage in Hrun. rewrite bind_gets in Hrun. cbv zeta in Hrun.
  set (r := request <| rq_status := waiting_inventory |> <| rq_available_count := _ |>
                    <| rq_status_message := _ |>) in *.
  unfold put_request in Hrun. rewrite bind_modify in Hrun.
  assert (rq_id r = rq_id request) as Er by reflexivity. rewrite Er in Hrun.
  apply bind_Ok_inv in Hrun as (? & s1 & Hm & Hrun). apply bind_Ok_inv in Hrun as (? & s2 & He & Hrun).
  apply ret_Ok_inv in Hrun as [<- <-]. split; [|done].
  eapply preserves_Ok in He; [|apply enqueue_frame with (proj := st_requests); reflexivity|].
  2: { eapply preserves_Ok in Hm; [|apply enqueue_milestone_email_frame with (proj := st_requests); reflexivity
                                   |reflexivity]. exact Hm. }
  exact He.
Qed.

Lemma finish_generated_inv env request s x s' :
  finish_generated env request s = (Ok x, s') →
  (st_events s', st_leads s', st_artifacts s', st_files s', st_customers s', st_next_event s')
    = (st_events s, st_leads s, st_artifacts s, st_files s, st_customers s, st_next_event s) ∧
  st_requests s' = <[rq_id request := request]> (st_requests s) ∧
  ∃ s1, st_ledger s1 = st_ledger s ∧ st_holds s1 = st_holds s ∧
        capture_batch_hold env request s1 = (Ok x, s').
Proof.
  unfold finish_generated. intros Hrun. unfold put_request in Hrun. rewrite bind_modify in Hrun.
  set (s0 := s <| st_requests := _ |>) in *.
  apply bind_Ok_inv in Hrun as (? & sa & E1 & Hrun). apply bind_Ok_inv in Hrun as (? & sb & E2 & Hrun).
  apply bind_Ok_inv in Hrun as (? & s1 & E3 & Hc).
  assert (∀ A (proj : Store → A), (∀ s v, proj (s <| st_next_job := v |>) = proj s) →
    (∀ s v, proj (s <| st_jobs := v |>) = proj s) → proj s1 = proj s0) as Hq.
  { intros A proj H1 H2.
    pose proof (λ k t, enqueue_frame proj env k (Some (rq_id request)) (proj t) H1 H2 t eq_refl) as Hp.
    pose proof (Hp "deliver_request"%string s0) as P1. rewrite E1 in P1.
    pose proof (Hp EMIT_LEAD_ASSIGNED_JOB sa) as P2. rewrite E2 in P2.
    pose proof (Hp "update_notification"%string sb) as P3. rewrite E3 in P3. cbn in P1, P2, P3. congruence. }
  assert (∀ A (proj : Store → A), (∀ s v, proj (s <| st_holds := v |>) = proj s) →
    (∀ s v, proj (s <| st_ledger := v |>) = proj s) →
    (∀ s v, proj (s <| st_next_uuid := v |>) = proj s) → proj s' = proj s1) as Hf.
  { intros A proj H1 H2 H3. refine (preserves_Ok (λ t, proj t = proj s1) _ s1 _ s' _ eq_refl Hc).
    by apply capture_batch_hold_frame. }
  split; [|split].
  - rewrite (Hf _ (λ s, (st_events s, st_leads s, st_artifacts s, st_files s, st_customers s, st_next_event s))) by done.
    by rewrite (Hq _ (λ s, (st_events s, st_leads s, st_artifacts s, st_files s, st_customers s, st_next_event s))) by done.
  - by rewrite Hf, Hq by done.
  - exists s1. rewrite !Hq by done. done.
Qed.

Definition generated_request (env : Env) (request : LeadRequest) (count : Z) : LeadRequest :=
  request <| rq_status := generated |> <| rq_available_count := Some count |>
          <| rq_processed_at := Some (now env) |> <| rq_status_message := GENERATED_MESSAGE |>.

(** What a generated batch leaves in the store. *)
Record generated_batch (env : Env) (request : LeadRequest) (customer : Customer) (picked : list Lead)
    (s s' : Store) (new : list DistributionEvent) (a : BatchArtifact) : Prop := {
  gb_events : st_events s' = st_events s ++ new;
  gb_records : Forall2 (event_for env request customer) picked new;
  gb_ids : consecutive (st_next_event s) new;
  gb_leads : st_leads s' = stamp_all (now env) (ld_id <$> picked) (st_leads s);
  gb_artifact : st_artifacts s' !! rq_id request = Some a;
  gb_rows : ar_row_count a = Z.of_nat (length picked);
  gb_request : st_requests s' = <[rq_id request :=
    generated_request env request (Z.of_nat (length picked))]> (st_requests s);
  gb_customers : st_customers s' = st_customers s;
  gb_hold : rq_is_billed request = true →
    ∃ h, st_holds s' !! rq_id request = Some h ∧ ho_status h = hold_captured;
  gb_file : ∃ s1 s2 request', rq_id request' = rq_id request ∧
    rq_rows_per_file request' = rq_rows_per_file request ∧
    st_artifacts s1 = st_artifacts s ∧ st_artifacts s2 = st_artifacts s' ∧ st_files s2 = st_files s' ∧
    generate_artifact env request' customer (event_row <$> new) s1 = (Ok a, s2)
}.

Lemma capture_leaves_captured env q s x s' :
  capture_batch_hold env q s = (Ok x, s') → rq_is_billed q = true →
  ∃ h, st_holds s' !! rq_id q = Some h ∧ ho_status h = hold_captured.
Proof.
  intros Hc Hb. apply capture_batch_hold_inv in Hc as [[? _]|(_ & h & Hh & [[Hs ->]|(_ & charge & _ & ->)])];
    [congruence | eauto|].
  eexists. rsimpl. rewrite lookup_insert_eq. split; [reflexivity | by rsimpl].
Qed.

(** An allocation from stock either runs short and draws nothing, or
    generates the batch. *)
Lemma allocate_new_inv env request customer s res s' :
  allocate_new env request customer s = (Ok res, s') →
  let picked := select_candidates env s request customer in
  let count := Z.of_nat (length picked) in
  (count < rq_lead_count request ∧ stock s' = stock s ∧
   let available := inventory_count s request customer (now env) in
   res = mkAllocationResult waiting_inventory 0 available None ∧
   st_requests s' = <[rq_id request := request <| rq_status := waiting_inventory |>
     <| rq_status_message := shortage_message request available |>
     <| rq_available_count := Some available |>]> (st_requests s)) ∨
  (rq_lead_count request ≤ count ∧ ∃ new a, generated_batch env request customer picked s s' new a ∧
   res = mkAllocationResult generated count count (Some (ar_id a))).
Proof.
  unfold allocate_new, put_request. rewrite bind_modify. intros Hrun. cbv zeta in Hrun |- *.
  rewrite bind_gets in Hrun.
  set (request1 := request <| rq_status := processing |> <| rq_status_message := _ |>) in *.
  set (s0 := s <| st_requests := _ |>) in *.
  change (select_candidates env s0 request1 customer) with (select_candidates env s request customer) in Hrun.
  set (picked := select_candidates env s request customer) in *.
  change (rq_lead_count request1) with (rq_lead_count request) in Hrun.
  destruct (Z.ltb_spec (Z.of_nat (length picked)) (rq_lead_count request)) as [Hlt|Hge].
  - left. split; [done|]. apply report_shortage_inv in Hrun as (Hst & Hrq & ->).
    split; [exact Hst|]. split; [reflexivity|]. rewrite Hrq. unfold s0, request1. rsimpl. apply insert_insert_eq.
  - right. split; [done|]. rewrite bind_gets in Hrun.
    apply bind_Ok_inv in Hrun as (? & s1 & Hg & Hrun). apply raise_if_Ok_inv in Hg as (_ & -> & _).
    rewrite bind_gets in Hrun. apply bind_Ok_inv in Hrun as (new & s2 & Hd & Hrun).
    apply distribute_inv in Hd as (new' & -> & Hall & Hids & ->). rewrite app_nil_l in Hrun.
    apply bind_Ok_inv in Hrun as (a & s3 & Ha & Hrun). apply bind_Ok_inv in Hrun as ([] & s4 & Hf & Hrun).
    apply ret_Ok_inv in Hrun as [<- <-]. pose proof Ha as Hgen.
    apply generate_artifact_inv in Ha as (? & ? & ? & ? & _ & _ & _ & _ & _ & _ & Hrc & _ & _ & _ & Hs3).
    apply finish_generated_inv in Hf as ([= He Hl Har Hfi Hcu Hne] & Hrq & s5 & _ & Hho & Hcap).
    exists new', a. split; [|done]. rewrite Hs3 in He, Hl, Hcu, Hrq.
    split; try done.
    + eapply Forall2_impl; [exact Hall|]. by intros l e [].
    + rewrite Har, Hs3. apply lookup_insert_eq.
    + rewrite Hrc, length_fmap. by rewrite (Forall2_length _ _ _ Hall).
    + rewrite Hrq. exact (insert_insert_eq (st_requests s) (rq_id request)
        (generated_request env request (Z.of_nat (length picked))) request1).
    + by apply (capture_leaves_captured _ _ _ _ _ Hcap).
    + do 3 eexists. split_and!; [..|exact Hgen]; try done; congruence.
Qed.
End Facts.


Lemma consecutive_cons from e events :
  consecutive from (e :: events) ↔ ev_id e = from ∧ consecutive (from + 1) events.
Proof.
  unfold consecutive. cbn [length fmap list_fmap]. rewrite seqZ_cons by lia.
  replace (Z.pred (Z.of_nat (S (length events)))) with (Z.of_nat (length events)) by lia.
  split; [by intros [= <- ->] | by intros [<- ->]].
Qed.

Lemma consecutive_ge from events e : consecutive from events → e ∈ events → from ≤ ev_id e.
Proof.
  intros Hc He. assert (ev_id e ∈ seqZ from (Z.of_nat (length events))) as [? _]%elem_of_seqZ; [|done].
  rewrite <- Hc. by apply list_elem_of_fmap_2.
Qed.

(** Events already in id order stay as they are. *)
Lemma sort_consecutive from events : consecutive from events → merge_sort event_le events = events.
Proof.
  intros Hc. apply (StronglySorted_unique_strong event_le).
  - intros a b Ha Hb Hab Hba. rewrite (merge_sort_Permutation event_le) in Ha.
    apply list_elem_of_lookup in Ha as [i Hi], Hb as [j Hj].
    assert (ev_id a = ev_id b) as E by (unfold event_le in *; lia).
    assert (NoDup (ev_id <$> events)) as Hn by (rewrite Hc; apply NoDup_seqZ).
    assert (i = j) as ->; [|congruence].
    eapply (NoDup_lookup _ i j (ev_id a)); [exact Hn|..]; rewrite list_lookup_fmap, ?Hi, ?Hj; cbn; congruence.
  - apply (StronglySorted_merge_sort event_le).
  - revert from Hc. induction events as [|e events IH]; intros from Hc; [constructor|].
    apply consecutive_cons in Hc as [He Hc]. constructor; [by eapply IH|]. apply Forall_forall.
    intros e' He'. pose proof (consecutive_ge _ _ _ Hc He'). unfold event_le. lia.
  - apply merge_sort_Permutation.
Qed.

Section Retry.
Context `{CaseMappingLaws} `{Platform}.

Lemma allocate_request_run env request_id request customer s :
  st_requests s !! request_id = Some request → st_customers s !! rq_agent_id request = Some customer →
  allocate_request env request_id s =
    match events_of s (rq_id request) with
    | (_ :: _) as events => allocate_existing env request customer events s
    | [] => if bool_decide (rq_status request ∈ [approved; processing])
            then allocate_new env request customer s
            else (Ok (mkAllocationResult (rq_status request) 0 (default 0 (rq_available_count request)) None), s)
    end.
Proof.
  intros Hr Hc. unfold allocate_request. rewrite bind_gets, Hr, (bind_require_Some _ request) by done.
  rewrite bind_gets, Hc, (bind_require_Some _ customer), bind_gets by done.
  destruct (events_of s (rq_id request)); [|done]. by case_bool_decide.
Qed.

(** The records of a generated batch are what a retry finds. *)
Lemma events_of_generated env request customer picked s s' new a :
  events_of s (rq_id request) = [] → generated_batch env request customer picked s s' new a →
  events_of s' (rq_id request) = new.
Proof.
  intros Hnone [He Hrec Hids _ _ _ _ _ _ _]. unfold events_of in *. rewrite He, List.filter_app.
  assert (List.filter (is_event_of (rq_id request)) (st_events s) = []) as ->.
  { apply Permutation_nil. rewrite <- Hnone. apply merge_sort_Permutation. }
  assert (List.filter (is_event_of (rq_id request)) new = new) as ->; [|by eapply sort_consecutive].
  clear Hids He. induction Hrec as [|l e picked new He Hrec IH]; [done|]. cbn.
  unfold is_event_of at 1. rewrite (ef_request _ _ _ _ _ He), bool_decide_eq_true_2 by done. by rewrite IH.
Qed.

(** The charge is behind: nothing is left to capture. *)
Definition settled (q : LeadRequest) (s : Store) : Prop :=
  rq_is_billed q = true → ∃ h, st_holds s !! rq_id q = Some h ∧ ho_status h = hold_captured.

Lemma capture_settled env q s : settled q s → capture_batch_hold env q s = (Ok tt, s).
Proof.
  unfold settled, capture_batch_hold. intros Hs.
  destruct (rq_is_billed q); [|done]. destruct (Hs eq_refl) as (h & Hh & Hc). cbn [negb].
  rewrite bind_gets, Hh, (bind_require_Some _ h) by done. by rewrite bool_decide_eq_true_2.
Qed.

Lemma finish_settled env request s :
  settled request s → ∃ s', finish_generated env request s = (Ok tt, s') ∧ stock s' = stock s ∧
    st_requests s' = <[rq_id request := request]> (st_requests s).
Proof.
  intros Hset. assert (∃ s', finish_generated env request s = (Ok tt, s')) as [s' Hrun].
  { unfold finish_generated, put_request. rewrite bind_modify. set (s0 := s <| st_requests := _ |>).
    assert (st_holds s0 = st_holds s) as E0 by done. clearbody s0.
    do 3 match goal with |- ∃ _, (enqueue ?e ?k ?r ≫= _) ?s0 = _ =>
      let x := fresh "x" in let s1 := fresh "s1" in let E := fresh "E" in
      let F := fresh "F" in
      destruct (enqueue_total e k r s0) as (x & s1 & E); rewrite (bind_Ok _ _ _ _ _ E);
      pose proof (preserves_Ok _ _ _ _ _ (enqueue_frame st_holds e k r (st_holds s0) (λ _ _, eq_refl)
        (λ _ _, eq_refl)) eq_refl E) as F; cbv beta in F; clear E end.
    rewrite capture_settled; [eauto|]. unfold settled. by rewrite F1, F0, F, E0. }
  exists s'. split; [done|]. apply finish_generated_inv in Hrun as ([= ? ? ? ? ? ?] & Hrq & s1 & Hl & Hh & Hc).
  split; [|done]. rewrite capture_settled in Hc by (by unfold settled; rewrite Hh). injection Hc as ->.
  unfold stock. congruence.
Qed.

Lemma allocate_existing_run env request customer events s a s1 :
  Z.of_nat (length events) = rq_lead_count request → Forall (λ e, ev_phone e ≠ []) events →
  generate_artifact env request customer (event_row <$> events) s = (Ok a, s1) → settled request s1 →
  ∃ s2, allocate_existing env request customer events s =
      (Ok (mkAllocationResult generated (Z.of_nat (length events)) (Z.of_nat (length events))
             (Some (ar_id a))), s2) ∧ stock s2 = stock s1.
Proof.
  intros Hn Hp Hg Hset. unfold allocate_existing. rewrite bind_raise_if_false by (by rewrite Hn, Z.eqb_refl).
  assert (existsb (λ e, bool_decide (ev_phone e = [])) events = false) as ->.
  { induction Hp as [|e l He Hp IH]; [done|]. cbn. rewrite bool_decide_eq_false_2 by done.
    clear -Hp. induction Hp; cbn; [done|]. by rewrite bool_decide_eq_false_2. }
  rewrite bind_ret, (bind_Ok _ _ _ _ _ Hg). cbv beta zeta.
  edestruct finish_settled as (s2 & Hf & Hst & _); [|erewrite (bind_Ok _ _ _ _ _ Hf); eauto]. exact Hset.
Qed.

(** Rebuilding the file of a generated batch from its records. *)
Lemma regenerate_batch env env' request customer picked s s' new a request' :
  st_artifacts s !! rq_id request = None → generated_batch env request customer picked s s' new a →
  rq_id request' = rq_id request → rq_rows_per_file request' = rq_rows_per_file request →
  disk_ok env' = true →
  ∃ a3 s1, generate_artifact env' request' customer (event_row <$> new) s' = (Ok a3, s1) ∧
    ar_id a3 = ar_id a ∧ st_files s1 = st_files s' ∧
    (st_events s1, st_leads s1, st_ledger s1, st_holds s1) =
    (st_events s', st_leads s', st_ledger s', st_holds s').
Proof using Type*.
  intros Hnone Hb Hid Hrows Hdisk.
  destruct (gb_file _ _ _ _ _ _ _ _ Hb) as (t1 & t2 & q & Hq & Hqr & Ha1 & Ha2 & Hf2 & Hgen).
  rewrite <- Ha1, <- Hq in Hnone.
  destruct (fresh_plan_again _ _ _ _ _ _ _ a Hnone Hgen eq_refl eq_refl)
    as (names & parts & bytes & Hplan & Hlen & Hby & _ & _ & _ & _ & Hfile).
  rewrite Hqr, <- Hrows in Hplan. rewrite Hf2 in Hfile.
  pose proof (gb_artifact _ _ _ _ _ _ _ _ Hb) as Ha. rewrite <- Hid in Ha.
  destruct (regenerate_run env' request' customer _ s' a false names parts bytes Ha Hplan Hlen Hby Hdisk)
    as (a3 & s1 & Hgen3 & Hida).
  exists a3, s1. split; [done|]. split; [done|].
  apply generate_artifact_inv in Hgen3 as (l' & n' & p' & b' & Hplan3 & _ & Hb3 & Hpath3 & _ &
    _ & _ & _ & _ & _ & Hs1).
  rewrite Ha in Hplan3, Hpath3. injection Hpath3 as Ep3 Ef3. rewrite Ef3, Hplan in Hplan3.
  injection Hplan3 as <- <- <-. assert (b' = bytes) as -> by congruence.
  rewrite Hs1. split; [|done]. rsimpl. rewrite Ep3. by apply insert_id.
Qed.
End Retry.


Lemma records_lead_ids env request customer picked new :
  Forall2 (event_for env request customer) picked new → ev_lead_id <$> new = ld_id <$> picked.
Proof. induction 1 as [|l e ls es He _ IH]; [done|]. cbn. by rewrite IH, (ef_lead _ _ _ _ _ He). Qed.

Section Candidates.
Context `{CaseMapping}.

Lemma elem_of_select_candidates env s request customer l :
  l ∈ select_candidates env s request customer →
  l ∈ eligible_query s request customer (now env) ∧ ld_id l ∉ locked_leads env.
Proof.
  intros (i & Hi%list_elem_of_lookup_2 & _)%elem_of_take.
  apply list_elem_of_In, filter_In in Hi as [Hi%list_elem_of_In Hl]. split; [exact Hi|].
  apply negb_true_iff, orb_false_iff in Hl as [Hl _]. by apply bool_decide_eq_false in Hl.
Qed.

Lemma length_select_candidates env s request customer :
  (length (select_candidates env s request customer) ≤ Z.to_nat (rq_lead_count request))%nat.
Proof. unfold select_candidates. rewrite length_take. lia. Qed.

(** Where every Lead has a phone, so does every record. *)
Lemma records_phones env env' s request customer r c new :
  (∀ id l, st_leads s !! id = Some l → ld_phone l ≠ []) →
  Forall2 (event_for env' r c) (select_candidates env s request customer) new →
  Forall (λ e, ev_phone e ≠ []) new.
Proof.
  intros Hph Hrec. apply Forall_forall. intros e He.
  apply list_elem_of_lookup in He as [i Hi]. destruct (Forall2_lookup_r _ _ _ _ _ Hrec Hi) as (l & Hl & Hf).
  rewrite (ef_phone _ _ _ _ _ Hf). apply list_elem_of_lookup_2, elem_of_select_candidates in Hl as [Hl _].
  apply elem_of_eligible_with in Hl as [[id Hl] _]. eauto.
Qed.

Lemma NoDup_select_candidates env s request customer :
  keyed_leads s → NoDup (ld_id <$> select_candidates env s request customer).
Proof.
  intros Hk. pose proof (NoDup_eligible_with (saved_policy s customer) s request customer (now env) Hk) as Hn.
  eapply sublist_NoDup; [exact Hn|]. apply fmap_sublist.
  etrans; [apply sublist_take|]. unfold eligible_query. induction (eligible_with _ _ _ _ _) as [|l ls IH]; [done|].
  cbn. inversion Hn; subst. destruct (negb _); [by apply sublist_skip, IH | by apply sublist_cons, IH].
Qed.
End Candidates.

(** ** Properties *)

(** Every recorded event is older than the sequence. *)
Definition events_numbered (s : Store) : Prop := ∀ e, e ∈ st_events s → ev_id e < st_next_event s.

(** C1: an allocation is all or nothing.  For a request in line it takes the
    Leads the query offers and no other session holds, and either they are too
    few, and inventory, records, files, ledger and holds stay as they were
    while the request waits; or every requested Lead is recorded for this
    request and Customer, once and for a different Lead each, stamped as
    distributed, filed in the artifact, and the hold is captured.  A request
    in any other state is left alone. *)
Theorem allocation_all_or_nothing `{CaseMapping} `{Platform} env request_id request customer s res s' :
  keyed_leads s → st_requests s !! request_id = Some request → rq_id request = request_id →
  st_customers s !! rq_agent_id request = Some customer → events_of s request_id = [] →
  allocate_request env request_id s = (Ok res, s') →
  let picked := select_candidates env s request customer in
  ((rq_status request ∉ [approved; processing]) ∧ s' = s ∧ al_allocated res = 0) ∨
  (Z.of_nat (length picked) < rq_lead_count request ∧ stock s' = stock s ∧
   al_status res = waiting_inventory ∧ al_allocated res = 0 ∧
   ∃ r, st_requests s' = <[request_id := r]> (st_requests s) ∧ rq_status r = waiting_inventory ∧
        rq_available_count r = Some (inventory_count s request customer (now env))) ∨
  (length picked = Z.to_nat (rq_lead_count request) ∧ al_status res = generated ∧
   al_allocated res = Z.of_nat (length picked) ∧
   (∀ l, l ∈ picked → l ∈ eligible_query s request customer (now env) ∧ ld_id l ∉ locked_leads env) ∧
   ∃ new a, generated_batch env request customer picked s s' new a ∧ al_artifact_id res = Some (ar_id a) ∧
            NoDup (ev_lead_id <$> new)).
Proof.
  intros Hk Hr <- Hc Hnone Hrun. rewrite (allocate_request_run env _ _ _ _ Hr Hc), Hnone in Hrun. cbv zeta.
  case_bool_decide as Hst; [|left; by injection Hrun as <- <-]. right.
  apply allocate_new_inv in Hrun as [(Hlt & Hstk & -> & Hrq)|(Hge & new & a & Hb & ->)]; [left | right].
  - split_and!; try done. eexists. split; [exact Hrq|]. by rsimpl.
  - split; [|split_and!; try done].
    + pose proof (length_select_candidates env s request customer). lia.
    + by apply elem_of_select_candidates.
    + exists new, a. split; [done|]. split; [done|].
      erewrite records_lead_ids by apply Hb. by apply NoDup_select_candidates.
Qed.

(** C3: a retry repeats nothing.  Running a generated allocation again, as a
    worker does after a crash, answers the same and leaves records, Leads,
    ledger, holds and files as they are, as long as every Lead has a phone and
    the disk takes the file. *)
Theorem retry_repeats_nothing `{CaseMappingLaws} `{Platform} env env' request_id request customer s res s' :
  st_requests s !! request_id = Some request → rq_id request = request_id →
  st_customers s !! rq_agent_id request = Some customer → events_of s request_id = [] →
  rq_status request ∈ [approved; processing] → 0 < rq_lead_count request →
  (∀ id l, st_leads s !! id = Some l → ld_phone l ≠ []) → st_artifacts s !! request_id = None →
  allocate_request env request_id s = (Ok res, s') → al_status res = generated → disk_ok env' = true →
  ∃ s2, allocate_request env' request_id s' = (Ok res, s2) ∧
    st_events s2 = st_events s' ∧ st_leads s2 = st_leads s' ∧ st_ledger s2 = st_ledger s' ∧
    st_holds s2 = st_holds s' ∧ st_files s2 = st_files s'.
Proof.
  intros Hr <- Hc Hnone Hst Hpos Hph Hart Hrun Hgen Hdisk.
  rewrite (allocate_request_run env _ _ _ _ Hr Hc), Hnone, bool_decide_eq_true_2 in Hrun by done.
  apply allocate_new_inv in Hrun as [(_ & _ & -> & _)|(Hge & new & a & Hb & ->)]; [done|].
  set (picked := select_candidates env s request customer) in *.
  assert (length picked = length new) as Hlen by (eapply Forall2_length; apply Hb).
  assert (Z.of_nat (length new) = rq_lead_count request) as Hn.
  { pose proof (length_select_candidates env s request customer : (length picked ≤ _)%nat). lia. }
  set (r' := generated_request env request (Z.of_nat (length picked))).
  assert (st_requests s' !! rq_id request = Some r') as Hr'.
  { rewrite (gb_request _ _ _ _ _ _ _ _ Hb). apply lookup_insert_eq. }
  destruct (regenerate_batch env env' _ _ _ _ _ _ _ r' Hart Hb eq_refl eq_refl Hdisk)
    as (a3 & s1 & Hg & Hid & Hfl & [= He Hl Hle Hh]).
  destruct (allocate_existing_run env' r' customer new s' a3 s1) as (s2 & Hrun & [= ? ? ? ? ? ? ?]); try done.
  { eapply records_phones; [exact Hph | apply Hb]. }
  { unfold settled. rewrite Hh. apply Hb. }
  exists s2. split; [|split_and!; congruence].
  rewrite (allocate_request_run env' _ r' customer); [|done|by rewrite (gb_customers _ _ _ _ _ _ _ _ Hb)].
  change (rq_id r') with (rq_id request). rewrite (events_of_generated _ _ _ _ _ _ _ _ Hnone Hb).
  destruct new as [|e new]; [cbn in Hn; lia|]. rewrite Hrun, Hid, <- Hlen. reflexivity.
Qed.

(** C5: a Lead is sold once to the same recipient.  Whatever happens after a
    batch is generated, as long as its records stand and its Customer is
    active, none of its Leads is offered again to that Customer, or to any
    Customer of the same Agency, for any request at any later time. *)
Theorem batch_never_repeats `{CaseMapping} `{Platform} env request_id request customer s res s'
    s2 request2 customer2 instant lead lead2 :
  st_requests s !! request_id = Some request → rq_id request = request_id →
  st_customers s !! rq_agent_id request = Some customer → cu_id customer = rq_agent_id request →
  events_of s request_id = [] → rq_status request ∈ [approved; processing] →
  allocate_request env request_id s = (Ok res, s') → al_status res = generated →
  (∀ e, e ∈ st_events s' → e ∈ st_events s2) → cu_id customer ∈ active_customers s2 →
  cu_id customer2 = cu_id customer ∨ (∃ g, cu_agency_id customer = Some g ∧ cu_agency_id customer2 = Some g) →
  lead ∈ select_candidates env s request customer → ld_id lead2 = ld_id lead →
  lead2 ∉ eligible_query s2 request2 customer2 instant.
Proof.
  intros Hr <- Hc Hcid Hnone Hst Hrun Hgen Hkeep Hact Hsame Hl Hl2 Hel.
  rewrite (allocate_request_run env _ _ _ _ Hr Hc), Hnone, bool_decide_eq_true_2 in Hrun by done.
  apply allocate_new_inv in Hrun as [(_ & _ & -> & _)|(_ & new & a & Hb & _)]; [done|].
  apply list_elem_of_lookup in Hl as [i Hi].
  destruct (Forall2_lookup_l _ _ _ _ _ (gb_records _ _ _ _ _ _ _ _ Hb) Hi) as (e & He & Hf).
  apply list_elem_of_lookup_2 in He.
  apply elem_of_eligible_with in Hel as [_ Hw]. refine (eligible_unsent _ _ _ _ _ _ e Hw _ _ _ _).
  - apply Hkeep. rewrite (gb_events _ _ _ _ _ _ _ _ Hb). apply elem_of_app. by right.
  - by rewrite (ef_lead _ _ _ _ _ Hf).
  - unfold recipient_active. by rewrite (ef_agent _ _ _ _ _ Hf), <- Hcid.
  - unfold same_recipient. rewrite (ef_agent _ _ _ _ _ Hf), (ef_agency _ _ _ _ _ Hf), <- Hcid.
    destruct Hsame as [->|(g & Hg & Hg2)]; [by left|]. right. left. exists g. rewrite Hg. auto.
Qed.

(** *** Concrete runs *)

Definition example_order : LeadRequest := example_request <| rq_status := approved |> <| rq_lead_count := 2 |>.
Definition example_stock : Store :=
  empty_store <| st_customers := {[ 7 := example_customer ]} |>
              <| st_requests := {[ 1%N := example_order ]} |>
              <| st_leads := list_to_map
                   [(1, example_lead 1 "2155550101" "Alpha"); (2, example_lead 2 "2155550102" "Beta");
                    (3, example_lead 3 "2155550103" "Gamma")] |>.

Lemma elem_of_example_stock id l :
  st_leads example_stock !! id = Some l → ld_id l = id ∧ ld_phone l ≠ [].
Proof. intros Hl%elem_of_list_to_map_2. rewrite !elem_of_cons, elem_of_nil in Hl. naive_solver. Qed.

Lemma example_stock_unallocated : events_of example_stock 1%N = [].
Proof. vm_compute. reflexivity. Qed.

Section Examples.
#[local] Existing Instance ascii_case.
#[local] Existing Instance example_platform.

Lemma example_candidate :
  example_lead 1 "2155550101" "Alpha" ∈ select_candidates example_env example_stock example_order example_customer.
Proof. apply list_elem_of_lookup_2 with (i := 0%nat). vm_compute. reflexivity. Qed.

Definition example_allocation : outcome AllocationResult * Store := allocate_request example_env 1%N example_stock.

Lemma example_allocation_Ok :
  ∃ res s', example_allocation = (Ok res, s') ∧ al_status res = generated ∧
    cu_id example_customer ∈ active_customers s'.
Proof.
  assert (match example_allocation with
          | (Ok r, t) => (al_status r, bool_decide (cu_id example_customer ∈ active_customers t))
          | _ => (pending, false)
          end = (generated, true)) as E by (vm_compute; reflexivity).
  destruct example_allocation as [[res|e] s']; [|discriminate E].
  exists res, s'. injection E as Es Ea. by apply bool_decide_eq_true in Ea.
Qed.

Lemma allocation_all_or_nothing_witness :
  ∃ res s', example_allocation = (Ok res, s') ∧ length (st_events s') = 2%nat.
Proof.
  destruct example_allocation_Ok as (res & s' & E & Hg & _). exists res, s'. split; [exact E|].
  unfold example_allocation in E.
  destruct (allocation_all_or_nothing example_env 1%N example_order example_customer example_stock res s'
    (λ id l Hl, proj1 (elem_of_example_stock id l Hl)) eq_refl eq_refl eq_refl example_stock_unallocated E)
    as [(Ha & _)|[(_ & _ & Ha & _)|(Hlen & _ & _ & _ & new & a & Hb & _)]].
  - exfalso. apply Ha. by left.
  - congruence.
  - pose proof (Forall2_length _ _ _ (gb_records _ _ _ _ _ _ _ _ Hb)) as Hn.
    rewrite (gb_events _ _ _ _ _ _ _ _ Hb), length_app, <- Hn, Hlen. reflexivity.
Defined.

Lemma retry_repeats_nothing_witness :
  ∃ res s' s2, example_allocation = (Ok res, s') ∧
    allocate_request example_env 1%N s' = (Ok res, s2) ∧ st_events s2 = st_events s'.
Proof.
  destruct example_allocation_Ok as (res & s' & E & Hg & _).
  destruct (retry_repeats_nothing example_env example_env 1%N example_order example_customer example_stock res s'
    eq_refl eq_refl eq_refl example_stock_unallocated ltac:(by left) ltac:(done)
    (λ id l Hl, proj2 (elem_of_example_stock id l Hl)) eq_refl E Hg eq_refl) as (s2 & H2 & He & _).
  exists res, s', s2. split; [exact E|]. split; [exact H2 | exact He].
Defined.

Lemma batch_never_repeats_witness :
  ∃ res s', example_allocation = (Ok res, s') ∧
    example_lead 1 "2155550101" "Alpha" ∉ eligible_query s' example_order example_customer 99.
Proof.
  destruct example_allocation_Ok as (res & s' & E & Hg & Hact). exists res, s'. split; [exact E|].
  exact (batch_never_repeats example_env 1%N example_order example_customer example_stock res s' s'
    example_order example_customer 99 (example_lead 1 "2155550101" "Alpha") (example_lead 1 "2155550101" "Alpha")
    eq_refl eq_refl eq_refl eq_refl example_stock_unallocated ltac:(by left) E Hg (λ e He, He) Hact
    (or_introl eq_refl) example_candidate eq_refl).
Defined.
End Examples.
