(* ===== verification/Rotation.v ===== *)
(** * Inventory Conflicts and the Fulfillment Rotation of [jawnix/allocation.py]

    [_inventory_conflict_blocks] keeps a newer request from taking inventory
    an older one waits for unless that was decided; [fulfill_round_robin]
    gives every Agency or standalone Customer one turn. *)

From S2P Require Import Prelude PyText PyTime PyJson Models Activity Jobs Eligible Artifact.
From S2P Require Import Transitions Allocation.

Open Scope Z_scope.

Section Rotation.
Context `{CaseMapping} `{Platform}.

(** ** Inventory conflicts *)

(** [ORDER BY created_at, id] *)
Definition request_le (a b : LeadRequest) : Prop :=
  rq_created_at a < rq_created_at b ∨
  (rq_created_at a = rq_created_at b ∧ (rq_id a ≤ rq_id b)%N).
#[export] Instance request_le_dec : RelDecision request_le.
Proof. intros a b. unfold request_le. apply _. Defined.

Definition older_requests (env : Env) (s : Store) (request : LeadRequest) : list LeadRequest :=
  merge_sort request_le
    (List.filter (λ r, bool_decide (rq_status r = waiting_inventory) &&
                       bool_decide (rq_id r ≠ rq_id request) &&
                       (rq_created_at r <? rq_created_at request) &&
                       bool_decide (rq_id r ∉ locked_requests env))
       (map_to_list (st_requests s)).*2).

Definition eligible_ids (s : Store) (request : LeadRequest) (customer : Customer) (instant : datetime)
    : list Z :=
  ld_id <$> eligible_query s request customer instant.

(** [sorted(newer_id_set.intersection(older_ids))] *)
Definition shared_ids (newer_ids older_ids : list Z) : list Z :=
  merge_sort Z.le (List.filter (λ id, bool_decide (id ∈ older_ids)) (remove_dups newer_ids)).

Definition states_json (states : list text) : json := JList (JStr <$> merge_sort text_le states).

Definition conflict_snapshot (older request : LeadRequest) (older_ids newer_ids shared : list Z) : dict :=
  [("olderRequestId", JStr (str_of_uuid (rq_id older)));
   ("newerRequestId", JStr (str_of_uuid (rq_id request)));
   ("olderLeadCount", JNum (rq_lead_count older));
   ("newerLeadCount", JNum (rq_lead_count request));
   ("olderStates", states_json (rq_states_snapshot older));
   ("newerStates", states_json (rq_states_snapshot request));
   ("olderEligibleCount", JNum (Z.of_nat (length older_ids)));
   ("newerEligibleCount", JNum (Z.of_nat (length newer_ids)));
   ("sharedLeadIds", JList (JNum <$> shared))]%string.

(** The snapshot's text is ASCII, so it is its own UTF-8 encoding. *)
Definition snapshot_checksum (snapshot : dict) : text := sha256_hex (json_dumps (JObj snapshot)).

Definition is_conflict (older newer : uuid) (checksum : text) (c : InventoryConflict) : bool :=
  bool_decide (ic_older_request_id c = older) && bool_decide (ic_newer_request_id c = newer) &&
  bool_decide (ic_snapshot_checksum c = checksum).

Definition update_conflict (id : uuid) (f : InventoryConflict → InventoryConflict) : M Store unit :=
  modify (λ s, s <| st_conflicts := (λ c, if bool_decide (ic_id c = id) then f c else c) <$> st_conflicts s |>).

(** The request waits for a decision on the conflict. *)
Definition wait_for_decision (env : Env) (request : LeadRequest) (eligible_count : Z) : M Store unit :=
  let request := request <| rq_status := waiting_inventory |>
                         <| rq_available_count := Some eligible_count |>
                         <| rq_status_message := u "Waiting for an Inventory Conflict decision before shared inventory can bypass an older request." |> in
  put_request request ;;
  enqueue_milestone_email env request ;;
  enqueue env "update_notification" (Some (rq_id request)).

(** The loop over the older requests. *)
Fixpoint conflict_loop (env : Env) (request : LeadRequest) (newer_ids : list Z)
    (olders : list LeadRequest) : M Store bool :=
  match olders with
  | [] => mret false
  | older :: rest =>
      if negb (existsb (λ st, bool_decide (st ∈ rq_states_snapshot request)) (rq_states_snapshot older))
      then conflict_loop env request newer_ids rest else
      owner ← gets (λ s, st_customers s !! rq_agent_id older);
      older_customer ← require owner (AttributeError (u "customer"));
      older_ids ← gets (λ s, eligible_ids s older older_customer (now env));
      let shared := shared_ids newer_ids older_ids in
      if bool_decide (shared = []) then conflict_loop env request newer_ids rest else
      let snapshot := conflict_snapshot older request older_ids newer_ids shared in
      let checksum := snapshot_checksum snapshot in
      conflict ← gets (λ s, List.find (is_conflict (rq_id older) (rq_id request) checksum) (st_conflicts s));
      match conflict with
      | Some c =>
          if bool_decide (ic_status c = conflict_confirmed)
          then update_conflict (ic_id c) (λ c,
                 c <| ic_status := conflict_consumed |> <| ic_consumed_at := Some (now env) |>) ;;
               mret false
          else wait_for_decision env request (Z.of_nat (length newer_ids)) ;; mret true
      | None =>
          id ← uuid4;
          modify (λ s, s <| st_conflicts := st_conflicts s ++
            [mkInventoryConflict id (rq_id older) (rq_id request) snapshot checksum conflict_pending
               [] [] None None [] [] (now env)] |>) ;;
          enqueue_job env "notify_inventory_conflict" None
            [("conflict_id", JStr (str_of_uuid id))]%string ;;
          wait_for_decision env request (Z.of_nat (length newer_ids)) ;;
          mret true
      end
  end.

Definition inventory_conflict_blocks (env : Env) (request : LeadRequest) (customer : Customer)
    : M Store bool :=
  newer_ids ← gets (λ s, eligible_ids s request customer (now env));
  if Z.of_nat (length newer_ids) <? rq_lead_count request then mret false else
  olders ← gets (λ s, older_requests env s request);
  conflict_loop env request newer_ids olders.

(** ** Decisions *)

Record ConflictReply : Type := mkConflictReply {
  cr_conflict_id : uuid;
  cr_status : ConflictStatus;
  cr_duplicate : bool
}.

Definition decide_inventory_conflict (env : Env) (conflict_id : uuid) (action : string)
    (actor_id reason : text) : M Store ConflictReply :=
  raise_if (negb (String.eqb action "confirm" || String.eqb action "deny"))
    (ValueError (u "Inventory Conflict action must be confirm or deny.")) ;;
  found ← gets (λ s, List.find (λ c, bool_decide (ic_id c = conflict_id)) (st_conflicts s));
  conflict ← require found (LookupError (u "Inventory Conflict was not found."));
  if bool_decide (ic_status conflict ≠ conflict_pending)
  then mret (mkConflictReply (ic_id conflict) (ic_status conflict) true) else
  let status := if String.eqb action "confirm" then conflict_confirmed else conflict_denied in
  update_conflict conflict_id (λ c, c <| ic_status := status |> <| ic_decision_by := actor_id |>
    <| ic_decision_reason := strip reason |> <| ic_decided_at := Some (now env) |>) ;;
  record_activity env (u "inventory_conflict_" ++ u (conflict_status_value status))
    (u "inventory_conflict") (str_of_uuid conflict_id) actor_id reason
    [("before", JObj [("status", JStr (u "pending"))]);
     ("after", JObj [("status", JStr (u (conflict_status_value status)))]);
     ("olderRequestId", JStr (str_of_uuid (ic_older_request_id conflict)));
     ("newerRequestId", JStr (str_of_uuid (ic_newer_request_id conflict)));
     ("snapshotChecksum", JStr (ic_snapshot_checksum conflict))]%string [] ;;
  enqueue_job env "update_inventory_conflict_notification" None
    [("conflict_id", JStr (str_of_uuid conflict_id))]%string ;;
  when (String.eqb action "confirm") (enqueue env "fulfill_round_robin" None) ;;
  mret (mkConflictReply conflict_id status false).

(** ** Fulfillment Rotation *)

(** Who takes a turn: an Agency, or a Customer without one. *)
Inductive TurnKey : Type := turn_agency (id : Z) | turn_customer (id : Z).
#[export] Instance TurnKey_eq_dec : EqDecision TurnKey.
Proof. solve_decision. Defined.

Definition customer_agency (s : Store) (customer : Customer) : option Agency :=
  cu_agency_id customer ≫= λ id, st_agencies s !! id.

(** The Customer is active, not deleted, and so is its Agency. *)
Definition takes_turns (s : Store) (customer : Customer) : bool :=
  cu_active customer && bool_decide (cu_deleted_at customer = None) &&
  match customer_agency s customer with
  | Some a => ag_active a && bool_decide (ag_deleted_at a = None)
  | None => true
  end.

Definition turn_key (customer : Customer) : TurnKey :=
  match cu_agency_id customer with Some id => turn_agency id | None => turn_customer (cu_id customer) end.

(** The requests of the rotation with their Customers. *)
Definition open_requests (env : Env) (s : Store) : list LeadRequest :=
  merge_sort request_le
    (List.filter (λ r, bool_decide (rq_status r ∈ [approved; waiting_inventory]) &&
                       bool_decide (rq_id r ∉ locked_requests env))
       (map_to_list (st_requests s)).*2).
Definition with_customer (s : Store) (r : LeadRequest) : option (LeadRequest * Customer) :=
  (λ c, (r, c)) <$> st_customers s !! rq_agent_id r.
Definition grouped_requests (env : Env) (s : Store) : list (TurnKey * list (LeadRequest * Customer)) :=
  group_by (λ rc, turn_key rc.2) id
    (List.filter (λ rc, takes_turns s rc.2) (omap (with_customer s) (open_requests env s))).

(** [(last is not None, last or datetime.min)]: never served first. *)
Definition last_le (a b : option datetime) : Prop :=
  match a, b with
  | None, _ => True
  | Some _, None => False
  | Some x, Some y => x ≤ y
  end.
#[export] Instance last_le_dec : RelDecision last_le.
Proof. intros [] []; cbn; apply _. Defined.

(** ["agency" < "customer"], then the id. *)
Definition key_rank (k : TurnKey) : Z * Z :=
  match k with turn_agency id => (0, id) | turn_customer id => (1, id) end.
Definition turn_key_le (a b : TurnKey) : Prop :=
  (key_rank a).1 < (key_rank b).1 ∨
  ((key_rank a).1 = (key_rank b).1 ∧ (key_rank a).2 ≤ (key_rank b).2).

Definition group_last (s : Store) (g : TurnKey * list (LeadRequest * Customer)) : option datetime :=
  match g.2 with
  | (_, customer) :: _ =>
      match customer_agency s customer with
      | Some a => ag_last_fulfilled_at a
      | None => cu_last_fulfilled_at customer
      end
  | [] => None
  end.
Definition group_le (s : Store) (a b : TurnKey * list (LeadRequest * Customer)) : Prop :=
  (group_last s a ≠ group_last s b ∧ last_le (group_last s a) (group_last s b)) ∨
  (group_last s a = group_last s b ∧ turn_key_le a.1 b.1).
#[export] Instance group_le_dec s : RelDecision (group_le s).
Proof. intros a b. unfold group_le, turn_key_le. apply _. Defined.

Definition member_le (a b : LeadRequest * Customer) : Prop :=
  let last rc := cu_last_fulfilled_at rc.2 in
  let since rc := default (rq_created_at rc.1) (rq_approved_at rc.1) in
  (last a ≠ last b ∧ last_le (last a) (last b)) ∨
  (last a = last b ∧
   (rq_agent_id a.1 < rq_agent_id b.1 ∨
    (rq_agent_id a.1 = rq_agent_id b.1 ∧
     (since a < since b ∨ (since a = since b ∧ (rq_id a.1 ≤ rq_id b.1)%N))))).
#[export] Instance member_le_dec : RelDecision member_le.
Proof. intros a b. unfold member_le. apply _. Defined.

Record Rotation : Type := mkRotation { ro_visited : Z; ro_fulfilled : Z; ro_waiting : Z }.

(** One turn: the group's first request, and no other. *)
Definition take_turn (env : Env) (tally : Rotation) (group : list (LeadRequest * Customer))
    : M Store Rotation :=
  let visited := ro_visited tally + 1 in
  match merge_sort member_le group with
  | [] => mret tally
  | (item, customer) :: _ =>
      blocked ← inventory_conflict_blocks env item customer;
      if (blocked : bool) then mret (mkRotation visited (ro_fulfilled tally) (ro_waiting tally + 1)) else
      when (bool_decide (rq_status item = waiting_inventory))
        (put_request (item <| rq_status := approved |>
           <| rq_status_message := u "New committed inventory is being checked." |>)) ;;
      result ← allocate_request env (rq_id item);
      match al_status result with
      | generated =>
          processed ← gets (λ s, st_requests s !! rq_id item ≫= rq_processed_at);
          let fulfilled_at := default (now env) processed in
          update_customer (cu_id customer) (λ c, c <| cu_last_fulfilled_at := Some fulfilled_at |>) ;;
          (match cu_agency_id customer with
           | Some agency => update_agency agency (λ a, a <| ag_last_fulfilled_at := Some fulfilled_at |>)
           | None => mret tt
           end) ;;
          mret (mkRotation visited (ro_fulfilled tally + 1) (ro_waiting tally))
      | waiting_inventory => mret (mkRotation visited (ro_fulfilled tally) (ro_waiting tally + 1))
      | _ => mret (mkRotation visited (ro_fulfilled tally) (ro_waiting tally))
      end
  end.

Definition fulfill_round_robin (env : Env) : M Store Rotation :=
  groups ← gets (λ s, merge_sort (group_le s) (grouped_requests env s));
  tally ← fold_m groups (λ tally g, take_turn env tally g.2) (mkRotation 0 0 0);
  leftover ← gets (λ s, existsb (λ r, bool_decide (rq_status r = approved)) (map_to_list (st_requests s)).*2);
  when ((0 <? ro_fulfilled tally) && leftover) (enqueue env "fulfill_round_robin" None) ;;
  mret tally.
End Rotation.

(** ** Lemmas *)

(** Requests other than [rid] are as they were, and each is stored under its id. *)
Definition only_request (rid : uuid) (before after : gmap uuid LeadRequest) : Prop :=
  (∀ id r, after !! id = Some r → rq_id r = id) ∧ delete rid after = delete rid before.

Lemma only_request_insert rid before after r :
  rq_id r = rid → only_request rid before after → only_request rid before (<[rid := r]> after).
Proof.
  intros Hr [Hk Hd]. split; [|by rewrite delete_insert_eq].
  intros id r'. rewrite lookup_insert. case_decide; [by intros [= <-]; subst | apply Hk].
Qed.

Lemma pres_of_frame {A B} (proj : Store → B) (P : B → Prop) (m : M Store A) :
  (∀ x, preserves (λ s, proj s = x) m) → preserves (λ s, P (proj s)) m.
Proof. intros Hf s Hs. by rewrite (Hf (proj s) s eq_refl). Qed.

Section Facts.
Context `{CaseMapping} `{Platform}.
Variables (before : gmap uuid LeadRequest) (rid : uuid).
Let P (s : Store) : Prop := only_request rid before (st_requests s).

Lemma put_request_only request : rq_id request = rid → preserves P (put_request request).
Proof.
  intros Hid. apply pres_modify. intros s Hs. unfold P. rsimpl. rewrite Hid. by apply only_request_insert.
Qed.

Lemma backfill_frame events x : preserves (λ s, st_requests s = x) (backfill events).
Proof. induction events; cbn [backfill]; unfold put_event; solve_frame. Qed.

Lemma generate_requests_frame env request customer rows x :
  preserves (λ s, st_requests s = x) (generate_artifact env request customer rows).
Proof. apply generate_artifact_frame; reflexivity. Qed.
#[local] Hint Resolve backfill_frame generate_requests_frame : pres.

Lemma finish_generated_only env request :
  rq_id request = rid → preserves P (finish_generated env request).
Proof.
  intros Hid. unfold finish_generated. apply pres_bind; [by apply put_request_only|]. intros _. apply (pres_of_frame st_requests). solve_frame.
Qed.

Lemma distribute_frame env request customer database sources lookups candidates x :
  preserves (λ s, st_requests s = x) (distribute env request customer database sources lookups candidates).
Proof.
  unfold distribute. apply pres_fold_m. intros rows lead. apply pres_bind; [|intros; apply pres_ret].
  unfold distribute_lead, update_lead. apply pres_bind.
  - intros s Hs. unfold lift. by destruct (delivered_listing s _ _ _ _).
  - intros [[title state] [[[provenance kind] segment] niche]]. solve_frame.
Qed.
#[local] Hint Resolve distribute_frame : pres.

Lemma report_shortage_only env request customer :
  rq_id request = rid → preserves P (report_shortage env request customer).
Proof.
  intros Hid. unfold report_shortage. apply pres_bind; [apply pres_gets|]. intros n. cbv zeta.
  apply pres_bind; [by apply put_request_only|]. intros _. apply (pres_of_frame st_requests). solve_frame.
Qed.

(** What precedes the last step of an allocation leaves the requests alone. *)
Ltac frames :=
  repeat first
    [ apply (pres_of_frame st_requests); solve [auto with pres nocore]
    | apply finish_generated_only; done | apply report_shortage_only; done
    | apply pres_ret | apply pres_gets | apply pres_raise_if | apply pres_if
    | apply pres_bind; intros ].

Lemma allocate_existing_only env request customer events :
  rq_id request = rid → preserves P (allocate_existing env request customer events).
Proof. intros Hid. unfold allocate_existing. cbv zeta. frames. Qed.

Lemma allocate_new_only env request customer :
  rq_id request = rid → preserves P (allocate_new env request customer).
Proof.
  intros Hid. unfold allocate_new. cbv zeta. apply pres_bind; [by apply put_request_only|]. intros _. frames.
Qed.

Lemma allocate_request_only env : preserves P (allocate_request env rid).
Proof.
  intros s Hs. unfold allocate_request. rewrite bind_gets.
  destruct (st_requests s !! rid) as [request|] eqn:Hr; [|done].
  rewrite (bind_require_Some _ request) by done. pose proof (proj1 Hs _ _ Hr) as Hid.
  rewrite bind_gets. destruct (st_customers s !! _) as [customer|]; [|done].
  rewrite (bind_require_Some _ customer), bind_gets by done.
  destruct (events_of s (rq_id request)); [|by apply allocate_existing_only].
  case_bool_decide; [by apply allocate_new_only | done].
Qed.

Lemma wait_for_decision_only env request n :
  rq_id request = rid → preserves P (wait_for_decision env request n).
Proof.
  intros Hid. unfold wait_for_decision. cbv zeta. apply pres_bind; [by apply put_request_only|]. intros _.
  apply (pres_of_frame st_requests). solve_frame.
Qed.

Lemma conflict_loop_only env request newer_ids olders :
  rq_id request = rid → preserves P (conflict_loop env request newer_ids olders).
Proof.
  intros Hid. induction olders as [|older rest IH]; cbn [conflict_loop]; [apply pres_ret|].
  apply pres_if; [done|]. do 3 (apply pres_bind; [auto with pres|]; intros). cbv zeta.
  apply pres_if; [done|]. apply pres_bind; [apply pres_gets|]. intros [c|].
  - apply pres_if.
    + unfold update_conflict. apply (pres_of_frame st_requests). solve_frame.
    + apply pres_bind; [by apply wait_for_decision_only | intros; apply pres_ret].
  - apply pres_bind; [unfold uuid4; apply (pres_of_frame st_requests); solve_frame|]. intros id.
    do 2 (apply pres_bind; [apply (pres_of_frame st_requests); solve_frame|]; intros).
    apply pres_bind; [by apply wait_for_decision_only | intros; apply pres_ret].
Qed.

Lemma take_turn_only env tally group item customer rest :
  merge_sort member_le group = (item, customer) :: rest → rq_id item = rid →
  preserves P (take_turn env tally group).
Proof.
  intros Hs Hid. unfold take_turn. rewrite Hs. apply pres_bind.
  - unfold inventory_conflict_blocks. apply pres_bind; [apply pres_gets|]. intros ids.
    apply pres_if; [apply pres_ret|]. apply pres_bind; [apply pres_gets|]. intros.
    by apply conflict_loop_only.
  - intros blocked. apply pres_if; [apply pres_ret|]. apply pres_bind.
    { apply pres_when. by apply put_request_only. }
    intros _. rewrite Hid. apply pres_bind; [apply allocate_request_only|]. intros result.
    destruct (al_status result); try apply pres_ret.
    apply (pres_of_frame st_requests). unfold update_customer, update_agency. solve_frame.
Qed.
End Facts.

(** The request a group puts forward. *)
Definition head_item (group : list (LeadRequest * Customer)) : option (LeadRequest * Customer) :=
  head (merge_sort member_le group).

Lemma head_item_elem group rc : head_item group = Some rc → rc ∈ group.
Proof.
  unfold head_item. intros Hh. rewrite <- (merge_sort_Permutation member_le group).
  destruct (merge_sort member_le group); [done|]. injection Hh as ->. by left.
Qed.

Lemma head_item_Some group : group ≠ [] → ∃ item customer rest,
  merge_sort member_le group = (item, customer) :: rest ∧ head_item group = Some (item, customer).
Proof.
  unfold head_item. intros Hne. destruct (merge_sort member_le group) as [|[item customer] rest] eqn:E; [|by eauto 6].
  pose proof (merge_sort_Permutation member_le group) as Hp. rewrite E in Hp.
  by apply Permutation_nil_l in Hp.
Qed.

Section Turns.
Context `{CaseMapping} `{Platform}.
Implicit Types groups : list (TurnKey * list (LeadRequest * Customer)).

Definition keyed (m : gmap uuid LeadRequest) : Prop := ∀ id r, m !! id = Some r → rq_id r = id.

Definition tally_of (t : Rotation) (n : Z) : Prop :=
  ro_visited t = n ∧ 0 ≤ ro_fulfilled t ∧ 0 ≤ ro_waiting t ∧ ro_fulfilled t + ro_waiting t ≤ n.

Lemma take_turn_tally env t n group s t' s' :
  group ≠ [] → tally_of t n → take_turn env t group s = (Ok t', s') → tally_of t' (n + 1).
Proof.
  intros (item & customer & rest & Hm & _)%head_item_Some Ht Hrun. unfold take_turn in Hrun.
  rewrite Hm in Hrun. apply bind_Ok_inv in Hrun as (blocked & s1 & _ & Hrun).
  unfold tally_of in *. destruct blocked.
  { apply ret_Ok_inv in Hrun as [<- _]. cbn. lia. }
  apply bind_Ok_inv in Hrun as (? & s2 & _ & Hrun). apply bind_Ok_inv in Hrun as (res & s3 & _ & Hrun).
  destruct (al_status res); try (apply ret_Ok_inv in Hrun as [<- _]; cbn; lia).
  rewrite bind_gets in Hrun. apply bind_Ok_inv in Hrun as (? & s4 & _ & Hrun).
  apply bind_Ok_inv in Hrun as (? & s5 & _ & Hrun). apply ret_Ok_inv in Hrun as [<- _]. cbn. lia.
Qed.

(** The turns touch the requests put forward, and only those. *)
Lemma turns_inv env groups t n s t' s' :
  fold_m groups (λ t g, take_turn env t g.2) t s = (Ok t', s') →
  (∀ g, g ∈ groups → g.2 ≠ []) → keyed (st_requests s) → tally_of t n →
  keyed (st_requests s') ∧ tally_of t' (n + Z.of_nat (length groups)) ∧
  ∀ k, (∀ g rc, g ∈ groups → head_item g.2 = Some rc → rq_id rc.1 ≠ k) →
    st_requests s' !! k = st_requests s !! k.
Proof.
  revert t n s. induction groups as [|g groups IH]; intros t n s Hrun Hne Hk Ht; cbn [fold_m] in Hrun.
  { apply ret_Ok_inv in Hrun as [<- <-]. rewrite Z.add_0_r. done. }
  apply bind_Ok_inv in Hrun as (t1 & s1 & Hturn & Hrun).
  destruct (head_item_Some g.2) as (item & customer & rest & Hm & Hh); [by apply Hne; left|].
  pose proof (preserves_Ok _ _ _ _ _ (take_turn_only (st_requests s) (rq_id item) env t _ _ _ _ Hm eq_refl)
    (conj Hk eq_refl) Hturn) as [Hk1 Hd].
  apply take_turn_tally with (n := n) in Hturn; [|by apply Hne; left|done].
  destruct (IH t1 (n + 1) s1 Hrun) as (Hk' & Ht' & Hsame); [|done|done|].
  { intros g' Hg'. apply Hne. by right. }
  split; [done|]. split; [replace (n + Z.of_nat (length (g :: groups))) with (n + 1 + Z.of_nat (length groups))
    by (cbn [length]; lia); done|].
  intros k Hnot. rewrite Hsame.
  - assert (rq_id item ≠ k) by (apply (Hnot g (item, customer)); [by left | done]).
    by rewrite <- (lookup_delete_ne _ (rq_id item) k), Hd, lookup_delete_ne.
  - intros g' rc Hg'. apply Hnot. by right.
Qed.

Lemma elem_of_open_requests env s r :
  r ∈ open_requests env s → keyed (st_requests s) →
  st_requests s !! rq_id r = Some r ∧ rq_status r ∈ [approved; waiting_inventory].
Proof.
  unfold open_requests. rewrite (merge_sort_Permutation request_le). intros Hr Hk.
  apply list_elem_of_In, filter_In in Hr as [Hr%list_elem_of_In Hc].
  apply list_elem_of_fmap in Hr as ([k r'] & -> & Hl%elem_of_map_to_list). cbn in *.
  apply andb_true_iff in Hc as [Hst _]. apply bool_decide_eq_true in Hst. by rewrite (Hk _ _ Hl).
Qed.

(** A member of a group is a request in line, with its Customer. *)
Lemma elem_of_group env s g rc :
  g ∈ grouped_requests env s → rc ∈ g.2 → keyed (st_requests s) →
  st_requests s !! rq_id rc.1 = Some rc.1 ∧ rq_status rc.1 ∈ [approved; waiting_inventory] ∧
  st_customers s !! rq_agent_id rc.1 = Some rc.2 ∧ takes_turns s rc.2 = true ∧ turn_key rc.2 = g.1.
Proof.
  destruct g as [key members]. intros [-> _]%elem_of_group_by Hrc Hk. cbn in Hrc |- *.
  rewrite list_fmap_id in Hrc. apply list_elem_of_In, filter_In in Hrc as [Hrc Hkey].
  apply bool_decide_eq_true in Hkey. apply filter_In in Hrc as [Hrc%list_elem_of_In Htt].
  apply list_elem_of_omap in Hrc as (r & Hr & Hw). unfold with_customer in Hw.
  apply fmap_Some in Hw as (c & Hc & ->). cbn in *.
  destruct (elem_of_open_requests _ _ _ Hr Hk). done.
Qed.
End Turns.

Section Conflicts.
Context `{CaseMapping} `{Platform}.

(** Whether an older request still contends for the ids of a newer one. *)
Definition contends (env : Env) (s : Store) (request : LeadRequest) (newer_ids : list Z)
    (older : LeadRequest) : Prop :=
  (∃ st, st ∈ rq_states_snapshot older ∧ st ∈ rq_states_snapshot request) ∧
  ∃ c id, st_customers s !! rq_agent_id older = Some c ∧ id ∈ newer_ids ∧
          id ∈ eligible_ids s older c (now env).

(** The snapshot the decision on a conflict is bound to. *)
Definition current_checksum (env : Env) (s : Store) (request : LeadRequest) (newer_ids : list Z)
    (older : LeadRequest) (c : Customer) : text :=
  let older_ids := eligible_ids s older c (now env) in
  snapshot_checksum (conflict_snapshot older request older_ids newer_ids (shared_ids newer_ids older_ids)).

Lemma elem_of_shared_ids a b id : id ∈ shared_ids a b ↔ id ∈ a ∧ id ∈ b.
Proof.
  unfold shared_ids. rewrite (merge_sort_Permutation Z.le), list_elem_of_In, filter_In, <- list_elem_of_In.
  by rewrite elem_of_remove_dups, bool_decide_eq_true.
Qed.

Lemma states_overlap (a b : list text) :
  existsb (λ st, bool_decide (st ∈ a)) b = true ↔ ∃ st, st ∈ b ∧ st ∈ a.
Proof.
  rewrite existsb_exists. split; intros (st & H1 & H2); exists st.
  - apply bool_decide_eq_true in H2. by rewrite list_elem_of_In.
  - rewrite bool_decide_eq_true. by rewrite <- list_elem_of_In.
Qed.

(** One round of the loop: the older request does not contend and is passed
    over, or it decides. *)
Lemma conflict_loop_cons env request newer_ids older rest s b s' :
  conflict_loop env request newer_ids (older :: rest) s = (Ok b, s') →
  (¬ contends env s request newer_ids older ∧ conflict_loop env request newer_ids rest s = (Ok b, s')) ∨
  (contends env s request newer_ids older ∧
   ∃ oc, st_customers s !! rq_agent_id older = Some oc ∧
   let checksum := current_checksum env s request newer_ids older oc in
   let found := List.find (is_conflict (rq_id older) (rq_id request) checksum) (st_conflicts s) in
   ((∃ c, found = Some c ∧ ic_status c = conflict_confirmed ∧ b = false ∧
      s' = s <| st_conflicts := (λ c', if bool_decide (ic_id c' = ic_id c)
               then c' <| ic_status := conflict_consumed |> <| ic_consumed_at := Some (now env) |> else c')
             <$> st_conflicts s |>) ∨
    (b = true ∧ ∃ c s1, ic_status c ≠ conflict_confirmed ∧ ic_older_request_id c = rq_id older ∧
       ic_newer_request_id c = rq_id request ∧ ic_snapshot_checksum c = checksum ∧ c ∈ st_conflicts s1 ∧
       stock s1 = stock s ∧ st_requests s1 = st_requests s ∧
       wait_for_decision env request (Z.of_nat (length newer_ids)) s1 = (Ok tt, s')))).
Proof.
  cbn [conflict_loop]. intros Hrun.
  destruct (existsb _ _) eqn:Eov; cbn [negb] in Hrun.
  2: { left. split; [|done]. intros [Hst _]. apply states_overlap in Hst. congruence. }
  rewrite bind_gets in Hrun. apply bind_Ok_inv in Hrun as (oc & s1 & Hreq & Hrun).
  apply require_Ok_inv in Hreq as [Hoc ->]. rewrite bind_gets in Hrun. cbv zeta in Hrun.
  case_bool_decide as Hsh.
  { left. split; [|done]. intros (_ & c & id & Hc & H1 & H2). assert (c = oc) as -> by congruence.
    by apply (not_elem_of_nil id); rewrite <- Hsh; apply elem_of_shared_ids. }
  right. split.
  { split; [by apply states_overlap|]. destruct (shared_ids _ _) as [|id ids] eqn:Es; [done|].
    exists oc, id. split; [done|]. apply elem_of_shared_ids. rewrite Es. by left. }
  exists oc. split; [done|]. cbv zeta. rewrite bind_gets in Hrun. unfold current_checksum. cbv zeta.
  destruct (List.find _ _) as [c|] eqn:Ef.
  - apply find_some in Ef as [Hin Hc]. unfold is_conflict in Hc. bool_inv.
    case_bool_decide as Hst; [left|right].
    + unfold update_conflict in Hrun. rewrite bind_modify in Hrun. apply ret_Ok_inv in Hrun as [<- <-]. eauto.
    + apply bind_Ok_inv in Hrun as ([] & s2 & Hw & Hrun). apply ret_Ok_inv in Hrun as [<- <-].
      split; [done|]. exists c, s. split_and!; try done. by apply list_elem_of_In.
  - right. unfold uuid4 in Hrun. rewrite bind_bind, bind_gets, bind_bind, bind_modify, bind_ret, bind_modify in Hrun.
    apply bind_Ok_inv in Hrun as (? & s2 & Hq & Hrun). apply bind_Ok_inv in Hrun as ([] & s3 & Hw & Hrun).
    apply ret_Ok_inv in Hrun as [<- <-]. split; [done|].
    rewrite enqueue_job_run in Hq. injection Hq as _ <-.
    match type of Hw with context [_ ++ [?c]] => exists c end. eexists. split_and!; [..|exact Hw]; try done.
    rsimpl. apply elem_of_app. right. by left.
Qed.
End Conflicts.

Lemma wait_for_decision_inv env request n s x s' :
  wait_for_decision env request n s = (Ok x, s') →
  stock s' = stock s ∧ st_conflicts s' = st_conflicts s ∧
  st_requests s' = <[rq_id request := request <| rq_status := waiting_inventory |>
    <| rq_available_count := Some n |>
    <| rq_status_message := u "Waiting for an Inventory Conflict decision before shared inventory can bypass an older request." |>]>
    (st_requests s).
Proof.
  intros Hrun. split.
  { refine (preserves_Ok (λ z, stock z = stock s) _ s _ s' _ eq_refl Hrun).
    unfold wait_for_decision, put_request. solve_frame. }
  split.
  { refine (preserves_Ok (λ z, st_conflicts z = st_conflicts s) _ s _ s' _ eq_refl Hrun).
    unfold wait_for_decision, put_request. solve_frame. }
  unfold wait_for_decision, put_request in Hrun. cbv zeta in Hrun. rewrite bind_modify in Hrun.
  match type of Hrun with _ ?s0 = _ => refine (preserves_Ok (λ z, st_requests z = st_requests s0) _ s0 _ s' _ eq_refl Hrun) end.
  solve_frame.
Qed.

(** Looking a conflict up after it was updated. *)
Lemma find_updated id (f : InventoryConflict → InventoryConflict) l c :
  (∀ c, ic_id (f c) = ic_id c) →
  List.find (λ c, bool_decide (ic_id c = id)) l = Some c →
  List.find (λ c, bool_decide (ic_id c = id)) ((λ c, if bool_decide (ic_id c = id) then f c else c) <$> l)
    = Some (f c).
Proof.
  intros Hf. induction l as [|x l IH]; [done|]. cbn. case_bool_decide as E.
  - intros [= ->]. rewrite bool_decide_eq_true_2; [done|]. by rewrite Hf.
  - intros Hl. rewrite bool_decide_eq_false_2 by done. by apply IH.
Qed.

(** ** Properties *)

(** C13: the rotation gives each Agency or standalone Customer at most one
    turn.  It visits every group of requests in line once; each turn counts
    as fulfilled or waiting at most once; a request that changes was in line
    and its Customer eligible for a turn; and of the requests of one Agency
    or standalone Customer at most one changes. *)
Theorem one_turn_each `{CaseMapping} `{Platform} env s tally s' :
  keyed (st_requests s) → fulfill_round_robin env s = (Ok tally, s') →
  ro_visited tally = Z.of_nat (length (grouped_requests env s)) ∧
  0 ≤ ro_fulfilled tally ∧ 0 ≤ ro_waiting tally ∧ ro_fulfilled tally + ro_waiting tally ≤ ro_visited tally ∧
  (∀ k, st_requests s' !! k ≠ st_requests s !! k →
     ∃ r c, st_requests s !! k = Some r ∧ rq_status r ∈ [approved; waiting_inventory] ∧
       st_customers s !! rq_agent_id r = Some c ∧ takes_turns s c = true) ∧
  (∀ k1 k2 r1 r2 c1 c2,
     st_requests s' !! k1 ≠ st_requests s !! k1 → st_requests s' !! k2 ≠ st_requests s !! k2 →
     st_requests s !! k1 = Some r1 → st_requests s !! k2 = Some r2 →
     st_customers s !! rq_agent_id r1 = Some c1 → st_customers s !! rq_agent_id r2 = Some c2 →
     turn_key c1 = turn_key c2 → k1 = k2).
Proof.
  intros Hk Hrun. unfold fulfill_round_robin in Hrun. rewrite bind_gets in Hrun.
  set (groups := merge_sort (group_le s) (grouped_requests env s)) in Hrun.
  assert (groups ≡ₚ grouped_requests env s) as Hp by apply merge_sort_Permutation.
  apply bind_Ok_inv in Hrun as (t & s1 & Hfold & Hrun). rewrite bind_gets in Hrun.
  apply bind_Ok_inv in Hrun as (? & s2 & Hq & Hrun). apply ret_Ok_inv in Hrun as [<- <-].
  assert (st_requests s2 = st_requests s1) as ->.
  { refine (preserves_Ok (λ z, st_requests z = st_requests s1) _ s1 _ s2 _ eq_refl Hq). solve_frame. }
  destruct (turns_inv env groups _ 0 s t s1 Hfold) as (_ & (Hv & Hf & Hw & Hsum) & Hsame); [|done|done|].
  { intros [key members] Hg. rewrite Hp in Hg. by apply elem_of_group_by in Hg as [_ ?]. }
  rewrite Hp, Z.add_0_l in Hv, Hsum.
  assert (∀ k, st_requests s1 !! k ≠ st_requests s !! k →
    ∃ g rc, g ∈ grouped_requests env s ∧ head_item g.2 = Some rc ∧ rq_id rc.1 = k) as Hchg.
  { intros k Hne. destruct (decide (Exists (λ g, (rq_id ∘ fst) <$> head_item g.2 = Some k) groups)) as [Hex|Hno].
    - apply Exists_exists in Hex as (g & Hg & Hh). apply fmap_Some in Hh as (rc & Hh & ->). exists g, rc. by rewrite <- Hp.
    - destruct Hne. apply Hsame. intros g rc Hg Hh <-. apply Hno, Exists_exists. exists g. by rewrite Hh. }
  split_and!; try done; [lia| |].
  - intros k (g & rc & Hg & Hh & <-)%Hchg.
    destruct (elem_of_group env s g rc Hg (head_item_elem _ _ Hh) Hk) as (? & ? & ? & ? & _). eauto 6.
  - intros k1 k2 r1 r2 c1 c2 (g1 & rc1 & Hg1 & Hh1 & <-)%Hchg (g2 & rc2 & Hg2 & Hh2 & <-)%Hchg Hr1 Hr2 Hc1 Hc2 Ek.
    destruct (elem_of_group env s g1 rc1 Hg1 (head_item_elem _ _ Hh1) Hk) as (Hl1 & _ & Hcu1 & _ & Hk1).
    destruct (elem_of_group env s g2 rc2 Hg2 (head_item_elem _ _ Hh2) Hk) as (Hl2 & _ & Hcu2 & _ & Hk2).
    assert (g1 = g2) as ->; [|congruence].
    assert (g1.1 = g2.1) as Eg by congruence. destruct g1 as [key m1], g2 as [key2 m2]. cbn in Eg. subst key2.
    apply elem_of_group_by in Hg1 as [-> _], Hg2 as [-> _]. done.
Qed.

#[export] Instance last_le_trans : Transitive last_le.
Proof. intros [] [] []; cbn; try done; lia. Qed.
#[export] Instance last_le_total : Total last_le.
Proof. intros [] []; cbn; auto; lia. Qed.
Lemma last_le_antisymm a b : last_le a b → last_le b a → a = b.
Proof. destruct a, b; cbn; try done. intros. f_equal. lia. Qed.

#[export] Instance group_le_trans s : Transitive (group_le s).
Proof.
  intros a b c [[Hab1 Hab2]|[Hab1 Hab2]] [[Hbc1 Hbc2]|[Hbc1 Hbc2]]; unfold group_le.
  - left. split; [|by etrans]. intros E. rewrite E in Hab2. apply Hbc1. by apply last_le_antisymm.
  - left. by rewrite <- Hbc1.
  - left. by rewrite Hab1.
  - right. split; [congruence|]. unfold turn_key_le in *. lia.
Qed.
#[export] Instance group_le_total s : Total (group_le s).
Proof.
  intros a b. unfold group_le. destruct (decide (group_last s a = group_last s b)) as [E|Hne].
  - assert (turn_key_le a.1 b.1 ∨ turn_key_le b.1 a.1) as [|] by (unfold turn_key_le; lia); auto.
  - destruct (last_le_total (group_last s a) (group_last s b)); [left | right]; left; auto.
Qed.

(** the rotation is fair: groups take their turns in the order of their
    last fulfillment, those never served first. *)
Theorem rotation_is_fair env s before g mid g' after :
  merge_sort (group_le s) (grouped_requests env s) = before ++ g :: mid ++ g' :: after →
  match group_last s g, group_last s g' with
  | None, _ => True
  | Some _, None => False
  | Some t, Some t' => t ≤ t'
  end.
Proof.
  intros E. pose proof (StronglySorted_merge_sort (group_le s) (grouped_requests env s)) as Hs.
  rewrite E in Hs. apply StronglySorted_app_1_r in Hs. apply StronglySorted_inv in Hs as [_ Hall].
  apply Forall_app in Hall as [_ Hall]. apply Forall_inv in Hall.
  assert (last_le (group_last s g) (group_last s g')) as Hl.
  { destruct Hall as [[_ ?]|[-> _]]; [done|]. destruct (group_last s g'); cbn; [lia | done]. }
  by destruct (group_last s g), (group_last s g').
Qed.

(** C15: Nothing is taken from under an older request.  When the gate lets a
    request through, either fewer Leads are eligible than it asks for, so that
    it cannot be filled and takes none, or no older waiting request contends for
    a Lead it could take, and nothing changed; or one older request contends
    and a decision made on exactly the present inventory was confirmed, and is
    used up. *)
Theorem gate_opens_only_uncontested `{CaseMapping} `{Platform} env request customer s s' :
  inventory_conflict_blocks env request customer s = (Ok false, s') →
  let newer_ids := eligible_ids s request customer (now env) in
  (s' = s ∧ (Z.of_nat (length newer_ids) < rq_lead_count request ∨
             ∀ older, older ∈ older_requests env s request → ¬ contends env s request newer_ids older)) ∨
  (∃ older oc c, older ∈ older_requests env s request ∧ contends env s request newer_ids older ∧
     st_customers s !! rq_agent_id older = Some oc ∧ c ∈ st_conflicts s ∧
     ic_status c = conflict_confirmed ∧ ic_older_request_id c = rq_id older ∧
     ic_newer_request_id c = rq_id request ∧
     ic_snapshot_checksum c = current_checksum env s request newer_ids older oc ∧
     s' = s <| st_conflicts := (λ c', if bool_decide (ic_id c' = ic_id c)
              then c' <| ic_status := conflict_consumed |> <| ic_consumed_at := Some (now env) |> else c')
            <$> st_conflicts s |>).
Proof.
  unfold inventory_conflict_blocks. rewrite bind_gets. intros Hrun. cbv zeta.
  set (newer_ids := eligible_ids s request customer (now env)) in *.
  destruct (Z.ltb_spec (Z.of_nat (length newer_ids)) (rq_lead_count request)) as [Hlt|Hge].
  { apply ret_Ok_inv in Hrun as [_ <-]. auto. }
  rewrite bind_gets in Hrun. induction (older_requests env s request) as [|older rest IH].
  { apply ret_Ok_inv in Hrun as [_ <-]. left. split; [done|]. right. by intros ? ?%not_elem_of_nil. }
  apply conflict_loop_cons in Hrun as [[Hno Hrun]|(Hc & oc & Hoc & [(c & Hf & Hst & _ & ->)|[[=] _]])].
  - destruct (IH Hrun) as [[-> [?|Hall]]|(o & oc & c & Ho & Hrest)]; [by auto| |].
    + left. split; [done|]. right. intros o [->|Ho]%elem_of_cons; auto.
    + right. exists o, oc, c. split; [by right | done].
  - right. apply find_some in Hf as [Hin%list_elem_of_In Hm]. unfold is_conflict in Hm. bool_inv.
    exists older, oc, c. split_and!; try done. by left.
Qed.

(** a contested request waits.  When the gate closes, the request is put
    to wait with what it could take on record, a conflict with an older
    contending request on exactly the present inventory is on file and not
    confirmed, and inventory, records, files, ledger and holds are untouched. *)
Theorem gate_closes_and_waits `{CaseMapping} `{Platform} env request customer s s' :
  inventory_conflict_blocks env request customer s = (Ok true, s') →
  let newer_ids := eligible_ids s request customer (now env) in
  stock s' = stock s ∧ rq_lead_count request ≤ Z.of_nat (length newer_ids) ∧
  (∃ r, st_requests s' = <[rq_id request := r]> (st_requests s) ∧ rq_status r = waiting_inventory ∧
        rq_available_count r = Some (Z.of_nat (length newer_ids))) ∧
  ∃ older oc c, older ∈ older_requests env s request ∧ contends env s request newer_ids older ∧
    st_customers s !! rq_agent_id older = Some oc ∧ c ∈ st_conflicts s' ∧ ic_status c ≠ conflict_confirmed ∧
    ic_older_request_id c = rq_id older ∧ ic_newer_request_id c = rq_id request ∧
    ic_snapshot_checksum c = current_checksum env s request newer_ids older oc.
Proof.
  unfold inventory_conflict_blocks. rewrite bind_gets. intros Hrun. cbv zeta.
  set (newer_ids := eligible_ids s request customer (now env)) in *.
  destruct (Z.ltb_spec (Z.of_nat (length newer_ids)) (rq_lead_count request)) as [Hlt|Hge]; [by run_inv|].
  rewrite bind_gets in Hrun. induction (older_requests env s request) as [|older rest IH]; [by run_inv|].
  apply conflict_loop_cons in Hrun as [[Hno Hrun]|(Hc & oc & Hoc & [(c & _ & _ & [=] & _)|
    (_ & c & s1 & Hst & Ho & Hn & Hck & Hin & Hstk & Hrq & Hw)])].
  - destruct (IH Hrun) as (? & ? & ? & o & oc & c & Ho & Hrest). split_and!; try done.
    exists o, oc, c. split; [by right | done].
  - apply wait_for_decision_inv in Hw as (Hstk' & Hconf & Hreq). rewrite Hstk', Hreq, Hrq, Hconf.
    split_and!; try done; [eexists; split; [done | by rsimpl]|].
    exists older, oc, c. split_and!; try done. by left.
Qed.

(** C30: one confirmation opens the gate to all older requests.  Once the
    first contending older request has a confirmed conflict, the newer one
    passes whatever the other older requests contend for, even where their
    conflicts were denied. *)
Theorem one_confirmation_passes_all `{CaseMapping} `{Platform} env request customer s first others oc c :
  rq_lead_count request ≤ Z.of_nat (length (eligible_ids s request customer (now env))) →
  older_requests env s request = first :: others →
  contends env s request (eligible_ids s request customer (now env)) first →
  st_customers s !! rq_agent_id first = Some oc →
  List.find (is_conflict (rq_id first) (rq_id request)
    (current_checksum env s request (eligible_ids s request customer (now env)) first oc)) (st_conflicts s)
    = Some c →
  ic_status c = conflict_confirmed →
  ∃ s', inventory_conflict_blocks env request customer s = (Ok false, s').
Proof.
  intros Hn Ho (Hst & c' & id & Hc' & Hid & Hid') Hoc Hf Hconf. assert (c' = oc) as -> by congruence.
  unfold inventory_conflict_blocks. rewrite bind_gets. rewrite (proj2 (Z.ltb_ge _ _)) by done.
  rewrite bind_gets, Ho. cbn [conflict_loop]. apply states_overlap in Hst. rewrite Hst. cbn [negb].
  rewrite bind_gets, (bind_require_Some _ oc), bind_gets by done. cbv zeta.
  rewrite bool_decide_eq_false_2.
  2: { intros Hnil. apply (not_elem_of_nil id). rewrite <- Hnil. by apply elem_of_shared_ids. }
  unfold current_checksum in Hf. cbv zeta in Hf. rewrite bind_gets, Hf, bool_decide_eq_true_2 by done.
  unfold update_conflict. rewrite bind_modify. eauto.
Qed.

(** a conflict is decided once.  A decision that goes through makes it
    confirmed or denied as asked; every later decision, whatever it asks,
    reports that outcome as a duplicate and changes nothing. *)
Theorem conflict_decided_once env env' conflict_id action action' actor actor' reason reason' s reply s' :
  decide_inventory_conflict env conflict_id action actor reason s = (Ok reply, s') →
  action' = "confirm"%string ∨ action' = "deny"%string →
  cr_conflict_id reply = conflict_id ∧
  (cr_duplicate reply = false →
     cr_status reply = (if String.eqb action "confirm" then conflict_confirmed else conflict_denied)) ∧
  (cr_duplicate reply = true → s' = s ∧ cr_status reply ≠ conflict_pending) ∧
  decide_inventory_conflict env' conflict_id action' actor' reason' s' =
    (Ok (mkConflictReply conflict_id (cr_status reply) true), s').
Proof.
  intros Hrun Ha'. assert (∀ c t, List.find (λ c, bool_decide (ic_id c = conflict_id)) (st_conflicts t) = Some c →
    ic_status c ≠ conflict_pending →
    decide_inventory_conflict env' conflict_id action' actor' reason' t =
      (Ok (mkConflictReply (ic_id c) (ic_status c) true), t)) as Hagain.
  { intros c t Hf Hst. unfold decide_inventory_conflict.
    rewrite bind_raise_if_false by (by destruct Ha' as [-> | ->]).
    rewrite bind_gets, Hf, (bind_require_Some _ c) by done. by rewrite bool_decide_eq_true_2. }
  unfold decide_inventory_conflict in Hrun. apply bind_Ok_inv in Hrun as (? & s1 & Hg & Hrun).
  apply raise_if_Ok_inv in Hg as (Hact & -> & _). rewrite bind_gets in Hrun.
  apply bind_Ok_inv in Hrun as (c & s1 & Hreq & Hrun). apply require_Ok_inv in Hreq as [Hf ->].
  pose proof Hf as Hid. apply find_some in Hid as [_ Hid%bool_decide_eq_true].
  case_bool_decide as Hst.
  - apply ret_Ok_inv in Hrun as [<- <-]. cbn. split_and!; try done. rewrite (Hagain c) by done. by rewrite Hid.
  - set (status := if String.eqb action "confirm" then conflict_confirmed else conflict_denied) in *.
    unfold update_conflict in Hrun. rewrite bind_modify in Hrun.
    match type of Hrun with _ ?s0 = _ => set (s1 := s0) in Hrun end.
    apply bind_Ok_inv in Hrun as (? & s2 & Hau & Hrun). apply bind_Ok_inv in Hrun as (? & s3 & Hq & Hrun).
    apply bind_Ok_inv in Hrun as (? & s4 & Hwh & Hrun). apply ret_Ok_inv in Hrun as [<- <-].
    assert (st_conflicts s4 = st_conflicts s1) as E.
    { eapply preserves_Ok in Hau; [|apply (record_activity_frame st_conflicts); reflexivity | reflexivity].
      eapply preserves_Ok in Hq; [|apply (enqueue_job_frame st_conflicts); reflexivity | exact Hau].
      refine (preserves_Ok (λ z, st_conflicts z = st_conflicts s1) _ s3 _ s4 _ Hq Hwh). solve_frame. }
    cbn [cr_conflict_id cr_status cr_duplicate]. split_and!; try done.
    erewrite Hagain; [|rewrite E; apply find_updated; [|exact Hf]; done|].
    + rsimpl. by rewrite Hid.
    + rsimpl. unfold status. by destruct (String.eqb _ _).
Qed.

(** *** Concrete runs

    Request 1 of Customer 7 waits for five Leads; the newer request 3 of
    Customer 8 could take two of the three there are. *)

Definition example_customer8 : Customer :=
  example_customer <| cu_id := 8 |> <| cu_permanent_history_key := u "beta-history" |>
                   <| cu_last_fulfilled_at := Some 5 |>.
Definition example_older : LeadRequest :=
  example_request <| rq_status := waiting_inventory |> <| rq_lead_count := 5 |>.
Definition example_newer : LeadRequest :=
  example_order <| rq_id := 3%N |> <| rq_agent_id := 8 |> <| rq_created_at := 10 |>.
Definition example_contested : Store :=
  example_stock <| st_customers := list_to_map [(7, example_customer); (8, example_customer8)] |>
                <| st_requests := list_to_map [(1%N, example_older); (3%N, example_newer)] |>.

Lemma example_contested_keyed : keyed (st_requests example_contested).
Proof. intros id r Hr%elem_of_list_to_map_2. rewrite !elem_of_cons, elem_of_nil in Hr. naive_solver. Qed.

Section Examples.
#[local] Existing Instance ascii_case.
#[local] Existing Instance example_platform.

Definition example_ids : list Z := eligible_ids example_contested example_newer example_customer8 0.
Definition example_conflict (status : ConflictStatus) : InventoryConflict :=
  mkInventoryConflict 50%N 1%N 3%N []
    (current_checksum example_env example_contested example_newer example_ids example_older example_customer)
    status [] [] None None [] [] 0.
Definition example_conflicted (status : ConflictStatus) : Store :=
  example_contested <| st_conflicts := [example_conflict status] |>.

Definition example_rotation : outcome Rotation * Store := fulfill_round_robin example_env example_contested.

Lemma one_turn_each_witness :
  ∃ tally s', example_rotation = (Ok tally, s') ∧ ro_visited tally = 2.
Proof.
  assert (match example_rotation with (Ok t, _) => true | _ => false end = true) as E by (vm_compute; reflexivity).
  destruct example_rotation as [[tally|e] s'] eqn:Hrun; [|discriminate E].
  exists tally, s'. split; [reflexivity|]. unfold example_rotation in Hrun.
  rewrite (proj1 (one_turn_each example_env example_contested tally s' example_contested_keyed Hrun)).
  vm_compute. reflexivity.
Defined.

(** Customer 7 was never served, Customer 8 was. *)
Lemma rotation_is_fair_witness :
  ∃ g g', merge_sort (group_le example_contested) (grouped_requests example_env example_contested)
    = [] ++ g :: [] ++ g' :: [] ∧
    match group_last example_contested g, group_last example_contested g' with
    | None, _ => True | Some _, None => False | Some t, Some t' => t ≤ t' end.
Proof.
  destruct (merge_sort (group_le example_contested) (grouped_requests example_env example_contested))
    as [|g [|g' [|]]] eqn:E; try (exfalso; apply (f_equal length) in E; vm_compute in E; discriminate E).
  exists g, g'. split; [reflexivity|].
  exact (rotation_is_fair example_env example_contested [] g [] g' [] E).
Defined.

Definition example_gate (s : Store) : outcome bool * Store :=
  inventory_conflict_blocks example_env example_newer example_customer8 s.

Lemma gate_opens_only_uncontested_witness :
  ∃ s', example_gate (example_conflicted conflict_confirmed) = (Ok false, s') ∧
    (s' = example_conflicted conflict_confirmed ∨ ∃ older, older ∈ older_requests example_env
       (example_conflicted conflict_confirmed) example_newer).
Proof.
  assert (match example_gate (example_conflicted conflict_confirmed) with (Ok b, _) => b | _ => true end = false)
    as E by (vm_compute; reflexivity).
  destruct (example_gate (example_conflicted conflict_confirmed)) as [[b|e] s'] eqn:Hrun; [|discriminate E].
  subst b. exists s'. split; [reflexivity|].
  destruct (gate_opens_only_uncontested example_env example_newer example_customer8
    (example_conflicted conflict_confirmed) s' Hrun) as [[Hs _]|(older & _ & _ & Ho & _)].
  - left. exact Hs.
  - right. exists older. exact Ho.
Defined.

Lemma gate_closes_and_waits_witness :
  ∃ s', example_gate example_contested = (Ok true, s') ∧ stock s' = stock example_contested.
Proof.
  assert (match example_gate example_contested with (Ok b, _) => b | _ => false end = true)
    as E by (vm_compute; reflexivity).
  destruct (example_gate example_contested) as [[b|e] s'] eqn:Hrun; [|discriminate E].
  subst b. exists s'. split; [reflexivity|].
  exact (proj1 (gate_closes_and_waits example_env example_newer example_customer8 example_contested s' Hrun)).
Defined.

(** A second older request, whose conflict was denied, does not count. *)
Definition example_denied : Store :=
  example_conflicted conflict_confirmed
    <| st_requests := list_to_map [(1%N, example_older); (2%N, example_older <| rq_id := 2%N |>);
                                   (3%N, example_newer)] |>
    <| st_conflicts := [example_conflict conflict_confirmed;
         example_conflict conflict_denied <| ic_id := 51%N |> <| ic_older_request_id := 2%N |>] |>.

Lemma one_confirmation_passes_all_witness : ∃ s', example_gate example_denied = (Ok false, s').
Proof.
  apply (one_confirmation_passes_all example_env example_newer example_customer8 example_denied example_older
    [example_older <| rq_id := 2%N |>] example_customer (example_conflict conflict_confirmed)).
  - vm_compute. discriminate.
  - vm_compute. reflexivity.
  - split; [exists (u "PA"); split; left|]. exists example_customer, 1. split_and!; [reflexivity|..].
    + vm_compute. left.
    + vm_compute. left.
  - reflexivity.
  - vm_compute. reflexivity.
  - reflexivity.
Defined.

Definition example_decision : outcome ConflictReply * Store :=
  decide_inventory_conflict example_env 50%N "confirm" (u "admin") (u "agreed")
    (example_conflicted conflict_pending).

Lemma conflict_decided_once_witness :
  ∃ reply s', example_decision = (Ok reply, s') ∧
    decide_inventory_conflict example_env 50%N "deny" (u "other") (u "no") s' =
      (Ok (mkConflictReply 50%N (cr_status reply) true), s').
Proof.
  assert (match example_decision with (Ok _, _) => true | _ => false end = true) as E by (vm_compute; reflexivity).
  destruct example_decision as [[reply|e] s'] eqn:Hrun; [|discriminate E].
  exists reply, s'. split; [reflexivity|].
  exact (proj2 (proj2 (proj2 (conflict_decided_once example_env example_env 50%N "confirm" "deny"
    (u "admin") (u "other") (u "agreed") (u "no") (example_conflicted conflict_pending) reply s' Hrun
    (or_intror eq_refl))))).
Defined.
End Examples.
