(* ===== verification/Delivery.v ===== *)
(** * [jawnix/delivery.py], the messages of [jawnix/milestone_emails.py], and
    the file retention of [jawnix/maintenance.py]

    A generated batch is announced by email; a failed announcement keeps the
    artifact for a retry; expired files are removed while every record stays. *)

From S2P Require Import Prelude PyText Models Jobs Fulfillment Transitions.

Open Scope Z_scope.

(** ** The mail provider

    [httpx.post] to Resend: its status code and the message id of its body,
    or a transport error. *)

Record Mail : Type := mkMail {
  ml_idempotency_key : text;
  ml_from : text;
  ml_to : list text;
  ml_subject : text;
  ml_text : text
}.

Class Mailer : Type := { resend_post : Env → Mail → outcome (Z * text) }.

(** ** Links and copy *)

Definition EM_DASH : text := [8212%N].
Definition MIDDLE_DOT : text := [183%N].
Definition NL : text := [10%N].

(** [s.rstrip("/")] *)
Fixpoint rstrip_slash_rev (rev_text : text) : text :=
  match rev_text with
  | c :: rest => if (c =? 47)%N then rstrip_slash_rev rest else rev_text
  | [] => []
  end.
Definition rstrip_slash (t : text) : text := rev (rstrip_slash_rev (rev t)).

Definition customer_overview_url (settings : Settings) : text :=
  rstrip_slash (public_base_url settings) ++ u "/app/overview".

Definition customer_request_url (settings : Settings) (request_id : uuid) : text :=
  rstrip_slash (public_base_url settings) ++ u "/app/requests?request=" ++ str_of_uuid request_id.

Definition request_summary (request : LeadRequest) : text :=
  u "Batch Request: " ++ str_of_uuid (rq_id request) ++ NL ++
  u "Quantity: " ++ format_thousands (rq_lead_count request) ++ u " Leads" ++ NL ++
  u "Licensed States: " ++ join (u ", ") (merge_sort text_le (rq_states_snapshot request)).

(** The milestones with their subject's opening and the update they carry. *)
Definition milestone_copy (milestone : string) : option (text * text) :=
  match milestone with
  | "approval" => Some (u "Batch Request approved ",
      u "Your Batch Request was approved. Jawnix is checking eligible inventory and will prepare the full Batch when it is available.")
  | "waiting_inventory" => Some (u "Batch Request waiting for inventory ",
      u "Your approved Batch Request is waiting for enough matching inventory. Nothing has gone wrong and there is nothing you need to do; it will continue automatically when the full quantity is available.")
  | "rejection" => Some (u "Batch Request not approved ",
      u "This Batch Request was not approved, and no Leads were reserved. You can review its timeline and submit a new request with a different quantity or scope.")
  | "failure" => Some (u "Batch Request needs attention ",
      u "Jawnix could not finish this Batch Request. Do not submit a duplicate request; review the current timeline for the valid next action, or email noah@jawnix.com and I'll sort it out.")
  | "canceled" => Some (u "Batch Request canceled ",
      u "This Batch Request was canceled because none of its requested states remain in your Licensed States. No Leads were reserved.")
  | _ => None
  end%string.

Definition SIGNATURE : text :=
  EM_DASH ++ u " Noah" ++ NL ++ u "JAWNIX " ++ MIDDLE_DOT ++ u " noah@jawnix.com" ++ NL.

Record MilestoneMessage : Type := mkMilestoneMessage { mm_subject : text; mm_text : text }.

Definition build_milestone_message (request : LeadRequest) (milestone : string) (settings : Settings)
    : outcome MilestoneMessage :=
  match milestone_copy milestone with
  | None => Err (ValueError (u "Unknown Batch Request email milestone: " ++ u milestone))
  | Some (opening, update) =>
      let reply_line :=
        if String.eqb milestone "waiting_inventory" || String.eqb milestone "failure"
        then u "Questions? Reply to this email " ++ EM_DASH ++ u " it comes straight to me." ++ NL ++ NL
        else [] in
      Ok (mkMilestoneMessage (opening ++ EM_DASH ++ u " " ++ str_of_uuid (rq_id request))
            (update ++ NL ++ NL ++ request_summary request ++ NL ++ NL ++
             u "Review this Batch Request after signing in:" ++ NL ++
             customer_request_url settings (rq_id request) ++ NL ++ NL ++ reply_line ++ SIGNATURE))
  end.

Section Mail.
Context `{Mailer}.

Definition send_milestone_email (env : Env) (request : LeadRequest) (milestone : string) : outcome text :=
  refuse_if (bool_decide (resend_api_key (settings env) = []))
    (RuntimeError (u "RESEND_API_KEY is not configured.")) ;;
  message ← build_milestone_message request milestone (settings env);
  response ← resend_post env (mkMail
    (u "jawnix-request/" ++ str_of_uuid (rq_id request) ++ u "/" ++ u milestone)
    (batch_from_email (settings env)) [rq_delivery_email request] (mm_subject message) (mm_text message));
  refuse_if (300 <=? response.1)
    (RuntimeError (u "Resend failed to send Batch Request milestone with HTTP " ++ str_of_Z response.1)) ;;
  Ok response.2.

(** ** Delivery *)

Definition delivery_mail (env : Env) (request : LeadRequest) (artifact : BatchArtifact) : Mail :=
  mkMail (u "jawnix-batch/" ++ str_of_uuid (rq_id request)) (batch_from_email (settings env))
    [rq_delivery_email request]
    (u "Your Jawnix Batch Request " ++ str_of_uuid (rq_id request) ++ u " " ++ EM_DASH ++ u " "
     ++ format_thousands (ar_row_count artifact) ++ u " rows")
    (u "Your requested Jawnix Batch is ready in the customer portal." ++ NL ++ NL ++
     u "Batch Request: " ++ str_of_uuid (rq_id request) ++ NL ++
     u "Rows: " ++ format_thousands (ar_row_count artifact) ++ NL ++
     u "States: " ++ join (u ", ") (rq_states_snapshot request) ++ NL ++ NL ++
     u "Sign in to download it within its 30-day retention period:" ++ NL ++
     customer_request_url (settings env) (rq_id request) ++ NL ++ NL ++
     u "If anything in this Batch isn't what you asked for, reply to" ++ NL ++
     u "this email " ++ EM_DASH ++ u " it comes straight to me." ++ NL ++ NL ++ SIGNATURE).

Definition put_artifact (request_id : uuid) (artifact : BatchArtifact) : M Store unit :=
  modify (λ s, s <| st_artifacts := <[request_id := artifact]> (st_artifacts s) |>).

Definition deliver_request (env : Env) (request_id : uuid) : M Store text :=
  found ← gets (λ s, (st_requests s !! request_id, st_artifacts s !! request_id));
  match found with
  | (Some request, Some artifact) =>
      if bool_decide (ar_delivery_status artifact = delivery_sent) &&
         bool_decide (rq_status request = delivered)
      then mret (ar_resend_message_id artifact) else
      on_disk ← gets (λ s, bool_decide (is_Some (st_files s !! ar_path artifact)));
      raise_if (negb on_disk) (FileNotFoundError (u "Batch artifact is missing: " ++ ar_path artifact)) ;;
      raise_if (bool_decide (resend_api_key (settings env) = []))
        (RuntimeError (u "RESEND_API_KEY is not configured.")) ;;
      let artifact := artifact <| ar_delivery_attempts := ar_delivery_attempts artifact + 1 |> in
      put_artifact request_id artifact ;;
      response ← (match resend_post env (delivery_mail env request artifact) with
                  | Ok r => mret r
                  | Err e => raise e
                  end);
      raise_if (300 <=? response.1) (RuntimeError (u "Resend failed with HTTP " ++ str_of_Z response.1)) ;;
      put_artifact request_id (artifact <| ar_delivery_status := delivery_sent |>
        <| ar_resend_message_id := response.2 |> <| ar_last_error := [] |>
        <| ar_sent_at := Some (now env) |>) ;;
      put_request (request <| rq_status := delivered |> <| rq_delivered_at := Some (now env) |>
        <| rq_status_message := u "Batch available in the portal; notification emailed to "
             ++ rq_delivery_email request ++ u "." |>) ;;
      enqueue env "update_notification" (Some (rq_id request)) ;;
      mret response.2
  | _ => raise (LookupError (u "Request artifact was not found."))
  end.
End Mail.

Definition NOTIFICATION_FAILED : text :=
  u "Portal notification failed. The existing Batch Artifact is preserved for retry.".

Definition mark_delivery_failed (env : Env) (request_id : uuid) (error : text) : M Store unit :=
  found ← gets (λ s, st_requests s !! request_id);
  artifact ← gets (λ s, st_artifacts s !! request_id);
  (match found with
   | Some request =>
       let request := request <| rq_status := failed |> <| rq_status_message := NOTIFICATION_FAILED |>
                              <| rq_closed_at := Some (now env) |> in
       put_request request ;;
       enqueue_milestone_email env request ;;
       enqueue env "update_notification" (Some (rq_id request))
   | None => mret tt
   end) ;;
  match artifact with
  | Some a => put_artifact request_id (a <| ar_delivery_status := delivery_failed |>
                                         <| ar_last_error := take 2000 error |>)
  | None => mret tt
  end.

(** ** Retention *)

(** [Path.resolve]: the path with its symbolic links followed. *)
Class Paths : Type := { resolve_path : text → text }.

(** [path.is_relative_to(base)] of resolved paths. *)
Definition is_relative_to (path base : text) : bool :=
  bool_decide (path = base) || bool_decide (take (length base + 1) path = base ++ [47%N]).

Record Expiry : Type := mkExpiry { ex_removed : Z; ex_missing : Z; ex_skipped : Z }.

Section Expire.
Context `{Paths}.

Definition expire_one (base : text) (tally : Expiry) (artifact : BatchArtifact) : M Store Expiry :=
  let path := resolve_path (ar_path artifact) in
  if negb (is_relative_to path base)
  then mret (mkExpiry (ex_removed tally) (ex_missing tally) (ex_skipped tally + 1)) else
  on_disk ← gets (λ s, bool_decide (is_Some (st_files s !! path)));
  if (on_disk : bool)
  then modify (λ s, s <| st_files := delete path (st_files s) |>) ;;
       mret (mkExpiry (ex_removed tally + 1) (ex_missing tally) (ex_skipped tally))
  else mret (mkExpiry (ex_removed tally) (ex_missing tally + 1) (ex_skipped tally)).

Definition expired_artifacts (env : Env) (s : Store) : list BatchArtifact :=
  let cutoff := now env - days (batch_retention_days (settings env)) in
  List.filter (λ a, ar_created_at a <? cutoff) (map_to_list (st_artifacts s)).*2.

Definition expire_batch_files (env : Env) : M Store Expiry :=
  expired ← gets (expired_artifacts env);
  fold_m expired (expire_one (resolve_path (batch_dir (settings env)))) (mkExpiry 0 0 0).
End Expire.

(** ** Lemmas *)

(** What delivery never touches. *)
Definition delivery_frame (s : Store) :=
  (st_events s, st_leads s, st_ledger s, st_holds s, st_files s, st_customers s).

Lemma deliver_request_inv `{Mailer} env rid s id s' :
  deliver_request env rid s = (Ok id, s') →
  ∃ request artifact, st_requests s !! rid = Some request ∧ st_artifacts s !! rid = Some artifact ∧
    ((ar_delivery_status artifact = delivery_sent ∧ rq_status request = delivered ∧
      id = ar_resend_message_id artifact ∧ s' = s) ∨
     (∃ request' artifact',
      st_requests s' = <[rq_id request := request']> (st_requests s) ∧
      st_artifacts s' = <[rid := artifact']> (st_artifacts s) ∧
      rq_id request' = rq_id request ∧ rq_status request' = delivered ∧
      rq_delivered_at request' = Some (now env) ∧ rq_closed_at request' = rq_closed_at request ∧
      ar_delivery_status artifact' = delivery_sent ∧ ar_resend_message_id artifact' = id ∧
      ar_sent_at artifact' = Some (now env) ∧ ar_path artifact' = ar_path artifact ∧
      ar_parts artifact' = ar_parts artifact ∧ ar_sha256 artifact' = ar_sha256 artifact ∧
      delivery_frame s' = delivery_frame s)).
Proof.
  unfold deliver_request. rewrite bind_gets. intros Hrun.
  destruct (st_requests s !! rid) as [request|] eqn:Hr; [|run_inv].
  destruct (st_artifacts s !! rid) as [artifact|] eqn:Ha; [|run_inv].
  exists request, artifact. split; [done|]. split; [done|].
  case_bool_decide as Hsent; case_bool_decide as Hdel; cbn [andb] in Hrun;
    [left; apply ret_Ok_inv in Hrun as [<- <-]; done|..]; right.
  all: rewrite bind_gets in Hrun; apply bind_Ok_inv in Hrun as (? & s1 & Hg1 & Hrun);
    apply raise_if_Ok_inv in Hg1 as (_ & -> & _); apply bind_Ok_inv in Hrun as (? & s1 & Hg2 & Hrun);
    apply raise_if_Ok_inv in Hg2 as (_ & -> & _); cbv zeta in Hrun;
    unfold put_artifact, put_request in Hrun; rewrite bind_modify in Hrun;
    destruct (resend_post _ _) as [response|e] in Hrun; [|run_inv]; rewrite bind_ret in Hrun;
    apply bind_Ok_inv in Hrun as (? & s1 & Hg3 & Hrun); apply raise_if_Ok_inv in Hg3 as (_ & -> & _);
    rewrite !bind_modify in Hrun; apply bind_Ok_inv in Hrun as (? & s1 & Hq & Hrun);
    apply ret_Ok_inv in Hrun as [<- <-]; unfold enqueue in Hq;
    apply bind_Ok_inv in Hq as (? & s2 & Hq & Hr2); apply ret_Ok_inv in Hr2 as [_ <-];
    rewrite enqueue_job_run in Hq; injection Hq as _ <-.
  all: eexists _, _; split; [reflexivity|]; split; [apply insert_insert_eq|]; done.
Qed.

Lemma mark_delivery_failed_run env rid error s request artifact :
  st_requests s !! rid = Some request → st_artifacts s !! rid = Some artifact →
  ∃ s', mark_delivery_failed env rid error s = (Ok tt, s') ∧
    delivery_frame s' = delivery_frame s ∧
    st_requests s' = <[rq_id request := request <| rq_status := failed |>
      <| rq_status_message := NOTIFICATION_FAILED |> <| rq_closed_at := Some (now env) |>]> (st_requests s) ∧
    st_artifacts s' = <[rid := artifact <| ar_delivery_status := delivery_failed |>
      <| ar_last_error := take 2000 error |>]> (st_artifacts s).
Proof.
  intros Hr Ha. unfold mark_delivery_failed. rewrite !bind_gets, Hr, Ha. cbv zeta.
  rewrite bind_bind. unfold put_request. rewrite bind_modify.
  set (request' := request <| rq_status := failed |> <| rq_status_message := _ |> <| rq_closed_at := _ |>).
  set (s0 := s <| st_requests := _ |>). rewrite bind_bind.
  destruct (enqueue_milestone_email_total env request' s0) as (x & s1 & E1). rewrite (bind_Ok _ _ _ _ _ E1).
  destruct (enqueue_total env "update_notification" (Some (rq_id request')) s1) as (y & s2 & E2).
  rewrite (bind_Ok _ _ _ _ _ E2). unfold put_artifact. eexists. split; [reflexivity|].
  pose proof (preserves_Ok _ _ _ _ _ (enqueue_milestone_email_frame
    (λ z, (delivery_frame z, st_requests z, st_artifacts z)) env request' _ (λ _ _, eq_refl) (λ _ _, eq_refl))
    eq_refl E1) as F1.
  pose proof (preserves_Ok _ _ _ _ _ (enqueue_frame
    (λ z, (delivery_frame z, st_requests z, st_artifacts z)) env "update_notification" _ _ (λ _ _, eq_refl)
    (λ _ _, eq_refl)) F1 E2) as F2.
  cbv beta in F2. injection F2 as Fe Fl Fg Fh Ff Fc Fr Fa.
  split_and!; [|exact Fr | by rewrite <- Fa]. unfold delivery_frame. rsimpl. congruence.
Qed.

(** What one artifact's expiry does to the files. *)
Lemma expire_one_run `{Paths} base t a s :
  ∃ t', expire_one base t a s =
    (Ok t', s <| st_files := if is_relative_to (resolve_path (ar_path a)) base
                             then delete (resolve_path (ar_path a)) (st_files s) else st_files s |>) ∧
    ex_removed t' + ex_missing t' + ex_skipped t' = ex_removed t + ex_missing t + ex_skipped t + 1.
Proof.
  unfold expire_one. destruct (is_relative_to _ _); cbn [negb].
  - rewrite bind_gets. case_bool_decide as Hd.
    + rewrite bind_modify. eexists. split; [reflexivity|]. cbn. lia.
    + rewrite delete_id by (by apply eq_None_not_Some). eexists. split; [by destruct s|]. cbn. lia.
  - eexists. split; [by destruct s|]. cbn. lia.
Qed.

Lemma expire_fold `{Paths} base l t s :
  ∃ t' files, fold_m l (expire_one base) t s = (Ok t', s <| st_files := files |>) ∧
    ex_removed t' + ex_missing t' + ex_skipped t' =
      ex_removed t + ex_missing t + ex_skipped t + Z.of_nat (length l) ∧
    ∀ p, files !! p = if bool_decide (Exists (λ a, resolve_path (ar_path a) = p ∧
                            is_relative_to (resolve_path (ar_path a)) base = true) l)
                      then None else st_files s !! p.
Proof.
  revert t s. induction l as [|a l IH]; intros t s; cbn [fold_m].
  { exists t, (st_files s). split; [by destruct s|]. cbn [length]. split; [lia|]. intros p.
    rewrite bool_decide_eq_false_2; [done | by intros ?%Exists_nil]. }
  destruct (expire_one_run base t a s) as (t1 & E1 & H1). rewrite (bind_Ok _ _ _ _ _ E1).
  match goal with |- context [fold_m l _ t1 ?s1] => destruct (IH t1 s1) as (t' & files & E2 & H2 & Hf) end.
  exists t', files. rewrite E2. split; [reflexivity|]. cbn [length]. split; [lia|]. intros p. rewrite Hf. rsimpl.
  case_bool_decide as Hin; case_bool_decide as Hin'; try done.
  - destruct Hin'. by right.
  - apply Exists_cons in Hin' as [[<- ->]|?]; [by rewrite lookup_delete_eq | done].
  - destruct (is_relative_to _ _) eqn:Er; [|done]. rewrite lookup_delete_ne; [done|].
    intros Ep. apply Hin'. by left.
Qed.

(** ** Properties *)

(** A delivery settles.  When it answers, the request is delivered and
    its artifact sent under that message id, while records, Leads, ledger,
    holds and files are as they were; delivering again, whatever the mail
    provider would say, answers the same id and changes nothing. *)
Theorem delivery_settles (m1 m2 : Mailer) env env' rid s id s' :
  (∀ k r, st_requests s !! k = Some r → rq_id r = k) →
  @deliver_request m1 env rid s = (Ok id, s') →
  (∃ r a, st_requests s' !! rid = Some r ∧ rq_status r = delivered ∧
     st_artifacts s' !! rid = Some a ∧ ar_delivery_status a = delivery_sent ∧ ar_resend_message_id a = id) ∧
  delivery_frame s' = delivery_frame s ∧
  @deliver_request m2 env' rid s' = (Ok id, s').
Proof.
  intros Hk Hrun. apply deliver_request_inv in Hrun as (r & a & Hr & Ha & Hcase).
  assert (∃ r' a', st_requests s' !! rid = Some r' ∧ rq_status r' = delivered ∧
    st_artifacts s' !! rid = Some a' ∧ ar_delivery_status a' = delivery_sent ∧ ar_resend_message_id a' = id ∧
    delivery_frame s' = delivery_frame s) as (r' & a' & Hr' & Hs' & Ha' & Hd' & Hi' & Hf).
  { destruct Hcase as [(? & ? & ? & ->)|(r' & a' & Er & Ea & _ & ? & _ & _ & ? & ? & _ & _ & _ & _ & ?)].
    - exists r, a. split_and!; congruence.
    - exists r', a'. rewrite Er, Ea, (Hk _ _ Hr), !lookup_insert_eq. done. }
  split_and!; [by eauto 10 | done|]. unfold deliver_request. rewrite bind_gets, Hr', Ha'.
  rewrite !bool_decide_eq_true_2 by done. cbn [andb]. by rewrite <- Hi'.
Qed.

(** A failed delivery loses nothing.  After the delivery's transaction
    was rolled back, recording the failure always succeeds, keeps records,
    Leads, ledger, holds and the artifact's file, and leaves exactly the
    retry that resends the existing artifact on offer: never the one that
    would draw Leads again. *)
Theorem failed_delivery_is_retryable `{Mailer} env env' rid error s s1 e request artifact notified moment :
  (∀ k r, st_requests s !! k = Some r → rq_id r = k) →
  st_requests s !! rid = Some request → st_artifacts s !! rid = Some artifact →
  begin (deliver_request env rid) s = (Err e, s1) →
  ∃ s2 r2 a2, mark_delivery_failed env' rid error s1 = (Ok tt, s2) ∧
    (st_events s2, st_leads s2, st_ledger s2, st_holds s2) = (st_events s, st_leads s, st_ledger s, st_holds s) ∧
    st_requests s2 !! rid = Some r2 ∧ rq_status r2 = failed ∧
    st_artifacts s2 !! rid = Some a2 ∧ ar_path a2 = ar_path artifact ∧ ar_parts a2 = ar_parts artifact ∧
    ar_sha256 a2 = ar_sha256 artifact ∧ ar_delivery_status a2 = delivery_failed ∧
    "retry_delivery"%string ∈ available_action_names (request_context s2 r2 notified moment) ∧
    "retry"%string ∉ available_action_names (request_context s2 r2 notified moment).
Proof.
  intros Hk Hr Ha Hrun. unfold begin in Hrun. apply transaction_Err_inv in Hrun as (s0 & _ & ->).
  destruct (mark_delivery_failed_run env' rid error (rollback s s0) request artifact Hr Ha)
    as (s2 & Hm & [= He Hl Hg Hh _ _] & Hrq & Hart).
  rewrite (Hk _ _ Hr) in Hrq. eexists s2, _, _. split; [done|].
  rewrite Hrq, Hart, !lookup_insert_eq. split; [cbn in *; congruence|]. split; [reflexivity|]. rsimpl.
  split_and!; try reflexivity.
  - apply (elem_of_available_named RETRY_DELIVERY); [by do 2 right; left|].
    unfold request_context, request_context_of, is_offered. rsimpl. rewrite (Hk _ _ Hr), Hart, lookup_insert_eq.
    reflexivity.
  - intros Hin. apply (elem_of_available_named RETRY) in Hin; [|by right; left].
    unfold request_context, request_context_of, is_offered in Hin. rsimpl.
    rewrite (Hk _ _ Hr), Hart, lookup_insert_eq in Hin. by vm_compute in Hin.
Qed.

(** retention removes files, never records.  A run always finishes; it
    changes nothing but files, removes exactly those that an artifact past
    its retention names inside the batch directory, and accounts for every
    such artifact once. *)
Theorem expiry_removes_only_expired `{Paths} env s :
  ∃ t files, expire_batch_files env s = (Ok t, s <| st_files := files |>) ∧
    ex_removed t + ex_missing t + ex_skipped t = Z.of_nat (length (expired_artifacts env s)) ∧
    ∀ p, files !! p =
      if bool_decide (Exists (λ a, resolve_path (ar_path a) = p ∧
           is_relative_to p (resolve_path (batch_dir (settings env))) = true) (expired_artifacts env s))
      then None else st_files s !! p.
Proof.
  unfold expire_batch_files. rewrite bind_gets.
  destruct (expire_fold (resolve_path (batch_dir (settings env))) (expired_artifacts env s) (mkExpiry 0 0 0) s)
    as (t & files & E & Hsum & Hf).
  exists t, files. split; [done|]. cbn in Hsum. split; [lia|]. intros p. rewrite Hf.
  rewrite (bool_decide_ext (Exists _ _) (Exists (λ a, resolve_path (ar_path a) = p ∧
    is_relative_to p (resolve_path (batch_dir (settings env))) = true) (expired_artifacts env s))); [done|].
  apply Exists_proper; [|done]. intros a. naive_solver.
Qed.

(** *** Concrete runs *)

#[local] Instance example_mailer : Mailer := {| resend_post := λ _ _, Ok (200, u "msg_1") |}.
Definition rejecting_mailer : Mailer := {| resend_post := λ _ _, Ok (500, []) |}.

Definition example_artifact : BatchArtifact :=
  mkBatchArtifact 1 1%N (u "/batches/a.zip") (u "a.zip") 2 [(u "a_part_001.csv", 2)] 10 (u "sum")
    delivery_pending 0 [] [] 0 (Some 9) None.
Definition example_delivery : Store :=
  empty_store <| st_requests := {[ 1%N := example_request <| rq_status := generated |> ]} |>
              <| st_artifacts := {[ 1%N := example_artifact ]} |>
              <| st_files := {[ u "/batches/a.zip" := [80; 75]%N ]} |>.

Lemma example_delivery_keyed k r : st_requests example_delivery !! k = Some r → rq_id r = k.
Proof. unfold example_delivery. rsimpl. by intros [<- <-]%lookup_singleton_Some. Qed.

Definition example_delivered : outcome text * Store := deliver_request example_env 1%N example_delivery.

Lemma delivery_settles_witness :
  ∃ s', example_delivered = (Ok (u "msg_1"), s') ∧
    @deliver_request rejecting_mailer example_env 1%N s' = (Ok (u "msg_1"), s').
Proof.
  assert (match example_delivered with (Ok id, _) => id | _ => [] end = u "msg_1") as E by (vm_compute; reflexivity).
  destruct example_delivered as [[id|e] s'] eqn:Hrun; [|discriminate E]. subst id. exists s'.
  split; [reflexivity|]. unfold example_delivered in Hrun.
  exact (proj2 (proj2 (delivery_settles example_mailer rejecting_mailer example_env example_env 1%N
    example_delivery (u "msg_1") s' example_delivery_keyed Hrun))).
Defined.

Definition example_rejected : outcome text * Store :=
  begin (@deliver_request rejecting_mailer example_env 1%N) example_delivery.

Lemma failed_delivery_is_retryable_witness :
  ∃ s1 s2, example_rejected.2 = s1 ∧ mark_delivery_failed example_env 1%N (u "HTTP 500") s1 = (Ok tt, s2) ∧
    st_events s2 = st_events example_delivery.
Proof.
  assert (match example_rejected with (Err _, _) => true | _ => false end = true) as E by (vm_compute; reflexivity).
  destruct example_rejected as [[id|e] s1] eqn:Hrun; [discriminate E|]. unfold example_rejected in Hrun.
  destruct (@failed_delivery_is_retryable rejecting_mailer example_env example_env 1%N (u "HTTP 500")
    example_delivery s1 e (example_request <| rq_status := generated |>) example_artifact true 0
    example_delivery_keyed eq_refl eq_refl Hrun) as (s2 & r2 & a2 & Hm & Heq & _).
  exists s1, s2. split; [reflexivity|]. split; [exact Hm|]. exact (f_equal (λ t, t.1.1.1) Heq).
Defined.
