(* ===== verification/Worker.v ===== *)
(** * The worker: one claimed job

    [jawnix/worker.py]: what each kind of job does, in one transaction, and
    what a failure leaves behind in the next.  The handlers of the acquisition
    side (scraping, anomalies, imports) are arguments of the
    model: what is proved holds whatever they do. *)

From S2P Require Import Prelude PyText PyInt States Models PyObject Sql Activity Jobs Billing Fulfillment Transitions.
From S2P Require Import Telegram Csv Exclusions NicheUploads Metrics Artifact Recommendations Allocation Rotation Delivery.
From Stdlib Require Ascii String.

Open Scope Z_scope.

(** ** Text of an exception and of an action *)

(** [str(exc)] *)
Definition str_of_exn (e : exn) : text :=
  match e with
  | LookupError d | ValueError d | RuntimeError d | TypeError d | OSError d | FileNotFoundError d | IntegrityError d
  | AttributeError d | UnsafeActivityDetailsError d | NichePolicyError d | ExclusionDecisionError d
  | StripeClientError d | MetricsEmitTransientError d | TelegramTransientError _ d
  | TelegramEditTargetMissingError d | LicensedStateConflict d | LicensedStateReviewError d
  | RecommendationDecisionError d | AgencyAssignmentConflict d | HTTPException _ d | BillingError d _ | TransitionError d _
  | RequestSubmissionError d _ | ControlConflict d _ => d
  | KeyError d => [39%N] ++ d ++ [39%N]
  | UnicodeEncodeError => u "'utf-8' codec can't encode"
  | ImportInterrupted => u "CSV import was interrupted."
  end.

(** The names the decision commands compare with are ASCII. *)
Definition string_of_text (t : text) : string :=
  String.string_of_list_ascii ((λ c, Ascii.ascii_of_N (if (c <? 128)%N then c else 63%N)) <$> t).

Definition TELEGRAM_DECISION_JOB_KINDS : list string :=
  ["telegram_action"; "telegram_anomaly_action"; "telegram_inventory_conflict_action";
   "telegram_recommendation_action"; "telegram_exclusion_action"]%string.
Definition NOTIFY_REQUEST_JOB_KINDS : list string :=
  ["notify_request"; "update_notification"; "licensed_states_changed"]%string.
Definition INGESTION_JOB_KINDS : list string := ["ingest_exclusion_list"; "ingest_niche_assignments"]%string.
Definition IMPORT_JOB : string := "import_lead_upload".

(** ** After a failure *)

Definition INGESTION_FAILED : text :=
  u "Ingestion failed after repeated attempts. Please upload the file again.".

Section Failures.
Context `{PyRepr}.

(** [raw_id = job.payload.get(key)]: absent, empty or malformed ids name no row. *)
Definition ingestion_target (job : Job) (key : string) : option uuid :=
  let raw_id := get key (jb_payload job) in
  if truthy raw_id then uuid_of_text (py_str raw_id) else None.

Definition fail_exhausted_ingestion (job : Job) : M Store unit :=
  if String.eqb (jb_kind job) "ingest_exclusion_list" then
    match ingestion_target job "exclusion_list_id" with
    | Some id => modify (λ s, s <| st_exclusion_lists := alter (λ item,
        if bool_decide (xl_status item = xl_queued ∨ xl_status item = xl_ingesting)
        then item <| xl_status := xl_failed |> <| xl_error := INGESTION_FAILED |> else item) id (st_exclusion_lists s) |>)
    | None => mret tt
    end
  else if String.eqb (jb_kind job) "ingest_niche_assignments" then
    match ingestion_target job "niche_assignment_upload_id" with
    | Some id => modify (λ s, s <| st_niche_uploads := alter (λ item,
        if kind_in (nu_status item) ["queued"; "ingesting"]%string
        then item <| nu_status := "failed"%string |> <| nu_error := INGESTION_FAILED |> else item) id (st_niche_uploads s) |>)
    | None => mret tt
    end
  else mret tt.

Definition telegram_action_label (job : Job) : text :=
  let target :=
    if String.eqb (jb_kind job) "telegram_action" then "Batch Request"
    else if String.eqb (jb_kind job) "telegram_anomaly_action" then "Scrape Anomaly"
    else if String.eqb (jb_kind job) "telegram_inventory_conflict_action" then "Inventory Conflict"
    else if String.eqb (jb_kind job) "telegram_recommendation_action" then "Source Recommendation"
    else if String.eqb (jb_kind job) "telegram_exclusion_action" then "Exclusion List"
    else "Jawnix" in
  u target%string ++ u " " ++
  replace_cp 95 32 (py_str (json_or (get "action" (jb_payload job)) (JStr (u "requested")))).

Definition failure_message (job : Job) : text :=
  if kind_in (jb_kind job) NOTIFY_REQUEST_JOB_KINDS
  then u "Jawnix could not deliver the Telegram notification for Batch Request " ++
       match jb_request_id job with Some id => str_of_uuid id | None => u "unknown" end ++
       u ". The request itself is unaffected. Open the Fulfillment workspace to re-notify."
  else u "Jawnix could not complete the Telegram " ++ telegram_action_label job ++
       u " action. The record was not changed. Open Jawnix to review its current state before trying again.".

Definition enqueue_telegram_action_failure (env : Env) (job : Job) : M Store unit :=
  if negb (kind_in (jb_kind job) (TELEGRAM_DECISION_JOB_KINDS ++ NOTIFY_REQUEST_JOB_KINDS)) then mret tt else
  if truthy (get "failure_notification_job_id" (jb_payload job)) then mret tt else
  notification ← enqueue_job env "notify_telegram_action_failure" None
    [("failed_job_id"%string, JNum (jb_id job)); ("message"%string, JStr (failure_message job))];
  update_job (jb_id job) (λ j, j <| jb_payload :=
    dict_set "failure_notification_job_id" (JNum (jb_id notification)) (jb_payload j) |>).

(** Put a job back on the queue. *)
Definition requeue (job_id : Z) (run_after : datetime) (last_error : text) : M Store unit :=
  update_job job_id (λ j, j <| jb_status := queued |> <| jb_run_after := run_after |> <| jb_locked_at := None |>
    <| jb_locked_by := [] |> <| jb_last_error := last_error |>).

Definition record_import_failure (env : Env) (job : Job) (exc : exn) : M Store unit :=
  raw_id ← lift (item "upload_id" (jb_payload job));
  upload_id ← lift (json_uuid raw_id);
  upload ← gets (λ s, st_lead_uploads s !! upload_id);
  if match upload with Some up => String.eqb (lu_status up) "complete" | None => false end
  then update_job (jb_id job) (λ j, j <| jb_status := complete |> <| jb_last_error := [] |>) else
  let retry := match exc with ImportInterrupted => jb_attempts job <? 4 | _ => false end in
  update_job (jb_id job) (λ j, j <| jb_status := (if retry then queued else job_failed) |>
    <| jb_last_error := u "CSV import was interrupted." |> <| jb_locked_at := None |> <| jb_locked_by := [] |>
    <| jb_run_after := now env + seconds (30 * 2 ^ Z.min (jb_attempts job) 4) |>) ;;
  modify (λ s, s <| st_lead_uploads := alter (λ up, up <| lu_status := (if retry then "queued" else "failed")%string |>
    <| lu_error := (if retry then u "Import interrupted. It will retry automatically."
                    else u "Import interrupted. Retry this upload.") |>) upload_id (st_lead_uploads s) |>).

Definition GENERATION_FAILED : text := u "Batch generation failed; no partial allocation was committed.".

(** What a failed allocation or delivery does to its request. *)
Definition fail_request (env : Env) (job : Job) (exc : exn) : M Store unit :=
  found ← gets (λ s, jb_request_id job ≫= λ id, st_requests s !! id);
  match found with
  | None => mret tt
  | Some request =>
      if String.eqb (jb_kind job) "deliver_request" then
        put_request (request <| rq_status := failed |> <| rq_status_message := NOTIFICATION_FAILED |>
                             <| rq_closed_at := Some (now env) |>) ;;
        mark_delivery_failed env (rq_id request) (str_of_exn exc)
      else if String.eqb (jb_kind job) "allocate_request" then
        let request := request <| rq_status := failed |> <| rq_status_message := GENERATION_FAILED |>
                               <| rq_closed_at := Some (now env) |> in
        put_request request ;;
        release_batch_hold env request ;;
        enqueue_milestone_email env request ;;
        enqueue env "update_notification" (Some (rq_id request))
      else mret tt
  end.

(** The delay before the next attempt, when there is one. *)
Definition retry_in (job : Job) (exc : exn) : option Z :=
  match exc with
  | MetricsEmitTransientError _ =>
      if String.eqb (jb_kind job) EMIT_LEAD_ASSIGNED_JOB && (jb_attempts job <? EMIT_MAX_ATTEMPTS)
      then Some (emit_retry_delay (jb_attempts job)) else None
  | TelegramTransientError retry_after _ =>
      if kind_in (jb_kind job) NOTIFY_REQUEST_JOB_KINDS && (jb_attempts job <? TELEGRAM_NOTIFY_MAX_ATTEMPTS)
      then Some (match retry_after with
                 | Some delay => if delay =? 0 then telegram_retry_delay (jb_attempts job) else delay
                 | None => telegram_retry_delay (jb_attempts job)
                 end) else None
  | _ => None
  end.

(** The [except Exception] block of [process_job]. *)
Definition record_failure (env : Env) (job_id : Z) (exc : exn) : M Store unit :=
  found ← gets (λ s, st_jobs s !! job_id);
  match found with
  | None => mret tt
  | Some job =>
      if String.eqb (jb_kind job) IMPORT_JOB then record_import_failure env job exc else
      let last_error := take 4000 (str_of_exn exc) in
      match retry_in job exc with
      | Some delay => requeue job_id (now env + delay) last_error
      | None =>
          (if kind_in (jb_kind job) INGESTION_JOB_KINDS && (jb_attempts job <? 3)
           then requeue job_id (now env + seconds (30 * 2 ^ Z.max 0 (jb_attempts job - 1))) last_error
           else update_job job_id (λ j, j <| jb_status := job_failed |> <| jb_last_error := last_error |>) ;;
                fail_exhausted_ingestion job) ;;
          enqueue_telegram_action_failure env job ;;
          fail_request env job exc
      end
  end.
End Failures.

(** ** The handlers *)

Section Worker.
Context `{CaseMapping} `{Platform} `{TextReader} `{Mailer} `{PyRepr} `{TitleCase} `{TelegramApi}.
(** The metrics service as this claim meets it. *)
Context (metrics : World).
(** The handlers of the acquisition side, by the job they are given; an
    import works in sessions of its own. *)
Context (acquisition : Env → Job → M Store unit) (import_lead_upload : Env → uuid → Z → M Store unit).

Definition update_notification (env : Env) (request : LeadRequest) : M Store unit :=
  found ← gets (λ s, st_notifications s !! rq_id request);
  s ← gets id;
  match found with
  | None =>
      posted ← lift (post_request (settings env) s request);
      modify (λ s, s <| st_notifications := <[rq_id request :=
        mkNotification (Z.of_nat (size (st_notifications s)) + 1) (rq_id request) (u "telegram") posted.1 posted.2
          (now env)]> (st_notifications s) |>)
  | Some notification =>
      match edit_request (settings env) s request (nt_destination_id notification) (nt_message_id notification) with
      | Ok _ => mret tt
      | Err (TelegramEditTargetMissingError _) =>
          posted ← lift (post_request (settings env) s request);
          modify (λ s, s <| st_notifications := alter (λ n, n <| nt_destination_id := posted.1 |>
            <| nt_message_id := posted.2 |> <| nt_updated_at := now env |>) (rq_id request) (st_notifications s) |>)
      | Err e => raise e
      end
  end.

Definition REQUEST_NOT_FOUND : exn := LookupError (u "Request was not found.").

(** [uuid.UUID(str(job.request_id))] *)
Definition job_request_id (job : Job) : outcome uuid :=
  match jb_request_id job with
  | Some id => Ok id
  | None => Err (ValueError (u "badly formed hexadecimal UUID string"))
  end.

(** ["telegram:" + str(job.payload["approver_user_id"])] *)
Definition telegram_actor (job : Job) : outcome text :=
  approver ← item "approver_user_id" (jb_payload job);
  mret (u "telegram:" ++ py_str approver).

(** The decision's action, [str(job.payload["action"])]. *)
Definition payload_action (job : Job) : outcome string :=
  action ← item "action" (jb_payload job);
  mret (string_of_text (py_str action)).

Definition payload_uuid (key : string) (job : Job) : outcome uuid :=
  raw ← item key (jb_payload job);
  json_uuid raw.

(** A stale action changes nothing but the message it was pressed on. *)
Definition do_telegram_action (env : Env) (job : Job) (request : option LeadRequest) : M Store unit :=
  request ← require request REQUEST_NOT_FOUND;
  actor_id ← lift (telegram_actor job);
  let action := string_of_text (py_str (json_or (get "action" (jb_payload job)) (JStr []))) in
  try_catch (transition_request env (rq_id request) action actor_id (u "Telegram Batch Request decision") ;; mret tt)
    (λ e, match e with
          | TransitionError _ _ => Some (enqueue env "update_notification" (Some (rq_id request)))
          | _ => None
          end).

Definition review_anomaly (s : Store) (run_id : option Z) : option ScrapeAnomaly :=
  List.find (λ a, bool_decide (Some (an_scraper_run_id a) = run_id)) (st_anomalies s).

Definition update_anomaly (id : uuid) (chat_id message_id : text) : M Store unit :=
  modify (λ s, s <| st_anomalies := (λ a, if bool_decide (an_id a = id)
    then a <| an_telegram_chat_id := chat_id |> <| an_telegram_message_id := message_id |> else a) <$> st_anomalies s |>).

Definition update_nightly_notification (env : Env) (job : Job) : M Store unit :=
  review_id ← lift (json_uuid (get "review_id" (jb_payload job)));
  found ← gets (λ s, st_reviews s !! review_id);
  review ← require found (LookupError (u "Nightly Review was not found."));
  anomaly ← gets (λ s, review_anomaly s (nr_scraper_run_id review));
  raise_if (bool_decide (nr_telegram_message_id review = []))
    (RuntimeError (u "A Nightly Review cannot be updated before its Telegram delivery is reconciled.")) ;;
  lift (update_nightly_review (settings env) review anomaly) ;;
  match anomaly with
  | Some a => update_anomaly (an_id a) (telegram_chat_id (settings env)) (nr_telegram_message_id review)
  | None => mret tt
  end.

Definition notify_anomaly (env : Env) (job : Job) : M Store unit :=
  anomaly_id ← lift (payload_uuid "anomaly_id" job);
  found ← gets (λ s, List.find (λ a, bool_decide (an_id a = anomaly_id)) (st_anomalies s));
  anomaly ← require found (LookupError (u "Scrape Anomaly was not found."));
  found_run ← gets (λ s, st_scraper_runs s !! an_scraper_run_id anomaly);
  run ← require found_run (LookupError (u "Scrape Run was not found."));
  version ← gets (λ s, sc_version <$> st_configurations s !! an_configuration_id anomaly);
  if bool_decide (an_telegram_message_id anomaly = []) then
    posted ← lift (post_scrape_anomaly (settings env) anomaly run version);
    update_anomaly anomaly_id posted.1 posted.2
  else lift (update_scrape_anomaly (settings env) anomaly run version).

Definition notify_conflict (env : Env) (job : Job) : M Store unit :=
  conflict_id ← lift (payload_uuid "conflict_id" job);
  found ← gets (λ s, List.find (λ c, bool_decide (ic_id c = conflict_id)) (st_conflicts s));
  conflict ← require found (LookupError (u "Inventory Conflict was not found."));
  if bool_decide (ic_telegram_message_id conflict = []) then
    posted ← lift (post_inventory_conflict (settings env) conflict);
    update_conflict conflict_id (λ c, c <| ic_telegram_chat_id := posted.1 |> <| ic_telegram_message_id := posted.2 |>)
  else lift (update_inventory_conflict (settings env) conflict).

Definition do_conflict_action (env : Env) (job : Job) : M Store unit :=
  conflict_id ← lift (payload_uuid "conflict_id" job);
  action ← lift (payload_action job);
  actor_id ← lift (telegram_actor job);
  decide_inventory_conflict env conflict_id action actor_id (u "Telegram Inventory Conflict decision") ;; mret tt.

Definition do_exclusion_action (env : Env) (job : Job) : M Store unit :=
  exclusion_list_id ← lift (payload_uuid "exclusion_list_id" job);
  action ← lift (payload_action job);
  actor_id ← lift (telegram_actor job);
  try_catch (decide_exclusion_list env exclusion_list_id action actor_id (u "Telegram Exclusion List decision") ;; mret tt)
    (λ e, match e with ExclusionDecisionError _ => Some (mret tt) | _ => None end).

(** [v == n] of a decoded value and an optional integer *)
Definition equals_int (v : json) (n : option Z) : bool :=
  match v, n with
  | JNull, None => true
  | JNum m, Some n => m =? n
  | JBool b, Some n => (if b then 1 else 0) =? n
  | JFloat literal, Some n => float_integral literal && (int_of_float literal =? n)
  | _, _ => false
  end.

(** A refused decision is logged and the job completes. *)
Definition do_recommendation_action (env : Env) (job : Job) : M Store unit :=
  try_catch
    (recommendation_id ← lift (payload_uuid "recommendation_id" job);
     found ← gets (λ s, st_recommendations s !! recommendation_id);
     bound ← require found (RecommendationDecisionError (u "Source Recommendation was not found."));
     raise_if (negb (equals_int (get "configuration_version" (jb_payload job)) (sn_configuration_version bound)))
       (RecommendationDecisionError (u "Telegram callback evidence is stale.")) ;;
     action ← lift (payload_action job);
     actor_id ← lift (telegram_actor job);
     recommendation ← decide_recommendation env recommendation_id action actor_id
       (u "Telegram recommendation decision") (recommendation_apply_enabled (settings env))
       (recommendation_shadow_mode (settings env)) None;
     match sn_nightly_review_id recommendation with
     | Some review_id =>
         enqueue_job env "update_nightly_review_notification" None [("review_id"%string, JStr (str_of_uuid review_id))] ;;
         mret tt
     | None => mret tt
     end)
    (λ e, match e with RecommendationDecisionError _ => Some (mret tt) | _ => None end).

(** Another job continues from the cursor while work remains. *)
Definition do_emit (env : Env) (job : Job) : M Store unit :=
  after_id ← lift (optional_int (get "after_id" (jb_payload job)));
  request_id ← lift (job_request_id job);
  emitted ← gets (λ s, (emit_lead_assigned metrics env s request_id after_id None).2);
  result ← lift emitted;
  if er_done result then mret tt else
  enqueue_job env EMIT_LEAD_ASSIGNED_JOB (jb_request_id job)
    (match er_next_after_id result with Some id => [("after_id"%string, JNum id)] | None => [] end) ;; mret tt.

Definition finish_job (job_id : Z) : M Store unit :=
  update_job job_id (λ j, j <| jb_status := complete |> <| jb_last_error := [] |>).

Definition do_milestone (env : Env) (job : Job) (request : option LeadRequest) : M Store unit :=
  request ← require request REQUEST_NOT_FOUND;
  if bool_decide (jb_status job = complete) then mret tt else
  let milestone := string_of_text (py_str (json_or (get "milestone" (jb_payload job)) (JStr []))) in
  message_id ← lift (send_milestone_email env request milestone);
  update_job (jb_id job) (λ j, j <| jb_payload := dict_set "message_id" (JStr message_id) (jb_payload j) |>) ;;
  finish_job (jb_id job).

(** The kinds whose handlers are not modelled. *)
Definition ACQUISITION_JOB_KINDS : list string :=
  ["run_scraper"; "sync_inventory"; "telegram_anomaly_action"]%string.

Definition handle (env : Env) (job : Job) (request : option LeadRequest) : M Store unit :=
  let kind := jb_kind job in
  if kind_in kind NOTIFY_REQUEST_JOB_KINDS then
    request ← require request REQUEST_NOT_FOUND; update_notification env request
  else if String.eqb kind "telegram_action" then do_telegram_action env job request
  else if String.eqb kind "allocate_request" then
    id ← lift (job_request_id job); allocate_request env id ;; mret tt
  else if String.eqb kind "fulfill_round_robin" then fulfill_round_robin env ;; mret tt
  else if String.eqb kind "update_nightly_review_notification" then update_nightly_notification env job
  else if String.eqb kind "ingest_exclusion_list" then
    id ← lift (payload_uuid "exclusion_list_id" job); ingest_exclusion_list env id ;; mret tt
  else if String.eqb kind "ingest_niche_assignments" then
    id ← lift (payload_uuid "niche_assignment_upload_id" job); ingest_niche_assignments env id ;; mret tt
  else if kind_in kind ["notify_scrape_anomaly"; "update_scrape_anomaly_notification"]%string then notify_anomaly env job
  else if kind_in kind ["notify_inventory_conflict"; "update_inventory_conflict_notification"]%string
  then notify_conflict env job
  else if String.eqb kind "telegram_inventory_conflict_action" then do_conflict_action env job
  else if String.eqb kind "telegram_exclusion_action" then do_exclusion_action env job
  else if String.eqb kind "telegram_recommendation_action" then do_recommendation_action env job
  else if String.eqb kind "deliver_request" then
    id ← lift (job_request_id job); deliver_request env id ;; mret tt
  else if String.eqb kind EMIT_LEAD_ASSIGNED_JOB then do_emit env job
  else if kind_in kind ACQUISITION_JOB_KINDS then acquisition env job
  else raise (ValueError (u "Unknown job kind: " ++ u kind)).

Definition perform (env : Env) (job : Job) : M Store unit :=
  request ← gets (λ s, jb_request_id job ≫= λ id, st_requests s !! id);
  if String.eqb (jb_kind job) MILESTONE_EMAIL_JOB then do_milestone env job request
  else handle env job request ;; finish_job (jb_id job).

(** An import commits as it goes, so what it did outlives a failure. *)
Definition perform_import (env : Env) (job : Job) : M Store unit :=
  upload_id ← lift (payload_uuid "upload_id" job);
  import_lead_upload env upload_id (jb_id job) ;;
  finish_job (jb_id job).

Definition process_plain_job (env : Env) (job_id : Z) : M Store unit := λ s,
  match st_jobs s !! job_id with
  | None => (Ok tt, s)
  | Some job =>
      let attempt := if String.eqb (jb_kind job) IMPORT_JOB then perform_import env job else begin (perform env job) in
      match attempt s with
      | (Ok _, s') => (Ok tt, s')
      | (Err exc, s') => begin (record_failure env job_id exc) s'
      end
  end.

(** ** Messages that are sent at most once

    The Nightly Review and the notice of a failed action are posted between
    two transactions; the first one leaves a mark, so that a worker that dies
    on the way does not make the next one post again. *)

Definition fail_job (job_id : Z) (last_error : text) : M Store unit :=
  update_job job_id (λ j, j <| jb_status := job_failed |> <| jb_last_error := last_error |>).

Definition update_review (id : uuid) (f : NightlyReview → NightlyReview) : M Store unit :=
  modify (λ s, s <| st_reviews := alter f id (st_reviews s) |>).

Definition REVIEW_OUTCOME_UNKNOWN : text :=
  u "Telegram delivery outcome is unknown after a worker interruption; operator reconciliation is required.".

(** The first transaction: the review to post, if there is one to post. *)
Definition claim_review (env : Env) (job_id : Z) : M Store (option (uuid * option Z)) :=
  found_job ← gets (λ s, st_jobs s !! job_id);
  match found_job with
  | None => mret None
  | Some job =>
      review_id ← lift (json_uuid (get "review_id" (jb_payload job)));
      found ← gets (λ s, st_reviews s !! review_id);
      match found with
      | None => fail_job job_id (u "Nightly Review was not found.") ;; mret None
      | Some review =>
          if negb (bool_decide (nr_telegram_message_id review = [])) then
            update_review review_id (λ r, r <| nr_telegram_delivery_state := "sent"%string |>
                                            <| nr_telegram_delivery_error := [] |>) ;;
            finish_job job_id ;; mret None
          else if kind_in (nr_telegram_delivery_state review) ["sending"; "unknown"]%string then
            update_review review_id (λ r, r <| nr_telegram_delivery_state := "unknown"%string |>
                                            <| nr_telegram_delivery_error := REVIEW_OUTCOME_UNKNOWN |>) ;;
            fail_job job_id REVIEW_OUTCOME_UNKNOWN ;; mret None
          else
            update_review review_id (λ r, r <| nr_telegram_delivery_state := "sending"%string |>
                                            <| nr_telegram_delivery_started_at := Some (now env) |>
                                            <| nr_telegram_delivery_error := [] |>) ;;
            mret (Some (review_id, nr_scraper_run_id review))
      end
  end.

Definition post_claimed_review (env : Env) (s : Store) (review_id : uuid) (run_id : option Z) : outcome text :=
  match st_reviews s !! review_id with
  | Some review => post_nightly_review (settings env) review (review_anomaly s run_id)
  | None => Err (AttributeError (u "summary"))
  end.

Definition settle_review (env : Env) (job_id : Z) (review_id : uuid) (run_id : option Z) (posted : outcome text)
    : M Store unit :=
  match posted with
  | Err exc =>
      update_review review_id (λ r, r <| nr_telegram_delivery_state := "unknown"%string |>
                                      <| nr_telegram_delivery_error := take 4000 (str_of_exn exc) |>) ;;
      fail_job job_id (take 4000 (u "Telegram delivery outcome is unknown; operator reconciliation is required. " ++
                                  str_of_exn exc))
  | Ok message_id =>
      found ← gets (λ s, (st_reviews s !! review_id, st_jobs s !! job_id));
      match found with
      | (Some _, Some _) =>
          update_review review_id (λ r, r <| nr_telegram_message_id := message_id |>
            <| nr_telegram_delivery_state := "sent"%string |> <| nr_telegram_delivery_error := [] |>) ;;
          anomaly ← gets (λ s, review_anomaly s run_id);
          (match anomaly with
           | Some a => update_anomaly (an_id a) (telegram_chat_id (settings env)) message_id
           | None => mret tt
           end) ;;
          finish_job job_id
      | _ => mret tt
      end
  end.

Definition process_initial_nightly_review_notification (env : Env) (job_id : Z) : M Store unit :=
  claimed ← begin (claim_review env job_id);
  match claimed with
  | None => mret tt
  | Some (review_id, run_id) =>
      posted ← gets (λ s, post_claimed_review env s review_id run_id);
      begin (settle_review env job_id review_id run_id posted)
  end.

Definition NOTICE_OUTCOME_UNKNOWN : text :=
  u "Telegram failure-notification delivery outcome is unknown; it was not sent again.".

Definition set_delivery_state (job_id : Z) (state : string) : M Store unit :=
  update_job job_id (λ j, j <| jb_payload := dict_set "delivery_state" (JStr (u state)) (jb_payload j) |>).

(** The first transaction: the text to post, if it is to be posted. *)
Definition claim_notice (job_id : Z) : M Store (option text) :=
  found ← gets (λ s, st_jobs s !! job_id);
  match found with
  | None => mret None
  | Some job =>
      let state := py_str (json_or (get "delivery_state" (jb_payload job)) (JStr (u "pending"))) in
      if bool_decide (state = u "sent") || truthy (get "message_id" (jb_payload job)) then
        finish_job job_id ;; mret None
      else if bool_decide (state = u "sending") || bool_decide (state = u "unknown") then
        set_delivery_state job_id "unknown" ;; fail_job job_id NOTICE_OUTCOME_UNKNOWN ;; mret None
      else
        set_delivery_state job_id "sending" ;;
        message ← lift (item "message" (jb_payload job));
        mret (Some (py_str message))
  end.

Definition settle_notice (job_id : Z) (posted : outcome text) : M Store unit :=
  match posted with
  | Err exc => set_delivery_state job_id "failed" ;; fail_job job_id (take 4000 (str_of_exn exc))
  | Ok message_id =>
      set_delivery_state job_id "sent" ;;
      update_job job_id (λ j, j <| jb_payload := dict_set "message_id" (JStr message_id) (jb_payload j) |>) ;;
      finish_job job_id
  end.

Definition process_telegram_action_failure_notification (env : Env) (job_id : Z) : M Store unit :=
  claimed ← begin (claim_notice job_id);
  match claimed with
  | None => mret tt
  | Some message => begin (settle_notice job_id (post_action_failure (settings env) message))
  end.

Definition process_job (env : Env) (job_id : Z) : M Store unit :=
  found ← gets (λ s, jb_kind <$> st_jobs s !! job_id);
  if bool_decide (found = Some "notify_nightly_review"%string) then process_initial_nightly_review_notification env job_id
  else if bool_decide (found = Some "notify_telegram_action_failure"%string)
  then process_telegram_action_failure_notification env job_id
  else process_plain_job env job_id.

(** One turn of the worker's loop. *)
Definition run_once (env : Env) (lane : Lane) : M Store unit :=
  claimed ← begin (claim_next_job env (worker_id (settings env)) (job_lock_timeout_seconds (settings env)) lane);
  match claimed with
  | None => mret tt
  | Some job => process_job env (jb_id job)
  end.
End Worker.
