(* ===== verification/WorkerProperties.v ===== *)
(** * What the worker guarantees

    Every claimed job is settled, retries are bounded and a failure leaves
    nothing half done. *)

From S2P Require Import Prelude PyText PyInt States Models PyObject Sql Activity Jobs Billing Fulfillment Transitions.
From S2P Require Import Telegram Csv Exclusions NicheUploads Metrics LeadDatabases Listing Artifact Recommendations Allocation Rotation.
From S2P Require Import TelegramWebhook TelegramKeyboard Delivery Worker.
From Stdlib Require String.

Open Scope Z_scope.

(** ** The sequence of job numbers never goes back *)

Definition numbered (n : Z) (s : Store) : Prop := n ≤ st_next_job s.

Create HintDb forward.
Ltac forward_step :=
  lazymatch goal with
  | |- ∀ _, _ => intro
  | |- preserves _ (_ ≫= _) => apply pres_bind
  | |- preserves _ (mret _) => apply pres_ret
  | |- preserves _ (raise _) => apply pres_raise
  | |- preserves _ (gets _) => apply pres_gets
  | |- preserves _ (raise_if _ _) => apply pres_raise_if
  | |- preserves _ (require _ _) => apply pres_require
  | |- preserves _ (when _ _) => apply pres_when
  | |- preserves _ (if ?b then _ else _) => first [apply pres_if | destruct b]
  | |- preserves _ (try_catch _ _) => apply pres_try_catch
  | |- preserves _ (for_each _ _) => apply pres_for_each
  | |- preserves _ (fold_m _ _ _) => apply pres_fold_m
  | |- preserves _ (modify _) => apply pres_modify; let s := fresh in let Hs := fresh in intros s Hs; exact Hs
  | |- preserves _ (λ s, lift _ s) => let s := fresh in let Hs := fresh in intros s Hs; rewrite lift_run; exact Hs
  | |- preserves _ (match ?x with _ => _ end) => destruct x
  | E : _ = Some ?k |- preserves _ ?k => repeat case_match; simplify_eq
  | |- _ => solve [auto with forward nocore]
  end.
Ltac solve_forward := repeat forward_step.

Section Forward.
Context `{CaseMapping} `{Platform} `{TextReader} `{Mailer} `{PyRepr} `{TitleCase} `{TelegramApi} (n : Z).

Lemma forward_lift {A} (o : outcome A) : preserves (numbered n) (lift o).
Proof. intros s Hs. by rewrite lift_run. Qed.
Lemma forward_uuid4 : preserves (numbered n) uuid4.
Proof. unfold uuid4. solve_forward. Qed.
Lemma forward_enqueue_job env kind rid payload : preserves (numbered n) (enqueue_job env kind rid payload).
Proof. intros s Hs. rewrite enqueue_job_run. unfold numbered in *. cbn. rsimpl. lia. Qed.
#[local] Hint Resolve forward_lift forward_uuid4 forward_enqueue_job : forward.
Lemma forward_enqueue env kind rid : preserves (numbered n) (enqueue env kind rid).
Proof. unfold enqueue. solve_forward. Qed.
Lemma forward_milestone env r : preserves (numbered n) (enqueue_milestone_email env r).
Proof. unfold enqueue_milestone_email. solve_forward. Qed.
Lemma forward_activity env a b c d e f g : preserves (numbered n) (record_activity env a b c d e f g).
Proof. unfold record_activity. solve_forward. Qed.
#[local] Hint Resolve forward_enqueue forward_milestone forward_activity : forward.

Lemma forward_release env r : preserves (numbered n) (release_batch_hold env r).
Proof. unfold release_batch_hold, update_hold. solve_forward. Qed.
Lemma forward_reinstate r : preserves (numbered n) (reinstate_batch_hold r).
Proof. unfold reinstate_batch_hold, update_hold. solve_forward. Qed.
Lemma forward_capture env r : preserves (numbered n) (capture_batch_hold env r).
Proof. unfold capture_batch_hold, add_ledger_entry, update_hold. solve_forward. Qed.
#[local] Hint Resolve forward_release forward_reinstate forward_capture : forward.
Lemma forward_transition env id action actor reason :
  preserves (numbered n) (transition_request env id action actor reason).
Proof.
  unfold transition_request, do_approve, do_retry, do_retry_delivery, do_reject, do_cancel, put_request. solve_forward.
Qed.
#[local] Hint Resolve forward_transition : forward.

Lemma forward_frame {A} (m : M Store A) : (∀ x, preserves (λ s, st_next_job s = x) m) → preserves (numbered n) m.
Proof. apply (pres_of_frame st_next_job (λ x, n ≤ x)). Qed.

Lemma forward_artifact env request customer rows : preserves (numbered n) (generate_artifact env request customer rows).
Proof. apply forward_frame. intros x. by apply generate_artifact_frame. Qed.
Lemma forward_finish env request : preserves (numbered n) (finish_generated env request).
Proof. unfold finish_generated, put_request. solve_forward. Qed.
Lemma forward_backfill events : preserves (numbered n) (backfill events).
Proof. induction events; cbn; unfold put_event; solve_forward. Qed.
#[local] Hint Resolve forward_artifact forward_finish forward_backfill : forward.
Lemma forward_distribute env request customer database sources lookups candidates :
  preserves (numbered n) (distribute env request customer database sources lookups candidates).
Proof. unfold distribute, distribute_lead, update_lead. solve_forward. Qed.
Lemma forward_shortage env request customer : preserves (numbered n) (report_shortage env request customer).
Proof. unfold report_shortage, put_request. solve_forward. Qed.
#[local] Hint Resolve forward_distribute forward_shortage : forward.
Lemma forward_allocate env id : preserves (numbered n) (allocate_request env id).
Proof. unfold allocate_request, allocate_existing, allocate_new, put_request. solve_forward. Qed.
#[local] Hint Resolve forward_allocate : forward.
Lemma forward_conflicts env request newer_ids olders : preserves (numbered n) (conflict_loop env request newer_ids olders).
Proof.
  induction olders; cbn [conflict_loop]; unfold wait_for_decision, update_conflict, put_request; solve_forward.
Qed.
#[local] Hint Resolve forward_conflicts : forward.
Lemma forward_rotation env : preserves (numbered n) (fulfill_round_robin env).
Proof.
  unfold fulfill_round_robin, take_turn, inventory_conflict_blocks, update_customer, update_agency, put_request.
  solve_forward.
Qed.
Lemma forward_decide_conflict env id action actor reason :
  preserves (numbered n) (decide_inventory_conflict env id action actor reason).
Proof. unfold decide_inventory_conflict, update_conflict. solve_forward. Qed.
Lemma forward_decide_exclusion env id action actor reason :
  preserves (numbered n) (decide_exclusion_list env id action actor reason).
Proof. unfold decide_exclusion_list, refresh_pool_impact, Exclusions.update_review, put_exclusion_list. solve_forward. Qed.
Lemma forward_ingest_exclusions env id : preserves (numbered n) (ingest_exclusion_list env id).
Proof.
  unfold ingest_exclusion_list, refuse_list, settle_list, add_phones, put_exclusion_list, refresh_pool_impact. solve_forward.
Qed.
Lemma forward_ingest_niches env id : preserves (numbered n) (ingest_niche_assignments env id).
Proof. unfold ingest_niche_assignments, set_assignment, put_niche_upload. solve_forward. Qed.
Lemma forward_decide_recommendation env id action actor reason apply_enabled shadow_mode checksum :
  preserves (numbered n) (decide_recommendation env id action actor reason apply_enabled shadow_mode checksum).
Proof. unfold decide_recommendation, mark_stale, resolve_decision, schedule_next, put_recommendation. solve_forward. Qed.
Lemma forward_deliver env id : preserves (numbered n) (deliver_request env id).
Proof. unfold deliver_request, put_artifact, put_request. solve_forward. Qed.
Lemma forward_update_job id f : preserves (numbered n) (update_job id f).
Proof. unfold update_job. solve_forward. Qed.
#[local] Hint Resolve forward_rotation forward_decide_conflict forward_decide_exclusion forward_ingest_exclusions
  forward_ingest_niches forward_decide_recommendation forward_deliver forward_update_job : forward.

Lemma forward_handle metrics acquisition env job request :
  (∀ env job, preserves (numbered n) (acquisition env job)) →
  preserves (numbered n) (handle metrics acquisition env job request).
Proof.
  intros Hacq. unfold handle, update_notification, do_telegram_action, update_nightly_notification, notify_anomaly,
    notify_conflict, do_conflict_action, do_exclusion_action, do_recommendation_action, do_emit, update_anomaly, update_conflict. solve_forward.
Qed.
End Forward.

(** ** Delays *)

Lemma retry_delay_bounds delays attempts lo hi :
  delays ≠ [] → Forall (λ d, lo ≤ d ≤ hi) delays → seconds lo ≤ retry_delay delays attempts ≤ seconds hi.
Proof.
  intros Hne Hall. unfold retry_delay, seconds.
  set (i := Z.to_nat (Z.min (Z.max (attempts - 1) 0) (Z.of_nat (length delays) - 1))).
  assert (i < length delays)%nat as Hi by (destruct delays; [done|]; unfold i; cbn [length]; lia).
  apply lookup_lt_is_Some in Hi as [d Hd]. rewrite Hd. cbn [default].
  eapply Forall_lookup_1 in Hall; [|exact Hd]. cbn in Hall |- *. lia.
Qed.

Lemma emit_retry_bounds attempts : seconds 60 ≤ emit_retry_delay attempts ≤ seconds 3600.
Proof. apply retry_delay_bounds; [done|]. repeat constructor; lia. Qed.
Lemma telegram_retry_bounds attempts : seconds 30 ≤ telegram_retry_delay attempts ≤ seconds 1800.
Proof. apply retry_delay_bounds; [done|]. repeat constructor; lia. Qed.

Section TelegramErrors.
Context `{CaseMapping} `{PyRepr} `{TitleCase} `{TelegramApi}.

(** A pause the bot API asks for is positive and at most an hour. *)
Definition mild (e : exn) : Prop :=
  match e with TelegramTransientError (Some d) _ => 0 < d ≤ seconds 3600 | _ => True end.
Definition mild_outcome {A} (o : outcome A) : Prop := match o with Ok _ => True | Err e => mild e end.

Lemma mild_bind {A B} (o : outcome A) (k : A → outcome B) :
  mild_outcome o → (∀ a, mild_outcome (k a)) → mild_outcome (o ≫= k).
Proof. destruct o; cbn; auto. Qed.
Lemma mild_mapM {A B} (f : A → outcome B) l : (∀ x, mild_outcome (f x)) → mild_outcome (mapM f l).
Proof.
  intros Hf. induction l as [|x l IH]; [done|].
  change (mapM f (x :: l)) with (y ← f x; k ← mapM f l; mret (y :: k)).
  apply mild_bind; [done|]. intros y. by apply mild_bind.
Qed.

Lemma retry_after_mild data d : retry_after_of data = Some d → 0 < d ≤ seconds 3600.
Proof.
  unfold retry_after_of, seconds. intros Hd. repeat case_match; simplify_eq; bool_inv; lia.
Qed.

Lemma call_mild settings method payload : mild_outcome (call settings method payload).
Proof.
  unfold call. destruct (bool_decide _); [done|]. destruct (telegram_post method payload) as [|code body t]; [done|].
  apply mild_bind; [by destruct (default EMPTY body)|]. intros ok. destruct (_ && _); [done|].
  apply mild_bind; [by destruct (default EMPTY body)|]. intros raw.
  repeat (destruct (_ && _); [done|]). destruct (code =? 429).
  - cbn. destruct (retry_after_of _) eqn:E; [|done]. by apply retry_after_mild in E.
  - by destruct (500 <=? code).
Qed.

Lemma callback_mild action id : mild_outcome (callback_data action id).
Proof. unfold callback_data, within_64_bytes. by repeat case_match. Qed.

Lemma request_message_mild s request : mild_outcome (request_message s request).
Proof.
  unfold request_message. repeat case_match; try done. unfold keyboard, keyboard_buttons.
  apply mild_bind; [|done]. apply mild_bind; [|done]. apply mild_mapM. intros a.
  apply mild_bind; [apply callback_mild|done].
Qed.

Lemma json_mild k v : mild_outcome (json_item k v).
Proof. unfold json_item, item. by repeat case_match. Qed.

Lemma post_request_mild settings s request : mild_outcome (post_request settings s request).
Proof.
  unfold post_request, require_chat_id, refuse_if, send_message, posted_message.
  apply mild_bind; [by case_match|]. intros _. apply mild_bind; [apply request_message_mild|]. intros [t markup].
  apply mild_bind; [apply call_mild|]. intros data. repeat (apply mild_bind; [apply json_mild|]; intros). done.
Qed.

Lemma edit_request_mild settings s request chat_id message_id :
  mild_outcome (edit_request settings s request chat_id message_id).
Proof.
  unfold edit_request, edit_message. apply mild_bind; [cbn; by case_match|]. intros k.
  apply mild_bind; [apply request_message_mild|]. intros [t markup]. apply mild_bind; [apply call_mild|done].
Qed.

Lemma update_notification_mild env request s :
  match (update_notification env request s).1 with Err e => mild e | Ok _ => True end.
Proof.
  unfold update_notification. rewrite !bind_gets. destruct (st_notifications s !! rq_id request) as [nt|].
  - pose proof (edit_request_mild (settings env) (id s) request (nt_destination_id nt) (nt_message_id nt)) as He.
    destruct (edit_request _ _ _ _ _) as [|e]; [done|]. destruct e; try exact He.
    pose proof (post_request_mild (settings env) (id s) request) as Hp.
    unfold mbind, M_bind. rewrite lift_run. by destruct (post_request _ _ _).
  - pose proof (post_request_mild (settings env) (id s) request) as Hp.
    unfold mbind, M_bind. rewrite lift_run. by destruct (post_request _ _ _).
Qed.
End TelegramErrors.

(** ** Settling *)

(** How often a kind of job is tried again. *)
Definition max_attempts (kind : string) : Z :=
  if String.eqb kind EMIT_LEAD_ASSIGNED_JOB then EMIT_MAX_ATTEMPTS
  else if kind_in kind NOTIFY_REQUEST_JOB_KINDS then TELEGRAM_NOTIFY_MAX_ATTEMPTS
  else if kind_in kind INGESTION_JOB_KINDS then 3
  else 0.

(** Done, given up, or back on the queue, unlocked, for a bounded number of
    times and after at most an hour. *)
Definition settled_job (env : Env) (job job' : Job) : Prop :=
  jb_status job' = complete ∨ jb_status job' = job_failed ∨
  jb_status job' = queued ∧ jb_locked_at job' = None ∧ jb_locked_by job' = [] ∧
  now env < jb_run_after job' ≤ now env + seconds 3600 ∧
  jb_attempts job' = jb_attempts job ∧ jb_attempts job < max_attempts (jb_kind job).

Definition row_settled (env : Env) (job : Job) (job_id : Z) (s : Store) : Prop :=
  job_id < st_next_job s ∧ ∀ j, st_jobs s !! job_id = Some j → settled_job env job j.

Lemma retry_in_bounds env job exc delay :
  retry_in job exc = Some delay → (kind_in (jb_kind job) NOTIFY_REQUEST_JOB_KINDS = true → mild exc) →
  (now env < now env + delay ≤ now env + seconds 3600) ∧ jb_attempts job < max_attempts (jb_kind job).
Proof.
  intros Hr Hm. unfold retry_in in Hr. unfold max_attempts. destruct exc; try done.
  - destruct (String.eqb (jb_kind job) EMIT_LEAD_ASSIGNED_JOB); cbn [andb] in Hr; [|done].
    destruct (Z.ltb_spec (jb_attempts job) EMIT_MAX_ATTEMPTS); [|done]. injection Hr as <-.
    pose proof (emit_retry_bounds (jb_attempts job)). unfold seconds in *. lia.
  - destruct (kind_in (jb_kind job) NOTIFY_REQUEST_JOB_KINDS) eqn:Hk; cbn [andb] in Hr; [|done].
    specialize (Hm eq_refl). destruct (String.eqb_spec (jb_kind job) EMIT_LEAD_ASSIGNED_JOB) as [E|_].
    { rewrite E in Hk. discriminate Hk. }
    destruct (Z.ltb_spec (jb_attempts job) TELEGRAM_NOTIFY_MAX_ATTEMPTS); [|done].
    pose proof (telegram_retry_bounds (jb_attempts job)). unfold seconds, mild in *.
    destruct retry_after as [d|]; [destruct (Z.eqb_spec d 0)|]; injection Hr as <-; unfold seconds in *; lia.
Qed.

Lemma ingestion_bounds env job :
  kind_in (jb_kind job) INGESTION_JOB_KINDS = true → jb_attempts job < 3 →
  (now env < now env + seconds (30 * 2 ^ Z.max 0 (jb_attempts job - 1)) ≤ now env + seconds 3600) ∧
  jb_attempts job < max_attempts (jb_kind job).
Proof.
  intros Hk Ha. unfold max_attempts. rewrite Hk.
  assert (kind_in (jb_kind job) NOTIFY_REQUEST_JOB_KINDS = false ∧
          String.eqb (jb_kind job) EMIT_LEAD_ASSIGNED_JOB = false) as [-> ->].
  { unfold kind_in in Hk. cbn [INGESTION_JOB_KINDS existsb] in Hk. rewrite !orb_true_iff, !String.eqb_eq in Hk.
    by destruct Hk as [->|[->|?]]. }
  assert (Z.max 0 (jb_attempts job - 1) = 0 ∨ Z.max 0 (jb_attempts job - 1) = 1) as [-> | ->] by lia;
    unfold seconds; cbn; lia.
Qed.

Lemma bind_Err_inv {S A B} (m : M S A) (k : A → M S B) s e s' :
  (m ≫= k) s = (Err e, s') → m s = (Err e, s') ∨ ∃ a s1, m s = (Ok a, s1) ∧ k a s1 = (Err e, s').
Proof. unfold mbind, M_bind. destruct (m s) as [[a|e'] s1]; naive_solver. Qed.

Section Settle.
Context `{CaseMapping} `{Platform} `{TextReader} `{Mailer} `{PyRepr} `{TitleCase} `{TelegramApi}.
Context (metrics : World) (acquisition : Env → Job → M Store unit) (import_lead_upload : Env → uuid → Z → M Store unit).
(** Sequences only move forward, whatever the handlers that are not modelled do. *)
Context (Hforward : ∀ n env job, preserves (numbered n) (acquisition env job)).
Context (env : Env) (job : Job) (job_id : Z).

Lemma settled_enqueue_job kind rid payload : preserves (row_settled env job job_id) (enqueue_job env kind rid payload).
Proof.
  intros s [Hn Hs]. rewrite enqueue_job_run. unfold row_settled. cbn. rsimpl. split; [lia|].
  intros j. rewrite lookup_insert_ne by lia. apply Hs.
Qed.
#[local] Hint Resolve settled_enqueue_job : forward.
Lemma settled_enqueue kind rid : preserves (row_settled env job job_id) (enqueue env kind rid).
Proof. unfold enqueue. solve_forward. Qed.
Lemma settled_milestone r : preserves (row_settled env job job_id) (enqueue_milestone_email env r).
Proof. unfold enqueue_milestone_email. solve_forward. Qed.
#[local] Hint Resolve settled_enqueue settled_milestone : forward.

Lemma settled_notice : preserves (row_settled env job job_id) (enqueue_telegram_action_failure env job).
Proof.
  unfold enqueue_telegram_action_failure. repeat (apply pres_if; [apply pres_ret|]).
  apply pres_bind; [apply settled_enqueue_job|]. intros nt s [Hn Hs]. unfold update_job, modify, row_settled. cbn. rsimpl.
  split; [done|]. intros j. destruct (decide (jb_id job = job_id)) as [->|E].
  - rewrite lookup_alter_eq. intros (j0 & Hj0 & ->)%fmap_Some. exact (Hs j0 Hj0).
  - rewrite lookup_alter_ne by done. apply Hs.
Qed.

Lemma settled_fail_request exc : preserves (row_settled env job job_id) (fail_request env job exc).
Proof.
  unfold fail_request, mark_delivery_failed, release_batch_hold, update_hold, put_request, put_artifact. solve_forward.
Qed.

Lemma settled_fail_ingestion : preserves (row_settled env job job_id) (fail_exhausted_ingestion job).
Proof. unfold fail_exhausted_ingestion. solve_forward. Qed.

Lemma total_fail_ingestion : total (fail_exhausted_ingestion job).
Proof. unfold fail_exhausted_ingestion. repeat case_match; auto with total. Qed.
Lemma total_notice : total (enqueue_telegram_action_failure env job).
Proof. unfold enqueue_telegram_action_failure, update_job. auto using enqueue_job_total with total. Qed.
Lemma total_fail_request exc : total (fail_request env job exc).
Proof.
  unfold fail_request, mark_delivery_failed, put_request, put_artifact. apply total_bind; [auto with total|]. intros [r|]; [|auto with total].
  repeat apply total_if; auto 10 using release_total, enqueue_total, enqueue_milestone_email_total with total.
  apply total_bind; [auto with total|]. intros _. apply total_bind; [auto with total|]. intros f.
  apply total_bind; [auto with total|]. intros a. apply total_bind.
  - destruct f; auto 10 using enqueue_total, enqueue_milestone_email_total with total.
  - intros _. destruct a; auto with total.
Qed.

(** Recording a failure always succeeds and settles the job. *)
Lemma record_failure_settles exc s :
  st_jobs s !! job_id = Some job → jb_id job = job_id → job_id < st_next_job s →
  String.eqb (jb_kind job) IMPORT_JOB = false →
  (kind_in (jb_kind job) NOTIFY_REQUEST_JOB_KINDS = true → mild exc) →
  ∃ s', record_failure env job_id exc s = (Ok tt, s') ∧ row_settled env job job_id s'.
Proof.
  intros Hjob Hid Hn Himp Hmild. unfold record_failure. rewrite bind_gets, Hjob, Himp. cbv zeta.
  destruct (retry_in job exc) as [delay|] eqn:Hr.
  { eexists. split; [reflexivity|]. split; [exact Hn|]. rsimpl. intros j. rewrite lookup_alter_eq, Hjob.
    intros [= <-]. right. right. split_and!; try done; by eapply retry_in_bounds. }
  match goal with |- ∃ s', (?first ≫= ?rest) s = _ ∧ _ =>
    assert (∃ s1, first s = (Ok tt, s1) ∧ row_settled env job job_id s1) as (s1 & E1 & Hs1);
    [|rewrite (bind_Ok first rest s tt s1 E1)] end.
  - destruct (kind_in (jb_kind job) INGESTION_JOB_KINDS && (jb_attempts job <? 3)) eqn:Hi.
    + eexists. split; [reflexivity|]. split; [exact Hn|]. rsimpl. intros j. rewrite lookup_alter_eq, Hjob.
      intros [= <-]. right. right. apply andb_true_iff in Hi as [Hk Ha%Z.ltb_lt]. split_and!; try done;
        by eapply ingestion_bounds.
    + set (s0 := s <| st_jobs := alter (λ j, j <| jb_status := job_failed |>
                         <| jb_last_error := take 4000 (str_of_exn exc) |>) job_id (st_jobs s) |>).
      assert (row_settled env job job_id s0) as Hs0.
      { split; [exact Hn|]. unfold s0. rsimpl. intros j. rewrite lookup_alter_eq, Hjob. intros [= <-]. by right; left. }
      change (∃ s1, fail_exhausted_ingestion job s0 = (Ok tt, s1) ∧ row_settled env job job_id s1).
      destruct (total_fail_ingestion s0) as ([] & s1 & E). exists s1. split; [done|].
      by eapply preserves_Ok; [apply settled_fail_ingestion | exact Hs0 | exact E].
  - destruct (total_notice s1) as ([] & s2 & E2). rewrite (bind_Ok _ _ _ _ _ E2).
    destruct (total_fail_request exc s2) as ([] & s3 & E3). exists s3. split; [done|].
    eapply preserves_Ok; [apply settled_fail_request | | exact E3].
    by eapply preserves_Ok; [apply settled_notice | exact Hs1 | exact E2].
Qed.

Lemma forward_perform n : preserves (numbered n) (perform metrics acquisition env job).
Proof using Hforward.
  pose proof (λ r, forward_handle n metrics acquisition env job r (Hforward n)) as Hh.
  pose proof (@forward_lift n) as Hl. unfold perform, do_milestone, finish_job, update_job. solve_forward; auto.
Qed.

Lemma perform_mild s e s' :
  kind_in (jb_kind job) NOTIFY_REQUEST_JOB_KINDS = true → perform metrics acquisition env job s = (Err e, s') → mild e.
Proof.
  intros Hk. unfold perform. rewrite bind_gets.
  destruct (String.eqb_spec (jb_kind job) MILESTONE_EMAIL_JOB) as [E|_]; [by rewrite E in Hk|].
  unfold handle. rewrite Hk. intros He. apply bind_Err_inv in He as [He|(? & ? & _ & [=])].
  apply bind_Err_inv in He as [He|(r & s1 & _ & He)].
  - destruct (jb_request_id job ≫= _); [done|]. by injection He as <- <-.
  - pose proof (update_notification_mild env r s1) as Hm. by rewrite He in Hm.
Qed.

Lemma perform_settles s s' :
  st_jobs s !! job_id = Some job → jb_id job = job_id → perform metrics acquisition env job s = (Ok tt, s') →
  ∀ j, st_jobs s' !! job_id = Some j → jb_status j = complete.
Proof.
  intros Hjob Hid Hrun. unfold perform in Hrun. rewrite bind_gets in Hrun.
  assert (∀ s0 x s1, finish_job job_id s0 = (Ok x, s1) → ∀ j, st_jobs s1 !! job_id = Some j → jb_status j = complete) as Hfin.
  { intros s0 x s1 [= _ <-] j. rsimpl. rewrite lookup_alter_eq. intros (j0 & _ & ->)%fmap_Some. done. }
  destruct (String.eqb (jb_kind job) MILESTONE_EMAIL_JOB).
  - unfold do_milestone in Hrun. rewrite Hid in Hrun. run_inv. case_bool_decide as Hc; run_inv.
    + intros j. rewrite Hjob. by intros [= <-].
    + by eapply Hfin.
  - rewrite Hid in Hrun. run_inv. by eapply Hfin.
Qed.

(** Every kind but the imports and the two that are posted at most once. *)
Lemma plain_job_settles s :
  jobs_wf s → st_jobs s !! job_id = Some job → String.eqb (jb_kind job) IMPORT_JOB = false →
  ∃ s', process_plain_job metrics acquisition import_lead_upload env job_id s = (Ok tt, s') ∧
    ∀ job', st_jobs s' !! job_id = Some job' → settled_job env job job'.
Proof using Hforward.
  intros Hwf Hjob Himp. destruct (Hwf _ _ Hjob) as [Hid Hlt].
  unfold process_plain_job. rewrite Hjob, Himp. cbv zeta. unfold begin, transaction at 1.
  pose proof (forward_perform (job_id + 1) s) as Hf.
  pose proof (λ e s' Hk, perform_mild s e s' Hk) as Hmild.
  pose proof (λ s', perform_settles s s' Hjob Hid) as Hset.
  destruct (perform metrics acquisition env job s) as [[[]|e] s1].
  - exists s1. split; [done|]. intros j Hj. left. by eapply Hset.
  - assert (numbered (job_id + 1) s1) as Hn1 by (apply Hf; unfold numbered; lia). unfold numbered in Hn1.
    destruct (record_failure_settles e (rollback s s1)) as (s' & E & _ & Hs'); try done.
    + change (job_id < st_next_job s1). lia.
    + intros Hk. by eapply Hmild.
    + exists s'. unfold transaction. by rewrite E.
Qed.
(** The two kinds that are posted between two transactions need a payload the
    first of them can read. *)
Definition readable_payload : Prop :=
  (jb_kind job = "notify_nightly_review"%string → ∃ id, json_uuid (get "review_id" (jb_payload job)) = Ok id) ∧
  (jb_kind job = "notify_telegram_action_failure"%string → is_Some (dict_get "message" (jb_payload job))).

Definition ended (s : Store) : Prop :=
  ∀ j, st_jobs s !! job_id = Some j → jb_status j = complete ∨ jb_status j = job_failed.
Lemma ended_alter f s s' :
  (∀ j, jb_status (f j) = complete ∨ jb_status (f j) = job_failed) →
  st_jobs s' = alter f job_id (st_jobs s) → ended s'.
Proof. intros Hf E j. rewrite E, lookup_alter_eq. intros (j0 & _ & ->)%fmap_Some. apply Hf. Qed.

Lemma claim_review_run review_id s :
  st_jobs s !! job_id = Some job → json_uuid (get "review_id" (jb_payload job)) = Ok review_id →
  ∃ claimed s', begin (claim_review env job_id) s = (Ok claimed, s') ∧
    match claimed with
    | None => ended s'
    | Some (id, _) => is_Some (st_jobs s' !! job_id) ∧ is_Some (st_reviews s' !! id)
    end.
Proof.
  intros Hjob Hid. unfold begin, transaction, claim_review. rewrite bind_gets, Hjob, bind_lift, Hid, bind_gets.
  destruct (st_reviews s !! review_id) as [review|] eqn:Hr.
  2:{ do 2 eexists. split; [reflexivity|]. eapply ended_alter; [|reflexivity]. by right. }
  destruct (negb _); [|destruct (kind_in _ _)].
  - do 2 eexists. split; [reflexivity|]. eapply ended_alter; [|reflexivity]. by left.
  - do 2 eexists. split; [reflexivity|]. eapply ended_alter; [|reflexivity]. by right.
  - do 2 eexists. split; [reflexivity|]. cbn. rsimpl. rewrite Hjob, lookup_alter_eq, Hr. by split.
Qed.

Lemma settle_review_ends review_id run_id posted s :
  is_Some (st_jobs s !! job_id) → is_Some (st_reviews s !! review_id) →
  ∃ s', begin (settle_review env job_id review_id run_id posted) s = (Ok tt, s') ∧ ended s'.
Proof.
  intros [j Hj] [r Hr]. unfold begin, transaction, settle_review. destruct posted as [message_id|exc].
  - rewrite bind_gets, Hr, Hj. unfold update_review. rewrite bind_modify, bind_gets.
    destruct (review_anomaly _ _); (eexists; split; [reflexivity|]; eapply ended_alter; [|reflexivity]; by left).
  - eexists. split; [reflexivity|]. eapply ended_alter; [|reflexivity]. by right.
Qed.

Lemma review_job_settles review_id s :
  st_jobs s !! job_id = Some job → json_uuid (get "review_id" (jb_payload job)) = Ok review_id →
  ∃ s', process_initial_nightly_review_notification env job_id s = (Ok tt, s') ∧ ended s'.
Proof.
  intros Hjob Hid. unfold process_initial_nightly_review_notification.
  destruct (claim_review_run review_id s Hjob Hid) as (claimed & s1 & E & Hc). rewrite (bind_Ok _ _ _ _ _ E).
  destruct claimed as [[id run_id]|]; [|by eexists]. rewrite bind_gets.
  destruct Hc as [Hj Hr]. by apply settle_review_ends.
Qed.

Lemma claim_notice_run s :
  st_jobs s !! job_id = Some job → is_Some (dict_get "message" (jb_payload job)) →
  ∃ claimed s', begin (claim_notice job_id) s = (Ok claimed, s') ∧ (claimed = None → ended s').
Proof.
  intros Hjob [m Hm]. unfold begin, transaction, claim_notice. rewrite bind_gets, Hjob. cbv zeta.
  destruct (_ || _); [|destruct (_ || _)].
  - do 2 eexists. split; [reflexivity|]. intros _. eapply ended_alter; [|reflexivity]. by left.
  - do 2 eexists. split; [reflexivity|]. intros _. eapply ended_alter; [|reflexivity]. by right.
  - unfold set_delivery_state, update_job. rewrite bind_modify, bind_lift. unfold item. rewrite Hm.
    do 2 eexists. split; [reflexivity|]. done.
Qed.

Lemma notice_job_settles s :
  st_jobs s !! job_id = Some job → is_Some (dict_get "message" (jb_payload job)) →
  ∃ s', process_telegram_action_failure_notification env job_id s = (Ok tt, s') ∧ ended s'.
Proof.
  intros Hjob Hm. unfold process_telegram_action_failure_notification.
  destruct (claim_notice_run s Hjob Hm) as (claimed & s1 & E & Hc). rewrite (bind_Ok _ _ _ _ _ E).
  destruct claimed as [message|]; [|eauto].
  destruct (post_action_failure (settings env) message) as [id|e]; eexists; (split; [reflexivity|]);
    (eapply ended_alter; [|reflexivity]); [by left | by right].
Qed.

(** C16: A claimed job never hangs.  Whatever its handler does, processing it
    ends without an exception, and the job is then complete, or failed, or back
    on the queue: unlocked, to be run again after more than no time and at most
    an hour, and only while its attempts are below the limit of its kind (ten
    for metrics and Telegram messages, three for ingestion, none for the rest).
    This is for every kind but an import, which is recorded by its upload; the
    two kinds posted at most once, the Nightly Review and the notice of a
    failed action, need a payload that names the review and the message, as
    every payload the program writes does. *)
Theorem job_always_settles s :
  jobs_wf s → st_jobs s !! job_id = Some job → String.eqb (jb_kind job) IMPORT_JOB = false → readable_payload →
  ∃ s', process_job metrics acquisition import_lead_upload env job_id s = (Ok tt, s') ∧
    ∀ job', st_jobs s' !! job_id = Some job' → settled_job env job job'.
Proof using Hforward.
  intros Hwf Hjob Himp [Hreview Hnotice]. unfold process_job. rewrite bind_gets, Hjob. cbn [fmap option_fmap option_map].
  case_bool_decide as E1; [|case_bool_decide as E2].
  - injection E1 as E1. destruct (Hreview E1) as [id Hid].
    destruct (review_job_settles id s Hjob Hid) as (s' & E & Hend). exists s'. split; [exact E|].
    intros j Hj. unfold settled_job. specialize (Hend j Hj). tauto.
  - injection E2 as E2. destruct (notice_job_settles s Hjob (Hnotice E2)) as (s' & E & Hend). exists s'. split; [exact E|].
    intros j Hj. unfold settled_job. specialize (Hend j Hj). tauto.
  - by apply plain_job_settles.
Qed.
End Settle.

(** ** A failed allocation *)

(** What an allocation writes apart from its request and the queue. *)
Definition batch_tables (s : Store) :=
  (st_events s, st_leads s, st_ledger s, st_artifacts s, st_customers s, st_agencies s, st_conflicts s, st_audit s).

Definition failed_request (env : Env) (request : LeadRequest) : LeadRequest :=
  request <| rq_status := failed |> <| rq_status_message := GENERATION_FAILED |> <| rq_closed_at := Some (now env) |>.

Lemma milestone_queued env r s milestone x s' :
  MILESTONE_BY_STATUS (rq_status r) = Some milestone → enqueue_milestone_email env r s = (Ok x, s') →
  ∃ id j, st_jobs s' !! id = Some j ∧ is_milestone_job (rq_id r) milestone j = true.
Proof.
  intros Hm. unfold enqueue_milestone_email. rewrite Hm. intros Hrun. run_inv.
  destruct (existsb _ _) eqn:Hex.
  - run_inv. apply existsb_exists in Hex as (j & Hj & Hmj). apply list_elem_of_In, list_elem_of_fmap in Hj as ([id j'] & -> & Hj).
    apply elem_of_map_to_list in Hj. by exists id, j'.
  - run_inv. match goal with He : enqueue_job _ _ _ _ _ = _ |- _ => rewrite enqueue_job_run in He; injection He as _ <- end.
    eexists _, _. rsimpl. split; [apply lookup_insert_eq|]. unfold is_milestone_job, new_job. cbn [jb_kind jb_request_id jb_payload].
    rewrite String.eqb_refl, bool_decide_eq_true_2 by done. cbn. by rewrite bool_decide_eq_true_2.
Qed.

Lemma milestone_wf env r : preserves jobs_wf (enqueue_milestone_email env r).
Proof. pose proof enqueue_job_wf. unfold enqueue_milestone_email. solve_forward. Qed.

Section FailedAllocation.
Context `{CaseMapping} `{Platform} `{TextReader} `{Mailer} `{PyRepr} `{TitleCase} `{TelegramApi}.
Context (metrics : World) (acquisition : Env → Job → M Store unit) (import_lead_upload : Env → uuid → Z → M Store unit).

(** For an allocation, recording the failure is failing the request. *)
Lemma record_failure_allocation env job_id job exc s :
  st_jobs s !! job_id = Some job → jb_kind job = "allocate_request"%string →
  record_failure env job_id exc s =
  fail_request env job exc (s <| st_jobs := alter (λ j, j <| jb_status := job_failed |>
    <| jb_last_error := take 4000 (str_of_exn exc) |>) job_id (st_jobs s) |>).
Proof.
  intros Hjob Hk. unfold record_failure, retry_in, fail_exhausted_ingestion, enqueue_telegram_action_failure.
  rewrite bind_gets, Hjob, Hk. cbv zeta. by destruct exc.
Qed.

Lemma fail_request_tables env job exc x :
  String.eqb (jb_kind job) "deliver_request" = false → preserves (λ s, batch_tables s = x) (fail_request env job exc).
Proof.
  intros Hk. unfold fail_request. rewrite Hk. apply pres_bind; [apply pres_gets|]. intros [r|]; [|apply pres_ret].
  apply pres_if; [|apply pres_ret]. unfold put_request. solve_frame.
Qed.

Lemma fail_allocation_run env job exc s rid request :
  jobs_wf s → keyed (st_requests s) → jb_kind job = "allocate_request"%string → jb_request_id job = Some rid →
  st_requests s !! rid = Some request →
  ∃ s', fail_request env job exc s = (Ok tt, s') ∧ batch_tables s' = batch_tables s ∧
    st_requests s' = <[rid := failed_request env request]> (st_requests s) ∧
    (∀ id h, st_holds s !! id = Some h → ∃ h', st_holds s' !! id = Some h' ∧
       if bool_decide (id = rid) then released env request h h' else h' = h) ∧
    ∃ id j, st_jobs s' !! id = Some j ∧ is_milestone_job rid "failure" j = true.
Proof.
  intros Hwf Hkeyed Hk Hid Hr. pose proof (Hkeyed _ _ Hr) as <-.
  destruct (total_fail_request env job exc s) as ([] & s' & E). exists s'. split; [done|].
  split.
  { refine (preserves_Ok (λ s0, batch_tables s0 = batch_tables s) _ s tt s' (fail_request_tables env job exc _ _) eq_refl E).
    by rewrite Hk. }
  unfold fail_request in E. rewrite bind_gets, Hid in E. cbn [mbind option_bind] in E. rewrite Hr, Hk in E.
  change (String.eqb "allocate_request" "deliver_request") with false in E.
  change (String.eqb "allocate_request" "allocate_request") with true in E. cbv zeta iota in E.
  fold (failed_request env request) in E.
  apply bind_Ok_inv in E as (x1 & s1 & E1 & E). injection E1 as <- <-.
  apply bind_Ok_inv in E as (x2 & s2 & E2 & E). apply bind_Ok_inv in E as (x3 & s3 & E3 & E4).
  set (s1 := s <| st_requests := _ |>) in *.
  assert (st_requests s' = st_requests s1 ∧ st_holds s' = st_holds s2) as [Hreq Hholds].
  { assert (st_requests s2 = st_requests s1) as <-.
    { exact (preserves_Ok (λ s0, st_requests s0 = st_requests s1) _ s1 x2 s2 (release_batch_hold_frame st_requests _ _ _ (λ _ _, eq_refl)) eq_refl E2). }
    pose proof (preserves_Ok (λ s0, (st_requests s0, st_holds s0) = (st_requests s2, st_holds s2)) _ s2 x3 s3
      (enqueue_milestone_email_frame (λ s0, (st_requests s0, st_holds s0)) _ _ _ (λ _ _, eq_refl) (λ _ _, eq_refl)) eq_refl E3) as [= <- <-].
    pose proof (preserves_Ok (λ s0, (st_requests s0, st_holds s0) = (st_requests s3, st_holds s3)) _ s3 tt s'
      (enqueue_frame (λ s0, (st_requests s0, st_holds s0)) _ _ _ _ (λ _ _, eq_refl) (λ _ _, eq_refl)) eq_refl E4) as [= <- <-]. done. }
  split; [exact Hreq|]. split.
  - intros id h Hh. rewrite Hholds. exact (release_holds env (failed_request env request) s1 x2 s2 E2 id h Hh).
  - destruct (milestone_queued env (failed_request env request) s2 "failure" x3 s3 eq_refl E3) as (id & j & Hj & Hm).
    exists id, j. split; [|exact Hm].
    assert (jobs_wf s3) as Hwf3.
    { refine (preserves_Ok jobs_wf _ s2 x3 s3 (milestone_wf env _) _ E3).
      pose proof (preserves_Ok (λ s0, (st_jobs s0, st_next_job s0) = (st_jobs s1, st_next_job s1)) _ s1 x2 s2
        (release_batch_hold_frame (λ s0, (st_jobs s0, st_next_job s0)) _ _ _ (λ _ _, eq_refl)) eq_refl E2) as [= Ej En].
      unfold jobs_wf. rewrite Ej, En. exact Hwf. }
    unfold enqueue in E4. rewrite (bind_Ok _ _ _ _ _ (enqueue_job_run _ _ _ _ _)) in E4. injection E4 as <-.
    destruct (Hwf3 _ _ Hj). rsimpl. by rewrite lookup_insert_ne by lia.
Qed.

Lemma forward_allocation_job env job n :
  jb_kind job = "allocate_request"%string → preserves (numbered n) (perform metrics acquisition env job).
Proof.
  intros Hk. unfold perform. rewrite Hk. apply pres_bind; [apply pres_gets|]. intros r.
  change (String.eqb "allocate_request" MILESTONE_EMAIL_JOB) with false. cbv iota. unfold handle. rewrite Hk.
  pose proof (forward_allocate n) as Ha. pose proof (@forward_lift n) as Hl. pose proof (forward_update_job n) as Hu.
  unfold finish_job. apply pres_bind; [|auto]. apply pres_bind; [auto|]. intros id. apply pres_bind; [auto|]. intros. apply pres_ret.
Qed.

(** C14: A failed allocation leaves nothing half done.  When the job that
    allocates a Batch Request fails, for whatever reason and however far it
    got, the worker ends without an exception and the records, the Leads, the
    ledger, the artifacts, the turns, the conflicts and the audit trail are as
    they were; the request alone is failed, saying so, with the time it
    stopped; an active Batch Hold is released, so that the money is available
    again, and no other hold is touched; and the Customer's failure email is on
    the queue, where one queued for the same request before counts. *)
Theorem failed_allocation_leaves_nothing env job_id job rid request s e s1 :
  jobs_wf s → keyed (st_requests s) → st_jobs s !! job_id = Some job →
  jb_kind job = "allocate_request"%string → jb_request_id job = Some rid → st_requests s !! rid = Some request →
  begin (perform metrics acquisition env job) s = (Err e, s1) →
  ∃ s', process_plain_job metrics acquisition import_lead_upload env job_id s = (Ok tt, s') ∧
    batch_tables s' = batch_tables s ∧
    st_requests s' = <[rid := failed_request env request]> (st_requests s) ∧
    (∀ id h, st_holds s !! id = Some h → ∃ h', st_holds s' !! id = Some h' ∧
       if bool_decide (id = rid) then released env request h h' else h' = h) ∧
    ∃ id j, st_jobs s' !! id = Some j ∧ is_milestone_job rid "failure" j = true.
Proof.
  intros Hwf Hkeyed Hjob Hk Hid Hr Hrun. destruct (Hwf _ _ Hjob) as [Hjid Hlt].
  pose proof (forward_allocation_job env job (st_next_job s) Hk s) as Hf.
  unfold process_plain_job. rewrite Hjob, Hk. change (String.eqb "allocate_request" IMPORT_JOB) with false. cbv iota zeta.
  rewrite Hrun. unfold begin in Hrun. apply transaction_Err_inv in Hrun as (s0 & Hp & ->). rewrite Hp in Hf.
  assert (st_next_job s ≤ st_next_job s0) as Hnext by (apply Hf; unfold numbered; lia). clear Hf Hp.
  set (sr := rollback s s0 <| st_jobs := alter (λ j, j <| jb_status := job_failed |>
    <| jb_last_error := take 4000 (str_of_exn e) |>) job_id (st_jobs s) |>).
  assert (jobs_wf sr) as Hwfr.
  { intros id j. change (alter (λ j, j <| jb_status := job_failed |> <| jb_last_error := take 4000 (str_of_exn e) |>)
      job_id (st_jobs s) !! id = Some j → jb_id j = id ∧ id < st_next_job s0).
    destruct (decide (job_id = id)) as [->|Hne]; [|rewrite lookup_alter_ne by done; intros []%Hwf; lia].
    rewrite lookup_alter_eq. intros (j0 & []%Hwf & ->)%fmap_Some. split; [done|lia]. }
  destruct (fail_allocation_run env job e sr rid request Hwfr Hkeyed Hk Hid Hr) as (s' & Hrec & Hrest).
  exists s'. split; [|exact Hrest]. unfold begin, transaction.
  rewrite (record_failure_allocation env job_id job e (rollback s s0) Hjob Hk).
  change (rollback s s0 <| st_jobs := _ |>) with sr. by rewrite Hrec.
Qed.
End FailedAllocation.

(** ** A decision pressed in Telegram *)

Lemma reinstate_Err q s e s' : reinstate_batch_hold q s = (Err e, s') → s' = s.
Proof.
  unfold reinstate_batch_hold. destruct (negb _); [done|]. rewrite bind_gets.
  intros [H|(c & s1 & E1 & H)]%bind_Err_inv; [by destruct (st_customers s !! _); [done|injection H]|].
  apply require_Ok_inv in E1 as [_ ->]. rewrite bind_gets in H.
  apply bind_Err_inv in H as [H|(h & s1 & E1 & H)]; [by destruct (st_holds s !! _); [done|injection H]|].
  apply require_Ok_inv in E1 as [_ ->]. apply bind_Err_inv in H as [H|([] & s1 & E1 & H)].
  { unfold raise_if in H. by destruct (bool_decide _); [injection H|]. }
  apply raise_if_Ok_inv in E1 as (_ & -> & _). destruct (bool_decide _); [done|]. rewrite bind_gets in H.
  apply bind_Err_inv in H as [H|([] & s1 & E1 & H)]; [|done].
  unfold raise_if in H. by destruct (_ <? _); [injection H|].
Qed.

Lemma record_activity_Err env a b c d e f g s x s' :
  record_activity env a b c d e f g s = (Err x, s') → ∀ detail code, x ≠ TransitionError detail code.
Proof.
  unfold record_activity. cbv zeta. intros H detail code ->.
  repeat match goal with
  | H : (raise_if ?b ?e ≫= _) _ = (Err _, _) |- _ =>
      apply bind_Err_inv in H as [H|(? & ? & ?%raise_if_Ok_inv & H)]; [by destruct b|]; destruct_and?; simplify_eq
  end.
  apply bind_Err_inv in H as [H|(? & ? & _ & H)]; [by destruct (unsafe_detail_key _ _)|].
  apply bind_Err_inv in H as [H|(? & ? & _ & H)]; [by destruct (existsb _ _)|]. done.
Qed.

Lemma branch_Err env action item s e s' :
  action ∈ TRANSITION_ACTIONS → branch env action item s = (Err e, s') → s' = s.
Proof.
  intros Ha Hb. destruct (decide (action = "retry"%string)) as [->|Hne].
  2:{ destruct (branch_total env action item s Ha) as (r & s1 & E); [done|]. by rewrite E in Hb. }
  change (do_retry env item s = (Err e, s')) in Hb. unfold do_retry in Hb.
  apply bind_Err_inv in Hb as [Hb|([] & s1 & Hb & Ht)].
  - unfold try_catch in Hb. destruct (reinstate_batch_hold item s) as [[]s1] eqn:E; [done|].
    apply reinstate_Err in E as ->. destruct e0; by injection Hb.
  - exfalso. cbv zeta in Ht. unfold put_request in Ht.
    match type of Ht with ?m s1 = _ => assert (total m) as Htot by auto 8 with total end.
    destruct (Htot s1) as (? & ? & E). by rewrite E in Ht.
Qed.

(** Enforcement refuses before it writes. *)
Lemma transition_refusal env rid action actor reason s detail code s' :
  transition_request env rid action actor reason s = (Err (TransitionError detail code), s') → s' = s.
Proof.
  unfold transition_request. rewrite bind_gets.
  intros [H|(item & s1 & E1 & H)]%bind_Err_inv; [by destruct (st_requests s !! rid); [done|injection H]|].
  apply require_Ok_inv in E1 as [_ ->]. rewrite !bind_gets in H.
  apply bind_Err_inv in H as [H|([] & s1 & E1 & H)]; [unfold raise_if in H; by destruct (_ && _); [injection H|]|].
  apply raise_if_Ok_inv in E1 as (_ & -> & _).
  apply bind_Err_inv in H as [H|([] & s1 & E1 & H)]; [unfold raise_if in H; by destruct (negb _); [injection H|]|].
  apply raise_if_Ok_inv in E1 as (Hav%negb_false_iff%existsb_elem_of & -> & _).
  destruct (enforcement_offers _ _ _ Hav) as (a & Ha & <- & Ht & _).
  assert (fa_name a ∈ TRANSITION_ACTIONS) as Hin.
  { apply list_elem_of_fmap. exists a. split; [done|]. by apply list_elem_of_In, filter_In; rewrite <- list_elem_of_In. }
  apply bind_Err_inv in H as [H|(r & s1 & _ & H)].
  - by eapply branch_Err.
  - exfalso. apply bind_Err_inv in H as [H|(? & ? & _ & [=])]. by eapply record_activity_Err in H.
Qed.

Definition finished (job_id : Z) (s : Store) : Store :=
  s <| st_jobs := alter (λ j, j <| jb_status := complete |> <| jb_last_error := [] |>) job_id (st_jobs s) |>.

Definition DECISION_REASON : text := u "Telegram Batch Request decision".

Section Decisions.
Context `{CaseMapping} `{Platform} `{TextReader} `{Mailer} `{PyRepr} `{TitleCase} `{TelegramApi}.
Context (metrics : World) (acquisition : Env → Job → M Store unit) (import_lead_upload : Env → uuid → Z → M Store unit).

Lemma decision_text action :
  action ∈ TELEGRAM_ACTIONS →
  string_of_text (py_str (json_or (JStr (u action)) (JStr []))) = action.
Proof. revert action. apply Forall_forall. repeat constructor. Qed.

(** C21: A press ends in the transition it names.  The job the webhook queues
    for a button of a Batch Request makes the worker run exactly that
    transition, in the name of the person who pressed it, and finish.  When
    enforcement refuses it, because the request has moved on since the message
    was shown, the database is left as it was but for the finished job and the
    job that brings the message up to date. *)
Theorem press_ends_in_transition env s job_id job rid request action callback_query_id user_id :
  action ∈ TELEGRAM_ACTIONS →
  (jb_kind job, jb_request_id job, jb_payload job) =
    decision_job (RequestTarget (u action) rid) callback_query_id user_id →
  st_jobs s !! job_id = Some job → jb_id job = job_id → st_requests s !! rid = Some request → rq_id request = rid →
  match transition_request env rid action (u "telegram:" ++ user_id) DECISION_REASON s with
  | (Ok _, s1) => process_plain_job metrics acquisition import_lead_upload env job_id s = (Ok tt, finished job_id s1)
  | (Err (TransitionError _ _), s1) =>
      s1 = s ∧ process_plain_job metrics acquisition import_lead_upload env job_id s =
                 (Ok tt, finished job_id (enqueue env "update_notification" (Some rid) s).2)
  | (Err _, _) => True
  end.
Proof.
  intros Ha [= Hk Hid Hp] Hjob Hjid Hr <-.
  set (rid := rq_id request) in *.
  assert (process_plain_job metrics acquisition import_lead_upload env job_id s =
    match begin (try_catch (transition_request env rid action (u "telegram:" ++ user_id) DECISION_REASON ;; mret tt)
            (λ e, match e with
                  | TransitionError _ _ => Some (enqueue env "update_notification" (Some rid))
                  | _ => None
                  end) ;; finish_job job_id) s with
    | (Ok _, s') => (Ok tt, s')
    | (Err exc, s') => begin (record_failure env job_id exc) s'
    end) as ->.
  { unfold process_plain_job. rewrite Hjob, Hk. change (String.eqb "telegram_action" IMPORT_JOB) with false.
    cbv iota zeta. unfold begin, transaction, perform. rewrite !bind_gets, Hk, Hid. cbn [mbind option_bind]. rewrite Hr.
    change (String.eqb "telegram_action" MILESTONE_EMAIL_JOB) with false. cbv iota. unfold handle. rewrite Hk, Hjid.
    change (kind_in "telegram_action" NOTIFY_REQUEST_JOB_KINDS) with false.
    change (String.eqb "telegram_action" "telegram_action") with true. cbv iota zeta.
    unfold do_telegram_action, telegram_actor. rewrite Hp. cbv zeta.
    change (json_or (get "action" _) (JStr [])) with (json_or (JStr (u action)) (JStr [])).
    rewrite (decision_text action Ha). reflexivity. }
  destruct (transition_request env rid action (u "telegram:" ++ user_id) DECISION_REASON s) as [[q|e] s1] eqn:Et.
  - unfold begin, transaction, try_catch, mbind, M_bind. rewrite Et. reflexivity.
  - destruct e; try exact I. pose proof (transition_refusal _ _ _ _ _ _ _ _ _ Et) as ->. split; [done|].
    unfold begin, transaction, try_catch, mbind, M_bind. rewrite Et. reflexivity.
Qed.
End Decisions.

(** *** Concrete runs *)

#[local] Existing Instance ascii_case.
#[local] Existing Instance example_platform.
#[local] Existing Instance example_reader.
#[local] Existing Instance example_mailer.
#[local] Existing Instance plain_repr.
#[local] Existing Instance ascii_titles.
#[local] Instance silent_telegram : TelegramApi := {| telegram_post _ _ := NotReached (u "timeout") |}.

Definition no_acquisition (_ : Env) (_ : Job) : M Store unit := mret tt.
Definition no_import (_ : Env) (_ : uuid) (_ : Z) : M Store unit := mret tt.

(** A running job about the only Batch Request. *)
Definition example_job (kind : string) (payload : dict) : Job :=
  mkJob 1 kind (Some 1%N) payload running 1 0 (Some 0) (u "w1") [] 0.
Definition example_running (job : Job) : Store :=
  example_requests <| st_jobs := {[ 1 := job ]} |> <| st_next_job := 2 |>.
Definition example_processed (job : Job) : outcome unit * Store :=
  process_plain_job accepting no_acquisition no_import example_env 1 (example_running job).

Lemma example_running_wf kind payload : jobs_wf (example_running (example_job kind payload)).
Proof. intros id j. unfold example_running. rsimpl. by intros [<- <-]%lookup_singleton_Some. Qed.

(** A notice that Telegram cannot be reached for is put back on the queue. *)
Definition example_notice : Job := example_job "update_notification" [].
Lemma job_always_settles_witness :
  ∃ s', process_job accepting no_acquisition no_import example_env 1 (example_running example_notice) = (Ok tt, s') ∧
    ∀ job', st_jobs s' !! 1 = Some job' → settled_job example_env example_notice job'.
Proof.
  refine (job_always_settles accepting no_acquisition no_import (λ n env job s Hs, Hs) example_env example_notice 1
    (example_running example_notice) (example_running_wf _ _) eq_refl eq_refl _).
  split; discriminate.
Defined.

(** The request's Customer is gone. *)
Definition example_allocation_job : Job := example_job "allocate_request" [].
Lemma failed_allocation_leaves_nothing_witness :
  ∃ s', example_processed example_allocation_job = (Ok tt, s') ∧
    st_requests s' = {[ 1%N := failed_request example_env example_request ]}.
Proof.
  destruct (begin (perform accepting no_acquisition example_env example_allocation_job)
    (example_running example_allocation_job)) as [[r|e] s1] eqn:E; [vm_compute in E; discriminate E|].
  destruct (failed_allocation_leaves_nothing accepting no_acquisition no_import example_env 1 example_allocation_job
    1%N example_request (example_running example_allocation_job) e s1 (example_running_wf _ _)
    example_requests_keyed eq_refl eq_refl eq_refl eq_refl E) as (s' & Hrun & _ & Hreq & _).
  exists s'. split; [exact Hrun|]. rewrite Hreq. reflexivity.
Defined.

Definition example_decided : Job :=
  example_job "telegram_action" (decision_job (RequestTarget (u "approve") 1%N) (u "cb-1") (u "42")).2.
Lemma press_ends_in_transition_witness :
  ∃ r s1, transition_request example_env 1%N "approve" (u "telegram:42") DECISION_REASON (example_running example_decided)
            = (Ok r, s1) ∧
    example_processed example_decided = (Ok tt, finished 1 s1).
Proof.
  pose proof (press_ends_in_transition accepting no_acquisition no_import example_env (example_running example_decided) 1
    example_decided 1%N example_request "approve" (u "cb-1") (u "42") ltac:(by left) eq_refl eq_refl eq_refl eq_refl eq_refl)
    as H.
  destruct (transition_request example_env 1%N "approve" (u "telegram:" ++ u "42") DECISION_REASON
    (example_running example_decided)) as [[r|e] s1] eqn:E; [|vm_compute in E; discriminate E].
  exists r, s1. split; [exact E | exact H].
Defined.
