(* ===== verification/Reviews.v ===== *)
(** * The Nightly Review in Telegram: posted once

    [api.reconcile_nightly_review_telegram_delivery] and the workers that post
    the review ([worker._process_initial_nightly_review_notification]) as one
    system: claims, posts and settlements interleave in any order, any worker
    may die at any point, an administrator may step in, and the nightly run
    ([nightly.run_scheduled_nightly_review]) may fold the review into another. *)

From S2P Require Import Prelude PyText PyInt States Models PyObject Activity Jobs Telegram Artifact Worker WorkerProperties.
From S2P Require Import TelegramKeyboard.
From stdpp Require Import relations.
From Stdlib Require String.

Open Scope Z_scope.

(** ** The administrator's decision *)

Record NightlyDeliveryReconcile : Type := mkReconcile {
  rc_outcome : text;
  rc_message_id : option text;
  rc_reason : text
}.

Definition DELIVERED : text := u "delivered".
Definition NOT_DELIVERED : text := u "not_delivered".

(** What the schema's fields and its validator make of a submitted body. *)
Definition validate_reconcile (body : NightlyDeliveryReconcile) : outcome NightlyDeliveryReconcile :=
  refuse_if (negb (bool_decide (rc_outcome body = DELIVERED ∨ rc_outcome body = NOT_DELIVERED)))
    (ValueError (u "outcome")) ;;
  refuse_if (match rc_message_id body with Some id => 120 <? Z.of_nat (length id) | None => false end)
    (ValueError (u "message_id")) ;;
  refuse_if ((Z.of_nat (length (rc_reason body)) <? 1) || (2000 <? Z.of_nat (length (rc_reason body))))
    (ValueError (u "reason")) ;;
  refuse_if (bool_decide (rc_outcome body = DELIVERED) && bool_decide (default [] (rc_message_id body) = []))
    (ValueError (u "A delivered Nightly Review requires its Telegram message ID.")) ;;
  refuse_if (bool_decide (rc_outcome body = NOT_DELIVERED) && bool_decide (is_Some (rc_message_id body)))
    (ValueError (u "A Nightly Review confirmed not delivered cannot have a Telegram message ID.")) ;;
  Ok body.

(** The handler, given the body the schema accepted. *)
Definition reconcile_nightly_review_telegram_delivery (env : Env) (review_id : uuid) (payload : NightlyDeliveryReconcile)
    (actor_id : text) : M Store NightlyReview :=
  found ← gets (λ s, st_reviews s !! review_id);
  review ← require found (HTTPException 404 (u "Nightly Review was not found."));
  raise_if (negb (String.eqb (nr_telegram_delivery_state review) "unknown"))
    (HTTPException 409 (u "Only an unknown Nightly Review delivery can be reconciled.")) ;;
  let delivered := bool_decide (rc_outcome payload = DELIVERED) in
  let message_id := if delivered then default [] (rc_message_id payload) else [] in
  let state := (if delivered then "sent" else "pending")%string in
  update_review review_id (λ r, r <| nr_telegram_message_id := message_id |>
    <| nr_telegram_delivery_state := state |> <| nr_telegram_delivery_error := [] |>) ;;
  (if delivered then
     anomaly ← gets (λ s, review_anomaly s (nr_scraper_run_id review));
     match anomaly with
     | Some a => update_anomaly (an_id a) (an_telegram_chat_id a) message_id
     | None => mret tt
     end
   else enqueue_job env "notify_nightly_review" None [("review_id"%string, JStr (str_of_uuid review_id))] ;; mret tt) ;;
  record_activity env
    (if delivered then u "nightly_review_telegram_delivered" else u "nightly_review_telegram_not_delivered")
    (u "nightly_review") (str_of_uuid review_id) actor_id (rc_reason payload)
    [("before", JObj [("telegramDeliveryState", JStr (u "unknown"))]);
     ("after", JObj [("telegramDeliveryState", JStr (u state))])]%string [] ;;
  mret (review <| nr_telegram_message_id := message_id |> <| nr_telegram_delivery_state := state |>
               <| nr_telegram_delivery_error := [] |>).

(** ** A run's own review

    [nightly.run_scheduled_nightly_review] finds tonight's review by its date
    and files it under the Scraper Run of tonight's publication.  When the run
    has a review of its own, that one is kept and the other is folded into it. *)

(** [{**base, **over}] *)
Definition dict_merge (base over : dict) : dict := foldl (λ d kv, dict_set kv.1 kv.2 d) base over.

(** [update(model).where(nightly_review_id == old).values(nightly_review_id=new)] *)
Definition repoint (old new : uuid) (review_id : option uuid) : option uuid :=
  if bool_decide (review_id = Some old) then Some new else review_id.

Definition absorb_placeholder (placeholder : NightlyReview) (review_date : Z) (scheduled_for : datetime)
    (canonical : NightlyReview) : NightlyReview :=
  let merged := canonical
    <| nr_review_date := Some (default review_date (nr_review_date canonical)) |>
    <| nr_scheduled_for := Some (default scheduled_for (nr_scheduled_for canonical)) |>
    <| nr_attempt_count := Z.max (nr_attempt_count canonical) (nr_attempt_count placeholder) |>
    <| nr_summary := dict_merge (nr_summary placeholder) (nr_summary canonical) |> in
  if bool_decide (nr_telegram_message_id canonical = []) && negb (bool_decide (nr_telegram_message_id placeholder = []))
  then merged <| nr_telegram_message_id := nr_telegram_message_id placeholder |>
              <| nr_telegram_delivery_state := nr_telegram_delivery_state placeholder |>
              <| nr_telegram_delivery_started_at := nr_telegram_delivery_started_at placeholder |>
              <| nr_telegram_delivery_error := nr_telegram_delivery_error placeholder |>
  else merged.

Definition adopt_run_scoped_review (placeholder canonical : NightlyReview) (review_date : Z) (scheduled_for : datetime)
    : M Store NightlyReview :=
  let move := repoint (nr_id placeholder) (nr_id canonical) in
  let absorb := absorb_placeholder placeholder review_date scheduled_for in
  modify (λ s, s
    <| st_exclusion_lists := (λ x, x <| xl_nightly_review_id := move (xl_nightly_review_id x) |>) <$> st_exclusion_lists s |>
    <| st_recommendations := (λ x, x <| sn_nightly_review_id := move (sn_nightly_review_id x) |>) <$> st_recommendations s |>) ;;
  modify (λ s, s <| st_reviews := delete (nr_id placeholder) (st_reviews s) |>) ;;
  update_review (nr_id canonical) absorb ;;
  mret (absorb canonical).

(** The part of [run_scheduled_nightly_review] that files [review] under the
    run of the publication. *)
Definition file_under_run (review_id : uuid) (scraper_run_id review_date : Z) (scheduled_for : datetime)
    : M Store NightlyReview :=
  found ← gets (λ s, st_reviews s !! review_id);
  review ← require found (RuntimeError (u "The Nightly Review is gone."));
  if bool_decide (nr_scraper_run_id review = Some scraper_run_id) then mret review else
  existing_by_run ← gets (λ s, List.find (λ r, bool_decide (nr_scraper_run_id r = Some scraper_run_id) &&
    negb (bool_decide (nr_id r = nr_id review))) (map_to_list (st_reviews s)).*2);
  match existing_by_run with
  | Some canonical => adopt_run_scoped_review review canonical review_date scheduled_for
  | None => update_review review_id (λ r, r <| nr_scraper_run_id := Some scraper_run_id |>) ;;
            mret (review <| nr_scraper_run_id := Some scraper_run_id |>)
  end.

(** ** The system *)

(** A worker between its two transactions: the job, the review, its run. *)
Definition Claim : Type := Z * uuid * option Z.

(** The ghost lists count the calls that post a review and the decisions that
    one was not delivered. *)
Record System : Type := mkSystem {
  sy_store : Store;
  sy_claimed : list Claim;
  sy_posted : list (Claim * outcome text);
  sy_posts : list uuid;
  sy_not_delivered : list uuid
}.

(** Telegram numbers its messages: [message_id] of the Bot API is never the
    empty text. *)
Definition numbers_messages `{PyRepr} `{TelegramApi} : Prop :=
  ∀ method payload status body response,
    telegram_post method payload = Replied status (Some body) response → message_id_of body ≠ Ok [].

(** What the parts of the program that are not a step of their own do to the
    reviews: one that is there keeps its delivery, and one that is new has an
    identifier no worker has met ([uuid4] repeats none). *)
Definition delivery_of (r : NightlyReview) : text * string := (nr_telegram_message_id r, nr_telegram_delivery_state r).
Definition keeps_deliveries (met : list uuid) (s s' : Store) : Prop :=
  ∀ k, match st_reviews s !! k, st_reviews s' !! k with
       | Some r, Some r' => delivery_of r' = delivery_of r
       | Some _, None => False
       | None, Some _ => k ∉ met
       | None, None => True
       end.
Definition claims (sys : System) : list uuid := (λ c : Claim, c.1.2) <$> sy_claimed sys.

Section System.
Context `{CaseMapping} `{PyRepr} `{TitleCase}.

Inductive step : System → System → Prop :=
| step_claim env job_id review_id run_id s s' claimed posted posts nd :
    begin (claim_review env job_id) s = (Ok (Some (review_id, run_id)), s') →
    step (mkSystem s claimed posted posts nd) (mkSystem s' ((job_id, review_id, run_id) :: claimed) posted posts nd)
| step_refused env job_id s s' r claimed posted posts nd :
    begin (claim_review env job_id) s = (r, s') → (∀ c, r ≠ Ok (Some c)) →
    step (mkSystem s claimed posted posts nd) (mkSystem s' claimed posted posts nd)
| step_post (api : TelegramApi) env s job_id review_id run_id claimed1 claimed2 posted posts nd :
    numbers_messages →
    step (mkSystem s (claimed1 ++ (job_id, review_id, run_id) :: claimed2) posted posts nd)
         (mkSystem s (claimed1 ++ claimed2)
            ((job_id, review_id, run_id, post_claimed_review env s review_id run_id) :: posted) (review_id :: posts) nd)
| step_settle env s s' r job_id review_id run_id outcome claimed posted1 posted2 posts nd :
    begin (settle_review env job_id review_id run_id outcome) s = (r, s') →
    step (mkSystem s claimed (posted1 ++ (job_id, review_id, run_id, outcome) :: posted2) posts nd)
         (mkSystem s' claimed (posted1 ++ posted2) posts nd)
| step_die_claimed s c claimed1 claimed2 posted posts nd :
    step (mkSystem s (claimed1 ++ c :: claimed2) posted posts nd) (mkSystem s (claimed1 ++ claimed2) posted posts nd)
| step_die_posted s c claimed posted1 posted2 posts nd :
    step (mkSystem s claimed (posted1 ++ c :: posted2) posts nd) (mkSystem s claimed (posted1 ++ posted2) posts nd)
| step_reconcile env review_id body actor_id s s' r claimed posted posts nd :
    validate_reconcile body = Ok body →
    begin (reconcile_nightly_review_telegram_delivery env review_id body actor_id) s = (r, s') →
    step (mkSystem s claimed posted posts nd)
         (mkSystem s' claimed posted posts
            (match r with
             | Ok _ => if bool_decide (rc_outcome body = NOT_DELIVERED) then review_id :: nd else nd
             | Err _ => nd
             end))
| step_file_under_run review_id scraper_run_id review_date scheduled_for s s' r claimed posted posts nd :
    begin (file_under_run review_id scraper_run_id review_date scheduled_for) s = (r, s') →
    step (mkSystem s claimed posted posts nd) (mkSystem s' claimed posted posts nd)
| step_other s s' claimed posted posts nd :
    keeps_deliveries (posts ++ claims (mkSystem s claimed posted posts nd)) s s' →
    step (mkSystem s claimed posted posts nd) (mkSystem s' claimed posted posts nd).

(** ** The invariant *)

(** A review that the next claim would post. *)
Definition postable (r : NightlyReview) : bool :=
  bool_decide (nr_telegram_message_id r = []) &&
  negb (kind_in (nr_telegram_delivery_state r) ["sending"; "unknown"]%string).

Definition times (id : uuid) (l : list uuid) : nat := length (filter (λ k, k = id) l).

(** A review that is gone may still be in a worker's hands. *)
Definition accounted (id : uuid) (sys : System) : Prop :=
  (times id (sy_posts sys) + times id (claims sys) +
     match st_reviews (sy_store sys) !! id with
     | Some r => if postable r then 1 else 0
     | None => 0
     end ≤ 1 + times id (sy_not_delivered sys))%nat.
Definition numbered_posts (sys : System) : Prop := Forall (λ p, p.2 ≠ Ok []) (sy_posted sys).

(** No review is new, and none newly to be posted. *)
Definition quiet (m m' : gmap uuid NightlyReview) : Prop :=
  ∀ k, match m !! k, m' !! k with
       | _, None => True
       | Some r, Some r' => postable r' = true → postable r = true
       | None, Some _ => False
       end.

Lemma quiet_refl m : quiet m m.
Proof. intros k. by destruct (m !! k). Qed.
Lemma quiet_trans m1 m2 m3 : quiet m1 m2 → quiet m2 m3 → quiet m1 m3.
Proof. intros Hq1 Hq2 k. specialize (Hq1 k). specialize (Hq2 k). destruct (m1 !! k), (m2 !! k), (m3 !! k); naive_solver. Qed.
Lemma quiet_delete m id : quiet m (delete id m).
Proof.
  intros k. destruct (decide (id = k)) as [->|Hne].
  - rewrite lookup_delete_eq. by destruct (m !! k).
  - rewrite lookup_delete_ne by done. by destruct (m !! k).
Qed.
Lemma quiet_insert m id r r' :
  m !! id = Some r → (postable r' = true → postable r = true) → quiet m (<[id := r']> m).
Proof.
  intros Hr Hp k. destruct (decide (id = k)) as [<-|Hne].
  - by rewrite lookup_insert_eq, Hr.
  - rewrite lookup_insert_ne by done. by destruct (m !! k).
Qed.
Lemma quiet_alter m id f :
  (∀ r, m !! id = Some r → postable (f r) = true → postable r = true) → quiet m (alter f id m).
Proof.
  intros Hf k. destruct (decide (id = k)) as [->|Hne].
  - rewrite lookup_alter_eq. destruct (m !! k) eqn:E; cbn; [by apply Hf|done].
  - rewrite lookup_alter_ne by done. by destruct (m !! k).
Qed.

Lemma times_cons id k l : times id (k :: l) = ((if decide (k = id) then 1 else 0) + times id l)%nat.
Proof. unfold times. rewrite filter_cons. by case_decide. Qed.
Lemma times_middle id l1 k l2 : times id (l1 ++ k :: l2) = ((if decide (k = id) then 1 else 0) + times id (l1 ++ l2))%nat.
Proof. unfold times. rewrite !filter_app, !length_app, filter_cons. case_decide; cbn [length]; lia. Qed.

Lemma times_0 id l : id ∉ l → times id l = 0%nat.
Proof.
  unfold times. induction l as [|k l IH]; [done|]. rewrite not_elem_of_cons, filter_cons. intros [Hk Hl].
  rewrite decide_False by done. by apply IH.
Qed.

(** The accounts balance after a step that posts nothing. *)
Lemma accounted_quiet id s s' claimed claimed' posted posted' posts nd :
  quiet (st_reviews s) (st_reviews s') →
  (times id (claims (mkSystem s' claimed' posted' posts nd)) ≤ times id (claims (mkSystem s claimed posted posts nd)))%nat →
  accounted id (mkSystem s claimed posted posts nd) → accounted id (mkSystem s' claimed' posted' posts nd).
Proof.
  intros Hq Hle. specialize (Hq id). unfold accounted in *. cbn [sy_store sy_posts sy_not_delivered] in *.
  destruct (st_reviews s !! id) as [r|], (st_reviews s' !! id) as [r'|]; [| |done|lia].
  - destruct (postable r'), (postable r); lia || by exfalso; discriminate Hq.
  - destruct (postable r); lia.
Qed.

(** ** Each transaction *)

Lemma busy_not_postable r :
  nr_telegram_delivery_state r ∈ ["sending"; "unknown"]%string → postable r = false.
Proof.
  unfold postable. rewrite !elem_of_cons, elem_of_nil. intros [-> |[-> |[]]]; apply andb_false_r.
Qed.
Lemma sent_not_postable r : nr_telegram_message_id r ≠ [] → postable r = false.
Proof. intros Hm. unfold postable. by rewrite bool_decide_eq_false_2. Qed.

Lemma alter_insert_row (m : gmap uuid NightlyReview) id f r : m !! id = Some r → alter f id m = <[id := f r]> m.
Proof.
  intros Hr. apply map_eq. intros k. destruct (decide (id = k)) as [->|Hne].
  - by rewrite lookup_alter_eq, lookup_insert_eq, Hr.
  - by rewrite lookup_alter_ne, lookup_insert_ne.
Qed.

Lemma claim_step env job_id s r s' :
  begin (claim_review env job_id) s = (r, s') →
  match r with
  | Ok (Some (id, run_id)) => ∃ review, st_reviews s !! id = Some review ∧ postable review = true ∧
      ∃ review', st_reviews s' = <[id := review']> (st_reviews s) ∧ postable review' = false
  | _ => quiet (st_reviews s) (st_reviews s')
  end.
Proof.
  unfold begin, transaction. intros Hrun. destruct (claim_review env job_id s) as [o s1] eqn:E.
  unfold claim_review in E. rewrite bind_gets in E.
  destruct (st_jobs s !! job_id) as [job|]; [|injection E as <- <-; injection Hrun as <- <-; apply quiet_refl].
  destruct (json_uuid (get "review_id" (jb_payload job))) as [id|e] eqn:Ej.
  2:{ rewrite bind_lift in E. injection E as <- <-. injection Hrun as <- <-. apply quiet_refl. }
  rewrite bind_lift, bind_gets in E.
  destruct (st_reviews s !! id) as [review|] eqn:Er.
  2:{ injection E as <- <-. injection Hrun as <- <-. apply quiet_refl. }
  destruct (negb (bool_decide (nr_telegram_message_id review = []))) eqn:Hm.
  - injection E as <- <-. injection Hrun as <- <-. apply quiet_alter. intros r0 Hr0. rewrite Er in Hr0.
    injection Hr0 as <-. rewrite sent_not_postable; [done|]. rsimpl. by apply negb_true_iff, bool_decide_eq_false in Hm.
  - destruct (kind_in (nr_telegram_delivery_state review) ["sending"; "unknown"]%string) eqn:Hk.
    + injection E as <- <-. injection Hrun as <- <-. apply quiet_alter. intros r0 _.
      rewrite busy_not_postable; [done | right; left].
    + injection E as <- <-. injection Hrun as <- <-. exists review. split; [exact Er|]. split.
      { unfold postable. rewrite Hk, andb_true_r. by apply negb_false_iff in Hm. }
      eexists. split; [exact (alter_insert_row _ _ _ _ Er)|]. apply busy_not_postable. left.
Qed.

Lemma rollback_reviews s s1 : st_reviews (rollback s s1) = st_reviews s.
Proof. reflexivity. Qed.

Lemma settle_step env job_id id run_id posted s r s' :
  posted ≠ Ok [] → begin (settle_review env job_id id run_id posted) s = (r, s') →
  quiet (st_reviews s) (st_reviews s').
Proof.
  intros Hp Hrun. destruct posted as [message_id|e].
  - unfold begin, transaction, settle_review in Hrun. rewrite bind_gets in Hrun.
    destruct (st_reviews s !! id) as [review|], (st_jobs s !! job_id);
      try (injection Hrun as <- <-; apply quiet_refl).
    assert (st_reviews s' = alter (λ r, r <| nr_telegram_message_id := message_id |>
        <| nr_telegram_delivery_state := "sent"%string |> <| nr_telegram_delivery_error := [] |>) id (st_reviews s)) as ->.
    { unfold update_review at 1 in Hrun. rewrite bind_modify, bind_gets in Hrun.
      destruct (review_anomaly _ run_id); injection Hrun as <- <-; reflexivity. }
    apply quiet_alter. intros r0 _. rewrite sent_not_postable; [done|]. rsimpl. by intros ->.
  - injection Hrun as <- <-. apply quiet_alter. intros r0 _. rewrite busy_not_postable; [done | right; left].
Qed.

(** A confirmed message has a number, so that only a decision that the review
    was not delivered makes it postable again. *)
Lemma validated_number body :
  validate_reconcile body = Ok body → rc_outcome body ≠ NOT_DELIVERED →
  rc_outcome body = DELIVERED ∧ default [] (rc_message_id body) ≠ [].
Proof.
  unfold validate_reconcile. intros Hv Hn.
  apply obind_Ok_inv in Hv as ([] & Ho%refuse_if_Ok_inv & Hv). do 2 apply obind_Ok_inv in Hv as ([] & _ & Hv).
  apply obind_Ok_inv in Hv as ([] & Hm%refuse_if_Ok_inv & _).
  apply negb_false_iff, bool_decide_eq_true in Ho as [Ho|Ho]; [|done]. split; [done|].
  rewrite Ho, bool_decide_eq_true_2 in Hm by done. by apply bool_decide_eq_false in Hm.
Qed.

Lemma reconcile_step env id body actor_id s r s' :
  validate_reconcile body = Ok body → begin (reconcile_nightly_review_telegram_delivery env id body actor_id) s = (r, s') →
  match r with
  | Ok _ => if bool_decide (rc_outcome body = NOT_DELIVERED)
            then ∃ review review', st_reviews s !! id = Some review ∧ postable review = false ∧
                                   st_reviews s' = <[id := review']> (st_reviews s)
            else quiet (st_reviews s) (st_reviews s')
  | Err _ => quiet (st_reviews s) (st_reviews s')
  end.
Proof.
  intros Hv Hrun. destruct r as [rv|e].
  2:{ unfold begin in Hrun. apply transaction_Err_inv in Hrun as (s0 & _ & ->). apply quiet_refl. }
  apply transaction_Ok_inv in Hrun. unfold reconcile_nightly_review_telegram_delivery in Hrun. cbv zeta in Hrun. run_inv.
  rename a0 into review. apply negb_false_iff, String.eqb_eq in Hguard.
  assert (postable review = false) as Hp by (apply busy_not_postable; rewrite Hguard; right; left).
  unfold update_review in Hm2. run_inv1 Hm2.
  pose proof (preserves_Ok _ _ _ _ _ (record_activity_frame st_reviews _ _ _ _ _ _ _ _ _ (λ _ _, eq_refl) (λ _ _, eq_refl))
    eq_refl Hm4) as ->. clear Hm4.
  match type of Hm3 with _ ?s3 = _ => assert (st_reviews s4 = st_reviews s3) as -> end.
  { destruct (bool_decide (rc_outcome body = DELIVERED)); [rewrite bind_gets in Hm3; destruct (review_anomaly _ _)|];
      apply (f_equal snd) in Hm3; cbn [snd] in Hm3; rewrite <- Hm3; reflexivity. }
  destruct (decide (rc_outcome body = NOT_DELIVERED)) as [Hout|Hout];
    [rewrite (bool_decide_eq_true_2 _ Hout) | rewrite (bool_decide_eq_false_2 _ Hout)].
  - exists review. eexists. split; [done|]. split; [done|]. exact (alter_insert_row _ _ _ _ (eq_sym E)).
  - destruct (validated_number body Hv Hout) as [-> Hne]. apply quiet_alter. intros r0 _.
    rewrite sent_not_postable; [done|]. rsimpl. exact Hne.
Qed.

(** Folding a review into its run's own can only take the latter out of the
    line of reviews to post. *)
Lemma absorb_quiet placeholder review_date scheduled_for r :
  postable (absorb_placeholder placeholder review_date scheduled_for r) = true → postable r = true.
Proof.
  unfold absorb_placeholder. destruct (_ && _) eqn:E; [|done].
  apply andb_true_iff in E as [_ E%negb_true_iff%bool_decide_eq_false]. by rewrite sent_not_postable.
Qed.

Lemma file_under_run_step review_id scraper_run_id review_date scheduled_for s r s' :
  begin (file_under_run review_id scraper_run_id review_date scheduled_for) s = (r, s') →
  quiet (st_reviews s) (st_reviews s').
Proof.
  intros Hrun. destruct r as [rv|e].
  2:{ unfold begin in Hrun. apply transaction_Err_inv in Hrun as (s0 & _ & ->). apply quiet_refl. }
  apply transaction_Ok_inv in Hrun. unfold file_under_run in Hrun. rewrite bind_gets in Hrun.
  destruct (st_reviews s !! review_id) as [review|]; [|discriminate Hrun].
  rewrite (bind_require_Some _ review) in Hrun by done. destruct (bool_decide _); [injection Hrun as <- <-; apply quiet_refl|].
  rewrite bind_gets in Hrun. destruct (List.find _ _) as [canonical|]; injection Hrun as <- <-.
  - eapply quiet_trans; [apply quiet_delete|]. apply quiet_alter. intros r0 _. apply absorb_quiet.
  - apply quiet_alter. done.
Qed.

(** Whatever Telegram answers, a message that was posted has a number. *)
Lemma posted_number (api : TelegramApi) env s id run_id :
  numbers_messages → post_claimed_review env s id run_id ≠ Ok [].
Proof.
  intros Hnum Hrun. unfold post_claimed_review in Hrun. destruct (st_reviews s !! id) as [review|]; [|discriminate Hrun].
  unfold post_nightly_review in Hrun. apply obind_Ok_inv in Hrun as ([] & _ & Hrun).
  apply obind_Ok_inv in Hrun as ([text markup] & _ & Hrun). apply obind_Ok_inv in Hrun as (data & Hcall & Hrun).
  unfold send_message, call in Hcall. destruct (bool_decide _); [discriminate Hcall|].
  destruct (telegram_post _ _) as [detail|status body response] eqn:Epost; [discriminate Hcall|].
  apply obind_Ok_inv in Hcall as (ok & _ & Hcall).
  assert (data = default EMPTY body) as ->.
  { destruct (_ && _); [by injection Hcall|]. apply obind_Ok_inv in Hcall as (raw & _ & Hcall).
    change (String.eqb "sendMessage" "editMessageText") with false in Hcall. cbn [andb] in Hcall. cbv zeta in Hcall.
    destruct (status =? 429); [discriminate Hcall|]. by destruct (500 <=? status). }
  destruct body as [body|]; [exact (Hnum _ _ _ _ _ Epost Hrun) | discriminate Hrun].
Qed.

(** ** Posted once *)

Lemma accounted_insert id k review review' s s' claimed claimed' posted posts posts' nd nd' :
  st_reviews s !! k = Some review → st_reviews s' = <[k := review']> (st_reviews s) →
  let before := mkSystem s claimed posted posts nd in
  let after := mkSystem s' claimed' posted posts' nd' in
  (id ≠ k → times id posts' = times id posts ∧ times id (claims after) = times id (claims before) ∧
            times id nd' = times id nd) →
  (id = k → times id posts' + times id (claims after) + (if postable review' then 1 else 0) + times id nd ≤
            times id posts + times id (claims before) + (if postable review then 1 else 0) + times id nd')%nat →
  accounted id before → accounted id after.
Proof.
  cbv zeta. intros Hr Hs Hne Heq Hacc. unfold accounted in *. cbn [sy_store sy_posts sy_not_delivered] in *. rewrite Hs.
  destruct (decide (id = k)) as [->|Hk].
  - rewrite lookup_insert_eq. rewrite Hr in Hacc. specialize (Heq eq_refl). lia.
  - rewrite lookup_insert_ne by done. destruct (Hne Hk) as (-> & -> & ->). exact Hacc.
Qed.

Lemma step_numbered sys sys' : step sys sys' → numbered_posts sys → numbered_posts sys'.
Proof.
  intros Hs. unfold numbered_posts. destruct Hs; cbn [sy_posted]; try done.
  - intros Hn. constructor; [|done]. by apply posted_number.
  - rewrite !Forall_app, Forall_cons. tauto.
  - rewrite !Forall_app, Forall_cons. tauto.
Qed.

Lemma step_accounted id sys sys' : step sys sys' → numbered_posts sys → accounted id sys → accounted id sys'.
Proof.
  intros Hs Hn. destruct Hs as
    [env job_id k run_id s s' claimed posted posts nd Hrun | env job_id s s' r claimed posted posts nd Hrun Hno
    | api env s job_id k run_id claimed1 claimed2 posted posts nd Hapi
    | env s s' r job_id k run_id o claimed posted1 posted2 posts nd Hrun
    | s c claimed1 claimed2 posted posts nd | s c claimed posted1 posted2 posts nd
    | env k body actor_id s s' r claimed posted posts nd Hv Hrun | k run_id date at' s s' r claimed posted posts nd Hrun
    | s s' claimed posted posts nd Hk].
  - apply claim_step in Hrun as (review & Hr & Hp & review' & Hs & Hp').
    apply (accounted_insert id k review review'); [done..| |].
    + intros Hne. unfold claims. cbn [sy_claimed]. rewrite fmap_cons, times_cons. cbn [fst snd].
      by rewrite decide_False by (by intros ->).
    + intros ->. unfold claims. cbn [sy_claimed]. rewrite fmap_cons, times_cons. cbn [fst snd].
      rewrite decide_True, Hp, Hp' by done. lia.
  - apply accounted_quiet; [|done]. apply claim_step in Hrun. destruct r as [[[k run_id]|]|e]; [|done..].
    by destruct (Hno (k, run_id)).
  - unfold accounted, claims. cbn [sy_store sy_posts sy_not_delivered sy_claimed].
    rewrite times_cons, !fmap_app, fmap_cons, times_middle. cbn [fst snd].
    destruct (decide (k = id)), (st_reviews s !! id); intros Hacc; lia.
  - apply accounted_quiet; [|done]. eapply settle_step; [|exact Hrun]. unfold numbered_posts in Hn. cbn [sy_posted] in Hn.
    apply Forall_app in Hn as [_ [Hn _]%Forall_cons]. exact Hn.
  - apply accounted_quiet; [apply quiet_refl|]. unfold claims. cbn [sy_claimed].
    rewrite !fmap_app, fmap_cons, times_middle. lia.
  - apply accounted_quiet; [apply quiet_refl | done].
  - apply (reconcile_step _ _ _ _ _ _ _ Hv) in Hrun. destruct r as [rv|e]; [|by apply accounted_quiet].
    case_bool_decide; [|by apply accounted_quiet]. destruct Hrun as (review & review' & Hr & Hp & Hs).
    apply (accounted_insert id k review review'); [done..| |].
    + intros Hne. rewrite times_cons. by rewrite decide_False by (by intros ->).
    + intros ->. rewrite times_cons, decide_True, Hp by done. unfold claims. cbn [sy_claimed]. destruct (postable review'); lia.
  - apply accounted_quiet; [exact (file_under_run_step _ _ _ _ _ _ _ Hrun) | done].
  - unfold accounted. cbn [sy_store sy_posts sy_not_delivered]. specialize (Hk id).
    destruct (st_reviews s !! id) as [review|], (st_reviews s' !! id) as [r'|]; [|done| |done].
    + replace (postable r') with (postable review); [done|]. unfold postable, delivery_of in *. by injection Hk as -> ->.
    + apply not_elem_of_app in Hk as [Hp Hc]. rewrite (times_0 id posts Hp). unfold claims in *. cbn [sy_claimed] in *.
      rewrite (times_0 id _ Hc). destruct (postable r'); lia.
Qed.

(** C17: A Nightly Review reaches Telegram once.  However the workers claim,
    post and settle it, however often they die between two transactions, and
    also when the nightly run files it under its Scraper Run and folds it into
    the run's own review, the calls that post a review, together with the claims
    under which it may still be posted, are at most one more than the times an
    administrator has confirmed that it was not delivered.  The program never
    posts a second time on its own, not even when it cannot tell whether the
    first message arrived.  Every other step may do what it likes but change the
    delivery of a review that is there, delete one, or add one under an
    identifier that a worker has met. *)
Theorem review_posted_once s sys id :
  rtc step (mkSystem s [] [] [] []) sys →
  (times id (sy_posts sys) + times id (claims sys) ≤ 1 + times id (sy_not_delivered sys))%nat.
Proof.
  intros Hrun. assert (numbered_posts sys ∧ accounted id sys) as [_ Hacc].
  { remember (mkSystem s [] [] [] []) as start eqn:Hstart.
    assert (numbered_posts start ∧ accounted id start) as Hinit.
    { subst start. split; [by constructor|]. unfold accounted. cbn. destruct (st_reviews s !! id) as [r|]; [|lia].
      destruct (postable r); lia. }
    clear Hstart. induction Hrun as [|start mid sys Hs _ IH]; [done|]. apply IH. destruct Hinit as [Hn Hacc].
    split; [exact (step_numbered _ _ Hs Hn) | exact (step_accounted id _ _ Hs Hn Hacc)]. }
  unfold accounted in Hacc. lia.
Qed.
End System.

(** *** A worker dies between the post and its record *)

#[local] Existing Instance ascii_case.
#[local] Existing Instance plain_repr.
#[local] Existing Instance ascii_titles.

(** A Telegram that numbers its messages. *)
Definition example_telegram : TelegramApi := {| telegram_post _ _ :=
  Replied 200 (Some (JObj [("ok", JBool true);
                           ("result", JObj [("message_id", JNum 12); ("chat", JObj [("id", JNum 100)])])]%string)) [] |}.
Lemma example_telegram_numbers : @numbers_messages plain_repr example_telegram.
Proof. intros method payload status body response [= <- <- <-]. vm_compute. discriminate. Qed.

Definition example_review_job (id : Z) : Job :=
  mkJob id "notify_nightly_review" None [("review_id"%string, JStr (str_of_uuid 9%N))] running 1 0 (Some 0) (u "w1") [] 0.
Definition example_nightly : Store :=
  empty_store <| st_reviews := {[ 9%N := mkNightlyReview 9%N None None None 1 [] [] "pending" None [] ]} |>
              <| st_jobs := {[ 1 := example_review_job 1; 2 := example_review_job 2 ]} |> <| st_next_job := 3 |>.

Definition example_claimed : Store := (begin (claim_review example_env 1) example_nightly).2.
Definition example_reclaimed : Store := (begin (claim_review example_env 2) example_claimed).2.

(** The second worker finds a review in flight, and leaves it to an
    administrator. *)
Example example_left_unknown :
  (nr_telegram_delivery_state <$> st_reviews example_reclaimed !! 9%N) = Some "unknown"%string.
Proof. vm_compute. reflexivity. Qed.

Lemma example_outage :
  rtc step (mkSystem example_nightly [] [] [] []) (mkSystem example_reclaimed [] [] [9%N] []).
Proof.
  eapply rtc_l; [apply (step_claim example_env 1 9%N None _ example_claimed); by vm_compute|].
  eapply rtc_l; [apply (step_post example_telegram example_env example_claimed 1 9%N None [] []), example_telegram_numbers|].
  eapply rtc_l; [apply (step_die_posted example_claimed _ [] [] [])|].
  eapply rtc_l; [apply (step_refused example_env 2 _ example_reclaimed (Ok None)); [by vm_compute | done]|].
  apply rtc_refl.
Qed.

Lemma review_posted_once_witness : (times 9%N [9%N] ≤ 1)%nat.
Proof.
  pose proof (review_posted_once example_nightly (mkSystem example_reclaimed [] [] [9%N] []) 9%N example_outage) as Hone.
  exact Hone.
Defined.
