(* ===== verification/RecommendationProperties.v ===== *)
(** * What a decision on a Source Recommendation guarantees

    A recommendation is decided once, whoever decides and whatever else is
    decided meanwhile; an approval that applies schedules exactly one new
    configuration, which differs from the latest where the recommendation says. *)

From S2P Require Import Prelude PyText PyInt States Models PyJson PyObject Activity Artifact Recommendations.
From S2P Require Import Jobs Worker.
From Stdlib Require String.

Open Scope Z_scope.

(** ** Segments of the next configuration *)

Lemma dict_get_set_eq k v d : dict_get k (dict_set k v d) = Some v.
Proof.
  induction d as [|[k' v'] d IH]; cbn; [by rewrite String.eqb_refl|].
  destruct (String.eqb_spec k k') as [->|Hne]; cbn; [by rewrite String.eqb_refl|].
  by rewrite (proj2 (String.eqb_neq k k') Hne).
Qed.

Lemma dict_get_set_ne k k' v d : k ≠ k' → dict_get k (dict_set k' v d) = dict_get k d.
Proof.
  intros Hne. induction d as [|[k1 v1] d IH]; cbn; [by rewrite (proj2 (String.eqb_neq k k') Hne)|].
  destruct (String.eqb_spec k' k1) as [->|Hne1]; cbn; [by rewrite (proj2 (String.eqb_neq k k1) Hne)|].
  by destruct (String.eqb k k1).
Qed.

(** The parameters an action sets. *)
Definition ACTION_PARAMETERS : list string :=
  ["recommendation_action"; "status"; "cadence_multiplier"; "relative_weight"; "enabled"; "adjacent_generation_enabled"]%string.

(** What an approved action makes of the parameters of its segment. *)
Record steered (action : string) (old new : dict) : Prop := {
  steered_action : dict_get "recommendation_action" new = Some (JStr (u action));
  steered_status : ∃ status cadence weight, action_parameters action = Ok (status, cadence, weight) ∧
    dict_get "status" new = Some (JStr (u status)) ∧ dict_get "cadence_multiplier" new = Some (JFloat cadence) ∧
    dict_get "relative_weight" new = Some (JFloat weight);
  steered_enabled : dict_get "enabled" new = Some (JBool (negb (String.eqb action "pause")));
  steered_adjacent : dict_get "adjacent_generation_enabled" new = Some (JBool (String.eqb action "expand"));
  steered_rest k : k ∉ ACTION_PARAMETERS → dict_get k new = dict_get k old
}.

Lemma next_parameters_steered r old new : next_parameters r old = Ok new → steered (sn_action r) old new.
Proof.
  unfold next_parameters. destruct (action_parameters (sn_action r)) as [[[status cadence] weight]|e] eqn:Ea; [|done].
  intros [= <-]. split.
  1,3,4: by rewrite ?dict_get_set_eq; repeat (rewrite dict_get_set_ne by done; rewrite ?dict_get_set_eq).
  - exists status, cadence, weight. split; [done|].
    split_and!; by repeat (rewrite dict_get_set_ne by done; rewrite ?dict_get_set_eq).
  - intros k Hk. unfold ACTION_PARAMETERS in Hk. rewrite !not_elem_of_cons in Hk. destruct_and!.
    by rewrite !dict_get_set_ne.
Qed.

(** A segment of the latest configuration and what becomes of it. *)
Record carried (r : SourceRecommendation) (old new : SourceSegment) : Prop := {
  carried_key : ss_key new = ss_key old;
  carried_niche : ss_niche new = ss_niche old;
  carried_query : ss_query new = ss_query old;
  carried_geography : ss_geography new = ss_geography old;
  carried_other : ss_key old ≠ sn_segment_key r → new = old;
  carried_target : ss_key old = sn_segment_key r → steered (sn_action r) (ss_parameters old) (ss_parameters new)
}.

Lemma next_segment_carried r old new : next_segment r old = Ok new → carried r old new.
Proof.
  unfold next_segment. destruct (decide (ss_key old = sn_segment_key r)) as [E|E].
  - rewrite bool_decide_eq_true_2 by done. destruct (next_parameters r (ss_parameters old)) as [ps|e] eqn:Ep; [|done].
    intros [= <-]. split; try done. intros _. by apply next_parameters_steered.
  - rewrite bool_decide_eq_false_2 by done. by intros [= <-].
Qed.

(** ** An actor that is not a user *)

Lemma skip_c_space_last l c : c_space c = false → ∃ l', skip_c_space (l ++ [c]) = l' ++ [c].
Proof.
  intros Hc. induction l as [|x l [l' IH]]; cbn; [rewrite Hc; by exists []|].
  destruct (c_space x); [by exists l' | by exists (x :: l)].
Qed.
Lemma lstrip_of_last chars l c : c ∉ chars → ∃ l', lstrip_of chars (l ++ [c]) = l' ++ [c].
Proof.
  intros Hc. induction l as [|x l [l' IH]]; cbn; [rewrite (bool_decide_eq_false_2 _ Hc); by exists []|].
  destruct (bool_decide _); [by exists l' | by exists (x :: l)].
Qed.

(** What starts with a [t] is no identifier. *)
Lemma uuid_of_text_t x : uuid_of_text (116%N :: x) = None.
Proof.
  unfold uuid_of_text. change (remove_sub (u "urn:") 0 (116%N :: x)) with (116%N :: remove_sub (u "urn:") 0 x).
  generalize (remove_sub (u "urn:") 0 x) as y. intros y.
  change (remove_sub (u "uuid:") 0 (116%N :: y)) with (116%N :: remove_sub (u "uuid:") 0 y).
  generalize (remove_sub (u "uuid:") 0 y) as z. intros z. unfold strip_of.
  change (lstrip_of [123%N; 125%N] (116%N :: z)) with (116%N :: z). cbn [rev].
  destruct (lstrip_of_last [123%N; 125%N] (rev z) 116%N) as [l ->]; [set_solver|].
  rewrite rev_app_distr. cbn [rev app]. cbn [List.filter N.eqb Pos.eqb negb].
  generalize (List.filter (λ c : N, negb (c =? 45)%N) (rev l)) as w. intros w.
  destruct (negb _); [done|]. unfold py_int, trim_c_space.
  change (ascii_char <$> 116%N :: w) with (116%N :: (ascii_char <$> w)).
  change (skip_c_space (116%N :: (ascii_char <$> w))) with (116%N :: (ascii_char <$> w)). cbn [rev].
  destruct (skip_c_space_last (rev (ascii_char <$> w)) 116%N) as [l' ->]; [done|].
  rewrite rev_app_distr. cbn [rev app N.eqb Pos.eqb]. unfold unsigned.
  assert (drop_prefix 16 (116%N :: rev l') = 116%N :: rev l') as -> by (unfold drop_prefix; by destruct (rev l')). reflexivity.
Qed.

Lemma telegram_is_no_user x : uuid_of_text (u "telegram:" ++ x) = None.
Proof. apply (uuid_of_text_t (u "elegram:" ++ x)). Qed.

Section Properties.
Context `{CaseMapping} `{Platform} `{PyRepr}.

(** A segment generated next to the recommended one. *)
Record adjacent (r : SourceRecommendation) (new : SourceSegment) : Prop := {
  adjacent_niche : ss_niche new = sn_niche r;
  adjacent_seed : dict_get "seed_segment_key" (ss_parameters new) = Some (JStr (sn_segment_key r));
  adjacent_confirmed : dict_get "niche_confirmed" (ss_parameters new) = Some (JBool true);
  adjacent_identity : ∃ keyword, materialize_source_identity keyword (ss_geography new) = Ok (ss_key new) ∧
    ss_query new = strip keyword
}.

Lemma adjacent_segments_spec r state existing keywords segments :
  adjacent_segments r state existing keywords = Ok segments →
  Forall (adjacent r) segments ∧ NoDup (ss_key <$> segments) ∧ Forall (λ s, ss_key s ∉ existing) segments.
Proof.
  revert existing segments. induction keywords as [|keyword rest IH]; intros existing segments; cbn [adjacent_segments].
  { intros [= <-]. repeat split; constructor. }
  destruct (materialize_source_identity _ state) as [key|e] eqn:Ekey; [|done]. cbn [mbind outcome_bind].
  destruct (decide (key ∈ existing)) as [Hin|Hnot].
  - rewrite (bool_decide_eq_true_2 _ Hin). apply IH.
  - rewrite (bool_decide_eq_false_2 _ Hnot).
    destruct (adjacent_segments r state (key :: existing) rest) as [more|e] eqn:Em; [|done].
    intros [= <-]. destruct (IH _ _ Em) as (Ha & Hn & Hf). split_and!.
    + constructor; [|done]. split; try reflexivity. by exists (py_str keyword).
    + rewrite fmap_cons. constructor; [|done]. intros (s & Es & Hs)%list_elem_of_fmap.
      rewrite Forall_forall in Hf. apply (Hf s Hs). rewrite <- Es. apply elem_of_cons. by left.
    + constructor; [done|]. eapply Forall_impl; [exact Hf|]. intros s Hs Hin. apply Hs. by apply elem_of_cons; right.
Qed.

(** What the next configuration holds. *)
Record steers (r : SourceRecommendation) (old new : list SourceSegment) : Prop := {
  steers_target : sn_segment_key r ∈ ss_key <$> old;
  steers_split : ∃ kept added, new ≡ₚ kept ++ added ∧ Forall2 (carried r) old kept ∧
    Forall (adjacent r) added ∧ (sn_action r ≠ "expand"%string → added = []);
  steers_distinct : NoDup (ss_key <$> old) → NoDup (ss_key <$> new)
}.

Lemma carried_keys r old kept : Forall2 (carried r) old kept → ss_key <$> kept = ss_key <$> old.
Proof. induction 1 as [|a b l k Hab _ IH]; [done|]. rewrite !fmap_cons, IH. f_equal. apply Hab. Qed.

Lemma mapM_carried r old kept : mapM (next_segment r) old = Ok kept → Forall2 (carried r) old kept.
Proof.
  revert kept. induction old as [|a old IH]; intros kept; cbn.
  - by intros [= <-].
  - destruct (next_segment r a) as [b|e] eqn:Ea; [|done]. cbn.
    destruct (mapM (next_segment r) old) as [bs|e] eqn:Eb; [|by cbn in *; rewrite ?Eb].
    cbn in *. rewrite ?Eb. intros [= <-]. constructor; [by apply next_segment_carried | by apply IH].
Qed.

Lemma steers_permutation r old new new' : new ≡ₚ new' → steers r old new → steers r old new'.
Proof.
  intros Hp [Ht (kept & added & Hs & Hrest) Hd]. split; [done| |].
  - exists kept, added. by rewrite <- Hp.
  - intros Hold. rewrite <- Hp. by apply Hd.
Qed.

Lemma next_segments_steers latest r segments :
  next_segments latest r = Ok segments → steers r (sc_segments latest) segments.
Proof.
  unfold next_segments. destruct (mapM (next_segment r) (sc_segments latest)) as [kept|e] eqn:Ek; [|done].
  apply mapM_carried in Ek. pose proof (carried_keys _ _ _ Ek) as Hkeys. cbn [mbind outcome_bind].
  destruct (decide (sn_segment_key r ∈ ss_key <$> sc_segments latest)) as [Hin|Hnot];
    [rewrite (bool_decide_eq_true_2 _ Hin) | by rewrite (bool_decide_eq_false_2 _ Hnot)].
  cbn [negb refuse_if mbind outcome_bind]. destruct (String.eqb_spec (sn_action r) "expand") as [Ex|Ex]; cbn [negb].
  - destruct (json_iter _) as [keywords|e]; [|done]. cbn [mbind outcome_bind].
    destruct (adjacent_segments _ _ _ _) as [added|e] eqn:Ea; [|done]. intros [= <-].
    destruct (adjacent_segments_spec _ _ _ _ _ Ea) as (Hadj & Hnd & Hfresh). split; [done| |].
    + exists kept, added. by split_and!.
    + intros Hold. rewrite fmap_app, NoDup_app, Hkeys. split_and!; [done| |done].
      intros k Hk (s & -> & Hs)%list_elem_of_fmap. rewrite Forall_forall in Hfresh.
      apply (Hfresh s Hs). by rewrite Hkeys.
  - intros [= <-]. split; [done| |by rewrite Hkeys]. exists kept, []. rewrite app_nil_r. by split_and!.
Qed.

(** ** Decisions *)

Definition keyed_recommendations (s : Store) : Prop := ∀ k r, st_recommendations s !! k = Some r → sn_id r = k.

(** The configuration an approval schedules. *)
Record schedules (env : Env) (latest : ScraperConfiguration) (r : SourceRecommendation) (reason : text)
    (user : uuid) (c : ScraperConfiguration) : Prop := {
  schedules_version : sc_version c = sc_version latest + 1;
  schedules_status : sc_status c = "scheduled"%string;
  schedules_base : sc_based_on_configuration_id c = Some (sc_id latest);
  schedules_thresholds : sc_anomaly_thresholds c = sc_anomaly_thresholds latest;
  schedules_author : sc_created_by c = user ∧ sc_reason c = reason;
  schedules_start : sc_scheduled_at c = Some (scheduled_acquisition (now env));
  schedules_segments : steers r (sc_segments latest) (sc_segments c)
}.

(** What a decision makes of the recommendation and of the configurations. *)
Inductive verdict (env : Env) (s s' : Store) (r : SourceRecommendation) (reason actor : text) (apply_enabled shadow_mode : bool)
    : string → SourceRecommendation → Prop :=
| verdict_denied :
    st_configurations s' = st_configurations s →
    verdict env s s' r reason actor apply_enabled shadow_mode "deny" (decided env actor reason r <| sn_status := "denied"%string |>)
| verdict_shadow :
    shadow_mode || negb apply_enabled = true → st_configurations s' = st_configurations s →
    verdict env s s' r reason actor apply_enabled shadow_mode "approve"
      (decided env actor reason r <| sn_status := "approved_shadow"%string |>)
| verdict_approved latest user c :
    shadow_mode || negb apply_enabled = false → latest_configuration s = Some latest → uuid_of_text actor = Some user →
    schedules env latest r reason user c →
    st_configurations s' = <[sc_id c := c]> (replace_scheduled <$> st_configurations s) →
    verdict env s s' r reason actor apply_enabled shadow_mode "approve"
      (decided env actor reason r <| sn_status := "approved"%string |> <| sn_resulting_configuration_id := Some (sc_id c) |>).

Lemma put_recommendation_frame {A} (proj : Store → A) r x :
  (∀ s v, proj (s <| st_recommendations := v |>) = proj s) → preserves (λ s, proj s = x) (put_recommendation r).
Proof. intros Hp. apply pres_modify. intros s Hs. by rewrite Hp. Qed.

Lemma adjacent_segments_decided env actor reason r state existing keywords :
  adjacent_segments (decided env actor reason r) state existing keywords = adjacent_segments r state existing keywords.
Proof.
  revert existing. induction keywords as [|k rest IH]; intros existing; cbn [adjacent_segments]; [done|].
  destruct (materialize_source_identity _ state) as [key|e]; [|done]. cbn [mbind outcome_bind].
  case_bool_decide; by rewrite IH.
Qed.

(** Who decided, why and when does not change what is scheduled. *)
Lemma next_segments_decided env actor reason r l :
  next_segments l (decided env actor reason r) = next_segments l r.
Proof.
  unfold next_segments. change (mapM (next_segment (decided env actor reason r))) with (mapM (next_segment r)).
  destruct (mapM (next_segment r) _) as [kept|e]; [|done]. cbn [mbind outcome_bind].
  change (sn_segment_key (decided env actor reason r)) with (sn_segment_key r).
  destruct (refuse_if _ _) as [[]|e]; [|done]. cbn [mbind outcome_bind].
  change (sn_action (decided env actor reason r)) with (sn_action r).
  destruct (negb _); [done|]. change (sn_evidence (decided env actor reason r)) with (sn_evidence r).
  destruct (json_iter _) as [keywords|e]; [|done]. cbn [mbind outcome_bind]. by rewrite adjacent_segments_decided.
Qed.

Lemma schedule_next_Ok_inv env actor reason latest r0 r s r' s' :
  (∀ l, next_segments l r = next_segments l r0) →
  schedule_next env actor reason latest r s = (Ok r', s') →
  ∃ l user c, latest = Some l ∧ uuid_of_text actor = Some user ∧ schedules env l r0 reason user c ∧
    st_configurations s' = <[sc_id c := c]> (replace_scheduled <$> st_configurations s) ∧
    st_recommendations s' = st_recommendations s ∧
    r' = r <| sn_status := "approved"%string |> <| sn_resulting_configuration_id := Some (sc_id c) |>.
Proof.
  intros Hsame Hrun. unfold schedule_next, uuid4 in Hrun. run_inv.
  match goal with Hs : lift (next_segments ?l r) _ = _ |- _ =>
    rewrite lift_run in Hs; injection Hs as Hs <-; rewrite Hsame in Hs; apply next_segments_steers in Hs;
    match type of Hs with steers _ _ ?segs =>
      eexists l, _, (mkScraperConfiguration _ _ (configuration_checksum segs _) _ _ _ _ _ _ _ _) end end.
  split_and!; [reflexivity|eassumption| |rsimpl; reflexivity|by rsimpl|reflexivity].
  split; try reflexivity; [done|]. cbn [sc_segments]. eapply steers_permutation; [|eassumption].
  symmetry. apply merge_sort_Permutation.
Qed.

Lemma decide_Ok_inv env id action actor reason apply_enabled shadow_mode checksum s r' s' :
  decide_recommendation env id action actor reason apply_enabled shadow_mode checksum s = (Ok r', s') →
  ∃ r, st_recommendations s !! id = Some r ∧ sn_status r = "pending"%string ∧ evidence_matches r checksum = true ∧
    outdated (latest_configuration s) r = false ∧
    verdict env s s' r reason actor apply_enabled shadow_mode action r' ∧
    st_recommendations s' = <[sn_id r := r']> (st_recommendations s).
Proof.
  intros Hrun. unfold decide_recommendation in Hrun. run_inv.
  match goal with Hr : Some ?x = _ |- _ => rename x into r; symmetry in Hr end.
  exists r. destruct (outdated _ r) eqn:Eo.
  { unfold mark_stale, put_recommendation in *. run_inv. }
  unfold put_recommendation in *. run_inv. activity_inv.
  match goal with Hc : resolve_decision _ _ _ _ _ _ _ _ _ = _ |- _ => rename Hc into Hrun end. unfold resolve_decision in Hrun.
  match goal with Hp : negb (String.eqb (sn_status r) _) = false |- _ => apply negb_false_iff, String.eqb_eq in Hp end.
  match goal with Hp : negb (evidence_matches _ _) = false |- _ => apply negb_false_iff in Hp end.
  match goal with Hp : negb (_ || _) = false |- _ => apply negb_false_iff in Hp; rename Hp into Hact end.
  do 4 (split; [done|]).
  destruct (String.eqb_spec action "deny") as [->|Hnd].
  { run_inv. rsimpl. split; [by apply verdict_denied; rsimpl|]. rsimpl. by rewrite insert_insert_eq. }
  rewrite orb_false_r in Hact. apply String.eqb_eq in Hact as ->.
  destruct (shadow_mode || negb apply_enabled) eqn:Esh.
  { run_inv. rsimpl. split; [by apply verdict_shadow; rsimpl|]. rsimpl. by rewrite insert_insert_eq. }
  eapply (schedule_next_Ok_inv _ _ _ _ r) in Hrun as (l & user & c & Hl & Hu & Hc & Hconf & Hrecs & ->);
    [|apply next_segments_decided].
  rsimpl. split; [by eapply verdict_approved; rsimpl|]. rsimpl. rewrite Hrecs. rsimpl. by rewrite insert_insert_eq.
Qed.
(** ** Decided once *)

Definition settled_as (id : uuid) (r : SourceRecommendation) (s : Store) : Prop :=
  keyed_recommendations s ∧ st_recommendations s !! id = Some r.

Lemma settled_put id r x : sn_id x ≠ id → preserves (settled_as id r) (put_recommendation x).
Proof.
  intros Hne. apply pres_modify. intros s [Hk Hr]. split; rsimpl; [|by rewrite lookup_insert_ne].
  intros k y. unfold keyed_recommendations in Hk. rsimpl.
  destruct (decide (k = sn_id x)) as [->|Hkx]; [rewrite lookup_insert_eq; congruence | rewrite lookup_insert_ne by done; apply Hk].
Qed.

Lemma settled_frame {A} id r (m : M Store A) :
  (∀ x, preserves (λ s, st_recommendations s = x) m) → preserves (settled_as id r) m.
Proof.
  intros Hm s [Hk Hr]. pose proof (Hm _ s eq_refl) as E. unfold settled_as, keyed_recommendations. by rewrite E.
Qed.

Lemma recommendations_schedule env actor reason latest r x :
  preserves (λ s, st_recommendations s = x) (schedule_next env actor reason latest r).
Proof.
  unfold schedule_next, uuid4. repeat first [apply pres_bind; intros | apply pres_require | apply pres_gets | apply pres_ret
    | apply pres_modify; intros; by rsimpl | intros s Hs; by rewrite lift_run].
Qed.

Lemma recommendations_resolve env action actor reason apply_enabled shadow_mode latest r x :
  preserves (λ s, st_recommendations s = x) (resolve_decision env action actor reason apply_enabled shadow_mode latest r).
Proof. unfold resolve_decision. repeat apply pres_if; try apply pres_ret. apply recommendations_schedule. Qed.

Lemma resolve_decision_id env action actor reason apply_enabled shadow_mode latest r s r' s' :
  resolve_decision env action actor reason apply_enabled shadow_mode latest r s = (Ok r', s') → sn_id r' = sn_id r.
Proof.
  unfold resolve_decision. destruct (String.eqb action "deny"); [by intros [= <- _]|].
  destruct (shadow_mode || _); [by intros [= <- _]|].
  intros Hrun. by eapply schedule_next_Ok_inv in Hrun as (? & ? & ? & _ & _ & _ & _ & _ & ->).
Qed.

(** What follows the checks of a decision. *)
Lemma settled_decision env action actor reason apply_enabled shadow_mode latest r0 id r :
  sn_id r0 ≠ id → preserves (settled_as id r)
    (if outdated latest r0 then mark_stale env actor reason latest r0 ;; mret r0
     else
       put_recommendation (decided env actor reason r0) ;;
       r ← resolve_decision env action actor reason apply_enabled shadow_mode latest (decided env actor reason r0);
       put_recommendation r ;;
       record_activity env (u "source_recommendation_" ++ u (sn_status r)) (u "source_recommendation")
         (str_of_uuid (sn_id r)) actor reason (decision_details r shadow_mode) [] ;;
       mret r).
Proof.
  intros Hne. assert (∀ a b c d e f g, preserves (settled_as id r) (record_activity env a b c d e f g)) as Hact
    by (intros; apply settled_frame; intros; apply record_activity_frame; reflexivity).
  apply pres_if.
  - unfold mark_stale. repeat first [apply Hact | by apply settled_put | apply pres_raise | apply pres_ret | apply pres_bind; intros].
  - apply pres_bind; [by apply settled_put|intros _]. intros s Hs. unfold mbind at 1, M_bind at 1.
    pose proof (settled_frame id r _ (recommendations_resolve env action actor reason apply_enabled shadow_mode latest
      (decided env actor reason r0)) s Hs) as Hs1.
    destruct (resolve_decision _ _ _ _ _ _ _ _ s) as [[r1|e] s1] eqn:E1; [|exact Hs1]. apply resolve_decision_id in E1.
    enough (preserves (settled_as id r) (put_recommendation r1 ;;
      record_activity env (u "source_recommendation_" ++ u (sn_status r1)) (u "source_recommendation")
        (str_of_uuid (sn_id r1)) actor reason (decision_details r1 shadow_mode) [] ;; mret r1)) as Hm by by apply Hm.
    repeat first [apply Hact | apply settled_put; by rewrite E1 | apply pres_ret | apply pres_bind; intros].
Qed.

(** A decided recommendation is left alone by every decision. *)
Lemma decide_keeps env id' action actor reason apply_enabled shadow_mode checksum id r :
  sn_status r ≠ "pending"%string →
  preserves (settled_as id r) (decide_recommendation env id' action actor reason apply_enabled shadow_mode checksum).
Proof.
  intros Hst s Hs. pose proof Hs as [Hk Hr]. unfold decide_recommendation.
  destruct (negb (_ || _)); [exact Hs|]. rewrite bind_raise_if_false, bind_gets by done.
  destruct (st_recommendations s !! id') as [r0|] eqn:E0; [|exact Hs].
  rewrite (bind_require_Some _ r0) by done. destruct (negb (evidence_matches r0 checksum)); [exact Hs|].
  rewrite bind_raise_if_false by done. destruct (String.eqb_spec (sn_status r0) "pending") as [Ep|]; [|exact Hs].
  rewrite bind_raise_if_false, bind_gets by done. apply settled_decision; [|exact Hs].
  rewrite (Hk _ _ E0). intros ->. congruence.
Qed.
(** A decision in the browser, or a worker's job for one in Telegram. *)
Inductive decision_step (s s' : Store) : Prop :=
| browser_decides env id action user_id reason checksum o :
    decide_source_recommendation env id action user_id reason checksum s = (o, s') → decision_step s s'
| worker_decides env job o : begin (do_recommendation_action env job) s = (o, s') → decision_step s s'.

Lemma settled_rollback id r s s' : settled_as id r s → settled_as id r (rollback s s').
Proof. done. Qed.

Lemma browser_keeps env id' action user_id reason checksum id r :
  sn_status r ≠ "pending"%string →
  preserves (settled_as id r) (decide_source_recommendation env id' action user_id reason checksum).
Proof.
  intros Hst s Hs. unfold decide_source_recommendation. destruct (negb _); [exact Hs|].
  pose proof (decide_keeps env id' action (str_of_uuid user_id) (strip reason) (recommendation_apply_enabled (settings env))
    (recommendation_shadow_mode (settings env)) checksum id r Hst s Hs) as Hd.
  destruct (decide_recommendation _ _ _ _ _ _ _ _ s) as [[x|e] s']; [exact Hd|]. destruct e; first [exact Hd | exact Hs].
Qed.

Lemma worker_keeps env job id r :
  sn_status r ≠ "pending"%string → preserves (settled_as id r) (begin (do_recommendation_action env job)).
Proof.
  intros Hst. apply pres_transaction; [intros; by apply settled_rollback|]. unfold do_recommendation_action.
  apply pres_try_catch.
  2:{ intros e k. destruct e; try done. intros [= <-]. apply pres_ret. }
  assert (∀ A (o : outcome A), preserves (settled_as id r) (lift o)) as Hl by (intros A o s Hs; by rewrite lift_run).
  repeat first [apply Hl | by apply decide_keeps | apply pres_gets | apply pres_require | apply pres_raise_if | apply pres_ret
    | match goal with |- preserves _ (match ?x with _ => _ end) => destruct x end
    | apply settled_frame; intros x s Hs; rewrite enqueue_job_run; exact Hs
    | apply pres_bind; intros].
Qed.

Lemma step_keeps id r s s' : sn_status r ≠ "pending"%string → settled_as id r s → decision_step s s' → settled_as id r s'.
Proof.
  intros Hst Hs [env id' action user_id reason checksum o E|env job o E].
  - pose proof (browser_keeps env id' action user_id reason checksum id r Hst s Hs) as Hk. by rewrite E in Hk.
  - pose proof (worker_keeps env job id r Hst s Hs) as Hk. by rewrite E in Hk.
Qed.

(** A decision on what is decided is refused. *)
Lemma decide_settled env id action actor reason apply_enabled shadow_mode checksum r s :
  settled_as id r s → sn_status r ≠ "pending"%string →
  ∃ detail, decide_recommendation env id action actor reason apply_enabled shadow_mode checksum s =
              (Err (RecommendationDecisionError detail), s).
Proof.
  intros [_ Hr] Hst. unfold decide_recommendation. destruct (negb (_ || _)); [eauto|].
  rewrite bind_raise_if_false, bind_gets, Hr by done. rewrite (bind_require_Some _ r) by done.
  destruct (negb (evidence_matches r checksum)); [eauto|]. rewrite bind_raise_if_false by done.
  destruct (String.eqb_spec (sn_status r) "pending"); [done|eauto].
Qed.

Lemma decided_refused env id action user_id reason checksum r s :
  settled_as id r s → sn_status r ≠ "pending"%string →
  ∃ detail status, decide_source_recommendation env id action user_id reason checksum s = (Err (HTTPException status detail), s).
Proof.
  intros Hset Hst. unfold decide_source_recommendation. destruct (negb (_ || _)); [eauto|].
  edestruct decide_settled as [detail ->]; [done..|]. eauto.
Qed.

Lemma worker_refused env job id r s o s' :
  settled_as id r s → sn_status r ≠ "pending"%string → payload_uuid "recommendation_id" job = Ok id →
  begin (do_recommendation_action env job) s = (o, s') → s' = s.
Proof.
  intros Hset Hst Hid. unfold begin, transaction, do_recommendation_action, try_catch.
  rewrite Hid, bind_lift, bind_gets, (proj2 Hset), (bind_require_Some _ r) by done.
  destruct (negb (equals_int _ _)); [by intros [= _ <-]|]. rewrite bind_raise_if_false by done.
  rewrite bind_lift. destruct (payload_action job) as [action|e].
  2:{ destruct e; intros [= _ <-]; by destruct s. }
  rewrite bind_lift. destruct (telegram_actor job) as [actor|e].
  2:{ destruct e; intros [= _ <-]; by destruct s. }
  edestruct (decide_settled env id action actor) as [detail Hd]; [done..|]. erewrite bind_Err by exact Hd.
  by intros [= _ <-].
Qed.

(** A refusal leaves a pending recommendation pending or stale. *)
Definition open_or_stale (id : uuid) (s : Store) : Prop :=
  ∀ r, st_recommendations s !! id = Some r → sn_status r ∈ ["pending"; "stale"]%string.
Lemma open_put id x : sn_status x ∈ ["pending"; "stale"]%string → preserves (open_or_stale id) (put_recommendation x).
Proof.
  intros Hx. apply pres_modify. intros s Hs r. rsimpl. rewrite lookup_insert. case_decide; [by intros [= <-] | apply Hs].
Qed.
Lemma open_frame {A} id (m : M Store A) :
  (∀ x, preserves (λ s, st_recommendations s = x) m) → preserves (open_or_stale id) m.
Proof. intros Hm s Hs. pose proof (Hm _ s eq_refl) as E. unfold open_or_stale. by rewrite E. Qed.
Lemma activity_no_refusal env a t i c r d k s detail s' :
  record_activity env a t i c r d k s ≠ (Err (RecommendationDecisionError detail), s').
Proof.
  unfold record_activity. cbv zeta. intros Hrun. apply (f_equal fst) in Hrun. revert Hrun.
  destruct (is_blank (strip a)); [discriminate|]. destruct (is_blank (strip t)); [discriminate|].
  destruct (is_blank (strip c)); [discriminate|]. destruct (is_blank (strip r)); [discriminate|].
  destruct (unsafe_detail_key _ _); [discriminate|]. destruct (existsb _ _); discriminate.
Qed.

Lemma refusal_leaves_open env id action actor reason apply_enabled shadow_mode checksum s detail s' :
  open_or_stale id s →
  decide_recommendation env id action actor reason apply_enabled shadow_mode checksum s =
    (Err (RecommendationDecisionError detail), s') →
  open_or_stale id s'.
Proof.
  intros Hs. unfold decide_recommendation. destruct (negb (_ || _)); [by intros [= _ <-]|].
  rewrite bind_raise_if_false, bind_gets by done.
  destruct (st_recommendations s !! id) as [r|] eqn:Er; [|by intros [=]].
  rewrite (bind_require_Some _ r) by done. destruct (negb (evidence_matches _ _)); [by intros [= _ <-]|].
  rewrite bind_raise_if_false by done. destruct (String.eqb_spec (sn_status r) "pending") as [Ep|]; [|by intros [= _ <-]].
  rewrite bind_raise_if_false, bind_gets by done. destruct (outdated _ _).
  - intros Hrun. enough (preserves (open_or_stale id) (mark_stale env actor reason (latest_configuration s) r ;; mret r)) as Hp
      by (specialize (Hp s Hs); by rewrite Hrun in Hp).
    unfold mark_stale. repeat first [apply open_put; rsimpl; by right; left | apply open_frame; intros; apply record_activity_frame; reflexivity
      | apply pres_raise | apply pres_ret | apply pres_bind; intros].
  - assert (sn_status (decided env actor reason r) ∈ ["pending"; "stale"]%string) as Hd by (unfold decided; rsimpl; rewrite Ep; left).
    pose proof (open_put id _ Hd s Hs) as Hs1. unfold put_recommendation. rewrite bind_modify. intros Hrun.
    change (open_or_stale id (s <| st_recommendations := <[sn_id (decided env actor reason r) := decided env actor reason r]>
      (st_recommendations s) |>)) in Hs1.
    match type of Hs1 with open_or_stale _ ?s1 => pose proof (open_frame id _ (recommendations_resolve env action actor reason
      apply_enabled shadow_mode (latest_configuration s) (decided env actor reason r)) s1 Hs1) as Hs2 end.
    destruct (resolve_decision _ _ _ _ _ _ _ _ _) as [[r1|e] s2] eqn:Eres.
    + exfalso. rewrite (bind_Ok _ _ _ _ _ Eres) in Hrun. rewrite bind_modify in Hrun.
      unfold mbind, M_bind in Hrun. destruct (record_activity _ _ _ _ _ _ _ _ _) as [[x|x] s3] eqn:Eact; [discriminate Hrun|].
      injection Hrun as -> ->. by eapply activity_no_refusal.
    + rewrite (bind_Err _ _ _ _ _ Eres) in Hrun. by injection Hrun as _ <-.
Qed.

(** A job that decides: it succeeds and the recommendation is neither pending
    nor stale afterwards. *)
Lemma worker_decides_inv env job id r0 r s s1 :
  keyed_recommendations s → payload_uuid "recommendation_id" job = Ok id →
  st_recommendations s !! id = Some r0 → sn_status r0 = "pending"%string →
  begin (do_recommendation_action env job) s = (Ok tt, s1) →
  st_recommendations s1 !! id = Some r → (sn_status r ∉ ["pending"; "stale"]%string) →
  ∃ action actor s', telegram_actor job = Ok actor ∧
    decide_recommendation env id action actor (u "Telegram recommendation decision")
      (recommendation_apply_enabled (settings env)) (recommendation_shadow_mode (settings env)) None s = (Ok r, s') ∧
    st_recommendations s1 = st_recommendations s'.
Proof.
  intros Hk Hid Hr0 Hp Hrun Hr Hst. apply transaction_Ok_inv in Hrun.
  assert (open_or_stale id s) as Hopen by (intros r'; rewrite Hr0; intros [= <-]; rewrite Hp; left).
  assert (∀ s', s1 = s' → open_or_stale id s' → False) as Hno by (intros s' <- Ho; by apply Hst, Ho).
  revert Hrun. unfold do_recommendation_action, try_catch.
  rewrite Hid, bind_lift, bind_gets, Hr0, (bind_require_Some _ r0) by done.
  destruct (negb (equals_int _ _)); [intros [= E]; by edestruct Hno|]. rewrite bind_raise_if_false by done.
  rewrite bind_lift. destruct (payload_action job) as [action|e].
  2:{ destruct e; intros [=]; by edestruct Hno. }
  rewrite bind_lift. destruct (telegram_actor job) as [actor|e].
  2:{ destruct e; intros [=]; by edestruct Hno. }
  destruct (decide_recommendation env id action actor (u "Telegram recommendation decision")
    (recommendation_apply_enabled (settings env)) (recommendation_shadow_mode (settings env)) None s) as [[rec|e] s'] eqn:E.
  - erewrite bind_Ok by exact E. intros Hrun. exists action, actor, s'. split; [done|].
    assert (st_recommendations s1 = st_recommendations s') as Es.
    { destruct (sn_nightly_review_id rec); exact (eq_sym (f_equal (λ p, st_recommendations p.2) Hrun)). }
    split; [|done]. apply decide_Ok_inv in E as E'. destruct E' as (r1 & Hr1 & _ & _ & _ & _ & Hs').
    rewrite Es, Hs', (Hk _ _ Hr1), lookup_insert_eq in Hr. injection Hr as ->. exact E.
  - erewrite bind_Err by exact E. destruct e; intros [=]; subst. exfalso. eapply (Hno _ eq_refl), refusal_leaves_open; done.
Qed.

Lemma verdict_decided env s s' r reason actor apply_enabled shadow_mode action r' :
  verdict env s s' r reason actor apply_enabled shadow_mode action r' →
  sn_status r' ∈ ["denied"; "approved_shadow"; "approved"]%string ∧ sn_id r' = sn_id r ∧ sn_decision_by r' = actor ∧
  sn_decided_at r' = Some (now env).
Proof. intros []; (split; [|done]); rsimpl; set_solver. Qed.

Lemma browser_Ok_inv env id action user_id reason checksum s r s' :
  decide_source_recommendation env id action user_id reason checksum s = (Ok r, s') →
  decide_recommendation env id action (str_of_uuid user_id) (strip reason) (recommendation_apply_enabled (settings env))
    (recommendation_shadow_mode (settings env)) checksum s = (Ok r, s').
Proof.
  unfold decide_source_recommendation. destruct (negb _); [done|].
  destruct (decide_recommendation _ _ _ _ _ _ _ _ s) as [[x|e] s1]; [done|]. by destruct e.
Qed.

Lemma keyed_insert s s' r : keyed_recommendations s → st_recommendations s' = <[sn_id r := r]> (st_recommendations s) →
  keyed_recommendations s'.
Proof.
  intros Hk E k x. rewrite E. destruct (decide (k = sn_id r)) as [->|Hne];
    [rewrite lookup_insert_eq; congruence | rewrite lookup_insert_ne by done; apply Hk].
Qed.

(** A decision that succeeds, with its author and time: in the browser, or by
    the worker's job for one in Telegram. *)
Inductive decides (id : uuid) (s : Store) : text → datetime → SourceRecommendation → Store → Prop :=
| decides_in_browser env action user_id reason checksum r s1 :
    decide_source_recommendation env id action user_id reason checksum s = (Ok r, s1) →
    decides id s (str_of_uuid user_id) (now env) r s1
| decides_in_telegram env job actor r0 r s1 :
    payload_uuid "recommendation_id" job = Ok id → telegram_actor job = Ok actor →
    st_recommendations s !! id = Some r0 → sn_status r0 = "pending"%string →
    begin (do_recommendation_action env job) s = (Ok tt, s1) →
    st_recommendations s1 !! id = Some r → (sn_status r ∉ ["pending"; "stale"]%string) →
    decides id s actor (now env) r s1.

Lemma decides_inv id s actor at_ r s1 :
  keyed_recommendations s → decides id s actor at_ r s1 →
  settled_as id r s1 ∧ sn_status r ∈ ["denied"; "approved_shadow"; "approved"]%string ∧
  sn_decision_by r = actor ∧ sn_decided_at r = Some at_.
Proof.
  intros Hk Hd. enough (∃ env action reason apply_enabled shadow_mode checksum s',
    decide_recommendation env id action actor reason apply_enabled shadow_mode checksum s = (Ok r, s') ∧
    at_ = now env ∧ st_recommendations s1 = st_recommendations s') as (env & action & reason & ae & sm & ck & s' & Hrun & -> & Es).
  { apply decide_Ok_inv in Hrun as (r0 & Hr0 & _ & _ & _ & Hv & Hs1).
    destruct (verdict_decided _ _ _ _ _ _ _ _ _ _ Hv) as (Hst & Hid & Hby & Hat).
    rewrite (Hk _ _ Hr0) in Hid. rewrite (Hk _ _ Hr0), <- Es in Hs1. split; [|by split_and!].
    split; [|by rewrite Hs1, lookup_insert_eq]. eapply keyed_insert; [exact Hk|]. by rewrite Hs1, Hid. }
  destruct Hd as [env action user_id reason checksum r s1 Hrun|env job actor r0 r s1 Hid Hactor Hr0 Hp Hrun Hr Hst].
  - apply browser_Ok_inv in Hrun. by do 7 eexists.
  - destruct (worker_decides_inv env job id r0 r s s1) as (action & actor' & s' & Ha & Hd & Es); try done.
    assert (actor' = actor) as -> by congruence. by do 7 eexists.
Qed.

(** C35: A decision that succeeds settles its recommendation for good, whether
    it was made in the browser or in Telegram: it is denied, approved or
    approved in shadow mode, with its author and time, and whatever is decided
    afterwards, in the browser or by the worker for Telegram, in whatever order,
    on this recommendation or on others, it stays as that decision left it.
    Every later decision on it in the browser is refused, and neither that nor a
    later job for one in Telegram changes anything. *)
Theorem decided_once id actor at_ s r s1 s2 :
  keyed_recommendations s → decides id s actor at_ r s1 → rtc decision_step s1 s2 →
  st_recommendations s2 !! id = Some r ∧
  sn_status r ∈ ["denied"; "approved_shadow"; "approved"]%string ∧
  sn_decision_by r = actor ∧ sn_decided_at r = Some at_ ∧
  (∀ env' action' user_id' reason' checksum', ∃ status detail,
     decide_source_recommendation env' id action' user_id' reason' checksum' s2 = (Err (HTTPException status detail), s2)) ∧
  (∀ env' job' o s3, payload_uuid "recommendation_id" job' = Ok id →
     begin (do_recommendation_action env' job') s2 = (o, s3) → s3 = s2).
Proof.
  intros Hk Hd Hsteps. destruct (decides_inv _ _ _ _ _ _ Hk Hd) as (Hset & Hst & Hby & Hat).
  assert (sn_status r ≠ "pending"%string) as Hnp by (intros E; rewrite E in Hst; set_solver).
  assert (settled_as id r s2) as Hset2.
  { clear Hd. induction Hsteps as [|a b c Hab _ IH]; [done|]. apply IH. by eapply step_keeps. }
  split_and!; try done; [apply Hset2| |].
  - intros env' action' user_id' reason' checksum'.
    destruct (decided_refused env' id action' user_id' reason' checksum' r s2 Hset2 Hnp) as (detail & status & E). eauto.
  - intros env' job' o s3. by apply worker_refused with (r := r).
Qed.

(** ** Scheduling *)

Lemma newer_version_total : Total newer_version.
Proof. intros a b. unfold newer_version. lia. Qed.
Lemma newer_version_trans : Transitive newer_version.
Proof. intros a b c. unfold newer_version. lia. Qed.

(** The latest configuration is the one of the highest version. *)
Lemma latest_configuration_max s latest : latest_configuration s = Some latest →
  (∃ k, st_configurations s !! k = Some latest) ∧
  ∀ k c, st_configurations s !! k = Some c → sc_version c ≤ sc_version latest.
Proof.
  pose proof newer_version_total. pose proof newer_version_trans. unfold latest_configuration.
  pose proof (merge_sort_Permutation newer_version (map_to_list (st_configurations s)).*2) as Hp.
  pose proof (StronglySorted_merge_sort newer_version (map_to_list (st_configurations s)).*2) as Hs.
  destruct (merge_sort newer_version _) as [|a l]; [done|]. intros [= ->].
  assert (∀ c, c ∈ latest :: l ↔ ∃ k, st_configurations s !! k = Some c) as Hin.
  { intros c. rewrite Hp, list_elem_of_fmap. split.
    - intros ([k x] & -> & Hx%elem_of_map_to_list). by exists k.
    - intros [k Hk]. exists (k, c). split; [done|]. by apply elem_of_map_to_list. }
  split; [apply Hin, elem_of_cons; by left|]. intros k c Hk.
  assert (c ∈ latest :: l) as [->|Hc]%elem_of_cons by (apply Hin; by exists k); [lia|].
  apply StronglySorted_inv in Hs as [_ Hall]. rewrite Forall_forall in Hall. by apply Hall.
Qed.

Lemma replace_scheduled_not c : sc_status (replace_scheduled c) ≠ "scheduled"%string.
Proof. unfold replace_scheduled. destruct (String.eqb_spec (sc_status c) "scheduled"); [by rsimpl|done]. Qed.

Lemma replace_scheduled_other c : sc_status c ≠ "scheduled"%string → replace_scheduled c = c.
Proof. unfold replace_scheduled. by destruct (String.eqb_spec (sc_status c) "scheduled"). Qed.

(** C34: an approval that applies schedules exactly one new configuration: its
    version is above every other, it is based on the latest one and starts at
    eight o'clock the next day, what was scheduled before is replaced so that
    it is the only one scheduled, and no other configuration changes.  Its
    segments are those of the latest configuration, changed only in the
    recommended segment and there only in the parameters of the action, and
    for an expansion the adjacent segments, under keys of their own. *)
Theorem approval_schedules_next env id user_id reason checksum s r s' :
  keyed_recommendations s → (user_id < 2 ^ 128)%N →
  decide_source_recommendation env id "approve" user_id reason checksum s = (Ok r, s') →
  sn_status r = "approved"%string →
  recommendation_apply_enabled (settings env) = true ∧ recommendation_shadow_mode (settings env) = false ∧
  ∃ old latest c,
    st_recommendations s !! id = Some old ∧ sn_resulting_configuration_id r = Some (sc_id c) ∧
    (∃ k, st_configurations s !! k = Some latest) ∧ schedules env latest old (strip reason) user_id c ∧
    (∀ k c', st_configurations s !! k = Some c' → sc_version c' < sc_version c) ∧
    st_configurations s' !! sc_id c = Some c ∧
    (∀ k c', st_configurations s' !! k = Some c' → sc_status c' = "scheduled"%string → k = sc_id c) ∧
    (∀ k c', st_configurations s !! k = Some c' → k ≠ sc_id c → sc_status c' ≠ "scheduled"%string →
       st_configurations s' !! k = Some c').
Proof.
  intros Hk Hu Hrun Hst. apply browser_Ok_inv, decide_Ok_inv in Hrun as (old & Hold & _ & _ & _ & Hv & _).
  inversion Hv as [| |latest user c Hsh Hl Huser Hc Hconf]; subst.
  { cbv [sn_status set_field] in Hst. discriminate Hst. }
  rewrite uuid_of_str in Huser by done. injection Huser as <-.
  apply orb_false_iff in Hsh as [Hsh Hap%negb_false_iff].
  destruct (latest_configuration_max _ _ Hl) as [Hin Hmax]. do 2 (split; [done|]). exists old, latest, c.
  split_and!; try done.
  - intros k c' Hc'. pose proof (Hmax _ _ Hc'). rewrite (schedules_version _ _ _ _ _ _ Hc). lia.
  - by rewrite Hconf, lookup_insert_eq.
  - intros k c' Hc' Hsch. destruct (decide (k = sc_id c)) as [|Hne]; [done|exfalso].
    rewrite Hconf, lookup_insert_ne, lookup_fmap in Hc' by done. apply fmap_Some in Hc' as (c0 & _ & ->).
    by apply replace_scheduled_not in Hsch.
  - intros k c' Hc' Hne Hns. rewrite Hconf, lookup_insert_ne, lookup_fmap, Hc' by done. cbn.
    by rewrite replace_scheduled_other.
Qed.
(** ** Through Telegram *)

Lemma schedule_next_telegram env x reason latest r s :
  ∃ e, (schedule_next env (u "telegram:" ++ x) reason latest r s).1 = Err e.
Proof.
  unfold schedule_next. destruct latest as [l|]; [|by eexists]. rewrite (bind_require_Some _ l), bind_modify, bind_lift by done.
  destruct (next_segments l r) as [segments|e]; [|by eexists]. rewrite telegram_is_no_user. by eexists.
Qed.

(** Nothing is approved or scheduled that was not. *)
Record unapproved (s0 s : Store) : Prop := {
  unapproved_recommendations k r : st_recommendations s !! k = Some r → sn_status r = "approved"%string →
    st_recommendations s0 !! k = Some r;
  unapproved_scheduled k c : st_configurations s !! k = Some c → sc_status c = "scheduled"%string →
    st_configurations s0 !! k = Some c;
  unapproved_configurations k : is_Some (st_configurations s !! k) → is_Some (st_configurations s0 !! k)
}.

Lemma unapproved_refl s : unapproved s s.
Proof. split; auto. Qed.

Lemma unapproved_put s0 r : sn_status r ≠ "approved"%string → preserves (unapproved s0) (put_recommendation r).
Proof.
  intros Hst. apply pres_modify. intros s [Hr Hs Hc]. split; rsimpl; [|exact Hs|exact Hc]. intros k x.
  destruct (decide (k = sn_id r)) as [->|Hne]; [rewrite lookup_insert_eq; congruence | rewrite lookup_insert_ne by done; apply Hr].
Qed.

Lemma unapproved_frame {A} s0 (m : M Store A) :
  (∀ x, preserves (λ s, (st_recommendations s, st_configurations s) = x) m) → preserves (unapproved s0) m.
Proof.
  intros Hm s Hs. pose proof (Hm _ s eq_refl) as E. cbv beta in E. injection E as E1 E2.
  destruct Hs as [Hr Hs Hc]. split; rewrite ?E1, ?E2; auto.
Qed.

Lemma unapproved_activity s0 env a b c d e f g : preserves (unapproved s0) (record_activity env a b c d e f g).
Proof. apply unapproved_frame. intros x. apply (record_activity_frame (λ s, (st_recommendations s, st_configurations s))); reflexivity. Qed.

Lemma unapproved_replace s0 s : unapproved s0 s →
  unapproved s0 (s <| st_configurations := replace_scheduled <$> st_configurations s |>).
Proof.
  intros [Hr Hs Hc]. split; rsimpl; [exact Hr| |].
  - intros k c Hk Hst. rewrite lookup_fmap in Hk. apply fmap_Some in Hk as (c0 & _ & ->). by apply replace_scheduled_not in Hst.
  - intros k. rewrite lookup_fmap, fmap_is_Some. apply Hc.
Qed.

Lemma unapproved_schedule s0 env x reason latest r :
  preserves (unapproved s0) (schedule_next env (u "telegram:" ++ x) reason latest r).
Proof.
  intros s Hs. unfold schedule_next. destruct latest as [l|]; [|exact Hs].
  rewrite (bind_require_Some _ l), bind_modify, bind_lift by done. apply unapproved_replace in Hs.
  destruct (next_segments l r) as [segments|e]; [|exact Hs]. rewrite telegram_is_no_user. exact Hs.
Qed.

Lemma unapproved_decide s0 env id action x reason apply_enabled shadow_mode checksum :
  preserves (unapproved s0)
    (decide_recommendation env id action (u "telegram:" ++ x) reason apply_enabled shadow_mode checksum).
Proof.
  intros s Hs. unfold decide_recommendation. destruct (negb (_ || _)); [exact Hs|].
  rewrite bind_raise_if_false, bind_gets by done. destruct (st_recommendations s !! id) as [r|]; [|exact Hs].
  rewrite (bind_require_Some _ r) by done. destruct (negb (evidence_matches r checksum)); [exact Hs|].
  rewrite bind_raise_if_false by done. destruct (String.eqb_spec (sn_status r) "pending") as [Ep|]; [|exact Hs].
  rewrite bind_raise_if_false, bind_gets by done. generalize (latest_configuration s) as latest. intros latest.
  revert s Hs. change (preserves (unapproved s0)
    (if outdated latest r then mark_stale env (u "telegram:" ++ x) reason latest r ;; mret r
     else
       put_recommendation (decided env (u "telegram:" ++ x) reason r) ;;
       r1 ← resolve_decision env action (u "telegram:" ++ x) reason apply_enabled shadow_mode latest (decided env (u "telegram:" ++ x) reason r);
       put_recommendation r1 ;;
       record_activity env (u "source_recommendation_" ++ u (sn_status r1)) (u "source_recommendation")
         (str_of_uuid (sn_id r1)) (u "telegram:" ++ x) reason (decision_details r1 shadow_mode) [] ;; mret r1)).
  assert (sn_status (decided env (u "telegram:" ++ x) reason r) ≠ "approved"%string) as Hnd
    by (unfold decided; rsimpl; by rewrite Ep).
  apply pres_if.
  - unfold mark_stale. repeat first [apply unapproved_activity | by apply unapproved_put | apply pres_raise | apply pres_ret
      | apply pres_bind; intros].
  - apply pres_bind; [by apply unapproved_put|intros _].
    unfold resolve_decision. destruct (String.eqb action "deny"); [|destruct (shadow_mode || _)];
      try (intros s Hs; rewrite bind_ret; revert s Hs;
           repeat first [apply unapproved_activity | by apply unapproved_put | apply pres_ret | apply pres_bind; intros]; done).
    intros s Hs. pose proof (unapproved_schedule s0 env x reason latest (decided env (u "telegram:" ++ x) reason r) s Hs) as Hs1.
    destruct (schedule_next_telegram env x reason latest (decided env (u "telegram:" ++ x) reason r) s) as [e E].
    unfold mbind at 1, M_bind at 1. destruct (schedule_next _ _ _ _ _ s) as [o s1]. cbn in E. subst o. exact Hs1.
Qed.
(** C36: a decision from Telegram never applies.  Whatever the job and the
    settings, it sets no recommendation to [approved] (in shadow mode it may
    record [approved_shadow]), schedules no configuration and adds none,
    because its actor, [telegram:] and the approver, is not the identifier of
    a user. *)
Theorem telegram_never_schedules env job s s' o :
  begin (do_recommendation_action env job) s = (o, s') →
  (∀ k r, st_recommendations s' !! k = Some r → sn_status r = "approved"%string → st_recommendations s !! k = Some r) ∧
  (∀ k c, st_configurations s' !! k = Some c → sc_status c = "scheduled"%string → st_configurations s !! k = Some c) ∧
  (∀ k, is_Some (st_configurations s' !! k) → is_Some (st_configurations s !! k)).
Proof.
  intros Hrun. enough (preserves (unapproved s) (begin (do_recommendation_action env job))) as Hp.
  { specialize (Hp s (unapproved_refl s)). rewrite Hrun in Hp. by destruct Hp. }
  apply pres_transaction; [intros ? ? []; by split|]. unfold do_recommendation_action. apply pres_try_catch.
  2:{ intros e k. destruct e; try done. intros [= <-]. apply pres_ret. }
  assert (∀ A (o : outcome A), preserves (unapproved s) (lift o)) as Hl by (intros A o' s0 Hs; by rewrite lift_run).
  do 5 (apply pres_bind; [first [apply Hl | apply pres_gets | apply pres_require | apply pres_raise_if]|intros]).
  unfold telegram_actor. destruct (item "approver_user_id" _) as [approver|e].
  2:{ intros s0 Hs. exact Hs. }
  intros s0 Hs. rewrite bind_lift. cbn [mbind outcome_bind mret outcome_ret]. revert s0 Hs.
  match goal with |- ∀ s0, _ → unapproved _ (snd (?m s0)) => change (preserves (unapproved s) m) end.
  apply pres_bind; [apply unapproved_decide|intros r]. destruct (sn_nightly_review_id r); [|apply pres_ret].
  apply pres_bind; [|intros; apply pres_ret]. apply unapproved_frame. intros x s0 Hs. by rewrite enqueue_job_run.
Qed.

(** The evidence a Telegram message showed is not what its decision is bound to. *)
Theorem telegram_ignores_evidence env job v s :
  do_recommendation_action env (job <| jb_payload := dict_set "evidence_checksum" v (jb_payload job) |>) s =
  do_recommendation_action env job s.
Proof.
  unfold do_recommendation_action, payload_uuid, payload_action, telegram_actor, item, get. rsimpl.
  by rewrite !dict_get_set_ne.
Qed.

(** ** Refusals that are committed *)

(** An approval of a segment the latest configuration no longer has is
    refused, and yet takes effect: the endpoint commits what the decision had
    done, so that no configuration is scheduled any more, and the
    recommendation, still pending, names the one who decided. *)
Theorem refused_approval_drops_schedule env id user_id reason checksum r latest s :
  recommendation_apply_enabled (settings env) = true → recommendation_shadow_mode (settings env) = false →
  st_recommendations s !! id = Some r → sn_id r = id → sn_status r = "pending"%string → evidence_matches r checksum = true →
  latest_configuration s = Some latest → outdated (Some latest) r = false →
  sn_segment_key r ∉ ss_key <$> sc_segments latest →
  ∃ s' detail,
    decide_source_recommendation env id "approve" user_id reason checksum s = (Err (HTTPException 409 detail), s') ∧
    (∀ k c, st_configurations s' !! k = Some c → sc_status c ≠ "scheduled"%string) ∧
    st_recommendations s' !! id = Some (decided env (str_of_uuid user_id) (strip reason) r).
Proof.
  intros Hap Hsh Hr Hid Hst Hev Hl Ho Hnot. unfold decide_source_recommendation, decide_recommendation.
  change (negb (String.eqb "approve" "approve" || _)) with false. cbv iota.
  rewrite bind_raise_if_false, bind_gets, Hr by done. rewrite (bind_require_Some _ r), Hev by done.
  rewrite bind_raise_if_false by done. rewrite Hst. rewrite bind_raise_if_false, bind_gets, Hl, Ho by done.
  unfold put_recommendation. rewrite bind_modify. unfold resolve_decision. rewrite Hap, Hsh.
  change (String.eqb "approve" "deny") with false. cbn [orb negb]. unfold schedule_next.
  rewrite bind_bind, (bind_require_Some _ latest) by done. rewrite bind_bind, bind_modify, bind_bind, bind_lift.
  assert (next_segments latest (decided env (str_of_uuid user_id) (strip reason) r) =
    Err (RecommendationDecisionError (u "The recommended Source Segment is not in the current configuration."))) as ->.
  { rewrite next_segments_decided. unfold next_segments.
    assert (mapM (next_segment r) (sc_segments latest) = Ok (sc_segments latest)) as ->.
    { clear -Hnot. induction (sc_segments latest) as [|a l IH]; [done|]. cbn. rewrite fmap_cons, not_elem_of_cons in Hnot.
      destruct Hnot as [Ha Hnot]. specialize (IH Hnot). unfold mapM in *. cbn in IH |- *.
      assert (next_segment r a = Ok a) as -> by (unfold next_segment; by rewrite bool_decide_eq_false_2).
      cbn. by rewrite IH. }
    cbn [mbind outcome_bind]. by rewrite (bool_decide_eq_false_2 _ Hnot). }
  eexists _, _. split; [reflexivity|]. rsimpl. split.
  - intros k c. rewrite lookup_fmap. intros (c0 & _ & ->)%fmap_Some. apply replace_scheduled_not.
  - change (sn_id (decided env (str_of_uuid user_id) (strip reason) r)) with (sn_id r). by rewrite Hid, lookup_insert_eq.
Qed.
End Properties.

(** ** An approval, and what follows it

    The latest configuration, version 4, has one segment, which the
    recommendation reduces; a configuration of version 3 is still scheduled. *)

#[local] Existing Instance ascii_case.
#[local] Existing Instance example_platform.
#[local] Existing Instance plain_repr.

Definition applying_env : Env :=
  let f := settings example_env in
  mkEnv (now example_env) (mkSettings (batch_dir f) (batch_retention_days f) (billing_enabled f)
    (db1_default_lead_rate_cents_per_thousand f) (resend_api_key f) (batch_from_email f) (public_base_url f) (worker_id f)
    (worker_lane f) (job_lock_timeout_seconds f) (support_email f) (telegram_bot_token f) (telegram_chat_id f)
    (telegram_approver_user_ids f) (telegram_webhook_secret f) (metrics_ingest_url f) (metrics_ingest_secret f)
    (session_secret f) true false) ∅ ∅ ∅ ∅ true.
Definition example_segment : SourceSegment :=
  mkSourceSegment (u "PA::roof repair") (u "Roofing") (u "roof repair") (u "PA")
    [("status", JStr (u "active")); ("note", JStr (u "kept"))]%string.
Definition example_latest : ScraperConfiguration :=
  mkScraperConfiguration 10 4 (u "c4") "active" [] 7 (u "start") 0 None None [example_segment].
Definition example_scheduled : ScraperConfiguration :=
  mkScraperConfiguration 9 3 (u "c3") "scheduled" [] 7 (u "start") 0 None None [example_segment].
Definition example_recommendation : SourceRecommendation :=
  mkSourceRecommendation 5 (u "Roofing") (u "PA::roof repair") "reduce" [] (u "abcdef0123") "pending" [] [] None None None
    (Some 4) 0.
Definition example_undecided : Store :=
  empty_store <| st_recommendations := {[ 5%N := example_recommendation ]} |>
    <| st_configurations := <[10%N := example_latest]> {[ 9%N := example_scheduled ]} |> <| st_next_uuid := 100%N |>.

Lemma example_undecided_keyed : keyed_recommendations example_undecided.
Proof. intros k r. change ((({[ 5%N := example_recommendation ]} : gmap uuid SourceRecommendation) !! k = Some r) → sn_id r = k).
  rewrite lookup_singleton_Some. by intros [<- <-].
Qed.

Definition example_approval : outcome SourceRecommendation * Store :=
  decide_source_recommendation applying_env 5 "approve" 7 (u " agreed ") (Some (u "abcdef01")) example_undecided.

Lemma example_approved : ∃ r s', example_approval = (Ok r, s') ∧ sn_status r = "approved"%string.
Proof.
  assert (match example_approval with (Ok r, _) => String.eqb (sn_status r) "approved" | _ => false end = true) as E
    by (vm_compute; reflexivity).
  destruct example_approval as [[r|e] s']; [|discriminate E]. exists r, s'. split; [done|]. by apply String.eqb_eq.
Qed.

Lemma approval_schedules_next_witness :
  ∃ r s' old latest c, example_approval = (Ok r, s') ∧ schedules applying_env latest old (u "agreed") 7 c ∧
    st_configurations s' !! sc_id c = Some c.
Proof.
  destruct example_approved as (r & s' & E & Est).
  destruct (approval_schedules_next applying_env 5 7 (u " agreed ") (Some (u "abcdef01")) example_undecided r s'
    example_undecided_keyed) as (_ & _ & old & latest & c & _ & _ & _ & Hc & _ & Hin & _); [done|exact E|exact Est|].
  exists r, s', old, latest, c. split; [exact E|]. split; [exact Hc|exact Hin].
Defined.

Lemma decided_once_witness :
  ∃ r s1, example_approval = (Ok r, s1) ∧
    ∃ status detail, decide_source_recommendation applying_env 5 "deny" 8 (u "no") None s1 = (Err (HTTPException status detail), s1).
Proof.
  destruct example_approved as (r & s1 & E & Est). exists r, s1. split; [exact E|].
  destruct (decided_once 5 (str_of_uuid 7) (now applying_env) example_undecided r s1 s1 example_undecided_keyed
    (decides_in_browser _ _ _ _ _ _ _ _ _ E) (rtc_refl _ _)) as (_ & _ & _ & _ & Hlater & _).
  apply Hlater.
Defined.

(** The same approval pressed in Telegram. *)
Definition example_telegram_job : Job :=
  mkJob 1 "telegram_recommendation_action" None
    [("action", JStr (u "approve")); ("recommendation_id", JStr (str_of_uuid 5)); ("callback_query_id", JStr (u "cb"));
     ("approver_user_id", JStr (u "42")); ("configuration_version", JNum 4);
     ("evidence_checksum", JStr (u "abcdef01"))]%string
    running 1 0 None [] [] 0.
Definition example_telegram : outcome unit * Store :=
  begin (do_recommendation_action applying_env example_telegram_job) example_undecided.

Example example_telegram_fails : example_telegram.1 = Err BAD_UUID.
Proof. vm_compute. reflexivity. Qed.

Lemma telegram_never_schedules_witness :
  example_telegram.1 = Err BAD_UUID ∧
  (is_Some (st_configurations example_telegram.2 !! 100%N) → is_Some (st_configurations example_undecided !! 100%N)).
Proof.
  split; [vm_compute; reflexivity|].
  apply (telegram_never_schedules applying_env example_telegram_job example_undecided example_telegram.2 example_telegram.1).
  unfold example_telegram. apply surjective_pairing.
Defined.

(** A recommendation for a segment that was dropped. *)
Definition example_dropped : Store :=
  example_undecided <| st_recommendations := {[ 5%N := example_recommendation <| sn_segment_key := u "PA::gutters" |> ]} |>.

Lemma refused_approval_drops_schedule_witness :
  st_configurations example_dropped !! 9%N = Some example_scheduled ∧
  ∃ s' detail,
    decide_source_recommendation applying_env 5 "approve" 7 (u "agreed") None example_dropped =
      (Err (HTTPException 409 detail), s') ∧
    (∀ k c, st_configurations s' !! k = Some c → sc_status c ≠ "scheduled"%string).
Proof.
  split; [reflexivity|].
  destruct (refused_approval_drops_schedule applying_env 5 7 (u "agreed") None
    (example_recommendation <| sn_segment_key := u "PA::gutters" |>) example_latest example_dropped)
    as (s' & detail & E & Hnone & _); try (vm_compute; reflexivity).
  - cbn. set_solver.
  - exists s', detail. split; [exact E|exact Hnone].
Defined.
