(* ===== verification/CustomerRequests.v ===== *)
(** * [jawnix/customer_requests.py]: submitting and withdrawing Batch Requests

    A submission runs in three parts between which other sessions may commit:
    the optimistic check, the check and the billing decision under the Customer
    lock, and the insertion that the unique key guards.  They are composed in
    [submit_request] as the source composes them, and interleaved in the
    transition system of [submission_step]. *)

From S2P Require Import Prelude PyText States Models Activity Jobs LeadDatabases Wallet Billing.
From S2P Require Import BillingWallet Transitions.

Open Scope Z_scope.

(** ** Bounds and the submitted form *)

Definition MINIMUM_LEAD_COUNT : Z := 1.
Definition MAXIMUM_LEAD_COUNT : Z := 100000.
Definition CANCELABLE_STATUSES : list RequestStatus := [pending; approved; waiting_inventory].

Inductive StateMode : Type := all_saved | selected.
#[export] Instance StateMode_eq_dec : EqDecision StateMode.
Proof. solve_decision. Defined.
Definition state_mode_value (mode : StateMode) : text :=
  match mode with all_saved => u "all_saved" | selected => u "selected" end.

Record CustomerRequestCreate : Type := mkCustomerRequestCreate {
  cr_idempotency_key : text;
  cr_lead_count : Z;
  cr_rows_per_file : option Z;
  cr_state_mode : StateMode;
  cr_states : list text;
  cr_expected_lead_rate_cents_per_thousand : option Z
}.

(** A character of [[A-Za-z0-9._:-]]. *)
Definition key_char (c : N) : bool :=
  ((65 <=? c) && (c <=? 90) || (97 <=? c) && (c <=? 122) || (48 <=? c) && (c <=? 57)
   || (c =? 46) || (c =? 95) || (c =? 58) || (c =? 45))%N.

Definition in_range (low high : Z) (n : Z) : bool := (low <=? n) && (n <=? high).

Section Validate.
Context `{CaseMapping}.

(** What the schema's fields and validators make of a submitted body. *)
Definition validate_request_create (body : CustomerRequestCreate) : outcome CustomerRequestCreate :=
  let key := cr_idempotency_key body in
  refuse_if (negb (in_range 8 64 (Z.of_nat (length key)) && forallb key_char key))
    (ValueError (u "idempotency_key")) ;;
  refuse_if (negb (in_range 1 100000 (cr_lead_count body))) (ValueError (u "lead_count")) ;;
  refuse_if (negb (from_option (in_range 1 100000) true (cr_rows_per_file body)))
    (ValueError (u "rows_per_file")) ;;
  refuse_if (negb (from_option (in_range 100 2000) true (cr_expected_lead_rate_cents_per_thousand body)))
    (ValueError (u "expected_lead_rate_cents_per_thousand")) ;;
  states ← normalize_states (cr_states body);
  refuse_if (bool_decide (cr_state_mode body = selected) && bool_decide (states = []))
    (ValueError (u "Select at least one Licensed State for this request.")) ;;
  Ok (mkCustomerRequestCreate key (cr_lead_count body) (cr_rows_per_file body) (cr_state_mode body)
        states (cr_expected_lead_rate_cents_per_thousand body)).
End Validate.

(** ** Blockers *)

Record CustomerOverviewAction : Type := mkOverviewAction {
  oa_kind : string; oa_label : text; oa_description : text; oa_href : text }.
Record CustomerRequestBlocker : Type := mkBlocker {
  bk_reason : string; bk_label : text; bk_description : text; bk_action : CustomerOverviewAction }.

Definition MAPPING_UNCONFIRMED : CustomerRequestBlocker :=
  mkBlocker "mapping_unconfirmed" (u "Your account is still being set up")
    (u "An administrator is confirming your Customer mapping. You can request a Batch as soon as that is done.")
    (mkOverviewAction "review_account" (u "Review Account")
       (u "Check the account details we have for you.") (u "/app/account")).
Definition NO_LICENSED_STATES : CustomerRequestBlocker :=
  mkBlocker "no_licensed_states" (u "Add a Licensed State first")
    (u "A Batch Request covers the states you are licensed in. Add at least one before requesting a Batch.")
    (mkOverviewAction "add_licensed_states" (u "Add Licensed States")
       (u "Save the states you are licensed in.") (u "/app/account")).

Section Submission.
Context `{CaseMapping}.

Definition request_blocker (profile : CustomerProfile) : outcome (option CustomerRequestBlocker) :=
  if bool_decide (pf_mapping_confirmed_at profile = None) || bool_decide (pf_agent_id profile = None)
  then Ok (Some MAPPING_UNCONFIRMED) else
  licensed ← normalize_states (pf_licensed_states profile);
  Ok (if bool_decide (licensed = []) then Some NO_LICENSED_STATES else None).

(** ** Submission *)

Definition requested_states (payload : CustomerRequestCreate) (licensed_states : list text)
    : outcome (list text) :=
  if bool_decide (cr_state_mode payload = all_saved) then Ok licensed_states else
  let unlicensed := sorted_set (List.filter (λ st, bool_decide (st ∉ licensed_states)) (cr_states payload)) in
  refuse_if (negb (bool_decide (unlicensed = [])))
    (RequestSubmissionError (u "These are not Licensed States on your account: "
       ++ join (u ", ") unlicensed ++ u ".") 422) ;;
  normalize_states (cr_states payload).

Definition is_submission (user_id : uuid) (idempotency_key : text) (q : LeadRequest) : bool :=
  bool_decide (rq_user_id q = user_id) && bool_decide (rq_idempotency_key q = Some idempotency_key).

Definition existing_submission (s : Store) (user_id : uuid) (idempotency_key : text) : option LeadRequest :=
  List.find (is_submission user_id idempotency_key) (map_to_list (st_requests s)).*2.

(** [profile.customer] with its Agency: missing, inactive or deleted. *)
Definition mapping_inactive (s : Store) (profile : CustomerProfile) : bool :=
  match pf_agent_id profile ≫= (st_customers s !!.) with
  | None => true
  | Some customer =>
      negb (cu_active customer) || negb (bool_decide (cu_deleted_at customer = None)) ||
      match cu_agency_id customer ≫= (st_agencies s !!.) with
      | None => false
      | Some agency => negb (ag_active agency) || negb (bool_decide (ag_deleted_at agency = None))
      end
  end.

Definition MAPPING_MUST_BE_ACTIVE : text :=
  u "Your distribution mapping must be active and confirmed before requesting a Batch.".

(** The optimistic check: the request this key already made, or the states
    the submission may cover. *)
Definition check_submission (user_id : uuid) (profile : CustomerProfile) (payload : CustomerRequestCreate)
    : M Store (LeadRequest + list text) :=
  existing ← gets (λ s, existing_submission s user_id (cr_idempotency_key payload));
  match existing with
  | Some item => mret (inl item)
  | None =>
      blocker ← lift (request_blocker profile);
      (match blocker with
       | Some b => raise (RequestSubmissionError (bk_description b) 409)
       | None => mret tt
       end) ;;
      inactive ← gets (λ s, mapping_inactive s profile);
      raise_if inactive (RequestSubmissionError MAPPING_MUST_BE_ACTIVE 409) ;;
      licensed_states ← lift (normalize_states (pf_licensed_states profile));
      states ← lift (requested_states payload licensed_states);
      mret (inr states)
  end.

(** Under the Customer lock: check again, then freeze the billing terms. *)
Definition prepare_locked (user_id : uuid) (profile : CustomerProfile) (payload : CustomerRequestCreate)
    : M Store (LeadRequest + SubmissionBilling) :=
  existing ← gets (λ s, existing_submission s user_id (cr_idempotency_key payload));
  match existing with
  | Some item => mret (inl item)
  | None =>
      billing ← try_catch
        (match pf_agent_id profile with
         | Some customer_id => prepare_submission customer_id (cr_lead_count payload)
                                 (cr_expected_lead_rate_cents_per_thousand payload)
         | None => raise (BillingError (u "Customer was not found.") 404)
         end)
        (λ e, match e with
              | BillingError detail status_code => Some (raise (RequestSubmissionError detail status_code))
              | _ => None
              end);
      mret (inr billing)
  end.

Definition new_request (env : Env) (id user_id : uuid) (profile : CustomerProfile) (customer_id : Z)
    (payload : CustomerRequestCreate) (states : list text) : LeadRequest :=
  mkLeadRequest id user_id customer_id (cr_lead_count payload)
    (match cr_rows_per_file payload with
     | Some n => if n =? 0 then cr_lead_count payload else n
     | None => cr_lead_count payload
     end)
    (state_mode_value (cr_state_mode payload)) states (pf_email profile) pending None
    (u "Awaiting Telegram approval.") (now env) None None None None
    (Some (cr_idempotency_key payload)) false None None.

(** [db.add(item)], the hold, and the flush that meets the constraints. *)
Definition flush_submission (env : Env) (user_id : uuid) (profile : CustomerProfile)
    (payload : CustomerRequestCreate) (states : list text) (billing : SubmissionBilling)
    : M Store LeadRequest :=
  customer_id ← require (pf_agent_id profile) (IntegrityError (u "lead_requests.agent_id"));
  id ← uuid4;
  let item := new_request env id user_id profile customer_id payload states in
  id_taken ← gets (λ s, bool_decide (is_Some (st_requests s !! id)));
  raise_if id_taken (IntegrityError (u "lead_requests.id")) ;;
  key_taken ← gets (λ s, bool_decide (is_Some (existing_submission s user_id (cr_idempotency_key payload))));
  raise_if key_taken (IntegrityError (u "uq_lead_request_idempotency")) ;;
  put_request item ;;
  place_batch_hold env item billing ;;
  stored ← gets (λ s, st_requests s !! id);
  mret (default item stored).

(** The insertion; the loser of a race leaves with the winner's request. *)
Definition insert_submission (env : Env) (user_id : uuid) (profile : CustomerProfile)
    (payload : CustomerRequestCreate) (states : list text) (billing : SubmissionBilling)
    : M Store (LeadRequest * bool) :=
  inserted ← try_catch
    (begin (item ← flush_submission env user_id profile payload states billing; mret (item, true)))
    (λ e, match e with
          | IntegrityError _ => Some (
              raced ← gets (λ s, existing_submission s user_id (cr_idempotency_key payload));
              match raced with Some item => mret (item, false) | None => raise e end)
          | _ => None
          end);
  when (inserted.2) (enqueue env "notify_request" (Some (rq_id inserted.1))) ;;
  mret inserted.

Definition submit_request (env : Env) (user_id : uuid) (profile : CustomerProfile)
    (payload : CustomerRequestCreate) : M Store (LeadRequest * bool) :=
  checked ← check_submission user_id profile payload;
  match checked with
  | inl item => mret (item, false)
  | inr states =>
      prepared ← prepare_locked user_id profile payload;
      match prepared with
      | inl item => mret (item, false)
      | inr billing => insert_submission env user_id profile payload states billing
      end
  end.
End Submission.

(** ** Cancellation *)

(** [customer_history.request_history_scope] *)
Definition request_history_scope (profile : CustomerProfile) (user_id : uuid) (q : LeadRequest) : bool :=
  match pf_agent_id profile with
  | Some customer_id => rq_agent_id q =? customer_id
  | None => bool_decide (rq_user_id q = user_id)
  end.

Definition cancel_request (env : Env) (user_id request_id : uuid) (message : text) : M Store LeadRequest :=
  profile ← gets (λ s, st_profiles s !! user_id);
  found ← gets (λ s, st_requests s !! request_id);
  let scoped q := match profile with
                  | Some p => request_history_scope p user_id q
                  | None => bool_decide (rq_user_id q = user_id)
                  end in
  item ← require (found ≫= λ q, if scoped q then Some q else None)
    (RequestSubmissionError (u "Request was not found.") 404);
  raise_if (bool_decide (rq_status item ∉ CANCELABLE_STATUSES))
    (RequestSubmissionError
       (u "This request has already started delivery and can no longer be canceled.") 409) ;;
  let item := item <| rq_status := canceled |> <| rq_status_message := message |>
                   <| rq_closed_at := Some (now env) |> in
  put_request item ;;
  release_batch_hold env item ;;
  enqueue env "update_notification" (Some (rq_id item)) ;;
  mret item.

(** ** Concurrent submissions

    Where a submission stands between the parts. *)
Inductive Phase : Type :=
| Arrived
| Checked (states : list text)
| Prepared (states : list text) (billing : SubmissionBilling)
| Answered (item : LeadRequest) (created : bool)
| Refused (e : exn).

Record Submission : Type := mkSubmission {
  sm_user : uuid;
  sm_profile : CustomerProfile;
  sm_payload : CustomerRequestCreate;
  sm_phase : Phase
}.
Definition in_phase (sub : Submission) (phase : Phase) : Submission :=
  mkSubmission (sm_user sub) (sm_profile sub) (sm_payload sub) phase.

Definition after_check (o : outcome (LeadRequest + list text)) : Phase :=
  match o with
  | Ok (inl item) => Answered item false
  | Ok (inr states) => Checked states
  | Err e => Refused e
  end.
Definition after_prepare (states : list text) (o : outcome (LeadRequest + SubmissionBilling)) : Phase :=
  match o with
  | Ok (inl item) => Answered item false
  | Ok (inr billing) => Prepared states billing
  | Err e => Refused e
  end.
Definition after_insert (o : outcome (LeadRequest * bool)) : Phase :=
  match o with Ok (item, created) => Answered item created | Err e => Refused e end.

(** The Customer whose row a submission holds locked. *)
Definition lock_of (sub : Submission) : option Z :=
  match sm_phase sub with Prepared _ _ => pf_agent_id (sm_profile sub) | _ => None end.

(** What the rest of the system does meanwhile: any billing step, with
    adjustments among the [allowed] ones, that takes nothing from a locked
    Customer's wallet, where requests keep their submitter and key and none is
    added. *)
Definition submission_key (q : LeadRequest) : uuid * option text := (rq_user_id q, rq_idempotency_key q).
Record background `{StripeClient} (allowed : Z → Prop) (subs : list Submission) (s s' : Store) : Prop := {
  bg_step : billing_step allowed s s';
  bg_keys : ∀ id, submission_key <$> st_requests s' !! id = submission_key <$> st_requests s !! id;
  bg_locked : ∀ i sub c, subs !! i = Some sub → lock_of sub = Some c →
    available_cents s c ≤ available_cents s' c
}.

Section Concurrent.
Context `{CaseMapping, StripeClient} (allowed : Z → Prop).

Inductive submission_step : Store * list Submission → Store * list Submission → Prop :=
| step_check i sub s subs o s' :
    subs !! i = Some sub → sm_phase sub = Arrived →
    check_submission (sm_user sub) (sm_profile sub) (sm_payload sub) s = (o, s') →
    submission_step (s, subs) (s', <[i := in_phase sub (after_check o)]> subs)
| step_prepare i sub states s subs o s' :
    subs !! i = Some sub → sm_phase sub = Checked states →
    (∀ j other, subs !! j = Some other → lock_of other = None ∨ lock_of other ≠ pf_agent_id (sm_profile sub)) →
    prepare_locked (sm_user sub) (sm_profile sub) (sm_payload sub) s = (o, s') →
    submission_step (s, subs) (s', <[i := in_phase sub (after_prepare states o)]> subs)
| step_insert env i sub states billing s subs o s' :
    subs !! i = Some sub → sm_phase sub = Prepared states billing →
    insert_submission env (sm_user sub) (sm_profile sub) (sm_payload sub) states billing s = (o, s') →
    submission_step (s, subs) (s', <[i := in_phase sub (after_insert o)]> subs)
| step_background s subs s' :
    background allowed subs s s' → submission_step (s, subs) (s', subs).
End Concurrent.

(** One request per submitter and key. *)
Definition unique_submissions (s : Store) : Prop :=
  ∀ i j q q' key, st_requests s !! i = Some q → st_requests s !! j = Some q' →
    submission_key q = submission_key q' → rq_idempotency_key q = Some key → i = j.

(** ** Lemmas *)

Lemma existing_submission_Some s user key q :
  existing_submission s user key = Some q →
  (∃ i, st_requests s !! i = Some q) ∧ submission_key q = (user, Some key).
Proof.
  unfold existing_submission, is_submission, submission_key.
  intros [([i q'] & -> & Hq%elem_of_map_to_list)%list_elem_of_In%list_elem_of_fmap Hk]%List.find_some. bool_inv.
  cbn in *. subst. split; [by eexists | congruence].
Qed.

Lemma existing_submission_None s user key i q :
  existing_submission s user key = None → st_requests s !! i = Some q →
  submission_key q ≠ (user, Some key).
Proof.
  unfold existing_submission, submission_key. intros Hn Hq [= Eu Ek].
  assert (List.In q (map_to_list (st_requests s)).*2) as Hin.
  { apply list_elem_of_In, list_elem_of_fmap. exists (i, q). split; [done|]. by apply elem_of_map_to_list. }
  pose proof (List.find_none _ _ Hn q Hin) as Hf.
  unfold is_submission in Hf. rewrite !bool_decide_eq_true_2 in Hf by done. done.
Qed.

(** Submitting again finds the request of that key. *)
Lemma existing_submission_unique s user key i q :
  unique_submissions s → st_requests s !! i = Some q → submission_key q = (user, Some key) →
  existing_submission s user key = Some q.
Proof.
  intros Hu Hq Hk. destruct (existing_submission s user key) as [q'|] eqn:E.
  - apply existing_submission_Some in E as [[j Hj] Hk']. f_equal.
    assert (i = j) as <- by (eapply (Hu i j q q' key); unfold submission_key in *; congruence). congruence.
  - by destruct (existing_submission_None _ _ _ _ _ E Hq).
Qed.

Section Parts.
Context `{CaseMapping}.

(** The first two parts only read. *)
Lemma check_submission_inv user profile payload s o s' :
  check_submission user profile payload s = (o, s') →
  s' = s ∧ match o with
           | Ok (inl item) => existing_submission s user (cr_idempotency_key payload) = Some item
           | Ok (inr states) => existing_submission s user (cr_idempotency_key payload) = None ∧
               mapping_inactive s profile = false ∧ pf_mapping_confirmed_at profile ≠ None ∧
               ∃ licensed, normalize_states (pf_licensed_states profile) = Ok licensed ∧ licensed ≠ [] ∧
                 requested_states payload licensed = Ok states
           | Err _ => existing_submission s user (cr_idempotency_key payload) = None
           end.
Proof.
  unfold check_submission. rewrite bind_gets.
  destruct (existing_submission s user _) as [item|] eqn:E; [by intros [= <- <-]|].
  unfold mbind at 1, M_bind at 1. rewrite lift_run. destruct (request_blocker profile) as [[b|]|e] eqn:Eb.
  1, 3: by intros [= <- <-].
  rewrite bind_ret, bind_gets. destruct (mapping_inactive s profile) eqn:Ei; [by intros [= <- <-]|].
  rewrite bind_raise_if_false by done. unfold mbind at 1, M_bind at 1. rewrite lift_run.
  unfold request_blocker in Eb.
  destruct (bool_decide (pf_mapping_confirmed_at profile = None)) eqn:Ec; [done|].
  destruct (bool_decide (pf_agent_id profile = None)) eqn:Ea; [done|]. cbn in Eb. bool_inv.
  destruct (normalize_states _) as [licensed|e] eqn:El; [|by intros [= <- <-]]. cbn in Eb.
  case_bool_decide; [done|].
  unfold mbind at 1, M_bind at 1. rewrite lift_run. destruct (requested_states payload licensed) eqn:Er.
  - intros [= <- <-]. split; [done|]. split_and!; try done. by exists licensed.
  - by intros [= <- <-].
Qed.

Lemma prepare_locked_inv user profile payload s o s' :
  prepare_locked user profile payload s = (o, s') →
  s' = s ∧ match o with
           | Ok (inl item) => existing_submission s user (cr_idempotency_key payload) = Some item
           | Ok (inr billing) => existing_submission s user (cr_idempotency_key payload) = None ∧
               ∃ cid, pf_agent_id profile = Some cid ∧
                 prepare_submission cid (cr_lead_count payload)
                   (cr_expected_lead_rate_cents_per_thousand payload) s = (Ok billing, s)
           | Err _ => existing_submission s user (cr_idempotency_key payload) = None
           end.
Proof.
  unfold prepare_locked. rewrite bind_gets.
  destruct (existing_submission s user _) as [item|] eqn:E; [by intros [= <- <-]|].
  unfold mbind, M_bind, try_catch. destruct (pf_agent_id profile) as [cid|]; [|by intros [= <- <-]].
  destruct (prepare_submission _ _ _ s) as [[b|e] s1] eqn:Ep.
  - pose proof Ep as [-> _]%prepare_submission_inv. intros [= <- <-]. split; [done|]. split; [done|]. by exists cid.
  - assert (s1 = s) as ->.
    { pose proof (prepare_submission_reads cid (cr_lead_count payload)
        (cr_expected_lead_rate_cents_per_thousand payload) s) as Hr. by rewrite Ep in Hr. }
    destruct e; by intros [= <- <-].
Qed.
End Parts.

(** ** What the insertion does *)

(** The tables a submission may change, unchanged. *)
Definition same_submissions (s s' : Store) : Prop :=
  st_requests s' = st_requests s ∧ same_wallets s s' ∧ st_customers s' = st_customers s.

(** The row a submission leaves and its hold. *)
Definition priced (q : LeadRequest) (billing : SubmissionBilling) : LeadRequest :=
  q <| rq_is_billed := sb_is_billed billing |>
    <| rq_lead_rate_cents_per_thousand := sb_lead_rate_cents_per_thousand billing |>
    <| rq_billing_amount_cents := sb_amount_cents billing |>.

Record submitted (env : Env) (s s' : Store) (q : LeadRequest) (billing : SubmissionBilling) : Prop := {
  su_fresh : st_requests s !! rq_id q = None;
  su_requests : st_requests s' = <[rq_id q := priced q billing]> (st_requests s);
  su_ledger : st_ledger s' = st_ledger s;
  su_purchases : st_purchases s' = st_purchases s;
  su_customers : st_customers s' = st_customers s;
  su_holds :
    if sb_is_billed billing then
      ∃ amount h, sb_amount_cents billing = Some amount ∧ 0 ≤ amount ∧ st_holds s !! rq_id q = None ∧
        ho_request_id h = rq_id q ∧ ho_customer_id h = rq_agent_id q ∧ ho_amount_cents h = amount ∧
        ho_status h = hold_active ∧ st_holds s' = <[rq_id q := h]> (st_holds s)
    else st_holds s' = st_holds s
}.

Lemma flush_submission_inv env user profile payload states billing s item s' :
  flush_submission env user profile payload states billing s = (Ok item, s') →
  existing_submission s user (cr_idempotency_key payload) = None ∧
  ∃ cid q, pf_agent_id profile = Some cid ∧
    q = new_request env (rq_id item) user profile cid payload states ∧
    item = priced q billing ∧ submitted env s s' q billing.
Proof.
  unfold flush_submission, uuid4, put_request. intros H.
  apply bind_Ok_inv in H as (cid & s0 & Hc & H). apply require_Ok_inv in Hc as [Hc ->].
  rewrite bind_bind, bind_gets, bind_bind, bind_modify, bind_ret in H. cbv zeta in H.
  set (q := new_request _ _ _ _ _ _ _) in H. rewrite bind_gets in H.
  apply bind_Ok_inv in H as (? & s0 & Hg & H). apply raise_if_Ok_inv in Hg as (Hid & -> & _).
  rewrite bind_gets in H.
  apply bind_Ok_inv in H as (? & s0 & Hg & H). apply raise_if_Ok_inv in Hg as (Hkey & -> & _).
  rewrite bind_modify in H. apply bind_Ok_inv in H as (r & s1 & Hp & H). rewrite bind_gets in H.
  apply ret_Ok_inv in H as [<- <-]. bool_inv. apply place_batch_hold_inv in Hp. cbv zeta in Hp. rsimpl.
  change (rq_id q) with (st_next_uuid s) in Hp.
  rewrite (alter_Some _ _ _ q), insert_insert_eq in Hp by apply lookup_insert_eq.
  split; [by apply eq_None_not_Some|]. exists cid, q. split; [done|].
  assert (st_requests s1 !! st_next_uuid s = Some (priced q billing)) as Hst.
  { destruct Hp as [(_ & _ & ->)|(_ & amount & h & _ & _ & _ & _ & _ & ->)]; rsimpl; by rewrite lookup_insert_eq. }
  rewrite Hst. cbn [default]. split; [reflexivity|]. split; [reflexivity|].
  assert (st_requests s !! rq_id q = None) as Hn by (by apply eq_None_not_Some).
  destruct Hp as [(Hb & _ & ->)|(Hb & amount & h & Ha & Hpos & Hh & _ & Eh & ->)];
    (split; rsimpl; [done..|]); rewrite Hb; [done|].
  exists amount, h. rewrite Eh. split_and!; done.
Qed.

Lemma insert_submission_inv env user profile payload states billing s o s' :
  insert_submission env user profile payload states billing s = (o, s') →
  match o with
  | Ok (item, true) =>
      existing_submission s user (cr_idempotency_key payload) = None ∧
      ∃ cid q, pf_agent_id profile = Some cid ∧
        q = new_request env (rq_id item) user profile cid payload states ∧
        item = priced q billing ∧ submitted env s s' q billing
  | Ok (item, false) => existing_submission s user (cr_idempotency_key payload) = Some item ∧
      same_submissions s s'
  | Err _ => same_submissions s s'
  end.
Proof.
  unfold insert_submission, begin, transaction, try_catch. unfold mbind at 1, M_bind at 1.
  unfold mbind at 1, M_bind at 1.
  destruct (flush_submission _ _ _ _ _ _ s) as [[item|e] s1] eqn:Ef.
  - apply flush_submission_inv in Ef as (Hn & cid & q & Hc & Hq & Hi & Hs). cbn [snd fst when].
    intros Hrun. unfold mret at 1, M_ret at 1 in Hrun. cbn [snd fst when] in Hrun.
    destruct (enqueue_total env "notify_request" (Some (rq_id item)) s1) as ([] & s2 & E2).
    rewrite (bind_Ok _ _ _ _ _ E2) in Hrun. injection Hrun as <- <-.
    split; [done|]. exists cid, q. split_and!; [done..|].
    unfold enqueue in E2. apply bind_Ok_inv in E2 as (j & s3 & E2 & E3). apply ret_Ok_inv in E3 as [_ <-].
    rewrite enqueue_job_run in E2. injection E2 as _ <-. by destruct Hs.
  - destruct e; try by intros [= <- <-].
    rewrite bind_gets. change (existing_submission (rollback s s1)) with (existing_submission s).
    destruct (existing_submission s user _) as [item|] eqn:Ee; cbn; by intros [= <- <-].
Qed.

(** ** The invariant of concurrent submissions *)

Definition key_of (sub : Submission) : uuid * option text :=
  (sm_user sub, Some (cr_idempotency_key (sm_payload sub))).

(** A prepared hold is still covered; an answer names a request of the key. *)
Definition covered (s : Store) (sub : Submission) : Prop :=
  match sm_phase sub with
  | Prepared _ billing => sb_is_billed billing = true →
      ∃ cid amount, pf_agent_id (sm_profile sub) = Some cid ∧ sb_amount_cents billing = Some amount ∧
        amount ≤ available_cents s cid
  | Answered item _ => ∃ q, st_requests s !! rq_id item = Some q ∧ submission_key q = key_of sub
  | _ => True
  end.

Definition has_created (sub : Submission) : bool :=
  match sm_phase sub with Answered _ created => created | _ => false end.

(** Wallets stay solvent when they are at first and no adjustment is a debit
    ([sound]): an administrator may take back more than is available. *)
Record system_inv (sound : Prop) (s : Store) (subs : list Submission) : Prop := {
  si_billing : billing_inv s;
  si_solvent : sound → ∀ c, solvent (wallet_of c s);
  si_unique : unique_submissions s;
  si_covered : ∀ i sub, subs !! i = Some sub → covered s sub;
  si_locks : ∀ i j a b c, subs !! i = Some a → subs !! j = Some b →
    lock_of a = Some c → lock_of b = Some c → i = j;
  si_created : ∀ i j a b, subs !! i = Some a → subs !! j = Some b →
    has_created a = true → has_created b = true → key_of a = key_of b → i = j
}.

Lemma covered_mono s s' sub :
  covered s sub →
  (∀ id q, st_requests s !! id = Some q →
     ∃ q', st_requests s' !! id = Some q' ∧ submission_key q' = submission_key q) →
  (∀ c, lock_of sub = Some c → available_cents s c ≤ available_cents s' c) → covered s' sub.
Proof.
  unfold covered, lock_of. destruct (sm_phase sub) as [| |states billing|item created|]; try done.
  - intros Hc _ Hl Hb. destruct (Hc Hb) as (cid & amount & Hcid & Ha & Hle). exists cid, amount.
    split_and!; try done. specialize (Hl _ Hcid). lia.
  - intros (q & Hq & <-) Hk _. by apply Hk.
Qed.

(** A submission moves on while the tables stay, creating nothing. *)
Lemma inv_phase sound s s' subs i sub ph :
  system_inv sound s subs → same_submissions s s' → subs !! i = Some sub →
  covered s (in_phase sub ph) → has_created (in_phase sub ph) = false →
  (∀ c j other, lock_of (in_phase sub ph) = Some c → subs !! j = Some other → lock_of other = Some c → j = i) →
  system_inv sound s' (<[i := in_phase sub ph]> subs).
Proof.
  intros [Hb Hs Hu Hc Hl Hcr] (Er & (Egl & Eh & Ep) & Ec) Hi Hcov Hno Hlock.
  assert (∀ c, wallet_of c s' = wallet_of c s) as Hw by (by apply refines_none).
  assert (∀ c, available_cents s c ≤ available_cents s' c) as Hav.
  { intros c. rewrite !available_cents_wallet, Hw. lia. }
  assert (∀ j x, <[i := in_phase sub ph]> subs !! j = Some x →
    (j = i ∧ x = in_phase sub ph) ∨ (j ≠ i ∧ subs !! j = Some x)) as Hins.
  { intros j x Hx. apply list_lookup_insert_Some in Hx as [(-> & <- & _)|[? ?]]; auto. }
  split.
  - apply (inv_frame s); [|done]. split; [done|..]; unfold keyed_requests, keyed_customers;
      rewrite ?Er, ?Ec; eauto.
  - intros Hall c. rewrite Hw. by apply Hs.
  - unfold unique_submissions. by rewrite Er.
  - intros j x [[-> ->]|[_ Hx]]%Hins; (eapply covered_mono; [eauto|rewrite Er; eauto|auto]).
  - intros j k a b c [[-> ->]|[Hj Ha]]%Hins [[-> ->]|[Hk Hb']]%Hins La Lb; [done|..].
    + symmetry. by eapply Hlock.
    + by eapply Hlock.
    + by eapply Hl.
  - intros j k a b [[-> ->]|[Hj Ha]]%Hins [[-> ->]|[Hk Hb']]%Hins Ca Cb; try congruence. by eapply Hcr.
Qed.

(** The key of the row a submission makes. *)
Lemma priced_key env id user profile cid payload states billing :
  submission_key (priced (new_request env id user profile cid payload states) billing)
  = (user, Some (cr_idempotency_key payload)).
Proof. done. Qed.

(** A covered insertion keeps the books and the wallets solvent, and touches
    no other Customer's wallet. *)
Lemma submitted_refines env s s' q billing :
  billing_inv s → submitted env s s' q billing →
  (sb_is_billed billing = true → ∃ amount, sb_amount_cents billing = Some amount ∧
     amount ≤ available_cents s (rq_agent_id q)) →
  billing_inv s' ∧ ((∀ c, solvent (wallet_of c s)) → ∀ c, solvent (wallet_of c s')) ∧
  (∀ c, c ≠ rq_agent_id q → wallet_of c s' = wallet_of c s).
Proof.
  intros Hinv [Hn Er El Ep Ec Hh] Hcov. destruct (sb_is_billed billing) eqn:Hb.
  - destruct Hh as (amount & h & Ha & Hpos & Hfree & Hid & Hcu & Ham & Hact & Eh).
    destruct (Hcov eq_refl) as (amount' & Ha' & Hle). assert (amount' = amount) as -> by congruence.
    assert (refines s (Some (ho_customer_id h, Reserve (rq_id q) (ho_amount_cents h))) s') as Hr.
    { apply refines_reserve; [by left|done|by rewrite Ham|by rewrite Ham, Hcu|done..]. }
    split; [|split].
    + apply (inv_submit s s' q (priced q billing) (Some h)); try done.
      split_and!; try done. by rewrite Ham.
    + by apply (refines_solvent _ _ _ Hr).
    + intros c Hc. specialize (Hr c). cbn in Hr. rewrite Hcu in Hr. by case_decide.
  - assert (refines s None s') as Hr by (by apply refines_none). split; [|split].
    + by apply (inv_submit s s' q (priced q billing) None).
    + by apply (refines_solvent _ _ _ Hr).
    + intros c _. apply (Hr c).
Qed.

Lemma unique_insert s s' q key :
  unique_submissions s → existing_submission s (rq_user_id q) key = None →
  rq_idempotency_key q = Some key → st_requests s' = <[rq_id q := q]> (st_requests s) →
  unique_submissions s'.
Proof.
  intros Hu Hn Hk Er i j a b k. rewrite Er, !lookup_insert.
  assert (∀ i0 q0, st_requests s !! i0 = Some q0 → submission_key q0 ≠ submission_key q) as Hne.
  { intros i0 q0 Hq0. unfold submission_key at 2. rewrite Hk. by eapply existing_submission_None. }
  case_decide as Hi; case_decide as Hj; intros Ha Hb Hkey Hka.
  - congruence.
  - injection Ha as <-. by destruct (Hne _ _ Hb).
  - injection Hb as <-. by destruct (Hne _ _ Ha).
  - by eapply (Hu i j).
Qed.

Lemma inv_created sound env s s' subs i sub states billing q item cid :
  system_inv sound s subs → subs !! i = Some sub → sm_phase sub = Prepared states billing →
  existing_submission s (sm_user sub) (cr_idempotency_key (sm_payload sub)) = None →
  pf_agent_id (sm_profile sub) = Some cid →
  q = new_request env (rq_id item) (sm_user sub) (sm_profile sub) cid (sm_payload sub) states →
  item = priced q billing → submitted env s s' q billing →
  system_inv sound s' (<[i := in_phase sub (Answered item true)]> subs).
Proof.
  intros [Hb Hs Hu Hc Hl Hcr] Hi Hph Hn Hcid Hq Hitem Hsub.
  assert (rq_agent_id q = cid) as Hag by (by rewrite Hq).
  assert (submission_key item = key_of sub) as Hkey by (by rewrite Hitem, Hq).
  assert (rq_id q = rq_id item) as Eid by (by rewrite Hitem).
  pose proof (su_requests _ _ _ _ _ Hsub) as Er. rewrite <- Hitem, Eid in Er.
  pose proof (su_fresh _ _ _ _ _ Hsub) as Hfresh. rewrite Eid in Hfresh.
  assert (lock_of sub = Some cid) as Hlock by (unfold lock_of; by rewrite Hph).
  destruct (submitted_refines env s s' q billing) as (Hb' & Hs' & Hw); [done..| |].
  { intros Hbill. specialize (Hc _ _ Hi). unfold covered in Hc. rewrite Hph in Hc.
    destruct (Hc Hbill) as (cid' & amount & Hcid' & Ha & Hle). exists amount. rewrite Hag.
    split; [done|]. by replace cid with cid' by congruence. }
  assert (∀ j x, <[i := in_phase sub (Answered item true)]> subs !! j = Some x →
    (j = i ∧ x = in_phase sub (Answered item true)) ∨ (j ≠ i ∧ subs !! j = Some x)) as Hins.
  { intros j x Hx. apply list_lookup_insert_Some in Hx as [(-> & <- & _)|[? ?]]; auto. }
  assert (∀ j x, subs !! j = Some x → has_created x = true → key_of x ≠ key_of sub) as Hfirst.
  { intros j x Hx Hx' Ek. specialize (Hc _ _ Hx). unfold covered, has_created in *.
    destruct (sm_phase x) as [| | |it c|]; try done. destruct Hc as (q0 & Hq0 & Hk0).
    eapply existing_submission_None; [exact Hn | exact Hq0|]. by rewrite Hk0. }
  split; [done|by intros Hall; apply Hs', Hs| | | |].
  - eapply (unique_insert s s' item); [done| | |exact Er].
    + change (rq_user_id item) with (submission_key item).1. rewrite Hkey. exact Hn.
    + change (rq_idempotency_key item) with (submission_key item).2. by rewrite Hkey.
  - intros j x [[-> ->]|[Hj Hx]]%Hins.
    + exists item. split; [by rewrite Er, lookup_insert_eq | done].
    + eapply covered_mono; [by eapply Hc|..].
      * intros id q0 Hq0. exists q0. split; [|done]. rewrite Er, lookup_insert_ne; [done|]. congruence.
      * intros c Hlx. rewrite !available_cents_wallet, (Hw c); [done|]. rewrite Hag. intros ->.
        by destruct Hj; eapply Hl.
  - intros j k a b c [[-> ->]|[Hj Ha]]%Hins [[-> ->]|[Hk Hb2]]%Hins La Lb; try done. by eapply Hl.
  - intros j k a b [[-> ->]|[Hj Ha]]%Hins [[-> ->]|[Hk Hb2]]%Hins Ca Cb Ek; [done|..].
    + by destruct (Hfirst _ _ Hb2).
    + by destruct (Hfirst _ _ Ha).
    + by eapply Hcr.
Qed.

Lemma inv_background `{StripeClient} allowed sound s s' subs :
  (sound → ∀ n, allowed n → 0 ≤ n) →
  system_inv sound s subs → background allowed subs s s' → system_inv sound s' subs.
Proof.
  intros Hpos [Hb Hs Hu Hc Hl Hcr] [Hstep Hkeys Hlock].
  pose proof (billing_step_sim _ _ _ Hb Hstep) as Hsim.
  assert (sound → ∀ c, solvent (wallet_of c s')) as Hs'.
  { intros Hsound. apply (simulated_solvent s); [|by apply Hs]. destruct Hsim as (Hb' & l & Hr & Hall).
    split; [done|]. exists l. split; [done|]. intros c n E. by eapply Hpos, Hall. }
  assert (∀ id q, st_requests s !! id = Some q →
    ∃ q', st_requests s' !! id = Some q' ∧ submission_key q' = submission_key q) as Hfwd.
  { intros id q Hq. specialize (Hkeys id). rewrite Hq in Hkeys. cbn in Hkeys.
    apply fmap_Some in Hkeys as (q' & ? & ?). eauto. }
  split; [apply Hsim|done| | |done..].
  - intros i j q q' key Hi Hj Ek Hk. pose proof (Hkeys i) as Ki. pose proof (Hkeys j) as Kj.
    rewrite Hi in Ki. rewrite Hj in Kj. cbn in Ki, Kj. symmetry in Ki, Kj.
    apply fmap_Some in Ki as (a & Ha & Ea). apply fmap_Some in Kj as (b & Hb' & Eb).
    eapply (Hu i j a b key); [done..|congruence|]. unfold submission_key in *. congruence.
  - intros i sub Hi. eapply covered_mono; [by eapply Hc|done|]. intros c Hlk. by eapply Hlock.
Qed.

Section Race.
Context `{CaseMapping, StripeClient} (allowed : Z → Prop) (sound : Prop) (Hpos : sound → ∀ n, allowed n → 0 ≤ n).

Lemma answered_covered s sub item created q :
  billing_inv s → existing_submission s (sm_user sub) (cr_idempotency_key (sm_payload sub)) = Some q →
  item = q → covered s (in_phase sub (Answered item created)).
Proof.
  intros Hb Hex ->. apply existing_submission_Some in Hex as [[i Hi] Hk]. exists q.
  by rewrite (bi_requests _ Hb _ _ Hi).
Qed.

Lemma submission_step_inv s subs s' subs' :
  system_inv sound s subs → submission_step allowed (s, subs) (s', subs') → system_inv sound s' subs'.
Proof using Hpos.
  intros Hinv Hstep. pose proof (si_billing _ _ _ Hinv) as Hb.
  inversion Hstep as [i sub ? ? o ? Hi Hph Hrun|i sub states ? ? o ? Hi Hph Hfree Hrun|
    env i sub states billing ? ? o ? Hi Hph Hrun|? ? ? Hbg]; subst.
  - apply check_submission_inv in Hrun as [-> Ho]. apply (inv_phase _ s); [done|done|done|..].
    + destruct o as [[item|states]|e]; cbn; try done. by eapply answered_covered.
    + by destruct o as [[item|states]|e].
    + by destruct o as [[item|states]|e].
  - apply prepare_locked_inv in Hrun as [-> Ho]. apply (inv_phase _ s); [done|done|done|..].
    + destruct o as [[item|billing]|e]; cbn; try done; [by eapply answered_covered|].
      destruct Ho as (_ & cid & Hcid & Hp). intros Hbill. cbn.
      apply prepare_submission_inv in Hp as (_ & customer & Hcu & [(_ & _ & ->)|(_ & rate & _ & _ & Hle & ->)]);
        [done|]. exists cid. eexists. rewrite (bi_customers _ Hb _ _ Hcu) in Hle. done.
    + by destruct o as [[item|billing]|e].
    + intros c j other Hlk Hj Hlo. destruct o as [[item|billing]|e]; try done. cbn in Hlk.
      destruct (Hfree _ _ Hj); congruence.
  - apply insert_submission_inv in Hrun. destruct o as [[item []]|e].
    + destruct Hrun as (Hn & cid & q & Hcid & Hq & Hitem & Hsub). by eapply inv_created.
    + destruct Hrun as [Hex Hsame]. apply (inv_phase _ s); try done. by eapply answered_covered.
    + by apply (inv_phase _ s).
  - by eapply inv_background.
Qed.

Lemma submission_run_inv sys sys' :
  system_inv sound sys.1 sys.2 → rtc (submission_step allowed) sys sys' → system_inv sound sys'.1 sys'.2.
Proof using Hpos.
  intros Hinv. induction 1 as [|sys [s1 l1] sys' Hstep _ IH]; [done|]. apply IH. destruct sys.
  by eapply submission_step_inv.
Qed.

Lemma arrived_inv s subs :
  billing_inv s → (sound → ∀ c, solvent (wallet_of c s)) → unique_submissions s →
  Forall (λ sub, sm_phase sub = Arrived) subs → system_inv sound s subs.
Proof.
  intros Hb Hs Hu Hall. rewrite Forall_lookup in Hall.
  split; try done; unfold covered, lock_of, has_created.
  - intros i sub ->%Hall. done.
  - intros i j a b c ->%Hall. done.
  - intros i j a b ->%Hall. done.
Qed.

End Race.

(** ** Properties *)

(** C22: Submissions race safely.  However the parts of any number of
    submissions interleave with each other and with the rest of billing
    (purchases, webhooks, charges, releases and adjustments, none of which
    takes from the wallet of a Customer a submission holds locked), no two
    requests share a submitter and key; submissions of one key that are
    answered are answered with the same request, which is on file; and at most
    one of them reports having created it.  If moreover no wallet is overspent
    at first and no administrator's adjustment is a debit, then none is
    overspent at the end. *)
Theorem submissions_race_safely `{CaseMapping, StripeClient} allowed s0 subs0 s subs :
  billing_inv s0 → unique_submissions s0 →
  Forall (λ sub, sm_phase sub = Arrived) subs0 →
  rtc (submission_step allowed) (s0, subs0) (s, subs) →
  unique_submissions s ∧
  ((∀ n, allowed n → 0 ≤ n) → (∀ c, solvent (wallet_of c s0)) → ∀ c, 0 ≤ available_cents s c) ∧
  (∀ i a item created, subs !! i = Some a → sm_phase a = Answered item created →
     ∃ q, st_requests s !! rq_id item = Some q ∧ submission_key q = key_of a) ∧
  (∀ i j a b item item' created created',
     subs !! i = Some a → subs !! j = Some b → key_of a = key_of b →
     sm_phase a = Answered item created → sm_phase b = Answered item' created' →
     rq_id item = rq_id item' ∧ (created = true → created' = true → i = j)).
Proof.
  intros Hb Hu Hall Hrun.
  set (sound := (∀ n, allowed n → 0 ≤ n) ∧ ∀ c, solvent (wallet_of c s0)).
  destruct (submission_run_inv allowed sound (λ Hsound, proj1 Hsound) (s0, subs0) (s, subs)
    (arrived_inv sound _ _ Hb (λ Hsound, proj2 Hsound) Hu Hall) Hrun) as [Hb' Hs' Hu' Hc Hl Hcr].
  cbn [fst snd] in *.
  assert (∀ i a item created, subs !! i = Some a → sm_phase a = Answered item created →
    ∃ q, st_requests s !! rq_id item = Some q ∧ submission_key q = key_of a) as Hans.
  { intros i a item created Ha Hph. specialize (Hc _ _ Ha). unfold covered in Hc. by rewrite Hph in Hc. }
  split; [done|]. split.
  { intros Hpos Hs c. rewrite available_cents_wallet. by apply Hs'. }
  split; [done|].
  intros i j a b item item' created created' Ha Hb2 Ek Hpa Hpb.
  destruct (Hans _ _ _ _ Ha Hpa) as (q & Hq & Hkq). destruct (Hans _ _ _ _ Hb2 Hpb) as (q' & Hq' & Hkq').
  split; [|intros -> ->].
  - eapply (Hu' _ _ q q'); [done..|congruence|]. change (rq_idempotency_key q) with (submission_key q).2.
    by rewrite Hkq.
  - eapply (Hcr i j a b); unfold has_created; by rewrite ?Hpa, ?Hpb.
Qed.

(** The states of a request are licensed, and there is at least one. *)
Lemma requested_states_licensed `{CaseMappingLaws} body payload profile licensed states :
  validate_request_create body = Ok payload →
  normalize_states (pf_licensed_states profile) = Ok licensed → licensed ≠ [] →
  requested_states payload licensed = Ok states →
  states ≠ [] ∧ (∀ st, st ∈ states → st ∈ licensed) ∧
  states = match cr_state_mode payload with all_saved => licensed | selected => cr_states payload end.
Proof.
  intros Hv Hl Hne Hr. unfold requested_states in Hr. case_bool_decide as Em.
  { injection Hr as <-. by rewrite Em. }
  assert (cr_state_mode payload = selected) as Es by (by destruct (cr_state_mode payload)).
  unfold validate_request_create in Hv. cbv zeta in Hv.
  do 4 (apply obind_Ok_inv in Hv as ([] & _ & Hv)).
  apply obind_Ok_inv in Hv as (sts & Hsts & Hv). apply obind_Ok_inv in Hv as ([] & Hsel & Hv).
  apply refuse_if_Ok_inv in Hsel. injection Hv as <-. cbn [cr_state_mode cr_states] in *. rewrite Es in Hsel.
  apply obind_Ok_inv in Hr as ([] & Hu & Hr). apply refuse_if_Ok_inv in Hu. bool_inv; [done|].
  cbn [cr_states] in Hr. rewrite (normalize_states_idemp _ _ Hsts) in Hr. injection Hr as <-. rewrite Es. split_and!; try done.
  intros st Hst. apply dec_stable. intros Hn.
  assert (st ∈ sorted_set (List.filter (λ x, bool_decide (x ∉ licensed)) sts)) as Hin.
  { apply elem_of_sorted_set, list_elem_of_In, filter_In. split; [by apply list_elem_of_In|].
    by apply bool_decide_eq_true. }
  rewrite Hu in Hin. by apply not_elem_of_nil in Hin.
Qed.

Lemma validate_bounds `{CaseMapping} body payload :
  validate_request_create body = Ok payload →
  MINIMUM_LEAD_COUNT ≤ cr_lead_count payload ≤ MAXIMUM_LEAD_COUNT ∧
  from_option (λ n, 1 ≤ n) True (cr_rows_per_file payload).
Proof.
  unfold validate_request_create, in_range. cbv zeta. intros Hv.
  apply obind_Ok_inv in Hv as ([] & _ & Hv). apply obind_Ok_inv in Hv as ([] & Hc & Hv).
  apply obind_Ok_inv in Hv as ([] & Hr & Hv). apply obind_Ok_inv in Hv as ([] & _ & Hv).
  apply obind_Ok_inv in Hv as (sts & _ & Hv). apply obind_Ok_inv in Hv as ([] & _ & Hv).
  apply refuse_if_Ok_inv in Hc, Hr. injection Hv as <-. cbn. bool_inv.
  split; [done|]. destruct (cr_rows_per_file body); cbn in *; [|done]. bool_inv. lia.
Qed.

(** C23: a new request freezes what was shown.  When a validated submission
    creates a request, it is pending for the mapped, active Customer, at the
    quantity asked for within the bounds, for states that are all licensed,
    the selected ones or else every licensed one; it is free, or the price is
    the rate the Customer was shown, held in full within the available
    balance; ledger, purchases and every other request are as they were. *)
Theorem submission_freezes_terms `{CaseMappingLaws} env user profile body payload s item s' :
  keyed_customers s →
  validate_request_create body = Ok payload →
  submit_request env user profile payload s = (Ok (item, true), s') →
  ∃ cid licensed, pf_agent_id profile = Some cid ∧ mapping_inactive s profile = false ∧
    normalize_states (pf_licensed_states profile) = Ok licensed ∧
    rq_status item = pending ∧ rq_agent_id item = cid ∧ submission_key item = (user, Some (cr_idempotency_key payload)) ∧
    rq_lead_count item = cr_lead_count payload ∧
    MINIMUM_LEAD_COUNT ≤ rq_lead_count item ≤ MAXIMUM_LEAD_COUNT ∧ 1 ≤ rq_rows_per_file item ∧
    rq_states_snapshot item ≠ [] ∧ (∀ st, st ∈ rq_states_snapshot item → st ∈ licensed) ∧
    rq_states_snapshot item =
      match cr_state_mode payload with all_saved => licensed | selected => cr_states payload end ∧
    st_requests s !! rq_id item = None ∧ st_requests s' = <[rq_id item := item]> (st_requests s) ∧
    st_ledger s' = st_ledger s ∧ st_purchases s' = st_purchases s ∧
    match cr_expected_lead_rate_cents_per_thousand payload with
    | None => rq_is_billed item = false ∧ st_holds s' = st_holds s
    | Some rate => let price := batch_cost_cents (rq_lead_count item) rate in
        rq_is_billed item = true ∧ rq_billing_amount_cents item = Some price ∧
        price ≤ available_cents s cid ∧
        ∃ h, ho_customer_id h = cid ∧ ho_amount_cents h = price ∧ ho_status h = hold_active ∧
          st_holds s' = <[rq_id item := h]> (st_holds s)
    end.
Proof.
  intros Hk Hv Hrun. destruct (validate_bounds _ _ Hv) as [Hcount Hrows].
  unfold submit_request in Hrun. apply bind_Ok_inv in Hrun as (o & s1 & Hc & Hrun).
  apply check_submission_inv in Hc as [-> Ho]. destruct o as [it|states]; [by run_inv|].
  destruct Ho as (_ & Hact & _ & licensed & Hl & Hne & Hr).
  apply bind_Ok_inv in Hrun as (o & s1 & Hp & Hrun).
  apply prepare_locked_inv in Hp as [-> Ho]. destruct o as [it|billing]; [by run_inv|].
  destruct Ho as (_ & cid & Hcid & Hp).
  apply insert_submission_inv in Hrun as (_ & cid' & q & Hcid' & Hq & Hitem & [Hn Er El Ep Ec Hh]).
  assert (cid' = cid) as -> by congruence.
  assert (rq_id q = rq_id item) as Eid by (by rewrite Hitem). rewrite Eid in *.
  destruct (requested_states_licensed _ _ _ _ _ Hv Hl Hne Hr) as (Hs1 & Hs2 & Hs3).
  exists cid, licensed. split; [done|]. split; [done|]. split; [done|].
  rewrite Hitem, Hq. split; [reflexivity|]. split; [reflexivity|]. split; [reflexivity|].
  split; [reflexivity|]. split; [exact Hcount|]. split.
  { change (1 ≤ match cr_rows_per_file payload with
                 | Some n => if n =? 0 then cr_lead_count payload else n
                 | None => cr_lead_count payload end).
    destruct (cr_rows_per_file payload) as [n|]; [destruct (Z.eqb_spec n 0)|]; cbn in *; lia || apply Hcount. }
  split; [exact Hs1|]. split; [exact Hs2|]. split; [exact Hs3|].
  rewrite <- Hq, <- Hitem. split; [done|]. split; [by rewrite <- Hitem in Er|]. split; [done|]. split; [done|].
  apply prepare_submission_inv in Hp as (_ & customer & Hcu & [(_ & -> & ->)|(_ & rate & _ & -> & Hle & ->)]);
    cbn [sb_is_billed] in Hh; [by rewrite Hitem|].
  destruct Hh as (amount & h & [= <-] & _ & _ & _ & Hhc & Hha & Hhs & Eh).
  rewrite (Hk _ _ Hcu) in Hle. assert (rq_lead_count item = cr_lead_count payload) as -> by (by rewrite Hitem, Hq).
  split; [by rewrite Hitem|]. split; [by rewrite Hitem|]. split; [done|].
  exists h. rewrite Hhc, Hq. done.
Qed.

(** Releasing the hold of a request that is being closed. *)
Lemma released_available env q q' rid s s2 :
  let s1 := s <| st_requests := <[rid := q']> (st_requests s) |> in
  billing_inv s → rq_id q' = rid → rq_is_billed q' = rq_is_billed q →
  release_batch_hold env q' s1 = (Ok tt, s2) →
  ∃ holds, s2 = s1 <| st_holds := holds |> ∧
    (rq_is_billed q = true → ∀ h, holds !! rid = Some h → ho_status h ≠ hold_active) ∧
    ∀ c, available_cents s2 c = available_cents s c +
      match st_holds s !! rid with
      | Some h => if rq_is_billed q && (ho_customer_id h =? c) && bool_decide (ho_status h = hold_active)
                  then ho_amount_cents h else 0
      | None => 0
      end.
Proof.
  intros s1 Hb Eid Ebill Hrel.
  apply release_batch_hold_inv in Hrel as [[-> Hno]|(Hbill & h & Hh & Ha & ->)]; rewrite Eid, Ebill in *.
  - exists (st_holds s). split; [done|]. change (st_holds s1) with (st_holds s) in Hno. split.
    + intros Hb1 h Hh. destruct Hno as [?|[?|(h' & ? & ?)]]; congruence.
    + intros c. change (available_cents s1 c) with (available_cents s c).
      destruct Hno as [->|[->|(h & -> & Hna)]]; [by case_match; rewrite Z.add_0_r|by rewrite Z.add_0_r|].
      rewrite (bool_decide_eq_false_2 _ Hna), andb_false_r. lia.
  - change (st_holds s1) with (st_holds s) in *. eexists. split; [reflexivity|]. split.
    { intros _ h'. rewrite lookup_insert_eq. by intros [= <-]. }
    intros c. rewrite !available_cents_wallet, Hh, Hbill, Ha, (bool_decide_eq_true_2 (hold_active = _)), andb_true_r by done.
    cbn [andb]. match goal with |- w_available (wallet_of c ?s2) = _ =>
      pose proof (refines_release s s2 rid h (h <| ho_status := hold_released |> <| ho_released_at := Some (now env) |>)
        Hh Ha eq_refl ltac:(discriminate) eq_refl eq_refl c) as Hr end.
    cbn in Hr. destruct (Z.eqb_spec (ho_customer_id h) c) as [<-|Hne].
    + rewrite decide_True in Hr by done. rewrite (wallet_step_available _ _ _ Hr), reserved_lookup, Hh. cbn.
      by rewrite reservation_active.
    + rewrite decide_False in Hr by congruence. rewrite Hr. lia.
Qed.

(** The row a cancellation leaves. *)
Definition withdrawn (env : Env) (message : text) (q : LeadRequest) : LeadRequest :=
  q <| rq_status := canceled |> <| rq_status_message := message |> <| rq_closed_at := Some (now env) |>.

Lemma cancel_request_refuses env user rid message s profile q :
  st_profiles s !! user = Some profile → st_requests s !! rid = Some q →
  request_history_scope profile user q = true → rq_status q ∉ CANCELABLE_STATUSES →
  ∃ e, cancel_request env user rid message s = (Err e, s).
Proof.
  intros Hp Hq Hsc Hst. unfold cancel_request. rewrite !bind_gets, Hp, Hq. cbv zeta.
  rewrite (bind_require_Some _ q) by (cbn; by rewrite Hsc).
  rewrite bool_decide_eq_true_2 by done. by eexists.
Qed.

Lemma cancel_request_accepts env user rid message s profile q :
  st_profiles s !! user = Some profile → st_requests s !! rid = Some q → rq_id q = rid →
  request_history_scope profile user q = true → rq_status q ∈ CANCELABLE_STATUSES →
  let q' := withdrawn env message q in
  ∃ s2 s3, release_batch_hold env q' (s <| st_requests := <[rid := q']> (st_requests s) |>) = (Ok tt, s2) ∧
    enqueue env "update_notification" (Some (rq_id q')) s2 = (Ok tt, s3) ∧
    cancel_request env user rid message s = (Ok q', s3).
Proof.
  intros Hp Hq Hid Hscope Hst q'. set (s1 := s <| st_requests := _ |>).
  destruct (release_batch_hold_total env q' s1) as (s2 & E2).
  destruct (enqueue_total env "update_notification" (Some (rq_id q')) s2) as ([] & s3 & E3).
  exists s2, s3. split; [done|]. split; [done|].
  unfold cancel_request. rewrite !bind_gets, Hp, Hq. cbv zeta.
  rewrite (bind_require_Some _ q) by (cbn; by rewrite Hscope).
  rewrite bind_raise_if_false by (apply bool_decide_eq_false_2; by intros ?).
  unfold put_request. rewrite bind_modify. fold (withdrawn env message q). fold q'.
  replace (<[rq_id q' := q']> (st_requests s)) with (<[rid := q']> (st_requests s)) by (by rewrite <- Hid).
  fold s1. rewrite (bind_Ok _ _ _ _ _ E2), (bind_Ok _ _ _ _ _ E3). done.
Qed.

Lemma cancel_request_window env user rid message s profile q q' s' :
  st_profiles s !! user = Some profile → st_requests s !! rid = Some q →
  request_history_scope profile user q = true →
  cancel_request env user rid message s = (Ok q', s') → rq_status q ∈ CANCELABLE_STATUSES.
Proof.
  intros Hp Hq Hsc Hrun. apply dec_stable. intros Hst.
  destruct (cancel_request_refuses env user rid message s profile q Hp Hq Hsc Hst) as [e E]. congruence.
Qed.

(** C24: cancellation gives the money back.  Within the window and the
    history scope of the caller, a cancellation succeeds; the request is
    canceled and stamped, its hold is released so that its amount is
    available again, and ledger, purchases and other requests are as they
    were.  Outside it is refused and nothing changes; in particular a second
    cancellation is refused. *)
Theorem cancellation_returns_the_hold env user rid message s profile q :
  billing_inv s → st_profiles s !! user = Some profile → st_requests s !! rid = Some q →
  request_history_scope profile user q = true →
  if bool_decide (rq_status q ∈ CANCELABLE_STATUSES) then
    ∃ q' s', cancel_request env user rid message s = (Ok q', s') ∧
      rq_status q' = canceled ∧ rq_closed_at q' = Some (now env) ∧ rq_agent_id q' = rq_agent_id q ∧
      st_requests s' = <[rid := q']> (st_requests s) ∧ st_ledger s' = st_ledger s ∧
      st_purchases s' = st_purchases s ∧
      (rq_is_billed q = true → ∀ h, st_holds s' !! rid = Some h → ho_status h ≠ hold_active) ∧
      (∀ c, available_cents s' c = available_cents s c +
         match st_holds s !! rid with
         | Some h => if rq_is_billed q && (ho_customer_id h =? c) && bool_decide (ho_status h = hold_active)
                     then ho_amount_cents h else 0
         | None => 0
         end) ∧
      ∃ e, cancel_request env user rid message s' = (Err e, s')
  else ∃ e, cancel_request env user rid message s = (Err e, s).
Proof.
  intros Hb Hp Hq Hscope. pose proof (bi_requests _ Hb _ _ Hq) as Hid.
  case_bool_decide as Hst; [|by eapply cancel_request_refuses].
  destruct (cancel_request_accepts env user rid message s profile q Hp Hq Hid Hscope Hst) as (s2 & s3 & E2 & E3 & Hrun).
  set (q' := withdrawn env message q) in *. set (s1 := s <| st_requests := _ |>) in *.
  exists q', s3. split; [done|]. split; [done|]. split; [done|]. split; [done|].
  assert (∃ holds, s2 = s1 <| st_holds := holds |> ∧
    (rq_is_billed q = true → ∀ h, holds !! rid = Some h → ho_status h ≠ hold_active) ∧
    ∀ c, available_cents s2 c = available_cents s c +
         match st_holds s !! rid with
         | Some h => if rq_is_billed q && (ho_customer_id h =? c) && bool_decide (ho_status h = hold_active)
                     then ho_amount_cents h else 0
         | None => 0
         end) as (holds & Es2 & Hh & Hav).
  { by apply (released_available env q q'). }
  unfold enqueue in E3. apply bind_Ok_inv in E3 as (j & s4 & E3 & E4). apply ret_Ok_inv in E4 as [_ <-].
  rewrite enqueue_job_run in E3. injection E3 as _ <-. rewrite Es2 in *.
  split; [done|]. split; [done|]. split; [done|]. split; [exact Hh|]. split; [exact Hav|].
  eapply cancel_request_refuses; [exact Hp|apply lookup_insert_eq|exact Hscope|]. unfold CANCELABLE_STATUSES. rewrite !not_elem_of_cons. by split_and!; [..|apply not_elem_of_nil].
Qed.

(** *** Concrete runs *)

#[local] Existing Instance ascii_case.
#[local] Existing Instance example_stripe.

Definition example_profile : CustomerProfile :=
  mkCustomerProfile 2%N (u "a@acme.test") (u "Ann") (u "Acme") [] [u "PA"; u "NJ"] (Some 7) (Some 0) 0 0.
Definition example_body : CustomerRequestCreate :=
  mkCustomerRequestCreate (u "key-0001") 100 None selected [u " pa "] (Some 1500).
Definition example_payload : CustomerRequestCreate :=
  mkCustomerRequestCreate (u "key-0001") 100 None selected [u "PA"] (Some 1500).

Example example_body_valid : validate_request_create example_body = Ok example_payload.
Proof. vm_compute. reflexivity. Qed.

Lemma example_funded_step : billing_step (λ n, 0 ≤ n) example_billing example_funded.
Proof. eapply (step_webhook _ _ example_env example_paid). apply surjective_pairing. Qed.
Lemma example_funded_inv : billing_inv example_funded.
Proof. exact (proj1 (billing_step_sim _ _ _ example_billing_inv example_funded_step)). Qed.
Lemma example_funded_solvent c : solvent (wallet_of c example_funded).
Proof.
  exact (simulated_solvent _ _ (billing_step_sim _ _ _ example_billing_inv example_funded_step) example_solvent c).
Qed.
Lemma example_funded_unique : unique_submissions example_funded.
Proof.
  intros i j q q' key Hi. assert (st_requests example_funded = ∅) as E by (vm_compute; reflexivity).
  by rewrite E, lookup_empty in Hi.
Qed.

(** Two submissions of one key, both past the optimistic check before either
    inserts: the first creates the request, the second leaves with it. *)
Definition example_arrival : Submission := mkSubmission 2%N example_profile example_payload Arrived.
Definition example_check (i : nat) (sys : Store * list Submission) : Store * list Submission :=
  let r := check_submission 2%N example_profile example_payload sys.1 in
  (r.2, <[i := in_phase example_arrival (after_check r.1)]> sys.2).
Definition example_prepare (i : nat) (sys : Store * list Submission) : Store * list Submission :=
  let r := prepare_locked 2%N example_profile example_payload sys.1 in
  (r.2, <[i := in_phase example_arrival (after_prepare [u "PA"] r.1)]> sys.2).
Definition example_insert (i : nat) (sys : Store * list Submission) : Store * list Submission :=
  let r := insert_submission example_env 2%N example_profile example_payload [u "PA"]
             (mkSubmissionBilling true (Some 1500) (Some 150)) sys.1 in
  (r.2, <[i := in_phase example_arrival (after_insert r.1)]> sys.2).

Definition example_race0 : Store * list Submission := (example_funded, [example_arrival; example_arrival]).
Definition example_race1 : Store * list Submission := example_check 0 example_race0.
Definition example_race2 : Store * list Submission := example_check 1 example_race1.
Definition example_race3 : Store * list Submission := example_prepare 0 example_race2.
Definition example_race4 : Store * list Submission := example_insert 0 example_race3.
Definition example_race5 : Store * list Submission := example_prepare 1 example_race4.

Definition example_checked : Submission := in_phase example_arrival (Checked [u "PA"]).
Definition example_prepared : Submission :=
  in_phase example_arrival (Prepared [u "PA"] (mkSubmissionBilling true (Some 1500) (Some 150))).

Lemma example_unlocked (subs : list Submission) (c : option Z) :
  lock_of <$> subs = [None; None] →
  ∀ j other, subs !! j = Some other → lock_of other = None ∨ lock_of other ≠ c.
Proof.
  intros E j other Hj. left. apply (f_equal (λ l, l !! j)) in E. rewrite list_lookup_fmap, Hj in E.
  destruct j as [|[|j]]; cbv in E |- *; congruence.
Qed.

Lemma example_race_run : rtc (submission_step (λ n, 0 ≤ n)) example_race0 example_race5.
Proof.
  apply (rtc_l _ _ example_race1).
  { apply (step_check _ 0 example_arrival); [done..|apply surjective_pairing]. }
  apply (rtc_l _ _ example_race2).
  { unfold example_race2. rewrite (surjective_pairing example_race1).
    apply (step_check _ 1 example_arrival); [vm_compute; reflexivity|done|apply surjective_pairing]. }
  apply (rtc_l _ _ example_race3).
  { unfold example_race3. rewrite (surjective_pairing example_race2).
    apply (step_prepare _ 0 example_checked [u "PA"]); [vm_compute; reflexivity|done| |apply surjective_pairing].
    by apply example_unlocked; vm_compute. }
  apply (rtc_l _ _ example_race4).
  { unfold example_race4. rewrite (surjective_pairing example_race3).
    apply (step_insert _ example_env 0 example_prepared [u "PA"]
      (mkSubmissionBilling true (Some 1500) (Some 150))); [vm_compute; reflexivity|done|apply surjective_pairing]. }
  apply rtc_once. unfold example_race5. rewrite (surjective_pairing example_race4).
  apply (step_prepare _ 1 example_checked [u "PA"]); [vm_compute; reflexivity|done| |apply surjective_pairing].
  by apply example_unlocked; vm_compute.
Qed.

Lemma submissions_race_safely_witness :
  (∀ c, 0 ≤ available_cents example_race5.1 c) ∧
  match example_race5.2 with
  | [a; b] => match sm_phase a, sm_phase b with
              | Answered item true, Answered item' false => rq_id item = rq_id item'
              | _, _ => False
              end
  | _ => False
  end.
Proof.
  pose proof example_race_run as Hrun. rewrite (surjective_pairing example_race5) in Hrun.
  destruct (submissions_race_safely (λ n, 0 ≤ n) example_funded [example_arrival; example_arrival] _ _ example_funded_inv
    example_funded_unique ltac:(repeat constructor) Hrun) as (_ & Hav & _ & _).
  split; [exact (Hav (λ n Hn, Hn) example_funded_solvent)|]. vm_compute. reflexivity.
Defined.

Lemma example_funded_keyed : keyed_customers example_funded.
Proof. exact (bi_customers _ example_funded_inv). Qed.

Definition example_submission : outcome (LeadRequest * bool) * Store :=
  submit_request example_env 2%N example_profile example_payload example_funded.

Lemma submission_freezes_terms_witness :
  ∃ item s', example_submission = (Ok (item, true), s') ∧ rq_status item = pending ∧
    rq_lead_count item = 100.
Proof.
  assert (match example_submission with (Ok (_, true), _) => true | _ => false end = true) as E
    by (vm_compute; reflexivity).
  destruct example_submission as [[[item []]|e] s'] eqn:Hrun; try discriminate E. exists item, s'.
  split; [reflexivity|]. unfold example_submission in Hrun.
  destruct (submission_freezes_terms example_env 2%N example_profile example_body example_payload example_funded
    item s' example_funded_keyed example_body_valid Hrun) as (cid & licensed & _ & _ & _ & Hs & _ & _ & Hn & _).
  split; [exact Hs | exact Hn].
Defined.

(** The request the race left, withdrawn again. *)
Definition example_withdraw : Store :=
  example_race5.1 <| st_profiles := {[ 2%N := example_profile ]} |>.
Definition example_held : LeadRequest :=
  default example_request ((map_to_list (st_requests example_withdraw)).*2 !! 0%nat).

Lemma billing_inv_profiles s v : billing_inv s → billing_inv (s <| st_profiles := v |>).
Proof. apply inv_frame. split; [done|eauto|done..]. Qed.

Lemma example_withdraw_inv : billing_inv example_withdraw.
Proof.
  pose proof (si_billing _ _ _ (submission_run_inv (λ n, 0 ≤ n) True (λ _ n Hn, Hn) example_race0 example_race5
    (arrived_inv True example_funded [example_arrival; example_arrival] example_funded_inv (λ _, example_funded_solvent)
      example_funded_unique ltac:(repeat constructor)) example_race_run)) as Hb.
  by apply billing_inv_profiles.
Qed.

Lemma cancellation_returns_the_hold_witness :
  ∃ q' s', cancel_request example_env 2%N (rq_id example_held) (u "Canceled by customer.") example_withdraw
             = (Ok q', s') ∧ available_cents s' 7 = available_cents example_withdraw 7 + 150.
Proof.
  pose proof (cancellation_returns_the_hold example_env 2%N (rq_id example_held) (u "Canceled by customer.")
    example_withdraw example_profile example_held example_withdraw_inv ltac:(vm_compute; reflexivity)
    ltac:(vm_compute; reflexivity) ltac:(vm_compute; reflexivity)) as Hc.
  assert (bool_decide (rq_status example_held ∈ CANCELABLE_STATUSES) = true) as E by (vm_compute; reflexivity).
  rewrite E in Hc. destruct Hc as (q' & s' & Hrun & _ & _ & _ & _ & _ & _ & _ & Hav & _).
  exists q', s'. split; [exact Hrun|]. rewrite Hav. vm_compute. reflexivity.
Defined.
