(* ===== verification/CustomerView.v ===== *)
(** * What a Customer sees of a Batch Request

    The milestone ledger of [jawnix/milestones.py], the request screens of
    [jawnix/customer_requests.py] and the attention queue of
    [jawnix/customer_overview.py]: pure functions of the store. *)

From S2P Require Import Prelude PyText States Models Jobs Billing BillingWallet Fulfillment Transitions.
From S2P Require Import Artifact Delivery CustomerRequests.

Open Scope Z_scope.

(** ** Milestones *)

Inductive MilestoneState : Type :=
| st_complete | st_current | st_paused | st_stopped | st_upcoming | st_not_reached.

Record CustomerMilestone : Type := mkMilestone {
  mi_key : string;
  mi_label : text;
  mi_description : text;
  mi_state : MilestoneState;
  mi_occurred_at : option datetime
}.
Record CustomerRequestPause : Type := mkPause {
  pa_kind : string; pa_milestone_key : string; pa_label : text; pa_description : text }.
Record CustomerRequestOutcome : Type := mkOutcome {
  oc_kind : string; oc_milestone_key : string; oc_label : text; oc_description : text;
  oc_tone : string; oc_occurred_at : option datetime }.
Record CustomerRequestMilestones : Type := mkMilestones {
  jm_milestones : list CustomerMilestone;
  jm_current_key : option string;
  jm_pause : option CustomerRequestPause;
  jm_outcome : option CustomerRequestOutcome
}.

Definition TERMINAL_OUTCOMES (status : RequestStatus) : option string :=
  match status with
  | rejected => Some "rejected"
  | canceled => Some "canceled"
  | failed => Some "failed"
  | _ => None
  end%string.
Definition AFTER_REVIEW : list RequestStatus := [processing; waiting_inventory; generated; delivered].

Definition reached (item : LeadRequest) : list (string * bool * option datetime) :=
  let after_review := bool_decide (rq_status item ∈ AFTER_REVIEW) in
  [("submitted", true, Some (rq_created_at item));
   ("approved", bool_decide (is_Some (rq_approved_at item)) || after_review, rq_approved_at item);
   ("preparing_batch", bool_decide (is_Some (rq_processed_at item)) || after_review, rq_processed_at item);
   ("delivered", bool_decide (is_Some (rq_delivered_at item)) || bool_decide (rq_status item = delivered),
    rq_delivered_at item)]%string.

Definition MILESTONE_COPY (key : string) : text * text :=
  match key with
  | "submitted" => (u "Submitted", u "We have your request for this quantity and these states.")
  | "approved" => (u "Approved", (u "Your request was approved " ++ EM_DASH ++ u " the Batch is being prepared.")%list)
  | "preparing_batch" => (u "Preparing Batch", u "We are selecting your leads and building your file.")
  | _ => (u "Delivered", u "Your Batch is available in the customer portal.")
  end%string.

Definition WAITING_DESCRIPTION : text :=
  u "We are holding this request until enough matching leads are available. Nothing has gone wrong and there is nothing you need to do "
  ++ EM_DASH ++ u " it moves on automatically as soon as inventory covers the full quantity.".

Definition OUTCOME_COPY (kind : string) : text * text * string :=
  match kind with
  | "rejected" => (u "Not Approved",
      u "This request was not approved, so no leads were reserved for it. You can submit a new request with a different quantity or scope.",
      "danger")
  | "canceled" => (u "Canceled",
      u "This request was withdrawn before any leads were reserved. You can submit a new request whenever you are ready.",
      "neutral")
  | _ => (u "Needs Attention",
      (u "We could not finish this request. Email noah@jawnix.com so I can sort it out "
       ++ EM_DASH ++ u " do not submit a duplicate request.")%list, "danger")
  end%string.

(** [max(index for index, (_, reached, _) in enumerate(progress) if reached)] *)
Definition last_reached (progress : list (string * bool * option datetime)) : nat :=
  foldr max 0%nat (imap (λ index (p : string * bool * option datetime), if p.1.2 then index else 0%nat) progress).

Definition milestone_state (index last : nat) (status : RequestStatus) : MilestoneState :=
  if (index <? last)%nat then st_complete
  else if (index =? last)%nat then
    if bool_decide (is_Some (TERMINAL_OUTCOMES status)) then st_stopped
    else if bool_decide (status = waiting_inventory) then st_paused
    else if bool_decide (status = delivered) then st_complete else st_current
  else if bool_decide (is_Some (TERMINAL_OUTCOMES status)) then st_not_reached else st_upcoming.

Definition milestone_at (last : nat) (status : RequestStatus) (index : nat)
    (entry : string * bool * option datetime) : CustomerMilestone :=
  let '(key, _, occurred_at) := entry in
  let state := milestone_state index last status in
  mkMilestone key (MILESTONE_COPY key).1
    (match state with st_paused => WAITING_DESCRIPTION | _ => (MILESTONE_COPY key).2 end) state occurred_at.

Definition build_milestones (item : LeadRequest) : CustomerRequestMilestones :=
  let progress := reached item in
  let last := last_reached progress in
  let outcome_kind := TERMINAL_OUTCOMES (rq_status item) in
  let milestones := imap (milestone_at last (rq_status item)) progress in
  let stopped_key := from_option mi_key ""%string (milestones !! last) in
  mkMilestones milestones
    (match outcome_kind with Some _ => None | None => Some stopped_key end)
    (if bool_decide (rq_status item = waiting_inventory)
     then Some (mkPause "inventory_wait" stopped_key (u "Waiting for Inventory") WAITING_DESCRIPTION)
     else None)
    ((λ kind, let '(label, description, tone) := OUTCOME_COPY kind in
              mkOutcome kind stopped_key label description tone (rq_closed_at item)) <$> outcome_kind).

(** ** The public vocabulary of statuses *)

Record CustomerOverviewStatus : Type := mkOverviewStatus {
  os_label : text; os_description : text; os_tone : string }.

(** Every status has an entry of the table, so the fallback is never read. *)
Definition customer_request_status (status : RequestStatus) : CustomerOverviewStatus :=
  match status with
  | pending => mkOverviewStatus (u "Submitted") (u "Your request is ready for review.") "info"
  | approved => mkOverviewStatus (u "Approved") (u "Your request was approved and is being prepared.") "info"
  | processing => mkOverviewStatus (u "Preparing Batch") (u "We are preparing your leads for delivery.") "warning"
  | waiting_inventory => mkOverviewStatus (u "Preparing Batch")
      (u "We are waiting for enough matching leads. There is nothing you need to do.") "warning"
  | generated => mkOverviewStatus (u "Preparing Batch") (u "Your Batch is prepared and being delivered.") "warning"
  | delivered => mkOverviewStatus (u "Delivered") (u "Your Batch has been delivered.") "success"
  | rejected => mkOverviewStatus (u "Not Approved")
      (u "This request was not approved. You can submit a new request.") "danger"
  | canceled => mkOverviewStatus (u "Canceled")
      (u "This request was canceled. You can submit a new request.") "neutral"
  | failed => mkOverviewStatus (u "Needs Attention")
      (u "We could not complete this request. Email noah@jawnix.com before trying again.") "danger"
  end.

(** ** The request screens *)

Record CustomerRequestAction : Type := mkRequestAction {
  ra_kind : string; ra_label : text; ra_description : text; ra_href : text }.

Definition support_action (settings : Settings) : CustomerRequestAction :=
  mkRequestAction "contact_support" (u "Contact Jawnix")
    (u "Send us this request and we will pick it up from here.") (u "mailto:" ++ support_email settings).
Definition REQUEST_AGAIN : CustomerRequestAction :=
  mkRequestAction "request_batch" (u "Request another Batch")
    (u "Start a new request with the quantity and states you want.") (u "/app/requests").
Definition SUBMIT_FEEDBACK : CustomerRequestAction :=
  mkRequestAction "submit_feedback" (u "Submit Lead Feedback")
    (u "Tell us how the leads in this Batch worked out.") (u "/app/feedback").

Definition next_action (settings : Settings) (item : LeadRequest) : option CustomerRequestAction :=
  match rq_status item with
  | delivered => Some SUBMIT_FEEDBACK
  | failed => Some (support_action settings)
  | rejected | canceled => Some REQUEST_AGAIN
  | _ => None
  end.

Record CustomerBatchArtifact : Type := mkCustomerArtifact {
  ca_filename : text; ca_row_count : Z; ca_parts : list (text * Z); ca_expires_at : option datetime;
  ca_available : bool; ca_download_href : option text }.
Record CustomerRequestLimits : Type := mkRequestLimits {
  li_minimum_lead_count : Z; li_maximum_lead_count : Z; li_licensed_states : list text }.
Record CustomerRequestDetail : Type := mkRequestDetail {
  de_id : uuid;
  de_lead_count : Z;
  de_rows_per_file : Z;
  de_states : list text;
  de_submitted_at : datetime;
  de_delivered_at : option datetime;
  de_status : CustomerOverviewStatus;
  de_milestones : CustomerRequestMilestones;
  de_can_cancel : bool;
  de_next_action : option CustomerRequestAction;
  de_receipt_href : text;
  de_artifact : option CustomerBatchArtifact
}.
Record CustomerRequestWorkspaceOut : Type := mkWorkspace {
  wo_limits : CustomerRequestLimits;
  wo_blocker : option CustomerRequestBlocker;
  wo_requests : list CustomerRequestDetail
}.

(** [ORDER BY created_at DESC, id DESC] *)
Definition newest_first (a b : LeadRequest) : Prop :=
  rq_created_at b < rq_created_at a ∨ (rq_created_at a = rq_created_at b ∧ (rq_id b ≤ rq_id a)%N).
#[export] Instance newest_first_dec a b : Decision (newest_first a b).
Proof. unfold newest_first. apply _. Defined.

(** The requests in the scope of a login, newest first. *)
Definition scoped_requests (s : Store) (profile : CustomerProfile) (user_id : uuid) : list LeadRequest :=
  merge_sort newest_first
    (List.filter (request_history_scope profile user_id) (map_to_list (st_requests s)).*2).

Section Screens.
Context `{CaseMapping}.

Definition artifact_download_filename (artifact : BatchArtifact) : text :=
  match ar_parts artifact with
  | [(filename, _)] => if ends_with (u ".zip") (py_lower (ar_filename artifact)) then filename
                       else ar_filename artifact
  | _ => ar_filename artifact
  end.

Definition request_limits (profile : CustomerProfile) : outcome CustomerRequestLimits :=
  licensed ← normalize_states (pf_licensed_states profile);
  Ok (mkRequestLimits MINIMUM_LEAD_COUNT MAXIMUM_LEAD_COUNT licensed).

Definition artifact_href (id : uuid) : text :=
  u "/api/me/batch-requests/" ++ str_of_uuid id ++ u "/artifact".

Definition customer_artifact (env : Env) (s : Store) (item : LeadRequest) (artifact : BatchArtifact)
    : CustomerBatchArtifact :=
  let available := artifact_available s (Some artifact) (now env) in
  mkCustomerArtifact (artifact_download_filename artifact) (ar_row_count artifact) (ar_parts artifact)
    (ar_expires_at artifact) available (if available then Some (artifact_href (rq_id item)) else None).

Definition request_detail (env : Env) (s : Store) (item : LeadRequest) : outcome CustomerRequestDetail :=
  let artifact := match rq_delivered_at item with Some _ => st_artifacts s !! rq_id item | None => None end in
  states ← normalize_states (rq_states_snapshot item);
  Ok (mkRequestDetail (rq_id item) (rq_lead_count item) (rq_rows_per_file item) states (rq_created_at item)
        (rq_delivered_at item) (customer_request_status (rq_status item)) (build_milestones item)
        (bool_decide (rq_status item ∈ CANCELABLE_STATUSES)) (next_action (settings env) item)
        (u "/app/requests?request=" ++ str_of_uuid (rq_id item))
        (customer_artifact env s item <$> artifact)).

Fixpoint mapM_outcome {A B} (f : A → outcome B) (l : list A) : outcome (list B) :=
  match l with
  | [] => Ok []
  | x :: l => y ← f x; ys ← mapM_outcome f l; Ok (y :: ys)
  end.

Definition build_request_workspace (env : Env) (s : Store) (user_id : uuid) (profile : CustomerProfile)
    (history_limit : nat) : outcome CustomerRequestWorkspaceOut :=
  let items := take history_limit (scoped_requests s profile user_id) in
  limits ← request_limits profile;
  blocker ← request_blocker profile;
  requests ← mapM_outcome (request_detail env s) items;
  Ok (mkWorkspace limits blocker requests).

(** ** The attention queue *)

Record CustomerOverviewItem : Type := mkOverviewItem {
  oi_id : text; oi_kind : string; oi_title : text; oi_description : text; oi_tone : string;
  oi_action : CustomerOverviewAction }.

Definition ARTIFACT_EXPIRING_SOON : Z := days 7.

Definition setup_item : CustomerOverviewItem :=
  mkOverviewItem (u "setup-problem:no-licensed-states") "setup_problem" (u "Add Licensed States")
    (u "Add at least one Licensed State before requesting a Batch.") "warning"
    (mkOverviewAction "add_licensed_states" (u "Open Account")
       (u "Add the states where you are licensed.") (u "/app/account")).

Definition waiting_item (request : LeadRequest) (states : list text) : CustomerOverviewItem :=
  mkOverviewItem (u "waiting-inventory:" ++ str_of_uuid (rq_id request)) "waiting_inventory"
    (u "Batch Request is waiting for inventory")
    (u "Review or cancel your " ++ format_thousands (rq_lead_count request) ++ u "-lead request for "
     ++ join (u ", ") states ++ u ".") "warning"
    (mkOverviewAction "review_request" (u "Review request") (u "Open this Batch Request's detail page.")
       (u "/app/requests?request=" ++ str_of_uuid (rq_id request))).

(** [max(1, ceil(remaining / timedelta(days=1)))]; the quotient is at most
    seven days in microseconds, which a float holds without rounding to a
    whole number of days. *)
Definition days_left (remaining : Z) : Z := Z.max 1 (- (- remaining / days 1)).

Definition expiring_item (request : LeadRequest) (days : Z) : CustomerOverviewItem :=
  mkOverviewItem (u "artifact-expiring:" ++ str_of_uuid (rq_id request)) "artifact_expiring"
    (u "Batch Artifact expires soon")
    (u "Download the " ++ format_thousands (rq_lead_count request) ++ u "-lead Batch Artifact within "
     ++ str_of_Z days ++ u " " ++ (if days =? 1 then u "day" else u "days") ++ u ".") "warning"
    (mkOverviewAction "download_artifact" (u "Download CSV")
       (u "Download this Batch Artifact before it expires.") (artifact_href (rq_id request))).

Definition ready_item (request : LeadRequest) : CustomerOverviewItem :=
  mkOverviewItem (u "batch-ready:" ++ str_of_uuid (rq_id request)) "batch_ready" (u "Your Batch is ready")
    (u "Download the " ++ format_thousands (rq_lead_count request) ++ u "-lead Batch Artifact.") "info"
    (mkOverviewAction "download_artifact" (u "Download CSV")
       (u "Download this Batch Artifact while it is live.") (artifact_href (rq_id request))).

Definition feedback_item (request : LeadRequest) : CustomerOverviewItem :=
  mkOverviewItem (u "feedback-nudge:" ++ str_of_uuid (rq_id request)) "feedback_nudge"
    (u "How did this Batch perform?")
    (u "Share one lead outcome from this " ++ format_thousands (rq_lead_count request) ++ u "-lead Batch.") "info"
    (mkOverviewAction "submit_feedback" (u "Give feedback")
       (u "Record one Lead Disposition or Quality Rating.")
       (u "/app/feedback?request=" ++ str_of_uuid (rq_id request))).

(** The targets of the downloads this login made. *)
Definition downloaded (s : Store) (user_id : uuid) : list text :=
  au_target_id <$> List.filter (λ a, bool_decide (au_action a = u "batch_artifact_downloaded") &&
    bool_decide (au_actor_user_id a = str_of_uuid user_id)) (st_audit s).

Definition distributed_request (s : Store) (id : uuid) : bool :=
  existsb (λ e, bool_decide (ev_request_id e = Some id)) (st_events s).

(** A disposition or an outcome joins an event of the request. *)
Definition feedback_given (s : Store) (id : uuid) : bool :=
  existsb (λ e, bool_decide (ev_request_id e = Some id) &&
    (existsb (λ t, dt_distribution_event_id t =? ev_id e) (map_to_list (st_dispositions s)).*2 ||
     existsb (λ o, lo_distribution_event_id o =? ev_id e) (map_to_list (st_outcomes s)).*2))
    (st_events s).

(** The body of the loop over the requests: at most one item each. *)
Definition overview_item (s : Store) (user_id : uuid) (moment : datetime) (request : LeadRequest)
    : outcome (option CustomerOverviewItem) :=
  match rq_status request with
  | waiting_inventory =>
      states ← normalize_states (rq_states_snapshot request);
      Ok (Some (waiting_item request states))
  | delivered =>
      if bool_decide (str_of_uuid (rq_id request) ∉ downloaded s user_id) then
        let artifact := st_artifacts s !! rq_id request in
        match artifact_available s artifact moment, artifact ≫= ar_expires_at with
        | true, Some expires_at =>
            let remaining := expires_at - moment in
            Ok (Some (if remaining <=? ARTIFACT_EXPIRING_SOON then expiring_item request (days_left remaining)
                      else ready_item request))
        | _, _ => Ok None
        end
      else Ok (if distributed_request s (rq_id request) && negb (feedback_given s (rq_id request))
               then Some (feedback_item request) else None)
  | _ => Ok None
  end.

Definition build_customer_overview (s : Store) (user_id : uuid) (profile : CustomerProfile) (moment : datetime)
    : outcome (list CustomerOverviewItem) :=
  licensed ← normalize_states (pf_licensed_states profile);
  items ← mapM_outcome (overview_item s user_id moment) (scoped_requests s profile user_id);
  Ok ((if bool_decide (licensed = []) then [setup_item] else []) ++ omap id items).
End Screens.

(** ** Lemmas *)

Lemma mapM_outcome_Ok_inv {A B} (f : A → outcome B) l ys :
  mapM_outcome f l = Ok ys → Forall2 (λ x y, f x = Ok y) l ys.
Proof.
  revert ys. induction l as [|x l IH]; intros ys; cbn; [intros [= <-]; constructor|].
  intros (y & Hy & (ys' & Hys & [= <-])%obind_Ok_inv)%obind_Ok_inv. constructor; auto.
Qed.

Lemma elem_of_scoped_requests s profile user q :
  q ∈ scoped_requests s profile user ↔
  (∃ id, st_requests s !! id = Some q) ∧ request_history_scope profile user q = true.
Proof.
  unfold scoped_requests. rewrite (merge_sort_Permutation newest_first), list_elem_of_In, filter_In,
    <- list_elem_of_In, list_elem_of_fmap. split.
  - intros [([id q'] & -> & ?%elem_of_map_to_list) ?]. eauto.
  - intros [[id Hq] ?]. split; [|done]. exists (id, q). split; [done|]. by apply elem_of_map_to_list.
Qed.

Lemma foldr_max_spec l :
  (∀ x, x ∈ l → (x ≤ foldr max 0 l)%nat) ∧ (foldr max 0%nat l = 0%nat ∨ foldr max 0%nat l ∈ l).
Proof.
  induction l as [|y l [IH1 IH2]]; cbn; [split; [intros x Hx; by apply not_elem_of_nil in Hx | by left]|]. split.
  - intros x [->|Hx]%elem_of_cons; [lia|]. specialize (IH1 _ Hx). lia.
  - destruct (Nat.max_spec y (foldr max 0%nat l)) as [[_ ->]|[_ ->]]; [|right; by left].
    destruct IH2; [by left | right; by right].
Qed.

(** The furthest milestone is reached, and no later one is. *)
Lemma last_reached_spec progress :
  (∃ r, progress !! 0%nat = Some r ∧ r.1.2 = true) →
  (∀ i r, progress !! i = Some r → r.1.2 = true → (i ≤ last_reached progress)%nat) ∧
  ∃ r, progress !! last_reached progress = Some r ∧ r.1.2 = true.
Proof.
  intros (r0 & Hr0 & Ht0). unfold last_reached.
  set (l := imap _ progress). destruct (foldr_max_spec l) as [Hle Hin]. split.
  - intros i r Hi Ht. apply Hle. apply list_elem_of_lookup. exists i. unfold l. rewrite list_lookup_imap, Hi.
    cbn. by rewrite Ht.
  - destruct Hin as [->|Hin]; [by exists r0|]. apply list_elem_of_lookup in Hin as (i & Hi). unfold l in Hi at 1.
    rewrite list_lookup_imap in Hi. apply fmap_Some in Hi as (r & Hr & E).
    destruct (r.1.2) eqn:Ht; rewrite E; [by exists r | by exists r0].
Qed.

(** ** Properties *)

(** The ledger tells one story.  The four milestones stand in their
    order with their stamps; one of them is the furthest the request reached;
    all before it are complete, it alone says whether the request moves,
    waits, has arrived or stopped, and nothing after it has been reached.  A
    stopped request has an outcome at that milestone and no current one, any
    other a current one and no outcome; a pause shows exactly while it waits
    for inventory. *)
Theorem ledger_tells_one_story item :
  let ledger := build_milestones item in
  let status := rq_status item in
  mi_key <$> jm_milestones ledger = ["submitted"; "approved"; "preparing_batch"; "delivered"]%string ∧
  mi_occurred_at <$> jm_milestones ledger =
    [Some (rq_created_at item); rq_approved_at item; rq_processed_at item; rq_delivered_at item] ∧
  ∃ k m, jm_milestones ledger !! k = Some m ∧
    (∀ i r, reached item !! i = Some r → r.1.2 = true → (i ≤ k)%nat) ∧
    (∃ r, reached item !! k = Some r ∧ r.1.2 = true) ∧
    (∀ i m', jm_milestones ledger !! i = Some m' → (i < k)%nat → mi_state m' = st_complete) ∧
    (∀ i m', jm_milestones ledger !! i = Some m' → (k < i)%nat →
       mi_state m' = if bool_decide (status ∈ [rejected; canceled; failed]) then st_not_reached else st_upcoming) ∧
    mi_state m = match status with
                 | rejected | canceled | failed => st_stopped
                 | waiting_inventory => st_paused
                 | delivered => st_complete
                 | _ => st_current
                 end ∧
    (if bool_decide (status ∈ [rejected; canceled; failed])
     then jm_current_key ledger = None ∧
          ∃ o, jm_outcome ledger = Some o ∧ oc_kind o = status_value status ∧
               oc_milestone_key o = mi_key m ∧ oc_occurred_at o = rq_closed_at item
     else jm_current_key ledger = Some (mi_key m) ∧ jm_outcome ledger = None) ∧
    (is_Some (jm_pause ledger) ↔ status = waiting_inventory).
Proof.
  set (k := last_reached (reached item)).
  destruct (last_reached_spec (reached item)) as [Hmax (r & Hr & Hrt)]; [by eexists|]. fold k in Hmax, Hr.
  assert (∀ i, jm_milestones (build_milestones item) !! i =
    milestone_at k (rq_status item) i <$> reached item !! i) as Hm by (intros i; apply list_lookup_imap).
  assert (∀ i m', jm_milestones (build_milestones item) !! i = Some m' →
    mi_state m' = milestone_state i k (rq_status item)) as Hst.
  { intros i m'. rewrite Hm. intros ([[key b] at_] & _ & ->)%fmap_Some. done. }
  assert (bool_decide (is_Some (TERMINAL_OUTCOMES (rq_status item))) =
    bool_decide (rq_status item ∈ [rejected; canceled; failed])) as Hterm by (by destruct (rq_status item)).
  cbv zeta. split; [done|]. split; [done|]. exists k, (milestone_at k (rq_status item) k r).
  split; [by rewrite Hm, Hr|]. split; [done|]. split; [by eexists|]. split; [|split; [|split; [|split]]].
  - intros i m' Hi Hlt. rewrite (Hst _ _ Hi). unfold milestone_state. by rewrite (proj2 (Nat.ltb_lt _ _) Hlt).
  - intros i m' Hi Hlt. rewrite (Hst _ _ Hi). unfold milestone_state. rewrite Hterm.
    by rewrite (proj2 (Nat.ltb_ge i k)), (proj2 (Nat.eqb_neq i k)) by lia.
  - rewrite (Hst k _) by (by rewrite Hm, Hr). unfold milestone_state. rewrite Nat.ltb_irrefl, Nat.eqb_refl.
    by destruct (rq_status item).
  - assert (from_option mi_key ""%string (jm_milestones (build_milestones item) !! k)
      = mi_key (milestone_at k (rq_status item) k r)) as Ek by (by rewrite Hm, Hr).
    unfold build_milestones in Ek |- *. fold k in Ek |- *. cbn [jm_current_key jm_outcome jm_milestones] in *.
    rewrite Ek. generalize (mi_key (milestone_at k (rq_status item) k r)). intros key.
    destruct (rq_status item); try (by vm_compute); (split; [reflexivity|]); eexists; (split; [reflexivity|]);
      vm_compute; auto.
  - clear Hterm. unfold build_milestones. cbn [jm_pause]. case_bool_decide as Hw; split; intros Hx; first [done | by eexists | by destruct Hx].
Qed.

(** C27: the workspace tells the truth.  It lists the first [limit]
    requests in the login's scope, newest first, and its controls are what the operations accept:
    the cancel button shows exactly when [cancel_request] would succeed, and a
    download link exactly when the request was delivered and its artifact's
    file is still there and has not expired. *)
Theorem workspace_controls_are_true `{CaseMapping} env s user profile limit w :
  billing_inv s → st_profiles s !! user = Some profile →
  build_request_workspace env s user profile limit = Ok w →
  Forall2 (λ q d, de_id d = rq_id q ∧ st_requests s !! rq_id q = Some q ∧
    request_history_scope profile user q = true ∧
    de_milestones d = build_milestones q ∧
    (de_can_cancel d = true ↔ ∃ message q' s', cancel_request env user (rq_id q) message s = (Ok q', s')) ∧
    (is_Some (de_artifact d ≫= ca_download_href) ↔
       is_Some (rq_delivered_at q) ∧ artifact_available s (st_artifacts s !! rq_id q) (now env) = true))
    (take limit (scoped_requests s profile user)) (wo_requests w).
Proof.
  intros Hb Hp Hw. unfold build_request_workspace in Hw.
  apply obind_Ok_inv in Hw as (limits & _ & Hw). apply obind_Ok_inv in Hw as (blocker & _ & Hw).
  apply obind_Ok_inv in Hw as (ds & Hds%mapM_outcome_Ok_inv & [= <-]). cbn [wo_requests].
  apply Forall2_same_length_lookup_2; [by eapply Forall2_length|]. intros i q d Hq Hd.
  pose proof (Forall2_lookup_lr _ _ _ _ _ _ Hds Hq Hd) as Hdet. cbn in Hdet.
  apply list_elem_of_lookup_2 in Hq. apply elem_of_take in Hq as (j & Hq%list_elem_of_lookup_2 & _).
  apply elem_of_scoped_requests in Hq as [[id Hid] Hscope].
  rewrite <- (bi_requests _ Hb _ _ Hid) in Hid.
  unfold request_detail in Hdet. cbv zeta in Hdet. apply obind_Ok_inv in Hdet as (states & _ & [= <-]).
  cbn [de_id de_milestones de_can_cancel de_artifact]. split_and!; try done.
  - rewrite bool_decide_eq_true. split.
    + intros Hc. destruct (cancel_request_accepts env user (rq_id q) [] s profile q) as (s2 & s3 & _ & _ & ?); eauto.
    + intros (message & q' & s' & Hrun). eapply cancel_request_window; eauto.
  - destruct (rq_delivered_at q); [|split; [by intros [? [=]] | by intros [[? [=]] _]]].
    destruct (st_artifacts s !! rq_id q) as [a|]; cbn; [|split; [by intros [? [=]] | by intros [_ [=]]]].
    change (match ar_expires_at a with Some _ => _ | None => _ end) with
      (match ar_expires_at a with Some e => now env <? e | None => false end).
    destruct (_ && _); (split; [intros [? [=]] || intros _; eauto | intros [_ [=]] || intros _; eauto]).
Qed.

(** Why an item of the attention queue is there. *)
Definition item_justified (s : Store) (user : uuid) (moment : datetime) (q : LeadRequest)
    (it : CustomerOverviewItem) : Prop :=
  let live := artifact_available s (st_artifacts s !! rq_id q) moment = true ∧
              str_of_uuid (rq_id q) ∉ downloaded s user in
  (rq_status q = waiting_inventory ∧ oi_kind it = "waiting_inventory"%string) ∨
  (rq_status q = delivered ∧ live ∧ it = ready_item q) ∨
  (rq_status q = delivered ∧ live ∧ ∃ n, 1 ≤ n ≤ 7 ∧ it = expiring_item q n) ∨
  (rq_status q = delivered ∧ str_of_uuid (rq_id q) ∈ downloaded s user ∧
   distributed_request s (rq_id q) = true ∧ feedback_given s (rq_id q) = false ∧ it = feedback_item q).

Lemma days_left_bounds remaining : 0 < remaining ≤ ARTIFACT_EXPIRING_SOON → 1 ≤ days_left remaining ≤ 7.
Proof.
  intros [Hlo Hhi]. unfold days_left. change ARTIFACT_EXPIRING_SOON with (7 * days 1) in Hhi.
  assert (0 < days 1) as Hd by done. split; [lia|]. apply Z.max_lub; [lia|].
  assert (- 7 ≤ - remaining / days 1); [|lia]. apply Z.div_le_lower_bound; lia.
Qed.

Lemma overview_item_justified `{CaseMapping} s user moment q it :
  overview_item s user moment q = Ok (Some it) → item_justified s user moment q it.
Proof.
  unfold overview_item, item_justified. destruct (rq_status q) eqn:Hst; try done.
  - intros (states & _ & [= <-])%obind_Ok_inv. by left.
  - case_bool_decide as Hd.
    + destruct (artifact_available s (st_artifacts s !! rq_id q) moment) eqn:Hav; [|done].
      destruct (st_artifacts s !! rq_id q) as [a|] eqn:Ha; cbn; [|done].
      destruct (ar_expires_at a) as [e|] eqn:He; cbn; [|done]. intros [= <-]. right.
      unfold artifact_available in Hav. rewrite He in Hav. bool_inv.
      case_match eqn:Hle; [right; left|left]; split_and!; try done. bool_inv.
      eexists. split; [|done]. apply days_left_bounds. lia.
    + destruct (_ && _) eqn:Hf; intros [= <-]. bool_inv. right. right. right. done.
Qed.

(** the attention queue asks only for what can be done.  Every item is
    the missing-states notice or belongs to one request in the login's scope:
    a waiting request to review, a live artifact this login has not
    downloaded, with one to seven days left if it expires soon, or a
    downloaded Batch of which no Lead was rated; and no request is asked about
    twice. *)
Theorem overview_is_actionable `{CaseMapping} s user profile moment items :
  build_customer_overview s user profile moment = Ok items →
  ∃ setup asked, items = setup ++ asked.*2 ∧
    (setup = [] ∨ (setup = [setup_item] ∧ normalize_states (pf_licensed_states profile) = Ok [])) ∧
    asked.*1 `sublist_of` scoped_requests s profile user ∧
    Forall (λ '(q, it), item_justified s user moment q it) asked.
Proof.
  unfold build_customer_overview.
  intros (licensed & Hl & (found & Hfound%mapM_outcome_Ok_inv & [= <-])%obind_Ok_inv)%obind_Ok_inv.
  exists (if bool_decide (licensed = []) then [setup_item] else []),
    (omap (λ '(q, o), (λ it, (q, it)) <$> o) (zip (scoped_requests s profile user) found)).
  split; [|split; [case_bool_decide; subst; auto|]].
  - f_equal. induction Hfound as [|q o qs os Hq Hqs IH]; cbn; [done|]. destruct o; cbn; [f_equal|]; done.
  - induction Hfound as [|q o qs os Hq Hqs [IH1 IH2]]; cbn; [done|]. destruct o as [it|]; cbn.
    + split; [by constructor|]. constructor; [by apply overview_item_justified | done].
    + split; [by constructor | done].
Qed.

(** *** Concrete runs *)

#[local] Existing Instance ascii_case.

Definition example_workspace : outcome CustomerRequestWorkspaceOut :=
  build_request_workspace example_env example_withdraw 2%N example_profile 20.

Lemma workspace_controls_are_true_witness :
  ∃ w d, example_workspace = Ok w ∧ wo_requests w = [d] ∧ de_id d = rq_id example_held.
Proof.
  assert (match example_workspace with Ok _ => true | _ => false end = true) as E by (vm_compute; reflexivity).
  destruct example_workspace as [w|] eqn:Hw; [|discriminate E]. unfold example_workspace in Hw.
  pose proof (workspace_controls_are_true example_env example_withdraw 2%N example_profile 20 w
    example_withdraw_inv ltac:(vm_compute; reflexivity) Hw) as Hall.
  assert (take 20 (scoped_requests example_withdraw example_profile 2%N) = [example_held]) as Es
    by (vm_compute; reflexivity).
  rewrite Es in Hall. apply Forall2_cons_inv_l in Hall as (d & ds & [Hd _] & Hnil & Eds).
  apply Forall2_nil_inv_l in Hnil as ->. exists w, d. split; [reflexivity|]. split; [exact Eds | exact Hd].
Defined.

(** A Batch with two days left, and one waiting for inventory. *)
Definition example_attention : Store :=
  example_delivery <| st_requests :=
      {[ 1%N := example_request <| rq_status := delivered |> <| rq_delivered_at := Some 0 |>;
         9%N := example_request <| rq_id := 9%N |> <| rq_status := waiting_inventory |> ]} |>
    <| st_artifacts := {[ 1%N := example_artifact <| ar_expires_at := Some (days 2) |> ]} |>.
Definition example_overview : outcome (list CustomerOverviewItem) :=
  build_customer_overview example_attention 2%N example_profile 1.

Lemma overview_is_actionable_witness :
  ∃ items, example_overview = Ok items ∧ length items = 2%nat ∧
    ∃ setup asked, items = setup ++ asked.*2 ∧
      Forall (λ '(q, it), item_justified example_attention 2%N 1 q it) asked.
Proof.
  assert (match example_overview with Ok l => length l | _ => 0%nat end = 2%nat) as E by (vm_compute; reflexivity).
  destruct example_overview as [items|] eqn:Hr; [|discriminate E]. exists items. split; [reflexivity|].
  split; [exact E|]. unfold example_overview in Hr.
  destruct (overview_is_actionable example_attention 2%N example_profile 1 items Hr)
    as (setup & asked & Hi & _ & _ & Hj).
  exists setup, asked. split; [exact Hi | exact Hj].
Defined.
