(* ===== verification/LicensedStates.v ===== *)
(** * Licensed State changes: review, then apply

    [jawnix/licensed_states.py].  A Customer first sees what a change of their
    Licensed States would do to their open Batch Requests, and confirms exactly
    that: the review carries a signed checksum of the projection. *)

From S2P Require Import Prelude PyText PyInt States Models PyJson PyObject Activity Jobs Billing BillingWallet Fulfillment.
From S2P Require Import Transitions Artifact Rotation Delivery CustomerRequests CustomerView.
From Stdlib Require String.

Open Scope Z_scope.

Definition REVIEW_MAX_AGE_SECONDS : Z := 15 * 60.

(** [URLSafeTimedSerializer(secret, salt=...)] of itsdangerous: tokens are
    opaque, and [loads] tells a genuine one from an expired or forged one. *)
Inductive Loaded : Type :=
| Genuine (payload : json)
| SignatureExpired
| BadSignature.

Class Signer : Type := {
  Token : Type;
  dumps : text → datetime → json → Token;
  loads : text → datetime → Z → Token → Loaded
}.

(** Its documentation: what was dumped is loaded while its age, in whole
    seconds, is at most the maximum. *)
Class SignerLaws `{Signer} : Prop := {
  loads_dumps secret signed_at at_ max_age payload :
    0 ≤ at_ / 1000000 - signed_at / 1000000 ≤ max_age →
    loads secret at_ max_age (dumps secret signed_at payload) = Genuine payload
}.

(** ** Schemas *)

Record LicensedStateWorkspace : Type := mkStateWorkspace {
  lw_states : list text;
  lw_options : list (string * string);
  lw_version : text
}.

Record LicensedStateSelection : Type := mkSelection {
  ls_states : list text;
  ls_expected_version : text
}.

Inductive ImpactAction : Type := action_narrowed | action_canceled.
#[export] Instance ImpactAction_eq_dec : EqDecision ImpactAction.
Proof. solve_decision. Defined.
Definition impact_action_value (a : ImpactAction) : string :=
  match a with action_narrowed => "narrowed" | action_canceled => "canceled" end.

Record LicensedStateImpact : Type := mkImpact {
  im_request_id : uuid;
  im_lead_count : Z;
  im_status : text;
  im_current_states : list text;
  im_resulting_states : list text;
  im_action : ImpactAction
}.

Record ReviewClaims : Type := mkClaims {
  cl_user_id : uuid;
  cl_version : text;
  cl_proposed_states : list text;
  cl_impact_checksum : text
}.

Definition strings_json (l : list text) : json := JList (JStr <$> l).

(** [model_dump(mode="json")] *)
Definition claims_json (c : ReviewClaims) : json :=
  JObj [("user_id", JStr (str_of_uuid (cl_user_id c))); ("version", JStr (cl_version c));
        ("proposed_states", strings_json (cl_proposed_states c));
        ("impact_checksum", JStr (cl_impact_checksum c))]%string.
Definition impact_json (i : LicensedStateImpact) : json :=
  JObj [("request_id", JStr (str_of_uuid (im_request_id i))); ("lead_count", JNum (im_lead_count i));
        ("status", JStr (im_status i)); ("current_states", strings_json (im_current_states i));
        ("resulting_states", strings_json (im_resulting_states i));
        ("action", JStr (u (impact_action_value (im_action i))))]%string.

Definition text_of (v : json) : option text := match v with JStr t => Some t | _ => None end.
Definition text_at (k : string) (fields : dict) : option text := dict_get k fields ≫= text_of.
Definition texts_of (v : json) : option (list text) := match v with JList l => mapM text_of l | _ => None end.

Section Review.
Context `{CaseMapping} `{Platform} `{Signer}.

Record LicensedStateReview : Type := mkReview {
  rv_current_states : list text;
  rv_proposed_states : list text;
  rv_added_states : list text;
  rv_removed_states : list text;
  rv_impacts : list LicensedStateImpact;
  rv_review_token : Token
}.

(** What the schema makes of a submitted selection. *)
Definition validate_selection (body : LicensedStateSelection) : outcome LicensedStateSelection :=
  states ← normalize_states (ls_states body);
  refuse_if (negb (in_range 1 80 (Z.of_nat (length (ls_expected_version body))))) (ValueError (u "expected_version")) ;;
  Ok (mkSelection states (ls_expected_version body)).

(** [_ReviewClaims.model_validate]: exactly these fields, of these types. *)
Definition claims_of_json (v : json) : option ReviewClaims :=
  match v with
  | JObj fields =>
      if forallb (λ f, existsb (String.eqb f.1) ["user_id"; "version"; "proposed_states"; "impact_checksum"]%string) fields
      then
        user_id ← (text_at "user_id" fields ≫= uuid_of_text : option uuid);
        version ← text_at "version" fields;
        values ← (dict_get "proposed_states" fields ≫= texts_of : option (list text));
        checksum ← text_at "impact_checksum" fields;
        match normalize_states values with
        | Ok proposed => Some (mkClaims user_id version proposed checksum)
        | Err _ => None
        end
      else None
  | _ => None
  end.

(** ** The projection *)

Definition profile_version (profile : CustomerProfile) : outcome text :=
  states ← normalize_states (pf_licensed_states profile);
  Ok (sha256_hex (json_dumps (strings_json states))).

Definition workspace (profile : CustomerProfile) : outcome LicensedStateWorkspace :=
  states ← normalize_states (pf_licensed_states profile);
  version ← profile_version profile;
  Ok (mkStateWorkspace states US_STATE_OPTIONS version).

Definition open_customer_requests (s : Store) (customer_id : Z) : list LeadRequest :=
  merge_sort request_le
    (List.filter (λ r, (rq_agent_id r =? customer_id) && bool_decide (rq_status r ∈ CANCELABLE_STATUSES))
       (map_to_list (st_requests s)).*2).

Definition impact_of (proposed_states : list text) (item : LeadRequest) : outcome (option LicensedStateImpact) :=
  current_states ← normalize_states (rq_states_snapshot item);
  let resulting_states := List.filter (λ st, bool_decide (st ∈ proposed_states)) current_states in
  Ok (if bool_decide (resulting_states = current_states) then None else
      Some (mkImpact (rq_id item) (rq_lead_count item) (os_label (customer_request_status (rq_status item)))
              current_states resulting_states
              (if bool_decide (resulting_states = []) then action_canceled else action_narrowed))).

Definition affected_requests (s : Store) (customer_id : Z) (proposed_states : list text)
    : outcome (list LeadRequest * list LicensedStateImpact) :=
  let requests := open_customer_requests s customer_id in
  impacts ← mapM_outcome (impact_of proposed_states) requests;
  Ok (requests, omap id (impacts : list (option LicensedStateImpact))).

Definition impact_checksum (impacts : list LicensedStateImpact) : text :=
  sha256_hex (json_dumps (JList (impact_json <$> impacts))).

(** [sorted(set(a) - set(b))] *)
Definition sorted_difference (a b : list text) : list text :=
  sorted_set (List.filter (λ st, bool_decide (st ∉ b)) a).

Definition CHANGED_ELSEWHERE : exn := LicensedStateConflict
  (u "Licensed States changed in another session. Review the latest impact before saving.").
Definition NOT_MAPPED : exn := LicensedStateReviewError
  (u "Licensed States cannot change until this User Account is mapped to a Customer.").

Definition preview (env : Env) (s : Store) (user_id : uuid) (profile : CustomerProfile)
    (selection : LicensedStateSelection) : outcome LicensedStateReview :=
  current_states ← normalize_states (pf_licensed_states profile);
  version ← profile_version profile;
  refuse_if (bool_decide (ls_expected_version selection ≠ version)) CHANGED_ELSEWHERE ;;
  let proposed_states := ls_states selection in
  refuse_if (bool_decide (proposed_states = current_states))
    (LicensedStateReviewError (u "Choose a different set of Licensed States before reviewing.")) ;;
  match pf_agent_id profile with
  | None => Err NOT_MAPPED
  | Some customer_id =>
      '(_, impacts) ← affected_requests s customer_id proposed_states;
      let claims := mkClaims user_id version proposed_states (impact_checksum impacts) in
      Ok (mkReview current_states proposed_states (sorted_difference proposed_states current_states)
            (sorted_difference current_states proposed_states) impacts
            (dumps (session_secret (settings env)) (now env) (claims_json claims)))
  end.

(** ** Application *)

Definition REVIEW_INVALID : exn := LicensedStateReviewError
  (u "This impact review is invalid. Review the changes again.").

Definition review_claims (env : Env) (token : Token) : outcome ReviewClaims :=
  match loads (session_secret (settings env)) (now env) REVIEW_MAX_AGE_SECONDS token with
  | SignatureExpired => Err (LicensedStateReviewError (u "This impact review expired. Review the changes again."))
  | BadSignature => Err REVIEW_INVALID
  | Genuine payload => match claims_of_json payload with Some claims => Ok claims | None => Err REVIEW_INVALID end
  end.

Definition COMMA : text := u ", ".

Definition narrowed_message (removed_states resulting_states : list text) : text :=
  u "Licensed States changed. Removed " ++ join COMMA removed_states ++ u "; request now covers " ++
  join COMMA resulting_states ++ u ". Existing approval remains valid.".
Definition CANCELED_MESSAGE : text :=
  u "Canceled because no requested states remain in the Customer's Licensed States.".

(** The request an impact leaves. *)
Definition impacted (env : Env) (item : LeadRequest) (impact : LicensedStateImpact) (removed_states : list text)
    : LeadRequest :=
  let item := item <| rq_states_snapshot := im_resulting_states impact |> in
  match im_action impact with
  | action_narrowed => item <| rq_status_message := narrowed_message removed_states (im_resulting_states impact) |>
  | action_canceled => item <| rq_status := canceled |> <| rq_status_message := CANCELED_MESSAGE |>
                            <| rq_closed_at := Some (now env) |>
  end.

Definition apply_request_impact (env : Env) (item : LeadRequest) (impact : LicensedStateImpact)
    (added_states removed_states : list text) : M Store unit :=
  let item := impacted env item impact removed_states in
  put_request item ;;
  match im_action impact with
  | action_narrowed => mret tt
  | action_canceled => release_batch_hold env item ;; enqueue_milestone_email env item
  end ;;
  enqueue_job env "licensed_states_changed" (Some (rq_id item))
    [("added", strings_json added_states); ("removed", strings_json removed_states);
     ("requestAction", JStr (u (impact_action_value (im_action impact))));
     ("states", strings_json (im_resulting_states impact))]%string ;;
  mret tt.

Record LicensedStateApplyResult : Type := mkApplyResult {
  ap_account : LicensedStateWorkspace;
  ap_overview : list CustomerOverviewItem;
  ap_requests : CustomerRequestWorkspaceOut
}.

Definition request_update (i : LicensedStateImpact) : json :=
  JObj [("requestId", JStr (str_of_uuid (im_request_id i))); ("action", JStr (u (impact_action_value (im_action i))));
        ("before", strings_json (im_current_states i)); ("after", strings_json (im_resulting_states i))]%string.
Definition request_updates (impacts : list LicensedStateImpact) : json := JList (request_update <$> impacts).
Definition change_details (current proposed added removed : list text) (impacts : list LicensedStateImpact) : dict :=
  [("before", strings_json current); ("after", strings_json proposed); ("added", strings_json added);
   ("removed", strings_json removed); ("requestUpdates", request_updates impacts)]%string.

(** [impacts_by_id.get(item.id)] *)
Definition impact_for (impacts : list LicensedStateImpact) (item : LeadRequest) : option LicensedStateImpact :=
  List.find (λ i, bool_decide (im_request_id i = rq_id item)) (rev impacts).

(** The writes, once every check has passed. *)
Definition commit_change (env : Env) (user_id : uuid) (profile : CustomerProfile) (customer_id : Z)
    (current_states proposed_states : list text) (requests : list LeadRequest) (impacts : list LicensedStateImpact)
    : M Store LicensedStateApplyResult :=
  let added_states := sorted_difference proposed_states current_states in
  let removed_states := sorted_difference current_states proposed_states in
  for_each requests (λ item, match impact_for impacts item with
    | Some impact => apply_request_impact env item impact added_states removed_states
    | None => mret tt
    end) ;;
  let profile := profile <| pf_licensed_states := proposed_states |> <| pf_updated_at := now env |> in
  modify (λ s, s <| st_profiles := <[user_id := profile]> (st_profiles s) |>) ;;
  update_customer customer_id (λ c, c <| cu_licensed_states := proposed_states |>) ;;
  record_activity env (u "licensed_states_update") (u "customer")
    (if customer_id =? 0 then str_of_uuid user_id else str_of_Z customer_id) (str_of_uuid user_id)
    (u "Customer confirmed Licensed State impact review.")
    (change_details current_states proposed_states added_states removed_states impacts) [] ;;
  account ← lift (workspace profile);
  s ← gets id;
  overview ← lift (build_customer_overview s user_id profile (now env));
  requests_page ← lift (build_request_workspace env s user_id profile 20);
  mret (mkApplyResult account overview requests_page).

Definition apply_review (env : Env) (user_id : uuid) (token : Token) : M Store LicensedStateApplyResult :=
  claims ← lift (review_claims env token);
  raise_if (bool_decide (cl_user_id claims ≠ user_id))
    (LicensedStateReviewError (u "This impact review belongs to another account.")) ;;
  found ← gets (λ s, st_profiles s !! user_id);
  profile ← require found (LookupError (u "Profile was not found."));
  customer_id ← require (pf_agent_id profile) NOT_MAPPED;
  version ← lift (profile_version profile);
  raise_if (bool_decide (version ≠ cl_version claims)) CHANGED_ELSEWHERE ;;
  affected ← gets (λ s, affected_requests s customer_id (cl_proposed_states claims));
  '(requests, impacts) ← lift affected;
  raise_if (bool_decide (impact_checksum impacts ≠ cl_impact_checksum claims))
    (LicensedStateConflict (u "A Batch Request changed after this review. Review the latest impact before saving.")) ;;
  current_states ← lift (normalize_states (pf_licensed_states profile));
  commit_change env user_id profile customer_id current_states (cl_proposed_states claims) requests impacts.
End Review.

(** ** What an application does *)

(** The tables a change of states leaves alone, the Customer's own rows apart. *)
Definition other_tables (s : Store) :=
  (st_events s, st_leads s, st_ledger s, st_purchases s, st_artifacts s, st_agencies s, st_conflicts s).
Definition account_tables (s : Store) := (st_profiles s, st_customers s, st_audit s).

Section Facts.
Context `{CaseMapping} `{Platform}.
Implicit Types (impacts : list LicensedStateImpact) (l : list LeadRequest).

Lemma impacted_id env item impact r : rq_id (impacted env item impact r) = rq_id item.
Proof. unfold impacted. by destruct (im_action impact). Qed.
Lemma impacted_billed env item impact r : rq_is_billed (impacted env item impact r) = rq_is_billed item.
Proof. unfold impacted. by destruct (im_action impact). Qed.

Lemma impact_run env item impact a r s :
  ∃ s', apply_request_impact env item impact a r s = (Ok tt, s') ∧
    st_requests s' = <[rq_id item := impacted env item impact r]> (st_requests s) ∧
    other_tables s' = other_tables s ∧ account_tables s' = account_tables s ∧
    ∀ id h, st_holds s !! id = Some h → ∃ h', st_holds s' !! id = Some h' ∧
      if bool_decide (id = rq_id item) && bool_decide (im_action impact = action_canceled)
      then released env item h h' else h' = h.
Proof.
  unfold apply_request_impact. cbv zeta. unfold put_request. rewrite bind_modify.
  rewrite impacted_id. set (q := impacted env item impact r). set (s1 := s <| st_requests := _ |>).
  destruct (im_action impact) eqn:Ha.
  - rewrite bind_ret. rewrite (bind_Ok _ _ _ _ _ (enqueue_job_run _ _ _ _ _)). eexists. split; [reflexivity|].
    split_and!; try reflexivity. intros id h Hh. exists h.
    by rewrite (bool_decide_eq_false_2 (action_narrowed = _)), andb_false_r by done.
  - destruct (release_batch_hold_total env q s1) as (s2 & E2).
    destruct (enqueue_milestone_email_total env q s2) as ([] & s3 & E3).
    assert ((release_batch_hold env q ;; enqueue_milestone_email env q) s1 = (Ok tt, s3)) as E by (by rewrite (bind_Ok _ _ _ _ _ E2)).
    rewrite (bind_Ok _ _ _ _ _ E), (bind_Ok _ _ _ _ _ (enqueue_job_run _ _ _ _ _)). eexists. split; [reflexivity|].
    pose proof (λ B (proj : Store → B) H1 H2 H3,
      eq_trans (preserves_Ok (λ s0, proj s0 = proj s2) _ s2 tt s3 (enqueue_milestone_email_frame proj env q _ H2 H3) eq_refl E3)
        (preserves_Ok (λ s0, proj s0 = proj s1) _ s1 tt s2 (release_batch_hold_frame proj env q _ H1) eq_refl E2)) as Hframe.
    pose proof (preserves_Ok (λ s0, st_holds s0 = st_holds s2) _ s2 tt s3
      (enqueue_milestone_email_frame st_holds env q _ (λ _ _, eq_refl) (λ _ _, eq_refl)) eq_refl E3) as Hh3.
    split_and!.
    + exact (Hframe _ st_requests (λ _ _, eq_refl) (λ _ _, eq_refl) (λ _ _, eq_refl)).
    + exact (Hframe _ other_tables (λ _ _, eq_refl) (λ _ _, eq_refl) (λ _ _, eq_refl)).
    + exact (Hframe _ account_tables (λ _ _, eq_refl) (λ _ _, eq_refl) (λ _ _, eq_refl)).
    + intros id h Hh. destruct (release_holds _ _ _ _ _ E2 id h Hh) as (h' & Hh' & Hrel). exists h'.
      split; [rewrite <- Hh'; rsimpl; by rewrite Hh3|]. unfold q in Hrel. rewrite impacted_id in Hrel.
      rewrite (bool_decide_eq_true_2 (action_canceled = _)), andb_true_r by done.
      unfold released in *. by rewrite impacted_billed in Hrel.
Qed.

Definition reached_by (env : Env) impacts (r : list text) (item : LeadRequest) : LeadRequest :=
  match impact_for impacts item with Some impact => impacted env item impact r | None => item end.
Definition cancels impacts (item : LeadRequest) : bool :=
  match impact_for impacts item with Some impact => bool_decide (im_action impact = action_canceled) | None => false end.
Definition find_request (id : uuid) l : option LeadRequest := List.find (λ q, bool_decide (rq_id q = id)) l.

Lemma find_request_None id l : id ∉ rq_id <$> l → find_request id l = None.
Proof.
  intros Hn. induction l as [|q l IH]; [done|]. cbn. rewrite fmap_cons, not_elem_of_cons in Hn. destruct Hn as [Hne Hn].
  rewrite bool_decide_eq_false_2 by congruence. by apply IH.
Qed.

Lemma loop_run env impacts a r l :
  NoDup (rq_id <$> l) → ∀ s,
  (∀ q, q ∈ l → st_requests s !! rq_id q = Some q) →
  ∃ s', for_each l (λ item, match impact_for impacts item with
          | Some impact => apply_request_impact env item impact a r
          | None => mret tt
          end) s = (Ok tt, s') ∧
    other_tables s' = other_tables s ∧ account_tables s' = account_tables s ∧
    (∀ id, st_requests s' !! id = match find_request id l with
                                  | Some q => Some (reached_by env impacts r q)
                                  | None => st_requests s !! id
                                  end) ∧
    (∀ id h, st_holds s !! id = Some h → ∃ h', st_holds s' !! id = Some h' ∧
       match find_request id l with
       | Some q => if cancels impacts q then released env q h h' else h' = h
       | None => h' = h
       end).
Proof.
  induction l as [|q l IH]; intros Hnd s Hs.
  { exists s. split_and!; try done. intros id h Hh. by exists h. }
  rewrite fmap_cons in Hnd. apply NoDup_cons in Hnd as [Hq Hnd].
  assert (∀ s1, st_requests s1 = <[rq_id q := reached_by env impacts r q]> (st_requests s) →
    ∀ q', q' ∈ l → st_requests s1 !! rq_id q' = Some q') as Htail.
  { intros s1 -> q' Hq'. rewrite lookup_insert_ne; [apply Hs; by right|]. intros E. apply Hq. rewrite E.
    by apply list_elem_of_fmap_2. }
  cbn [for_each]. unfold reached_by at 1 in Htail.
  assert (∃ s1, (match impact_for impacts q with
                 | Some impact => apply_request_impact env q impact a r
                 | None => mret tt
                 end) s = (Ok tt, s1) ∧ st_requests s1 = <[rq_id q := reached_by env impacts r q]> (st_requests s) ∧
      other_tables s1 = other_tables s ∧ account_tables s1 = account_tables s ∧
      ∀ id h, st_holds s !! id = Some h → ∃ h', st_holds s1 !! id = Some h' ∧
        if bool_decide (id = rq_id q) && cancels impacts q then released env q h h' else h' = h)
    as (s1 & E1 & Hr1 & Ho1 & Ha1 & Hh1).
  { unfold reached_by, cancels. destruct (impact_for impacts q) as [impact|]; [apply impact_run|].
    exists s. split_and!; try done.
    - symmetry. apply insert_id, Hs. by left.
    - intros id h Hh. exists h. by rewrite andb_false_r. }
  destruct (IH Hnd s1 (Htail s1 Hr1)) as (s' & E' & Ho & Ha & Hr & Hh). exists s'.
  split; [by rewrite (bind_Ok _ _ _ _ _ E1)|]. split; [congruence|]. split; [congruence|].
  assert (find_request (rq_id q) l = None) as Hnone by (by apply find_request_None). split.
  - intros id. rewrite Hr. cbn [find_request List.find]. fold (find_request id l). case_bool_decide as E.
    + subst id. by rewrite Hnone, Hr1, lookup_insert_eq.
    + destruct (find_request id l); [done|]. by rewrite Hr1, lookup_insert_ne.
  - intros id h Hid. destruct (Hh1 id h Hid) as (h1 & Hid1 & Hrel1). destruct (Hh id h1 Hid1) as (h' & Hid' & Hrel).
    exists h'. split; [done|]. cbn [find_request List.find]. fold (find_request id l).
    destruct (decide (rq_id q = id)) as [E|E].
    + subst id. rewrite Hnone in Hrel. subst h'. rewrite bool_decide_eq_true_2 in Hrel1 by done.
      by rewrite bool_decide_eq_true_2 by done.
    + rewrite bool_decide_eq_false_2 in Hrel1 by congruence. rewrite (bool_decide_eq_false_2 _ E). cbn [andb] in Hrel1.
      by subst h1.
Qed.

Lemma impact_of_id p q i : impact_of p q = Ok (Some i) → im_request_id i = rq_id q.
Proof.
  unfold impact_of. intros (current & _ & Hr)%obind_Ok_inv. cbv zeta in Hr. destruct (bool_decide (_ = current)); [done|].
  by injection Hr as <-.
Qed.

Lemma same_id l q q' : NoDup (rq_id <$> l) → q ∈ l → q' ∈ l → rq_id q = rq_id q' → q = q'.
Proof.
  intros Hnd [i Hi]%list_elem_of_lookup [j Hj]%list_elem_of_lookup E.
  assert (i = j) as ->; [|congruence].
  eapply NoDup_lookup; [exact Hnd| |]; rewrite list_lookup_fmap; [by rewrite Hi | by rewrite Hj, E].
Qed.

(** The impact found for a request is the projection of that request. *)
Lemma impact_for_projection p l rs :
  mapM_outcome (impact_of p) l = Ok rs → NoDup (rq_id <$> l) →
  ∀ q, q ∈ l → impact_of p q = Ok (impact_for (omap id rs) q).
Proof.
  intros Hrs%mapM_outcome_Ok_inv Hnd q Hq.
  destruct (list_elem_of_lookup_1 _ _ Hq) as [i Hi]. destruct (Forall2_lookup_l _ _ _ _ _ Hrs Hi) as (o & Ho & Hqo).
  assert (∀ im, im ∈ omap id rs → im_request_id im = rq_id q → o = Some im) as Huniq.
  { intros im (o' & Ho' & E)%list_elem_of_omap Him. cbn in E. subst o'.
    apply list_elem_of_lookup in Ho' as [j Hj]. destruct (Forall2_lookup_r _ _ _ _ _ Hrs Hj) as (q' & Hq' & Hqi).
    assert (q' = q) as ->; [|congruence]. apply list_elem_of_lookup_2 in Hq'.
    apply (same_id l); [done..|]. by rewrite <- (impact_of_id _ _ _ Hqi). }
  rewrite Hqo. f_equal. unfold impact_for. destruct (List.find _ _) as [im|] eqn:Hfind.
  - apply List.find_some in Hfind as [Hin Him%bool_decide_eq_true]. apply in_rev in Hin.
    apply Huniq; [by apply list_elem_of_In | done].
  - destruct o as [im|]; [|done]. exfalso.
    assert (In im (rev (omap id rs))) as Hin.
    { rewrite <- in_rev. apply list_elem_of_In, list_elem_of_omap. exists (Some im). split; [|done].
      by apply list_elem_of_lookup_2 in Ho. }
    pose proof (List.find_none _ _ Hfind _ Hin) as Hn. cbv beta in Hn. rewrite (impact_of_id _ _ _ Hqo) in Hn.
    by rewrite bool_decide_eq_true_2 in Hn.
Qed.

Definition is_open (customer_id : Z) (q : LeadRequest) : bool :=
  (rq_agent_id q =? customer_id) && bool_decide (rq_status q ∈ CANCELABLE_STATUSES).

Lemma open_not_canceled cid q : is_open cid q = true → rq_status q ≠ canceled.
Proof. intros [_ Hs%bool_decide_eq_true]%andb_true_iff E. rewrite E in Hs.
  unfold CANCELABLE_STATUSES in Hs. rewrite !elem_of_cons, elem_of_nil in Hs. naive_solver. Qed.

Lemma elem_of_open s cid q : q ∈ open_customer_requests s cid ↔ (∃ k, st_requests s !! k = Some q) ∧ is_open cid q = true.
Proof.
  unfold open_customer_requests. rewrite (merge_sort_Permutation request_le), list_elem_of_In, filter_In,
    <- list_elem_of_In, list_elem_of_fmap. fold (is_open cid q). split.
  - intros [([k q'] & -> & ?%elem_of_map_to_list) ?]. eauto.
  - intros [[k Hq] ?]. split; [|done]. exists (k, q). split; [done|]. by apply elem_of_map_to_list.
Qed.

Lemma open_ids_distinct s cid : keyed (st_requests s) → NoDup (rq_id <$> open_customer_requests s cid).
Proof.
  intros Hk. unfold open_customer_requests. rewrite (merge_sort_Permutation request_le).
  assert (NoDup (rq_id <$> (map_to_list (st_requests s)).*2)) as Hall.
  { rewrite <- list_fmap_compose. rewrite (list_fmap_ext _ fst).
    - apply NoDup_fst_map_to_list.
    - intros i [k q] Hi. apply list_elem_of_lookup_2, elem_of_map_to_list in Hi. cbn. by apply Hk in Hi. }
  revert Hall. generalize (map_to_list (st_requests s)).*2. intros l. induction l as [|q l IH]; [done|].
  rewrite fmap_cons, NoDup_cons. intros [Hn Hnd]. cbn. destruct (_ && _); [|by apply IH]. rewrite fmap_cons, NoDup_cons.
  split; [|by apply IH]. intros (q' & E & Hq')%list_elem_of_fmap. apply Hn. rewrite E. apply list_elem_of_fmap_2.
  apply list_elem_of_In, filter_In in Hq' as [Hin _]. by apply list_elem_of_In.
Qed.

Lemma find_open s cid k q :
  keyed (st_requests s) → st_requests s !! k = Some q →
  find_request k (open_customer_requests s cid) = if is_open cid q then Some q else None.
Proof.
  intros Hk Hq. pose proof (Hk _ _ Hq) as E. destruct (is_open cid q) eqn:Ho.
  - assert (q ∈ open_customer_requests s cid) as Hin by (apply elem_of_open; eauto). unfold find_request.
    destruct (List.find _ _) as [q'|] eqn:Hf.
    + apply List.find_some in Hf as [Hin' Hid%bool_decide_eq_true]. f_equal.
      apply (same_id (open_customer_requests s cid)); [by apply open_ids_distinct|by apply list_elem_of_In|done|congruence].
    + apply list_elem_of_In in Hin. pose proof (List.find_none _ _ Hf _ Hin) as Hn. cbv beta in Hn.
      by rewrite bool_decide_eq_true_2 in Hn.
  - apply find_request_None. intros (q' & Eid & Hin)%list_elem_of_fmap. apply elem_of_open in Hin as [[k' Hq'] Ho'].
    pose proof (Hk _ _ Hq') as E'. assert (k' = k) as -> by congruence. congruence.
Qed.
End Facts.

Section Changes.
Context `{CaseMapping} `{Platform} `{Signer}.

(** What the change makes of an open request. *)
Definition projected (env : Env) (proposed removed : list text) (q : LeadRequest) : LeadRequest :=
  match impact_of proposed q with Ok (Some impact) => impacted env q impact removed | _ => q end.

(** The store after a change of the states of one Customer. *)
Record changed (env : Env) (user_id : uuid) (profile : CustomerProfile) (customer_id : Z)
    (proposed removed : list text) (s s' : Store) : Prop := {
  ch_others : other_tables s' = other_tables s;
  ch_profile : st_profiles s' =
    <[user_id := profile <| pf_licensed_states := proposed |> <| pf_updated_at := now env |>]> (st_profiles s);
  ch_customer : st_customers s' = alter (λ c, c <| cu_licensed_states := proposed |>) customer_id (st_customers s);
  ch_requests k : st_requests s' !! k =
    (λ q, if is_open customer_id q then projected env proposed removed q else q) <$> st_requests s !! k;
  ch_holds k h : st_holds s !! k = Some h → ∃ h', st_holds s' !! k = Some h' ∧
    match st_requests s !! k with
    | Some q => if is_open customer_id q && bool_decide (rq_status (projected env proposed removed q) = canceled)
                then released env q h h' else h' = h
    | None => h' = h
    end
}.

Lemma loop_changed env proposed removed a cid l rs s :
  keyed (st_requests s) → l = open_customer_requests s cid → mapM_outcome (impact_of proposed) l = Ok rs →
  ∃ s1, for_each l (λ item, match impact_for (omap id rs) item with
          | Some impact => apply_request_impact env item impact a removed
          | None => mret tt
          end) s = (Ok tt, s1) ∧
    other_tables s1 = other_tables s ∧ account_tables s1 = account_tables s ∧
    (∀ k, st_requests s1 !! k = (λ q, if is_open cid q then projected env proposed removed q else q) <$> st_requests s !! k) ∧
    (∀ k h, st_holds s !! k = Some h → ∃ h', st_holds s1 !! k = Some h' ∧
      match st_requests s !! k with
      | Some q => if is_open cid q && bool_decide (rq_status (projected env proposed removed q) = canceled)
                  then released env q h h' else h' = h
      | None => h' = h
      end).
Proof.
  intros Hk -> Hrs. pose proof (open_ids_distinct s cid Hk) as Hnd.
  destruct (loop_run env (omap id rs) a removed _ Hnd s) as (s1 & E & Ho & Ha & Hr & Hh).
  { intros q [[k Hq] _]%elem_of_open. by rewrite (Hk _ _ Hq). }
  assert (∀ k q, st_requests s !! k = Some q → is_open cid q = true →
    impact_of proposed q = Ok (impact_for (omap id rs) q)) as Hfor.
  { intros k q Hq Hopen. apply (impact_for_projection _ _ _ Hrs Hnd), elem_of_open. eauto. }
  assert (∀ k, st_requests s !! k = None → find_request k (open_customer_requests s cid) = None) as Hnone.
  { intros k Hn. apply find_request_None. intros (q & -> & [[k' Hq] _]%elem_of_open)%list_elem_of_fmap.
    by rewrite (Hk _ _ Hq), Hq in Hn. }
  exists s1. split_and!; [done..| |].
  - intros k. rewrite Hr. destruct (st_requests s !! k) as [q|] eqn:Hq; [|by rewrite Hnone].
    rewrite (find_open s cid k q Hk Hq). cbn. destruct (is_open cid q) eqn:Hopen; [|done].
    unfold projected, reached_by. by rewrite (Hfor k q).
  - intros k h Hid. destruct (Hh k h Hid) as (h' & Hh' & Hrel). exists h'. split; [done|].
    destruct (st_requests s !! k) as [q|] eqn:Hq; [|by rewrite Hnone in Hrel].
    rewrite (find_open s cid k q Hk Hq) in Hrel. destruct (is_open cid q) eqn:Hopen; [|done]. cbn [andb].
    unfold projected. rewrite (Hfor k q) by done. unfold cancels in Hrel.
    apply open_not_canceled in Hopen. destruct (impact_for (omap id rs) q) as [i|]; [|by rewrite bool_decide_eq_false_2].
    unfold impacted. destruct (im_action i); rsimpl.
    + by rewrite bool_decide_eq_false_2 in Hrel |- *.
    + by rewrite bool_decide_eq_true_2 in Hrel |- *.
Qed.

Lemma strings_safe l path : unsafe_detail_key (strings_json l) path = None.
Proof. unfold strings_json. cbn. generalize 0. induction l as [|x l IH]; intros i; [done|]. apply IH. Qed.

Lemma updates_safe impacts path : unsafe_detail_key (request_updates impacts) path = None.
Proof.
  unfold request_updates. cbn -[request_update]. generalize 0. induction impacts as [|i l IH]; intros n; [done|].
  cbn -[request_update unsafe_detail_key]. assert (∀ p, unsafe_detail_key (request_update i) p = None) as ->; [|apply IH].
  intros p. unfold request_update. cbn -[strings_json]. by rewrite !strings_safe.
Qed.

Lemma change_details_safe current proposed added removed impacts :
  unsafe_detail_key (JObj (change_details current proposed added removed impacts)) [] = None.
Proof.
  unfold change_details. cbn -[strings_json request_updates]. by rewrite !strings_safe, updates_safe.
Qed.

(** The answer of an application, read from the store it leaves. *)
Definition apply_answer (env : Env) (s : Store) (user_id : uuid) (profile : CustomerProfile)
    : outcome LicensedStateApplyResult :=
  account ← workspace profile;
  overview ← build_customer_overview s user_id profile (now env);
  requests_page ← build_request_workspace env s user_id profile 20;
  Ok (mkApplyResult account overview requests_page).

Lemma commit_changed env user profile cid current proposed rs s :
  keyed (st_requests s) → mapM_outcome (impact_of proposed) (open_customer_requests s cid) = Ok rs →
  ∃ s2, changed env user profile cid proposed (sorted_difference current proposed) s s2 ∧
    commit_change env user profile cid current proposed (open_customer_requests s cid) (omap id rs) s =
      (apply_answer env s2 user (profile <| pf_licensed_states := proposed |> <| pf_updated_at := now env |>), s2).
Proof.
  intros Hk Hrs. destruct (loop_changed env proposed (sorted_difference current proposed)
    (sorted_difference proposed current) cid _ rs s Hk eq_refl Hrs) as (s1 & E1 & Ho & [= Hp Hc _] & Hr & Hh).
  unfold commit_change. cbv zeta. rewrite (bind_Ok _ _ _ _ _ E1), bind_modify. unfold update_customer. rewrite bind_modify.
  erewrite bind_Ok; [|apply record_activity_run; try done; [apply str_of_uuid_nonblank | apply change_details_safe]].
  match goal with |- context [lift (workspace _) ≫= ?k] =>
    match goal with |- ∃ s2, _ ∧ (_ ≫= _) ?st = _ => exists st end end.
  split.
  - constructor.
    + rewrite <- Ho. reflexivity.
    + rewrite <- Hp. reflexivity.
    + rewrite <- Hc. reflexivity.
    + exact Hr.
    + exact Hh.
  - unfold apply_answer. destruct (workspace _) as [account|e]; [|reflexivity].
    rewrite bind_lift. rewrite bind_gets. unfold id.
    destruct (build_customer_overview _ _ _ _) as [overview|e]; [|reflexivity]. rewrite bind_lift.
    destruct (build_request_workspace _ _ _ _ _) as [page|e]; reflexivity.
Qed.

Lemma normalized_fixed `{!CaseMappingLaws} values states v :
  normalize_states values = Ok states → v ∈ states → py_upper (strip v) = v.
Proof.
  intros Hok Hv. apply (elem_of_normalize_states _ _ Hok) in Hv as (w & _ & _ & ->). by rewrite py_upper_strip, py_upper_idemp.
Qed.

(** No open request is left outside the new states. *)
Lemma projected_within `{!CaseMappingLaws} env proposed removed q cid states :
  is_open cid (projected env proposed removed q) = true → (∃ o, impact_of proposed q = Ok o) →
  normalize_states (rq_states_snapshot (projected env proposed removed q)) = Ok states →
  ∀ st, st ∈ states → st ∈ proposed.
Proof.
  intros Hopen [o Ho] Hst st Hin. unfold projected in *. rewrite Ho in *. pose proof Ho as Himp. unfold impact_of in Himp.
  apply obind_Ok_inv in Himp as (current & Hcur & Himp). cbv zeta in Himp.
  set (resulting := List.filter (λ st, bool_decide (st ∈ proposed)) current) in Himp.
  assert (∀ v, v ∈ resulting → v ∈ current ∧ v ∈ proposed) as Hres.
  { intros v [? ?%bool_decide_eq_true]%list_elem_of_In%filter_In. by rewrite list_elem_of_In. }
  destruct (decide (resulting = current)) as [E|E].
  - rewrite (bool_decide_eq_true_2 _ E) in Himp. injection Himp as <-. rewrite Hcur in Hst. injection Hst as <-.
    rewrite <- E in Hin. by apply Hres.
  - rewrite (bool_decide_eq_false_2 _ E) in Himp. injection Himp as <-. unfold impacted in *. cbn [im_action im_resulting_states] in *.
    destruct (bool_decide (resulting = [])); [by apply open_not_canceled in Hopen|]. rsimpl.
    change (normalize_states resulting = Ok states) in Hst.
    apply (elem_of_normalize_states _ _ Hst) in Hin as (v & Hv & _ & ->). destruct (Hres v Hv) as [Hv1 Hv2].
    by rewrite (normalized_fixed _ _ _ Hcur Hv1).
Qed.

(** C32: A Licensed State change does what was reviewed, and nothing else.  An
    application that succeeds was confirmed by the account the review was made
    for, while its states were as reviewed and the projection of its open
    requests has the reviewed checksum.  It then sets the new states on the
    account and its Customer; narrows or cancels each open request exactly as
    projected, releasing the hold of the canceled ones alone; leaves no open
    request that covers a state outside the new ones; and touches no other
    request, hold, record, Lead, artifact or ledger entry. *)
Theorem change_is_the_review `{!CaseMappingLaws} env user_id token s r s' :
  keyed (st_requests s) → apply_review env user_id token s = (Ok r, s') →
  ∃ claims profile customer_id current impacts,
    review_claims env token = Ok claims ∧ cl_user_id claims = user_id ∧
    st_profiles s !! user_id = Some profile ∧ pf_agent_id profile = Some customer_id ∧
    normalize_states (pf_licensed_states profile) = Ok current ∧
    profile_version profile = Ok (cl_version claims) ∧
    affected_requests s customer_id (cl_proposed_states claims) = Ok (open_customer_requests s customer_id, impacts) ∧
    impact_checksum impacts = cl_impact_checksum claims ∧
    let proposed := cl_proposed_states claims in
    changed env user_id profile customer_id proposed (sorted_difference current proposed) s s' ∧
    ∀ k q states, st_requests s' !! k = Some q → is_open customer_id q = true →
      normalize_states (rq_states_snapshot q) = Ok states → ∀ st, st ∈ states → st ∈ proposed.
Proof.
  intros Hk Hrun. unfold apply_review in Hrun. rewrite bind_lift in Hrun.
  destruct (review_claims env token) as [claims|e] eqn:Ec; [|discriminate Hrun].
  apply bind_Ok_inv in Hrun as ([] & s0 & Hu & Hrun). apply raise_if_Ok_inv in Hu as (Hu%bool_decide_eq_false & -> & _).
  rewrite bind_gets in Hrun. apply bind_Ok_inv in Hrun as (profile & s0 & Hp & Hrun). apply require_Ok_inv in Hp as [Hp ->].
  apply bind_Ok_inv in Hrun as (cid & s0 & Hcid & Hrun). apply require_Ok_inv in Hcid as [Hcid ->].
  rewrite bind_lift in Hrun. destruct (profile_version profile) as [version|e] eqn:Ev; [|discriminate Hrun].
  apply bind_Ok_inv in Hrun as ([] & s0 & Hv & Hrun).
  apply raise_if_Ok_inv in Hv as (Hv%bool_decide_eq_false%dec_stable & -> & _). subst version.
  rewrite bind_gets, bind_lift in Hrun. unfold affected_requests in Hrun at 1.
  destruct (mapM_outcome _ _) as [rs|e] eqn:Ers; [|discriminate Hrun].
  apply bind_Ok_inv in Hrun as ([] & s0 & Hi & Hrun).
  apply raise_if_Ok_inv in Hi as (Hi%bool_decide_eq_false%dec_stable & -> & _).
  rewrite bind_lift in Hrun. destruct (normalize_states _) as [current|e] eqn:Ecur; [|discriminate Hrun].
  destruct (commit_changed env user_id profile cid current _ rs s Hk Ers) as (s2 & Hch & E2).
  rewrite E2 in Hrun. destruct (apply_answer _ _ _ _); [|discriminate Hrun]. injection Hrun as <- <-.
  exists claims, profile, cid, current, (omap id rs). split_and!; try done.
  - by apply dec_stable.
  - unfold affected_requests. by rewrite Ers.
  - split; [exact Hch|]. intros k q states Hq Hopen Hst. rewrite (ch_requests _ _ _ _ _ _ _ _ Hch) in Hq.
    apply fmap_Some in Hq as (q0 & Hq0 & ->). destruct (is_open cid q0) eqn:Hopen0; [|congruence].
    eapply (projected_within env _ _ q0 cid states); [exact Hopen| |exact Hst].
    assert (q0 ∈ open_customer_requests s cid) as Hin by (apply elem_of_open; eauto).
    eexists. exact (impact_for_projection _ _ _ Ers (open_ids_distinct s cid Hk) q0 Hin).
Qed.

(** *** A review that nothing overtook *)

Lemma claims_round_trip c :
  (cl_user_id c < 2 ^ 128)%N → normalize_states (cl_proposed_states c) = Ok (cl_proposed_states c) →
  claims_of_json (claims_json c) = Some c.
Proof.
  intros Hu Hn. unfold claims_json, claims_of_json.
  change (forallb _ _) with true. cbv iota. unfold text_at. cbn [dict_get String.eqb Ascii.eqb Bool.eqb mbind option_bind text_of].
  rewrite uuid_of_str by done. cbn [mbind option_bind].
  assert (texts_of (strings_json (cl_proposed_states c)) = Some (cl_proposed_states c)) as ->.
  { unfold strings_json, texts_of. generalize (cl_proposed_states c). intros l. induction l as [|x l IH]; [done|].
    cbn. rewrite IH. reflexivity. }
  cbn [mbind option_bind]. rewrite Hn. by destruct c.
Qed.

(** Every stored request covers supported states. *)
Definition states_supported (s : Store) : Prop :=
  ∀ k q, st_requests s !! k = Some q → ∃ states, normalize_states (rq_states_snapshot q) = Ok states.

Lemma mapM_outcome_total {A B} (f : A → outcome B) l : (∀ x, x ∈ l → ∃ y, f x = Ok y) → ∃ ys, mapM_outcome f l = Ok ys.
Proof.
  induction l as [|x l IH]; intros Hf; [by eexists|]. destruct (Hf x) as [y Hy]; [by left|].
  destruct IH as [ys Hys]; [intros z Hz; apply Hf; by right|]. exists (y :: ys). cbn. by rewrite Hy, Hys.
Qed.

Lemma supported_normalizes states :
  (∀ v, v ∈ states → v ∈ US_STATES ∧ py_upper (strip v) = v) → ∃ sts, normalize_states states = Ok sts.
Proof.
  intros Hall. unfold normalize_states. destruct (List.filter _ (sorted_set _)) as [|v l] eqn:E; [by eexists|]. exfalso.
  assert (In v (v :: l)) as Hin by (by left). rewrite <- E in Hin. apply filter_In in Hin as [Hin Hbad].
  apply negb_true_iff, bool_decide_eq_false in Hbad. apply Hbad.
  apply list_elem_of_In, elem_of_sorted_set, list_elem_of_In, in_map_iff in Hin as (w & <- & [Hw _]%filter_In).
  apply list_elem_of_In in Hw. destruct (Hall w Hw) as [Hus ->]. exact Hus.
Qed.

Lemma projected_supported `{!CaseMappingLaws} env proposed removed q :
  (∃ states, normalize_states (rq_states_snapshot q) = Ok states) →
  ∃ states, normalize_states (rq_states_snapshot (projected env proposed removed q)) = Ok states.
Proof.
  intros [current Hcur]. unfold projected, impact_of. rewrite Hcur. cbn [mbind outcome_bind]. cbv zeta.
  destruct (bool_decide (_ = current)); [by exists current|]. set (resulting := List.filter _ current).
  assert (rq_states_snapshot (impacted env q (mkImpact (rq_id q) (rq_lead_count q)
    (os_label (customer_request_status (rq_status q))) current resulting
    (if bool_decide (resulting = []) then action_canceled else action_narrowed)) removed) = resulting) as ->.
  { unfold impacted. cbn. by destruct (bool_decide _). }
  apply supported_normalizes. intros v [Hv _]%list_elem_of_In%filter_In. apply list_elem_of_In in Hv. split.
  - pose proof (normalize_states_valid _ _ Hcur) as Hvalid. rewrite Forall_forall in Hvalid. by apply Hvalid.
  - by apply (normalized_fixed _ _ _ Hcur).
Qed.

Lemma apply_answer_total env s user profile :
  states_supported s → (∃ states, normalize_states (pf_licensed_states profile) = Ok states) →
  ∃ r, apply_answer env s user profile = Ok r.
Proof.
  intros Hs [states Hn]. assert (∀ q, q ∈ scoped_requests s profile user → ∃ sts, normalize_states (rq_states_snapshot q) = Ok sts) as Hq.
  { intros q [[k Hq] _]%elem_of_scoped_requests. by apply (Hs k q). }
  unfold apply_answer, workspace, profile_version. rewrite Hn. cbn [mbind outcome_bind].
  destruct (mapM_outcome_total (overview_item s user (now env)) (scoped_requests s profile user)) as [items Hitems].
  { intros q Hin. destruct (Hq q Hin) as [sts Hsts]. unfold overview_item. rewrite Hsts. cbn [mbind outcome_bind].
    repeat case_match; by eexists. }
  unfold build_customer_overview. rewrite Hn, Hitems. cbn [mbind outcome_bind].
  destruct (mapM_outcome_total (request_detail env s) (take 20 (scoped_requests s profile user))) as [pages Hpages].
  { intros q Hin. destruct (Hq q) as [sts Hsts]; [by eapply elem_of_subseteq, Hin; apply subseteq_take|].
    unfold request_detail. rewrite Hsts. by eexists. }
  unfold build_request_workspace, request_limits, request_blocker. rewrite Hn, Hpages. cbn [mbind outcome_bind].
  destruct (_ || _); by eexists.
Qed.

(** What a review says of an open request. *)
Definition reviewed_fields (q : LeadRequest) : uuid * Z * RequestStatus * list text :=
  (rq_id q, rq_lead_count q, rq_status q, rq_states_snapshot q).

Lemma reviewed_agree proposed qs qs' :
  reviewed_fields <$> qs' = reviewed_fields <$> qs →
  mapM_outcome (impact_of proposed) qs' = mapM_outcome (impact_of proposed) qs.
Proof.
  revert qs'. induction qs as [|q qs IH]; intros [|q' qs'] E; try discriminate E; [done|].
  injection E as E1 E2 E3 E4 E. cbn. rewrite (IH qs' E).
  replace (impact_of proposed q') with (impact_of proposed q); [done|].
  unfold impact_of. by rewrite E1, E2, E3, E4.
Qed.

(** C33: A confirmed review applies.  Within its fifteen minutes, and as long as
    the account's states are those that were reviewed and its Customer's open
    requests are the same ones, each with the status, the quantity and the
    states it had (a changed name, phone, message or count of available Leads
    does not matter), the confirmation succeeds: every request the review named
    is narrowed or canceled as the review said, and every other request is as
    it was. *)
Theorem confirmed_review_applies `{!CaseMappingLaws} `{!SignerLaws} env env2 user_id profile profile2 selection review
    customer_id s s2 :
  preview env s user_id profile selection = Ok review →
  normalize_states (ls_states selection) = Ok (ls_states selection) → (user_id < 2 ^ 128)%N →
  session_secret (settings env2) = session_secret (settings env) →
  0 ≤ now env2 / 1000000 - now env / 1000000 ≤ REVIEW_MAX_AGE_SECONDS →
  pf_agent_id profile = Some customer_id →
  st_profiles s2 !! user_id = Some profile2 → pf_licensed_states profile2 = pf_licensed_states profile →
  pf_agent_id profile2 = Some customer_id →
  reviewed_fields <$> open_customer_requests s2 customer_id = reviewed_fields <$> open_customer_requests s customer_id →
  keyed (st_requests s2) → states_supported s2 →
  ∃ r s', apply_review env2 user_id (rv_review_token review) s2 = (Ok r, s') ∧
    changed env2 user_id profile2 customer_id (ls_states selection) (rv_removed_states review) s2 s' ∧
    (∀ i, i ∈ rv_impacts review → ∃ q, st_requests s2 !! im_request_id i = Some q ∧
       st_requests s' !! im_request_id i = Some (impacted env2 q i (rv_removed_states review))) ∧
    ∀ k q, st_requests s2 !! k = Some q → k ∉ im_request_id <$> rv_impacts review → st_requests s' !! k = Some q.
Proof.
  intros Hpre Hsel Hu Hsecret Hage Hcid Hp2 Hst2 Hcid2 Hopen Hk Hsup. unfold preview in Hpre.
  apply obind_Ok_inv in Hpre as (current & Hcur & Hpre). apply obind_Ok_inv in Hpre as (version & Hver & Hpre).
  apply obind_Ok_inv in Hpre as ([] & _ & Hpre). cbv zeta in Hpre. apply obind_Ok_inv in Hpre as ([] & _ & Hpre).
  rewrite Hcid in Hpre. apply obind_Ok_inv in Hpre as ([requests impacts] & Haff & [= <-]). cbn [rv_review_token rv_impacts rv_removed_states].
  unfold affected_requests in Haff. apply obind_Ok_inv in Haff as (rs & Hrs & [= <- <-]).
  rewrite <- (reviewed_agree _ _ _ Hopen) in Hrs.
  destruct (commit_changed env2 user_id profile2 customer_id current (ls_states selection) rs s2 Hk Hrs) as (s' & Hch & Hrun).
  destruct (apply_answer_total env2 s' user_id (profile2 <| pf_licensed_states := ls_states selection |> <| pf_updated_at := now env2 |>))
    as [r Hr]; [| by eexists |].
  { intros k q' Hq'. rewrite (ch_requests _ _ _ _ _ _ _ _ Hch) in Hq'. apply fmap_Some in Hq' as (q & Hq & ->).
    destruct (is_open customer_id q); [|by apply (Hsup k)]. apply projected_supported. by apply (Hsup k). }
  exists r, s'. split; [|split; [exact Hch|]].
  - unfold apply_review, review_claims. rewrite Hsecret, loads_dumps by done. rewrite claims_round_trip by done.
    rewrite bind_lift. cbn [cl_user_id cl_version cl_proposed_states cl_impact_checksum].
    rewrite bind_raise_if_false by (by apply bool_decide_eq_false_2; intros ?). rewrite bind_gets, Hp2.
    rewrite (bind_require_Some _ profile2) by done. rewrite Hcid2, (bind_require_Some _ customer_id) by done.
    assert (profile_version profile2 = Ok version) as -> by (by unfold profile_version in *; rewrite Hst2).
    rewrite bind_lift, bind_raise_if_false by (by apply bool_decide_eq_false_2; intros ?). rewrite bind_gets.
    unfold affected_requests. rewrite Hrs. cbn [mbind outcome_bind]. rewrite bind_lift.
    rewrite bind_raise_if_false by (by apply bool_decide_eq_false_2; intros ?). rewrite Hst2, Hcur, bind_lift.
    rewrite Hrun, Hr. reflexivity.
  - apply mapM_outcome_Ok_inv in Hrs. split.
    + intros i (o & Ho & E)%list_elem_of_omap. cbn in E. subst o. apply list_elem_of_lookup in Ho as [j Hj].
      destruct (Forall2_lookup_r _ _ _ _ _ Hrs Hj) as (q & Hq & Him). apply list_elem_of_lookup_2, elem_of_open in Hq as [[k Hq] Ho].
      rewrite (impact_of_id _ _ _ Him), (Hk _ _ Hq). exists q. split; [done|].
      rewrite (ch_requests _ _ _ _ _ _ _ _ Hch), Hq. cbn. rewrite Ho. unfold projected. by rewrite Him.
    + intros k q Hq Hno. rewrite (ch_requests _ _ _ _ _ _ _ _ Hch), Hq. cbn. destruct (is_open customer_id q) eqn:Ho; [|done].
      assert (q ∈ open_customer_requests s2 customer_id) as [j Hj]%list_elem_of_lookup by (apply elem_of_open; eauto).
      destruct (Forall2_lookup_l _ _ _ _ _ Hrs Hj) as (o & Hoj & Him). unfold projected. rewrite Him. destruct o as [i|]; [|done].
      exfalso. apply Hno. rewrite <- (Hk _ _ Hq), <- (impact_of_id _ _ _ Him). apply list_elem_of_fmap_2, list_elem_of_omap.
      exists (Some i). split; [by eapply list_elem_of_lookup_2|done].
Qed.
End Changes.

(** *** Concrete runs *)

#[local] Existing Instance ascii_case.
#[local] Existing Instance ascii_case_laws.
#[local] Existing Instance example_platform.

(** A signer whose tokens show what they sign. *)
#[local] Instance plain_signer : Signer := {|
  Token := text * datetime * json;
  dumps secret signed_at payload := (secret, signed_at, payload);
  loads secret at_ max_age token :=
    let '(signer, signed_at, payload) := token in
    let age := at_ / 1000000 - signed_at / 1000000 in
    if negb (bool_decide (signer = secret)) then BadSignature
    else if (0 <=? age) && (age <=? max_age) then Genuine payload else SignatureExpired
|}.
#[local] Instance plain_signer_laws : SignerLaws.
Proof.
  constructor. intros secret signed_at at_ max_age payload [Hlo Hhi]. cbn. rewrite bool_decide_eq_true_2 by done. cbn [negb].
  by rewrite (proj2 (Z.leb_le _ _) Hlo), (proj2 (Z.leb_le _ _) Hhi).
Qed.

Definition example_account : CustomerProfile :=
  mkCustomerProfile 2%N (u "a@acme.test") (u "Ann") (u "Ace") [] [u "NJ"; u "PA"] (Some 7) (Some 0) 0 0.
(** One request is narrowed, the other canceled. *)
Definition example_open : Store :=
  empty_store <| st_profiles := {[ 2%N := example_account ]} |> <| st_customers := {[ 7 := example_customer ]} |>
    <| st_requests := list_to_map
         [(1%N, example_request <| rq_states_snapshot := [u "NJ"; u "PA"] |>);
          (3%N, example_request <| rq_id := 3%N |> <| rq_states_snapshot := [u "NJ"] |>)] |>.
Definition example_selection : LicensedStateSelection :=
  mkSelection [u "PA"] (match profile_version example_account with Ok v => v | Err _ => [] end).

Lemma example_open_keyed : keyed (st_requests example_open).
Proof.
  intros k q Hq. change ((list_to_map [(1%N, example_request <| rq_states_snapshot := [u "NJ"; u "PA"] |>);
    (3%N, example_request <| rq_id := 3%N |> <| rq_states_snapshot := [u "NJ"] |>)] : gmap uuid LeadRequest) !! k = Some q) in Hq.
  apply elem_of_list_to_map_2 in Hq. rewrite !elem_of_cons, elem_of_nil in Hq. naive_solver.
Qed.
Lemma example_open_supported : states_supported example_open.
Proof.
  intros k q Hq. change ((list_to_map [(1%N, example_request <| rq_states_snapshot := [u "NJ"; u "PA"] |>);
    (3%N, example_request <| rq_id := 3%N |> <| rq_states_snapshot := [u "NJ"] |>)] : gmap uuid LeadRequest) !! k = Some q) in Hq.
  apply elem_of_list_to_map_2 in Hq. rewrite !elem_of_cons, elem_of_nil in Hq.
  destruct Hq as [[= _ ->]|[[= _ ->]|[]]]; eexists; vm_compute; reflexivity.
Qed.

Definition example_review : outcome LicensedStateReview := preview example_env example_open 2%N example_account example_selection.

Example example_impacts :
  match example_review with Ok r => (λ i, (im_request_id i, im_action i)) <$> rv_impacts r | Err _ => [] end =
  [(1%N, action_narrowed); (3%N, action_canceled)].
Proof. vm_compute. reflexivity. Qed.

Lemma example_review_Ok : ∃ review, example_review = Ok review.
Proof.
  assert (match example_review with Ok _ => true | Err _ => false end = true) as E by (vm_compute; reflexivity).
  destruct example_review as [review|e]; [by exists review | discriminate E].
Qed.

Lemma confirmed_review_applies_witness :
  ∃ review r s', example_review = Ok review ∧
    apply_review example_env 2%N (rv_review_token review) example_open = (Ok r, s') ∧
    (rq_status <$> st_requests s' !! 3%N) = Some canceled.
Proof.
  destruct example_review_Ok as [review E].
  destruct (confirmed_review_applies example_env example_env 2%N example_account example_account example_selection review 7
    example_open example_open E) as (r & s' & Hrun & Hch & _); try reflexivity.
  - vm_compute. split; discriminate.
  - exact example_open_keyed.
  - exact example_open_supported.
  - exists review, r, s'. split; [exact E|]. split; [exact Hrun|]. rewrite (ch_requests _ _ _ _ _ _ _ _ Hch).
    assert (rv_removed_states review = [u "NJ"]) as ->; [|vm_compute; reflexivity].
    enough (match example_review with Ok r => rv_removed_states r | Err _ => [] end = [u "NJ"]) as H by (by rewrite E in H).
    vm_compute. reflexivity.
Defined.

Definition example_applied : outcome LicensedStateApplyResult * Store :=
  match example_review with
  | Ok review => apply_review example_env 2%N (rv_review_token review) example_open
  | Err e => (Err e, example_open)
  end.

Lemma change_is_the_review_witness :
  ∃ r s', example_applied = (Ok r, s') ∧
    ∃ current, normalize_states (pf_licensed_states example_account) = Ok current.
Proof.
  destruct example_review_Ok as [review E].
  assert (match example_applied with (Ok _, _) => true | (Err _, _) => false end = true) as Eok by (vm_compute; reflexivity).
  assert (example_applied = apply_review example_env 2%N (rv_review_token review) example_open) as Eapp
    by (unfold example_applied; rewrite E; reflexivity).
  destruct example_applied as [[r|e] s'] eqn:Er; [|discriminate Eok].
  exists r, s'. split; [reflexivity|].
  destruct (change_is_the_review example_env 2%N (rv_review_token review) example_open r s' example_open_keyed (eq_sym Eapp))
    as (claims & profile & cid & current & impacts & _ & _ & Hp & _ & Hcur & _).
  injection Hp as <-. exists current. exact Hcur.
Defined.
