(* ===== verification/Feedback.v ===== *)
(** * Customer feedback and the eligibility controls

    [jawnix/feedback.py], [jawnix/eligibility.py] and the feedback, report,
    suppression and correction endpoints of [jawnix/api.py]: a Customer's
    disposition may file a Lead Report and hold the Lead back; an administrator
    resolves the report, suppresses the Lead or corrects what it delivers.  The
    signed-in profile of an endpoint is an argument. *)

From S2P Require Import Prelude PyText Models Activity LeadDatabases.

Open Scope Z_scope.

(** ** Dispositions *)

Definition REPORT_DISPOSITIONS (disposition : string) : option string :=
  match disposition with
  | "invalid_phone" => Some "invalid_phone"
  | "wrong_business" => Some "wrong_business_or_title"
  | "do_not_contact" => Some "do_not_contact_or_legal"
  | _ => None
  end%string.
Definition HOLD_DISPOSITIONS : list string := ["invalid_phone"; "do_not_contact"]%string.

Definition put_report (r : LeadReport) : M Store unit :=
  modify (λ s, s <| st_reports := <[rp_id r := r]> (st_reports s) |>).
Definition add_hold (h : EligibilityHold) : M Store unit :=
  modify (λ s, s <| st_eligibility_holds := st_eligibility_holds s ++ [h] |>).
Definition update_eligibility_hold (id : uuid) (f : EligibilityHold → EligibilityHold) : M Store unit :=
  modify (λ s, s <| st_eligibility_holds :=
    (λ h, if bool_decide (eh_id h = id) then f h else h) <$> st_eligibility_holds s |>).

Definition report_of_transition (s : Store) (transition_id : uuid) : option LeadReport :=
  List.find (λ r, bool_decide (rp_source_transition_id r = Some transition_id)) (map_to_list (st_reports s)).*2.
Definition hold_of_report (s : Store) (report_id : uuid) : option EligibilityHold :=
  List.find (λ h, bool_decide (eh_report_id h = report_id)) (st_eligibility_holds s).

Definition file_report (event : DistributionEvent) (transition : LeadDispositionTransition) (reason : string)
    : M Store LeadReport :=
  found ← gets (λ s, report_of_transition s (dt_id transition));
  match found with
  | Some report => mret report
  | None =>
      id ← uuid4;
      let report := mkLeadReport id (ev_id event) (dt_customer_id transition) (Some (dt_id transition)) reason
                      (dt_note transition) "open" (dt_created_at transition) in
      put_report report ;;
      mret report
  end.

Definition place_hold (env : Env) (event : DistributionEvent) (transition : LeadDispositionTransition)
    (report : LeadReport) : M Store EligibilityHold :=
  found ← gets (λ s, hold_of_report s (rp_id report));
  match found with
  | Some hold => mret hold
  | None =>
      id ← uuid4;
      let hold := mkEligibilityHold id (ev_lead_id event) (ev_id event) (rp_id report)
                    (u (dt_disposition transition)) true [] [] None (dt_created_at transition) in
      add_hold hold ;;
      record_activity env (u "eligibility_hold_applied") (u "lead") (str_of_Z (ev_lead_id event))
        (str_of_uuid (dt_actor_user_id transition))
        (match dt_note transition with [] => u (dt_disposition transition) | note => note end)
        [("holdId", JStr (str_of_uuid id)); ("reportId", JStr (str_of_uuid (rp_id report)));
         ("distributionEventId", JNum (ev_id event)); ("disposition", JStr (u (dt_disposition transition)))]%string
        [] ;;
      mret hold
  end.

Definition apply_disposition_controls (env : Env) (event : DistributionEvent)
    (transition : LeadDispositionTransition) : M Store (option LeadReport * option EligibilityHold) :=
  match REPORT_DISPOSITIONS (dt_disposition transition) with
  | None => mret (None, None)
  | Some reason =>
      report ← file_report event transition reason;
      if bool_decide (dt_disposition transition ∉ HOLD_DISPOSITIONS) then mret (Some report, None) else
      hold ← place_hold env event transition report;
      mret (Some report, Some hold)
  end.

(** A hold as its release leaves it. *)
Definition released (env : Env) (actor_id reason : text) (hold : EligibilityHold) : EligibilityHold :=
  hold <| eh_active := false |> <| eh_released_by := actor_id |> <| eh_release_reason := reason |>
       <| eh_released_at := Some (now env) |>.

Definition release_report_hold (env : Env) (report : LeadReport) (actor_id reason : text)
    : M Store (option EligibilityHold) :=
  found ← gets (λ s, List.find (λ h, bool_decide (eh_report_id h = rp_id report) && eh_active h)
                       (st_eligibility_holds s));
  match found with
  | None => mret None
  | Some hold =>
      update_eligibility_hold (eh_id hold) (λ _, released env actor_id reason hold) ;;
      record_activity env (u "eligibility_hold_removed") (u "lead") (str_of_Z (eh_lead_id hold)) actor_id reason
        [("holdId", JStr (str_of_uuid (eh_id hold))); ("reportId", JStr (str_of_uuid (rp_id report)));
         ("distributionEventId", JNum (eh_distribution_event_id hold))]%string [] ;;
      mret (Some (released env actor_id reason hold))
  end.

(** ** Evidence and corrections *)

Record LeadEvidence : Type := mkLeadEvidence {
  ve_kind : text;
  ve_label : text;
  ve_title : text;
  ve_state : text;
  ve_observation_id : option Z;
  ve_observed_at : option datetime;
  ve_source : text;
  ve_upload_id : option uuid
}.

Definition no_evidence : LeadEvidence :=
  mkLeadEvidence (u "none") (u "No underlying listing evidence") [] [] None None [] None.

(** The scraped listing, or the imported snapshot under it. *)
Definition listing_evidence (s : Store) (lead : Lead) : LeadEvidence :=
  match ld_current_listing_observation_id lead ≫= (st_observations s !!.) with
  | Some observation =>
      mkLeadEvidence (u "current_listing") (u "Current Listing (Google Maps observation)")
        (ob_title observation) (ob_state observation) (Some (ob_id observation))
        (Some (ob_observed_at observation)) (ob_source observation) None
  | None =>
      if negb (bool_decide (ld_legacy_title lead = [])) || negb (bool_decide (ld_legacy_state lead = []))
      then mkLeadEvidence (u "legacy_snapshot") (u "Legacy Listing Snapshot (imported)")
             (ld_legacy_title lead) (ld_legacy_state lead) None None (ld_source_flow lead) None
      else no_evidence
  end.

(** The uploaded row of the DB2 inventory. *)
Definition upload_evidence (s : Store) (lead : Lead) : LeadEvidence :=
  match st_memberships s !! ld_id lead with
  | None => no_evidence
  | Some membership =>
      match db2_listings s [(ld_id lead, mb_upload_id membership)] !! ld_id lead with
      | None => no_evidence
      | Some source =>
          mkLeadEvidence (u "csv_upload") (u "CSV upload (DB2)") (sl_title source) (sl_state source) None
            (lu_created_at <$> st_lead_uploads s !! mb_upload_id membership)
            (u "DB2 CSV " ++ str_of_uuid (mb_upload_id membership)) (Some (mb_upload_id membership))
      end
  end.

Definition from_db2 (lead : Lead) (database : option Database) : bool :=
  bool_decide (database = Some db2) || negb (ld_in_db1 lead).

Definition lead_evidence (s : Store) (lead : Lead) (database : option Database) : LeadEvidence :=
  match ld_active_correction_id lead ≫= (st_corrections s !!.) with
  | Some active =>
      mkLeadEvidence (u "prior_correction") (u "Active Lead Correction") (co_title active) (co_state active)
        None (Some (co_created_at active)) (co_reason active) (co_based_on_upload_id active)
  | None => if from_db2 lead database then upload_evidence s lead else listing_evidence s lead
  end.

Definition put_lead (lead : Lead) : M Store unit :=
  modify (λ s, s <| st_leads := <[ld_id lead := lead]> (st_leads s) |>).
Definition put_correction (c : LeadCorrectionEvent) : M Store unit :=
  modify (λ s, s <| st_corrections := <[co_id c := c]> (st_corrections s) |>).

Definition EMPTY_CORRECTION : exn :=
  ControlConflict (u "A Lead Correction must change the delivered title or state.") "empty_correction".

Definition record_correction (env : Env) (lead : Lead) (actor_id reason : text) (title state : option text)
    (database : option Database) : M Store LeadCorrectionEvent :=
  evidence ← gets (λ s, lead_evidence s lead database);
  let current_title := if from_db2 lead database then ve_title evidence else ld_title lead in
  let current_state := if from_db2 lead database then ve_state evidence else ld_state lead in
  let proposed_title := from_option strip current_title title in
  let proposed_state := match state with Some (_ :: _ as st) => st | _ => current_state end in
  raise_if (bool_decide (proposed_title = current_title) && bool_decide (proposed_state = current_state))
    EMPTY_CORRECTION ;;
  id ← uuid4;
  let correction := mkLeadCorrectionEvent id (ld_id lead) (u "applied") proposed_title proposed_state actor_id
                      (strip reason) (ld_active_correction_id lead) (ve_kind evidence)
                      (ve_observation_id evidence) (ve_upload_id evidence) (ve_title evidence)
                      (ve_state evidence) (now env) in
  put_correction correction ;;
  put_lead (lead <| ld_active_correction_id := Some id |> <| ld_title := proposed_title |>
                 <| ld_state := proposed_state |>) ;;
  mret correction.

(** ** Resolutions *)

Definition get_event (event_id : Z) : M Store (option DistributionEvent) :=
  gets (λ s, List.find (λ e, ev_id e =? event_id) (st_events s)).

Definition resolve (env : Env) (report : LeadReport) (action : string) (actor_id note : text)
    : M Store (LeadReportResolution * option EligibilityHold * option Lead) :=
  raise_if (negb (bool_decide (rp_status report = "open"%string)))
    (ControlConflict (u "This Lead Report is already resolved.") "already_resolved") ;;
  found ← get_event (rp_distribution_event_id report);
  event ← require found (AttributeError (u "lead_id"));
  lead ← gets (λ s, st_leads s !! ev_lead_id event);
  id ← uuid4;
  let resolution := mkLeadReportResolution id (rp_id report) action (strip note) actor_id (now env) in
  resolved ← gets (λ s, existsb (λ r, bool_decide (rs_report_id r = rp_id report))
                          (map_to_list (st_resolutions s)).*2);
  raise_if resolved (IntegrityError (u "lead_report_resolutions.report_id")) ;;
  modify (λ s, s <| st_resolutions := <[id := resolution]> (st_resolutions s) |>) ;;
  hold ← release_report_hold env report actor_id (strip note);
  put_report (report <| rp_status := action |>) ;;
  mret (resolution, hold, lead).

Definition dismiss_report (env : Env) (report : LeadReport) (actor_id note : text)
    : M Store LeadReportResolution :=
  r ← resolve env report "dismissed" actor_id note;
  mret r.1.1.

Definition correct_from_report (env : Env) (report : LeadReport) (actor_id note : text)
    (title state : option text) : M Store LeadCorrectionEvent :=
  raise_if (bool_decide (title = None) && bool_decide (state = None))
    (ControlConflict (u "A Lead Correction must propose a title, a state, or both.") "missing_override") ;;
  r ← resolve env report "corrected" actor_id note;
  lead ← require r.2 (AttributeError (u "active_correction_id"));
  found ← get_event (rp_distribution_event_id report);
  event ← require found (AttributeError (u "inventory_database"));
  record_correction env lead actor_id note title state (Some (ev_inventory_database event)).

Definition suppress_from_report (env : Env) (report : LeadReport) (actor_id note : text) : M Store Lead :=
  r ← resolve env report "suppressed" actor_id note;
  lead ← require r.2 (AttributeError (u "suppressed"));
  let lead := lead <| ld_suppressed := true |> <| ld_suppression_reason := strip note |> in
  put_lead lead ;;
  mret lead.

(** ** The administrator's endpoints *)

Definition evidence_payload (correction : LeadCorrectionEvent) : json :=
  JObj [("kind", JStr (co_based_on_kind correction)); ("title", JStr (co_based_on_title correction));
        ("state", JStr (co_based_on_state correction));
        ("observationId", json_opt JNum (co_based_on_observation_id correction))]%string.

Definition correction_activity (env : Env) (correction : LeadCorrectionEvent) (actor : uuid) (reason : text)
    (origin : dict) : M Store AuditEntry :=
  record_activity env (u "lead_correction_applied") (u "lead") (str_of_Z (co_lead_id correction))
    (str_of_uuid actor) reason
    ([("before", JObj [("correctionId", json_opt (λ i, JStr (str_of_uuid i)) (co_supersedes_correction_id correction));
                       ("title", JStr (co_based_on_title correction)); ("state", JStr (co_based_on_state correction))]);
      ("after", JObj [("correctionId", JStr (str_of_uuid (co_id correction)));
                      ("title", JStr (co_title correction)); ("state", JStr (co_state correction))]);
      ("evidence", evidence_payload correction)]%string ++ origin) [].

Definition get_lead (lead_id : Z) : M Store Lead :=
  found ← gets (λ s, st_leads s !! lead_id);
  require found (HTTPException 404 (u "Lead was not found.")).

Definition suppress_lead (env : Env) (actor : uuid) (lead_id : Z) (reason : text) : M Store Lead :=
  begin (
    lead ← get_lead lead_id;
    if ld_suppressed lead then mret lead else
    let lead := lead <| ld_suppressed := true |> <| ld_suppression_reason := strip reason |> in
    put_lead lead ;;
    record_activity env (u "lead_suppressed") (u "lead") (str_of_Z (ld_id lead)) (str_of_uuid actor) reason
      [("before", JObj [("suppressed", JBool false)]); ("after", JObj [("suppressed", JBool true)])]%string [] ;;
    mret lead).

Definition unsuppress_lead (env : Env) (actor : uuid) (lead_id : Z) (reason : text) : M Store Lead :=
  begin (
    lead ← get_lead lead_id;
    if negb (ld_suppressed lead) then mret lead else
    let previous_reason := ld_suppression_reason lead in
    let lead := lead <| ld_suppressed := false |> <| ld_suppression_reason := [] |> in
    put_lead lead ;;
    record_activity env (u "lead_unsuppressed") (u "lead") (str_of_Z (ld_id lead)) (str_of_uuid actor) reason
      [("before", JObj [("suppressed", JBool true); ("suppressionReason", JStr previous_reason)]);
       ("after", JObj [("suppressed", JBool false)])]%string [] ;;
    mret lead).

(** [except ControlConflict as conflict: db.rollback(); raise HTTPException(status_code, ...)] *)
Definition refuse_conflict {A} (status_code : Z) (m : M Store A) : M Store A :=
  try_catch m (λ e, match e with
                    | ControlConflict message _ => Some (raise (HTTPException status_code message))
                    | _ => None
                    end).

Definition apply_lead_correction (env : Env) (actor : uuid) (lead_id : Z) (title state : option text)
    (reason : text) : M Store LeadCorrectionEvent :=
  begin (
    lead ← get_lead lead_id;
    correction ← refuse_conflict 422 (record_correction env lead (str_of_uuid actor) reason title state None);
    correction_activity env correction actor reason [] ;;
    mret correction).

Definition NOWHERE_TO_LAND : exn :=
  HTTPException 409
    (u "This Lead Correction cannot be removed because there is no Current Listing or Legacy Listing Snapshot to fall back to.").

Definition remove_lead_correction (env : Env) (actor : uuid) (lead_id : Z) (reason : text)
    : M Store LeadCorrectionEvent :=
  begin (
    lead ← get_lead lead_id;
    active_id ← require (ld_active_correction_id lead) (HTTPException 409 (u "Lead has no active correction."));
    found ← gets (λ s, st_corrections s !! active_id);
    active ← require found (AttributeError (u "id"));
    let before := [("correctionId", JStr (str_of_uuid (co_id active))); ("title", JStr (ld_title lead));
                   ("state", JStr (ld_state lead))]%string in
    let lead := lead <| ld_active_correction_id := None |> in
    evidence ← gets (λ s, lead_evidence s lead None);
    raise_if (bool_decide (ve_kind evidence = u "none")) NOWHERE_TO_LAND ;;
    id ← uuid4;
    let removal := mkLeadCorrectionEvent id (ld_id lead) (u "removed") (co_title active) (co_state active)
                     (str_of_uuid actor) (strip reason) (Some (co_id active)) (ve_kind evidence)
                     (ve_observation_id evidence) None (ve_title evidence) (ve_state evidence) (now env) in
    put_correction removal ;;
    let lead := lead <| ld_title := ve_title evidence |> <| ld_state := ve_state evidence |> in
    put_lead lead ;;
    record_activity env (u "lead_correction_removed") (u "lead") (str_of_Z (ld_id lead)) (str_of_uuid actor) reason
      [("before", JObj before);
       ("after", JObj [("correctionId", JNull); ("title", JStr (ld_title lead)); ("state", JStr (ld_state lead))]);
       ("evidence", evidence_payload removal)]%string [] ;;
    mret removal).

Definition open_report (report_id : uuid) : M Store LeadReport :=
  found ← gets (λ s, st_reports s !! report_id);
  require found (HTTPException 404 (u "Lead Report was not found.")).

Definition report_activity (env : Env) (report : LeadReport) (action : string) (actor : uuid) (note : text)
    (after : dict) : M Store AuditEntry :=
  record_activity env (u "lead_report_" ++ u action) (u "lead_report") (str_of_uuid (rp_id report))
    (str_of_uuid actor) note
    [("before", JObj [("status", JStr (u "open"))]%string);
     ("after", JObj (("status", JStr (u (rp_status report))) :: after)%string);
     ("distributionEventId", JNum (rp_distribution_event_id report));
     ("reportReason", JStr (u (rp_reason report)))]%string [].

Definition dismiss_lead_report (env : Env) (actor report_id : uuid) (note : text) : M Store unit :=
  begin (
    report ← open_report report_id;
    refuse_conflict 409 (dismiss_report env report (str_of_uuid actor) note) ;;
    report_activity env (report <| rp_status := "dismissed"%string |>) "dismissed" actor note
      [("eligibilityHeld", JBool false); ("leadChanged", JBool false)]%string ;;
    mret tt).

Definition correct_lead_report (env : Env) (actor report_id : uuid) (note : text) (title state : option text)
    : M Store LeadCorrectionEvent :=
  begin (
    report ← open_report report_id;
    correction ← refuse_conflict 422
      (correct_from_report env report (str_of_uuid actor) note title state);
    report_activity env (report <| rp_status := "corrected"%string |>) "corrected" actor note
      [("eligibilityHeld", JBool false); ("correctionId", JStr (str_of_uuid (co_id correction)))]%string ;;
    correction_activity env correction actor note [("leadReportId", JStr (str_of_uuid (rp_id report)))]%string ;;
    mret correction).

Definition suppress_lead_report (env : Env) (actor report_id : uuid) (note : text) : M Store Lead :=
  begin (
    report ← open_report report_id;
    lead ← refuse_conflict 409 (suppress_from_report env report (str_of_uuid actor) note);
    report_activity env (report <| rp_status := "suppressed"%string |>) "suppressed" actor note
      [("eligibilityHeld", JBool false); ("leadSuppressed", JBool true)]%string ;;
    record_activity env (u "lead_suppressed") (u "lead") (str_of_Z (ld_id lead)) (str_of_uuid actor) note
      [("before", JObj [("suppressed", JBool false)]); ("after", JObj [("suppressed", JBool true)]);
       ("leadReportId", JStr (str_of_uuid (rp_id report)))]%string [] ;;
    mret lead).

(** ** The Customer's endpoints *)

Record FeedbackCreate : Type := mkFeedbackCreate {
  fb_distribution_event_id : Z;
  fb_disposition : string;
  fb_note : text;
  fb_quality_rating : option string;
  fb_quality_note : text
}.
Record OutcomeCreate : Type := mkOutcomeCreate {
  oq_kind : string;
  oq_appointment_at : option datetime;
  oq_note : text;
  oq_supersedes_outcome_id : option uuid
}.

(** An event of the profile's Customer. *)
Definition customer_distribution (profile : CustomerProfile) (event_id : Z) : M Store (Z * DistributionEvent) :=
  customer_id ← require (pf_agent_id profile) (HTTPException 404 (u "Customer was not found."));
  found ← gets (λ s, List.find (λ e, (ev_id e =? event_id) && bool_decide (ev_agent_id e = Some customer_id))
                       (st_events s));
  event ← require found (HTTPException 404 (u "Delivered Lead was not found."));
  mret (customer_id, event).

Definition customer_feedback_distribution (profile : CustomerProfile) (event_id : Z)
    : M Store (Z * DistributionEvent) :=
  try_catch (customer_distribution profile event_id) (λ e,
    match e with
    | HTTPException status_code _ =>
        if status_code =? 404 then Some (raise (HTTPException 404 (u "No delivered Lead found."))) else None
    | _ => None
    end).

Definition NOT_BOOKED : exn :=
  HTTPException 409 (u "Book an appointment before reporting its later status.").

(** [ORDER BY created_at, id] *)
Definition outcome_le (a b : LeadOutcome) : Prop :=
  lo_created_at a < lo_created_at b ∨ (lo_created_at a = lo_created_at b ∧ (lo_id a ≤ lo_id b)%N).
#[export] Instance outcome_le_dec a b : Decision (outcome_le a b).
Proof. unfold outcome_le. apply _. Defined.

Definition outcome_history (s : Store) (event_id : Z) : list LeadOutcome :=
  merge_sort outcome_le
    (List.filter (λ o, lo_distribution_event_id o =? event_id) (map_to_list (st_outcomes s)).*2).

Definition superseded_ids (history : list LeadOutcome) : list uuid := omap lo_supersedes_outcome_id history.

(** The latest rating that no other supersedes. *)
Definition active_rating (s : Store) (event_id : Z) : option LeadOutcome :=
  let history := List.filter (λ o, String.eqb (lo_metric o) "quality") (outcome_history s event_id) in
  List.find (λ o, bool_decide (lo_id o ∉ superseded_ids history)) (rev history).

Definition put_outcome (o : LeadOutcome) : M Store unit :=
  modify (λ s, s <| st_outcomes := <[lo_id o := o]> (st_outcomes s) |>).

Definition dispositions_of (s : Store) (event_id : Z) : list LeadDispositionTransition :=
  List.filter (λ t, dt_distribution_event_id t =? event_id) (map_to_list (st_dispositions s)).*2.

(** [ORDER BY created_at DESC, id DESC] *)
Definition transition_ge (a b : LeadDispositionTransition) : Prop :=
  dt_created_at b < dt_created_at a ∨ (dt_created_at a = dt_created_at b ∧ (dt_id b ≤ dt_id a)%N).
#[export] Instance transition_ge_dec a b : Decision (transition_ge a b).
Proof. unfold transition_ge. apply _. Defined.

Definition put_transition (t : LeadDispositionTransition) : M Store unit :=
  modify (λ s, s <| st_dispositions := <[dt_id t := t]> (st_dispositions s) |>).

Definition set_disposition_state (event_id : Z) (t : LeadDispositionTransition) : M Store unit :=
  modify (λ s, s <| st_disposition_states :=
    <[event_id := mkLeadDispositionState event_id (dt_id t) (dt_disposition t) (dt_created_at t)]>
      (st_disposition_states s) |>).

Definition record_rating (env : Env) (user_id : uuid) (customer_id : Z) (event : DistributionEvent)
    (rated : option LeadOutcome) (payload : FeedbackCreate) : M Store (option LeadOutcome) :=
  match fb_quality_rating payload with
  | None => mret None
  | Some kind =>
      id ← uuid4;
      let rating := mkLeadOutcome id (ev_id event) customer_id (Some user_id) kind "quality" None
                      (strip (fb_quality_note payload)) (lo_id <$> rated) (now env) in
      put_outcome rating ;;
      mret (Some rating)
  end.

Definition create_feedback (env : Env) (user_id : uuid) (profile : CustomerProfile) (payload : FeedbackCreate)
    : M Store (LeadDispositionTransition * option LeadOutcome * option LeadReport * option EligibilityHold) :=
  begin (
    found ← customer_feedback_distribution profile (fb_distribution_event_id payload);
    let '(customer_id, event) := found in
    previous ← gets (λ s, head (merge_sort transition_ge (dispositions_of s (ev_id event))));
    booked ← gets (λ s, existsb (λ t, String.eqb (dt_disposition t) "appointment_booked")
                          (dispositions_of s (ev_id event)));
    raise_if (bool_decide (fb_disposition payload ∈ ["appointment_canceled"; "appointment_no_show"]%string)
              && negb booked) NOT_BOOKED ;;
    rated ← gets (λ s, active_rating s (ev_id event));
    transition_id ← uuid4;
    let transition := mkLeadDispositionTransition transition_id (ev_id event) customer_id user_id None
                        (fb_disposition payload) (strip (fb_note payload)) (dt_id <$> previous) (now env) in
    reused ← gets (λ s, existsb (λ t, bool_decide (is_Some (dt_previous_transition_id t)) &&
                            bool_decide (dt_previous_transition_id t = dt_id <$> previous))
                          (map_to_list (st_dispositions s)).*2);
    raise_if reused (IntegrityError (u "lead_disposition_transitions.previous_transition_id")) ;;
    put_transition transition ;;
    quality_rating ← record_rating env user_id customer_id event rated payload;
    controls ← apply_disposition_controls env event transition;
    set_disposition_state (ev_id event) transition ;;
    mret (transition, quality_rating, controls.1, controls.2)).

Definition OUTCOME_METRICS (kind : string) : option string :=
  match kind with
  | "good" | "poor" => Some "quality"
  | "positive_response" => Some "positive_response"
  | "appointment_booked" => Some "appointment_booked"
  | "appointment_canceled" => Some "appointment_canceled"
  | "appointment_no_show" => Some "appointment_no_show"
  | _ => None
  end%string.

Definition create_outcome (env : Env) (user_id : uuid) (profile : CustomerProfile) (event_id : Z)
    (payload : OutcomeCreate) : M Store LeadOutcome :=
  begin (
    found ← customer_distribution profile event_id;
    let '(customer_id, event) := found in
    metric ← require (OUTCOME_METRICS (oq_kind payload)) (KeyError (u (oq_kind payload)));
    history ← gets (λ s, outcome_history s (ev_id event));
    let active metric := existsb (λ o, String.eqb (lo_metric o) metric &&
                           bool_decide (lo_id o ∉ superseded_ids history)) history in
    raise_if (bool_decide (oq_kind payload ∈ ["appointment_canceled"; "appointment_no_show"]%string)
              && negb (active "appointment_booked"%string)) NOT_BOOKED ;;
    (match oq_supersedes_outcome_id payload with
     | Some id =>
         raise_if (negb (existsb (λ o, bool_decide (lo_id o = id) && String.eqb (lo_metric o) metric &&
                            bool_decide (id ∉ superseded_ids history)) history))
           (HTTPException 409 (u "The selected outcome cannot be superseded."))
     | None =>
         raise_if (active metric)
           (HTTPException 409 (u "This milestone is already recorded; submit a correction instead."))
     end) ;;
    id ← uuid4;
    let outcome := mkLeadOutcome id (ev_id event) customer_id (Some user_id) (oq_kind payload) metric
                     (oq_appointment_at payload) (strip (oq_note payload)) (oq_supersedes_outcome_id payload)
                     (now env) in
    put_outcome outcome ;;
    mret outcome).

Definition create_lead_report (env : Env) (profile : CustomerProfile) (event_id : Z) (reason : string)
    (details : text) : M Store LeadReport :=
  begin (
    found ← customer_distribution profile event_id;
    let '(customer_id, event) := found in
    id ← uuid4;
    let report := mkLeadReport id (ev_id event) customer_id None reason (strip details) "open" (now env) in
    put_report report ;;
    mret report).

(** ** The changes the controls are made of

    Every operation above is a sequence of these: rows are added under fresh
    identifiers, a report's status moves once, a hold is released, a Lead's
    delivered values and suppression change. *)

Inductive change (s : Store) : Store → Prop :=
| change_transition t : dt_id t = st_next_uuid s →
    change s (s <| st_next_uuid := (st_next_uuid s + 1)%N |> <| st_dispositions := <[dt_id t := t]> (st_dispositions s) |>)
| change_outcome o : lo_id o = st_next_uuid s →
    change s (s <| st_next_uuid := (st_next_uuid s + 1)%N |> <| st_outcomes := <[lo_id o := o]> (st_outcomes s) |>)
| change_correction c : co_id c = st_next_uuid s →
    change s (s <| st_next_uuid := (st_next_uuid s + 1)%N |> <| st_corrections := <[co_id c := c]> (st_corrections s) |>)
| change_resolution r : rs_id r = st_next_uuid s →
    change s (s <| st_next_uuid := (st_next_uuid s + 1)%N |> <| st_resolutions := <[rs_id r := r]> (st_resolutions s) |>)
| change_report r : rp_id r = st_next_uuid s →
    (∀ t, rp_source_transition_id r = Some t → (t < st_next_uuid s)%N) →
    change s (s <| st_next_uuid := (st_next_uuid s + 1)%N |> <| st_reports := <[rp_id r := r]> (st_reports s) |>)
| change_hold h : eh_id h = st_next_uuid s → hold_of_report s (eh_report_id h) = None →
    is_Some (st_reports s !! eh_report_id h) →
    change s (s <| st_next_uuid := (st_next_uuid s + 1)%N |> <| st_eligibility_holds := st_eligibility_holds s ++ [h] |>)
| change_audit e :
    change s (s <| st_next_uuid := (st_next_uuid s + 1)%N |> <| st_audit := st_audit s ++ [e] |>)
| change_status r status : st_reports s !! rp_id r = Some r → rp_status r = "open"%string →
    change s (s <| st_reports := <[rp_id r := r <| rp_status := status |>]> (st_reports s) |>)
| change_release env actor reason h : h ∈ st_eligibility_holds s →
    change s (s <| st_eligibility_holds := (λ x, if bool_decide (eh_id x = eh_id h)
      then released env actor reason h else x) <$> st_eligibility_holds s |>)
| change_lead l : change s (s <| st_leads := <[ld_id l := l]> (st_leads s) |>)
| change_state k d : change s (s <| st_disposition_states := <[k := d]> (st_disposition_states s) |>).

(** Rows carry fresh identifiers, each hold belongs to a report on file, and
    a report has at most one. *)
Definition below {A} (n : uuid) (m : gmap uuid A) : Prop := ∀ k x, m !! k = Some x → (k < n)%N.

Record feedback_inv (s : Store) : Prop := {
  fi_dispositions : below (st_next_uuid s) (st_dispositions s);
  fi_outcomes : below (st_next_uuid s) (st_outcomes s);
  fi_corrections : below (st_next_uuid s) (st_corrections s);
  fi_resolutions : below (st_next_uuid s) (st_resolutions s);
  fi_reports : below (st_next_uuid s) (st_reports s);
  fi_keyed : ∀ k r, st_reports s !! k = Some r → rp_id r = k;
  fi_sources : ∀ k r t, st_reports s !! k = Some r → rp_source_transition_id r = Some t → (t < st_next_uuid s)%N;
  fi_holds : Forall (λ h, (eh_id h < st_next_uuid s)%N ∧ is_Some (st_reports s !! eh_report_id h))
               (st_eligibility_holds s);
  fi_holds_id : NoDup (eh_id <$> st_eligibility_holds s);
  fi_holds_report : NoDup (eh_report_id <$> st_eligibility_holds s)
}.

(** What was said, delivered and observed stays. *)
Definition same_hold (h h' : EligibilityHold) : Prop :=
  eh_id h' = eh_id h ∧ eh_lead_id h' = eh_lead_id h ∧ eh_distribution_event_id h' = eh_distribution_event_id h ∧
  eh_report_id h' = eh_report_id h ∧ eh_reason h' = eh_reason h ∧ eh_created_at h' = eh_created_at h.

Record history_kept (s s' : Store) : Prop := {
  hk_events : st_events s' = st_events s;
  hk_observations : st_observations s' = st_observations s;
  hk_uploads : st_db2_rows s' = st_db2_rows s;
  hk_dispositions : st_dispositions s ⊆ st_dispositions s';
  hk_outcomes : st_outcomes s ⊆ st_outcomes s';
  hk_corrections : st_corrections s ⊆ st_corrections s';
  hk_resolutions : st_resolutions s ⊆ st_resolutions s';
  hk_audit : st_audit s `prefix_of` st_audit s';
  hk_reports : ∀ k r, st_reports s !! k = Some r →
    ∃ status, st_reports s' !! k = Some (r <| rp_status := status |>) ∧
      (rp_status r ≠ "open"%string → status = rp_status r);
  hk_holds : ∀ h, h ∈ st_eligibility_holds s → ∃ h', h' ∈ st_eligibility_holds s' ∧ same_hold h h'
}.

Lemma history_kept_refl s : history_kept s s.
Proof.
  split; try done.
  - intros k r Hr. exists (rp_status r). split; [by destruct r|done].
  - intros h Hh. exists h. done.
Qed.

Lemma history_kept_trans s1 s2 s3 : history_kept s1 s2 → history_kept s2 s3 → history_kept s1 s3.
Proof.
  intros [] []. split; try congruence; try (by etrans); [|].
  - intros k r Hr. destruct (hk_reports0 _ _ Hr) as (st2 & H2 & E2). destruct (hk_reports1 _ _ H2) as (st3 & H3 & E3).
    exists st3. split; [exact H3|]. intros Hne. rewrite (E2 Hne) in *. by apply E3.
  - intros h Hh. destruct (hk_holds0 _ Hh) as (h2 & H2 & ? & ? & ? & ? & ? & ?).
    destruct (hk_holds1 _ H2) as (h3 & Hh3 & ? & ? & ? & ? & ? & ?). exists h3. split; [done|].
    unfold same_hold. split_and!; congruence.
Qed.

Lemma below_insert {A} n (m : gmap uuid A) x : below n m → below (n + 1)%N (<[n := x]> m).
Proof. intros Hb k y. rewrite lookup_insert. case_decide; [intros _; lia|]. intros ?%Hb. lia. Qed.
Lemma below_mono {A} n n' (m : gmap uuid A) : (n ≤ n')%N → below n m → below n' m.
Proof. intros Hn Hb k y ?%Hb. lia. Qed.
Lemma below_fresh {A} n (m : gmap uuid A) : below n m → m !! n = None.
Proof. intros Hb. destruct (m !! n) eqn:E; [|done]. apply Hb in E. lia. Qed.
Lemma below_subseteq {A} n (m : gmap uuid A) x : below n m → m ⊆ <[n := x]> m.
Proof. intros Hb. by apply insert_subseteq, below_fresh. Qed.

Lemma holds_mono n n' (m m' : gmap uuid LeadReport) l :
  (n ≤ n')%N → (∀ k, is_Some (m !! k) → is_Some (m' !! k)) →
  Forall (λ h, (eh_id h < n)%N ∧ is_Some (m !! eh_report_id h)) l →
  Forall (λ h, (eh_id h < n')%N ∧ is_Some (m' !! eh_report_id h)) l.
Proof. intros Hn Hm Hl. eapply Forall_impl; [exact Hl|]. intros h [? ?]. split; [lia|auto]. Qed.

Lemma hold_of_report_None s k : hold_of_report s k = None → k ∉ eh_report_id <$> st_eligibility_holds s.
Proof.
  unfold hold_of_report. intros Hf Hin. apply list_elem_of_fmap in Hin as (h & -> & Hh%list_elem_of_In).
  apply (List.find_none _ _ Hf) in Hh. by rewrite bool_decide_eq_true_2 in Hh.
Qed.

Lemma released_id env actor reason h : eh_id (released env actor reason h) = eh_id h.
Proof. done. Qed.
Lemma released_report env actor reason h : eh_report_id (released env actor reason h) = eh_report_id h.
Proof. done. Qed.

Lemma release_ids (l : list EligibilityHold) h h' :
  eh_id h' = eh_id h → eh_report_id h' = eh_report_id h → h ∈ l → NoDup (eh_id <$> l) →
  let l' := (λ x, if bool_decide (eh_id x = eh_id h) then h' else x) <$> l in
  eh_id <$> l' = eh_id <$> l ∧ eh_report_id <$> l' = eh_report_id <$> l.
Proof.
  intros Ei Er Hin Hnd. cbn. rewrite <- !list_fmap_compose.
  assert (∀ x, x ∈ l → eh_id x = eh_id h → x = h) as Huniq.
  { intros x Hx E. apply list_elem_of_lookup in Hx as [i Hi]. apply list_elem_of_lookup in Hin as [j Hj].
    assert (i = j) as ->; [|congruence].
    eapply (NoDup_lookup _ _ _ (eh_id h) Hnd); rewrite list_lookup_fmap; [by rewrite Hi, <- E | by rewrite Hj]. }
  split; apply list_fmap_ext; intros i x Hi%list_elem_of_lookup_2; cbn; case_bool_decide as E; try done.
  - congruence.
  - by rewrite (Huniq x Hi E).
Qed.

(** ** Every change keeps the invariant and the history *)

Lemma change_kept s s' : feedback_inv s → change s s' → history_kept s s'.
Proof.
  intros [H1 H2 H3 H4 H5 Hkey Hsrc H6 H7 H8] Hc.
  assert (∀ k r, st_reports s !! k = Some r → ∃ status, st_reports s !! k = Some (r <| rp_status := status |>) ∧
    (rp_status r ≠ "open"%string → status = rp_status r)) as Hrep.
  { intros k r Hr. exists (rp_status r). split; [by destruct r|done]. }
  assert (∀ h, h ∈ st_eligibility_holds s → ∃ h', h' ∈ st_eligibility_holds s ∧ same_hold h h') as Hhold.
  { intros h Hh. by exists h. }
  destruct Hc as [t E|o E|c E|r E|r E Hs|h E Hn Hr|e|r status Hr Ho|env actor reason h Hh|l|k d];
    (split; rsimpl; try done; try (rewrite E; by apply below_subseteq)).
  - intros k r' Hr'. destruct (Hrep _ _ Hr') as (st & Hst & ?). exists st. split; [|done].
    rewrite lookup_insert_ne; [done|]. intros <-. rewrite E in Hr'. apply H5 in Hr'. lia.
  - intros h' Hh'. exists h'. split; [apply elem_of_app; by left | done].
  - by apply prefix_app_r.
  - intros k r' Hr'. rewrite lookup_insert. case_decide as Ek; [subst k|by apply Hrep].
    assert (r' = r) as -> by congruence. exists status. split; [done|]. by rewrite Ho.
  - intros x Hx. eexists. split; [apply list_elem_of_fmap_2, Hx|]. cbn. case_bool_decide as Ex; [|done].
    assert (x = h) as ->; [|done].
    apply list_elem_of_lookup in Hx as [i Hi]. apply list_elem_of_lookup in Hh as [j Hj].
    assert (i = j) as ->; [|congruence].
    eapply (NoDup_lookup _ _ _ (eh_id h) H7); rewrite list_lookup_fmap; [by rewrite Hi, <- Ex | by rewrite Hj].
Qed.

Lemma change_inv s s' : feedback_inv s → change s s' → feedback_inv s'.
Proof.
  intros [H1 H2 H3 H4 H5 Hkey Hsrc H6 H7 H8] Hc.
  assert ((st_next_uuid s ≤ st_next_uuid s + 1)%N) as Hle by lia.
  destruct Hc as [t E|o E|c E|r E|r E Hs|h E Hn Hr|e|r status Hr Ho|env actor reason h Hh|l|k d];
    (split; rsimpl; try done; try (by eapply below_mono); try (rewrite E; by apply below_insert);
      try (by eapply (holds_mono (st_next_uuid s)); eauto);
      try (intros k0 r0 t0 Hr0 Ht0; pose proof (Hsrc _ _ _ Hr0 Ht0); lia)).
  - intros k r'. rewrite lookup_insert. case_decide; [intros [= <-]; done|apply Hkey].
  - intros k r' t. rewrite lookup_insert. case_decide; [intros [= <-] Ht; specialize (Hs _ Ht); lia|].
    intros Hr' Ht. pose proof (Hsrc _ _ _ Hr' Ht). lia.
  - eapply (holds_mono (st_next_uuid s) _ (st_reports s)); [lia| |exact H6]. intros k Hk. rewrite lookup_insert. case_decide; [by eexists|done].
  - apply Forall_app. split; [by eapply (holds_mono (st_next_uuid s)); eauto|]. repeat constructor; [lia|done].
  - rewrite fmap_app. apply NoDup_app. split_and!; [done| |apply NoDup_singleton].
    intros x Hx Hx'%list_elem_of_singleton. subst x. apply list_elem_of_fmap in Hx as (h' & Eh & Hh').
    rewrite Forall_forall in H6. apply H6 in Hh'. lia.
  - rewrite fmap_app. apply NoDup_app. split_and!; [done| |apply NoDup_singleton].
    intros x Hx Hx'%list_elem_of_singleton. subst x. by apply hold_of_report_None in Hn.
  - intros k r'. rewrite lookup_insert. case_decide; [subst; intros _; by apply H5 in Hr|apply H5].
  - intros k r'. rewrite lookup_insert. case_decide; [intros [= <-]; done|apply Hkey].
  - intros k r' t. rewrite lookup_insert. case_decide; [|apply Hsrc]. intros [= <-] Ht.
    by apply (Hsrc _ _ _ Hr Ht).
  - eapply (holds_mono (st_next_uuid s) _ (st_reports s)); [lia| |exact H6]. intros k Hk. rewrite lookup_insert. case_decide; [by eexists|done].
  - apply Forall_fmap. eapply Forall_impl; [exact H6|]. intros x Hx. cbn. case_bool_decide; [|done].
    rewrite Forall_forall in H6. by apply H6 in Hh.
  - by rewrite (proj1 (release_ids (st_eligibility_holds s) h (released env actor reason h)
      (released_id _ _ _ _) (released_report _ _ _ _) Hh H7)).
  - by rewrite (proj2 (release_ids (st_eligibility_holds s) h (released env actor reason h)
      (released_id _ _ _ _) (released_report _ _ _ _) Hh H7)).
Qed.

Lemma changes_kept s s' : rtc change s s' → feedback_inv s → feedback_inv s' ∧ history_kept s s'.
Proof.
  induction 1 as [s|s s1 s' Hc _ IH]; intros Hinv; [by split; [|apply history_kept_refl]|].
  destruct (IH (change_inv _ _ Hinv Hc)) as [Hinv' Hk]. split; [done|].
  eapply history_kept_trans; [by apply change_kept | done].
Qed.

Lemma changes_next s s' : rtc change s s' → (st_next_uuid s ≤ st_next_uuid s')%N.
Proof.
  induction 1 as [|s s1 s' Hc _ IH]; [done|]. etrans; [|exact IH]. destruct Hc; rsimpl; lia.
Qed.

(** ** Every operation is a sequence of changes *)

Lemma record_activity_change env a t i c r d k s e s' :
  record_activity env a t i c r d k s = (Ok e, s') → change s s'.
Proof. intros (_ & _ & _ & _ & _ & _ & _ & ->)%record_activity_inv. apply change_audit. Qed.

Lemma file_report_changes event t reason s r s' :
  feedback_inv s → (dt_id t < st_next_uuid s)%N → file_report event t reason s = (Ok r, s') →
  rtc change s s' ∧ is_Some (st_reports s' !! rp_id r).
Proof.
  intros Hinv Hlt H. unfold file_report in H. rewrite bind_gets in H.
  destruct (report_of_transition s (dt_id t)) as [r0|] eqn:Hf.
  - apply ret_Ok_inv in H as [<- <-]. split; [done|]. unfold report_of_transition in Hf.
    apply List.find_some in Hf as [Hin _]. apply list_elem_of_In, list_elem_of_fmap in Hin as ([k r1] & -> & Hr).
    apply elem_of_map_to_list in Hr. cbn [snd]. rewrite (fi_keyed _ Hinv _ _ Hr). by eexists.
  - unfold uuid4, put_report in H. run_inv. split; [|rsimpl; by rewrite lookup_insert_eq].
    apply rtc_once. apply (change_report s (mkLeadReport _ _ _ _ _ _ _ _)); [done|]. by intros ? [= <-].
Qed.

Lemma place_hold_changes env event t report s h s' :
  is_Some (st_reports s !! rp_id report) →
  place_hold env event t report s = (Ok h, s') → rtc change s s'.
Proof.
  intros Hr H. unfold place_hold in H. rewrite bind_gets in H.
  destruct (hold_of_report s (rp_id report)) as [h0|] eqn:Hf; [by apply ret_Ok_inv in H as [_ <-]|].
  unfold uuid4, add_hold in H. rewrite bind_bind, bind_gets, bind_bind, bind_modify, bind_ret in H. cbv zeta in H.
  rewrite bind_modify in H. apply bind_Ok_inv in H as (e & s1 & Ha & H). apply ret_Ok_inv in H as [_ <-].
  apply record_activity_change in Ha. eapply rtc_l; [|by apply rtc_once].
  by apply (change_hold s (mkEligibilityHold _ _ _ _ _ _ _ _ _ _)).
Qed.

Lemma apply_disposition_controls_changes env event t s r s' :
  feedback_inv s → (dt_id t < st_next_uuid s)%N →
  apply_disposition_controls env event t s = (Ok r, s') → rtc change s s'.
Proof.
  intros Hinv Hlt H. unfold apply_disposition_controls in H.
  destruct (REPORT_DISPOSITIONS _) as [reason|]; [|by apply ret_Ok_inv in H as [_ <-]].
  apply bind_Ok_inv in H as (report & s1 & Hf & H). apply file_report_changes in Hf as [Hc Hr]; [|done..].
  destruct (bool_decide _); [by apply ret_Ok_inv in H as [_ <-]|].
  apply bind_Ok_inv in H as (h & s2 & Hh & H). apply ret_Ok_inv in H as [_ <-].
  apply place_hold_changes in Hh; [|done]. by etrans.
Qed.

Lemma release_report_hold_changes env report actor reason s r s' :
  release_report_hold env report actor reason s = (Ok r, s') → rtc change s s'.
Proof.
  intros H. unfold release_report_hold in H. rewrite bind_gets in H.
  destruct (List.find _ _) as [h|] eqn:Hf in H; [|by apply ret_Ok_inv in H as [_ <-]].
  apply List.find_some in Hf as [Hin%list_elem_of_In _]. unfold update_eligibility_hold in H.
  rewrite bind_modify in H. apply bind_Ok_inv in H as (e & s1 & Ha & H). apply ret_Ok_inv in H as [_ <-].
  apply record_activity_change in Ha. eapply rtc_l; [|by apply rtc_once]. by apply change_release.
Qed.

(** What a release leaves alone. *)
Lemma release_frame {A} (proj : Store → A) env report actor reason x :
  (∀ s v, proj (s <| st_eligibility_holds := v |>) = proj s) →
  (∀ s v, proj (s <| st_next_uuid := v |>) = proj s) → (∀ s v, proj (s <| st_audit := v |>) = proj s) →
  preserves (λ s, proj s = x) (release_report_hold env report actor reason).
Proof.
  intros H1 H2 H3. unfold release_report_hold. apply pres_bind; [apply pres_gets|]. intros [h|]; [|apply pres_ret].
  apply pres_bind; [apply pres_modify; intros s Hs; by rewrite H1|]. intros _.
  apply pres_bind; [by apply record_activity_frame | intros _; apply pres_ret].
Qed.

Lemma record_correction_changes env lead actor reason title state database s c s' :
  record_correction env lead actor reason title state database s = (Ok c, s') → rtc change s s'.
Proof.
  intros H. unfold record_correction, uuid4, put_correction, put_lead in H. rewrite bind_gets in H. cbv zeta in H.
  run_inv. eapply rtc_l; [|apply rtc_once, change_lead].
  by apply (change_correction s (mkLeadCorrectionEvent _ _ _ _ _ _ _ _ _ _ _ _ _ _)).
Qed.

Lemma resolve_changes env report action actor note s r s' :
  st_reports s !! rp_id report = Some report →
  resolve env report action actor note s = (Ok r, s') → rtc change s s' ∧ rp_status report = "open"%string.
Proof.
  intros Hr H. unfold resolve, uuid4, get_event in H.
  apply bind_Ok_inv in H as (? & s0 & Hg & H). apply raise_if_Ok_inv in Hg as (Hopen & -> & _).
  apply negb_false_iff, bool_decide_eq_true in Hopen. split; [|done].
  rewrite bind_gets in H. apply bind_Ok_inv in H as (event & s0 & Hg & H). apply require_Ok_inv in Hg as [_ ->].
  rewrite bind_gets, bind_bind, bind_gets, bind_bind, bind_modify, bind_ret in H. cbv zeta in H. rewrite bind_gets in H.
  apply bind_Ok_inv in H as (? & s0 & Hg & H). apply raise_if_Ok_inv in Hg as (_ & -> & _).
  rewrite bind_modify in H. apply bind_Ok_inv in H as (hold & s1 & Hh & H). unfold put_report in H.
  rewrite bind_modify in H. apply ret_Ok_inv in H as [_ <-].
  eapply rtc_l; [by apply (change_resolution s (mkLeadReportResolution (st_next_uuid s) (rp_id report) action
    (strip note) actor (now env)))|].
  pose proof (preserves_Ok _ _ _ _ _ (release_frame st_reports env report actor (strip note) _
    (λ _ _, eq_refl) (λ _ _, eq_refl) (λ _ _, eq_refl)) eq_refl Hh) as Hsame. rsimpl.
  eapply rtc_r; [by eapply release_report_hold_changes|]. apply (change_status s1 report action); [congruence|done].
Qed.

Lemma open_report_Ok rid s r s' : open_report rid s = (Ok r, s') → st_reports s !! rid = Some r ∧ s' = s.
Proof. unfold open_report. rewrite bind_gets. apply require_Ok_inv. Qed.

Lemma refuse_conflict_Ok {A} code (m : M Store A) s a s' :
  refuse_conflict code m s = (Ok a, s') → m s = (Ok a, s').
Proof. unfold refuse_conflict, try_catch. destruct (m s) as [[?|e] ?]; [done|by destruct e]. Qed.

Lemma get_lead_Ok id s l s' : get_lead id s = (Ok l, s') → st_leads s !! id = Some l ∧ s' = s.
Proof. unfold get_lead. rewrite bind_gets. apply require_Ok_inv. Qed.

Lemma customer_distribution_Ok profile event_id s r s' :
  customer_distribution profile event_id s = (Ok r, s') →
  s' = s ∧ pf_agent_id profile = Some r.1 ∧ r.2 ∈ st_events s ∧ ev_id r.2 = event_id ∧ ev_agent_id r.2 = Some r.1.
Proof.
  unfold customer_distribution. intros H.
  apply bind_Ok_inv in H as (cid & s1 & Hc & H). apply require_Ok_inv in Hc as [Hc ->]. rewrite bind_gets in H.
  apply bind_Ok_inv in H as (ev & s1 & He & H). apply require_Ok_inv in He as [He ->].
  apply ret_Ok_inv in H as [<- <-]. apply List.find_some in He as [Hin%list_elem_of_In Hp]. bool_inv. done.
Qed.

Lemma customer_feedback_distribution_Ok profile event_id s r s' :
  customer_feedback_distribution profile event_id s = (Ok r, s') →
  customer_distribution profile event_id s = (Ok r, s').
Proof.
  unfold customer_feedback_distribution, try_catch. destruct (customer_distribution _ _ s) as [[?|e] ?]; [done|].
  destruct e; try done. by destruct (_ =? _).
Qed.

(** The operations of Customers, and of administrators. *)
Inductive customer_step (s s' : Store) : Prop :=
| step_feedback env user profile payload r : create_feedback env user profile payload s = (r, s') → customer_step s s'
| step_outcome env user profile event_id payload r :
    create_outcome env user profile event_id payload s = (r, s') → customer_step s s'
| step_report env profile event_id reason details r :
    create_lead_report env profile event_id reason details s = (r, s') → customer_step s s'.
Inductive admin_step (s s' : Store) : Prop :=
| step_dismiss env actor report_id note r : dismiss_lead_report env actor report_id note s = (r, s') → admin_step s s'
| step_correct env actor report_id note title state r :
    correct_lead_report env actor report_id note title state s = (r, s') → admin_step s s'
| step_suppress_report env actor report_id note r :
    suppress_lead_report env actor report_id note s = (r, s') → admin_step s s'
| step_suppress env actor lead_id reason r : suppress_lead env actor lead_id reason s = (r, s') → admin_step s s'
| step_unsuppress env actor lead_id reason r : unsuppress_lead env actor lead_id reason s = (r, s') → admin_step s s'
| step_apply env actor lead_id title state reason r :
    apply_lead_correction env actor lead_id title state reason s = (r, s') → admin_step s s'
| step_remove env actor lead_id reason r : remove_lead_correction env actor lead_id reason s = (r, s') → admin_step s s'.

Lemma record_rating_changes env user cid event rated payload s r s' :
  record_rating env user cid event rated payload s = (Ok r, s') → rtc change s s'.
Proof.
  unfold record_rating, uuid4, put_outcome. intros H.
  destruct (fb_quality_rating payload); [|by apply ret_Ok_inv in H as [_ <-]]. run_inv. apply rtc_once.
  by apply (change_outcome s (mkLeadOutcome _ _ _ _ _ _ _ _ _ _)).
Qed.

Lemma create_feedback_changes env user profile payload s r s' :
  feedback_inv s → create_feedback env user profile payload s = (Ok r, s') → rtc change s s'.
Proof.
  intros Hinv H. unfold create_feedback, begin in H. apply transaction_Ok_inv in H.
  apply bind_Ok_inv in H as ([cid event] & s0 & Hd & H).
  apply customer_feedback_distribution_Ok, customer_distribution_Ok in Hd as (-> & _).
  rewrite !bind_gets in H. apply bind_Ok_inv in H as (? & s0 & Hg & H). apply raise_if_Ok_inv in Hg as (_ & -> & _).
  rewrite bind_gets in H. unfold uuid4, put_transition in H.
  rewrite bind_bind, bind_gets, bind_bind, bind_modify, bind_ret in H. cbv zeta in H. rewrite bind_gets in H.
  apply bind_Ok_inv in H as (? & s0 & Hg & H). apply raise_if_Ok_inv in Hg as (_ & -> & _). rewrite bind_modify in H.
  match type of H with context [apply_disposition_controls env event ?t] => set (tr := t) in H end.
  match type of H with (_ ≫= _) ?s1 = _ => assert (change s s1) as Hc1 by (by apply (change_transition s tr)) end.
  apply bind_Ok_inv in H as (rating & s2 & Hq & H).
  apply record_rating_changes in Hq as Hc2.
  assert (rtc change s s2) as Hc by (by eapply rtc_l).
  apply bind_Ok_inv in H as (controls & s3 & Hctl & H).
  apply apply_disposition_controls_changes in Hctl; [|by apply (changes_kept s)|].
  2: { change (dt_id tr) with (st_next_uuid s). apply changes_next in Hc2. rsimpl. lia. }
  unfold set_disposition_state in H. rewrite bind_modify in H. apply ret_Ok_inv in H as [_ <-].
  eapply rtc_r; [by etrans|]. apply change_state.
Qed.

Lemma create_outcome_changes env user profile event_id payload s r s' :
  create_outcome env user profile event_id payload s = (Ok r, s') → rtc change s s'.
Proof.
  intros H. unfold create_outcome, begin in H. apply transaction_Ok_inv in H.
  apply bind_Ok_inv in H as ([cid event] & s0 & Hd & H). apply customer_distribution_Ok in Hd as (-> & _).
  apply bind_Ok_inv in H as (metric & s0 & Hm & H). apply require_Ok_inv in Hm as [_ ->]. rewrite bind_gets in H.
  cbv zeta in H. apply bind_Ok_inv in H as (? & s0 & Hg & H). apply raise_if_Ok_inv in Hg as (_ & -> & _).
  apply bind_Ok_inv in H as (? & s0 & Hg & H).
  assert (s0 = s) as -> by (destruct (oq_supersedes_outcome_id payload); by apply raise_if_Ok_inv in Hg as (_ & ? & _)).
  unfold uuid4, put_outcome in H. run_inv. apply rtc_once.
  by apply (change_outcome s (mkLeadOutcome _ _ _ _ _ _ _ _ _ _)).
Qed.

Lemma create_lead_report_changes env profile event_id reason details s r s' :
  create_lead_report env profile event_id reason details s = (Ok r, s') → rtc change s s'.
Proof.
  intros H. unfold create_lead_report, begin in H. apply transaction_Ok_inv in H.
  apply bind_Ok_inv in H as ([cid event] & s0 & Hd & H). apply customer_distribution_Ok in Hd as (-> & _).
  unfold uuid4, put_report in H. run_inv. apply rtc_once.
  by apply (change_report s (mkLeadReport _ _ _ _ _ _ _ _)); [|intros ? [=]].
Qed.

(** A run of [resolve] on the report on file under [rid]. *)
Lemma resolve_open_changes env rid report action actor note s r s' :
  feedback_inv s → st_reports s !! rid = Some report →
  resolve env report action actor note s = (Ok r, s') → rtc change s s' ∧ rp_status report = "open"%string.
Proof.
  intros Hinv Hr. apply resolve_changes. by rewrite (fi_keyed _ Hinv _ _ Hr).
Qed.

Ltac activity_changes :=
  repeat match goal with
  | H : record_activity _ _ _ _ _ _ _ _ _ = (Ok _, _) |- _ => apply record_activity_change, rtc_once in H
  | H : report_activity _ _ _ _ _ _ _ = (Ok _, _) |- _ => unfold report_activity in H
  | H : correction_activity _ _ _ _ _ _ = (Ok _, _) |- _ => unfold correction_activity in H
  end.

Lemma dismiss_lead_report_changes env actor rid note s r s' :
  feedback_inv s → dismiss_lead_report env actor rid note s = (Ok r, s') → rtc change s s'.
Proof.
  intros Hinv H. unfold dismiss_lead_report, begin in H. apply transaction_Ok_inv in H.
  apply bind_Ok_inv in H as (report & s0 & Ho & H). apply open_report_Ok in Ho as [Hr ->].
  apply bind_Ok_inv in H as (? & s1 & Hd%refuse_conflict_Ok & H). unfold dismiss_report in Hd.
  apply bind_Ok_inv in Hd as (y & s2 & Hd & Hy). apply ret_Ok_inv in Hy as [_ <-].
  apply (resolve_open_changes _ rid) in Hd as [Hd _]; [|done..].
  apply bind_Ok_inv in H as (e & s3 & Ha & H). apply ret_Ok_inv in H as [_ <-]. activity_changes. by etrans.
Qed.

Lemma correct_lead_report_changes env actor rid note title state s r s' :
  feedback_inv s → correct_lead_report env actor rid note title state s = (Ok r, s') → rtc change s s'.
Proof.
  intros Hinv H. unfold correct_lead_report, begin in H. apply transaction_Ok_inv in H.
  apply bind_Ok_inv in H as (report & s0 & Ho & H). apply open_report_Ok in Ho as [Hr ->].
  apply bind_Ok_inv in H as (c & s1 & Hc%refuse_conflict_Ok & H). unfold correct_from_report, get_event in Hc.
  apply bind_Ok_inv in Hc as (? & s2 & Hg & Hc). apply raise_if_Ok_inv in Hg as (_ & -> & _).
  apply bind_Ok_inv in Hc as (y & s2 & Hd & Hc). apply (resolve_open_changes _ rid) in Hd as [Hd _]; [|done..].
  apply bind_Ok_inv in Hc as (lead & s3 & Hl & Hc). apply require_Ok_inv in Hl as [_ ->]. rewrite bind_gets in Hc.
  apply bind_Ok_inv in Hc as (event & s3 & Hl & Hc). apply require_Ok_inv in Hl as [_ ->].
  apply record_correction_changes in Hc.
  apply bind_Ok_inv in H as (e & s3 & Ha & H). apply bind_Ok_inv in H as (e' & s4 & Ha' & H).
  apply ret_Ok_inv in H as [_ <-]. activity_changes. by repeat (etrans; [eassumption|]).
Qed.

Lemma suppress_lead_report_changes env actor rid note s r s' :
  feedback_inv s → suppress_lead_report env actor rid note s = (Ok r, s') → rtc change s s'.
Proof.
  intros Hinv H. unfold suppress_lead_report, begin in H. apply transaction_Ok_inv in H.
  apply bind_Ok_inv in H as (report & s0 & Ho & H). apply open_report_Ok in Ho as [Hr ->].
  apply bind_Ok_inv in H as (c & s1 & Hc%refuse_conflict_Ok & H). unfold suppress_from_report, put_lead in Hc.
  apply bind_Ok_inv in Hc as (y & s2 & Hd & Hc). apply (resolve_open_changes _ rid) in Hd as [Hd _]; [|done..].
  apply bind_Ok_inv in Hc as (lead & s3 & Hl & Hc). apply require_Ok_inv in Hl as [_ ->]. cbv zeta in Hc.
  rewrite bind_modify in Hc. apply ret_Ok_inv in Hc as [_ <-].
  apply bind_Ok_inv in H as (e & s3 & Ha & H). apply bind_Ok_inv in H as (e' & s4 & Ha' & H).
  apply ret_Ok_inv in H as [_ <-]. activity_changes.
  etrans; [exact Hd|]. eapply rtc_l; [apply change_lead|]. by etrans.
Qed.

Lemma suppress_lead_changes env actor lid reason s r s' :
  suppress_lead env actor lid reason s = (Ok r, s') → rtc change s s'.
Proof.
  intros H. unfold suppress_lead, begin in H. apply transaction_Ok_inv in H.
  apply bind_Ok_inv in H as (lead & s0 & Hl & H). apply get_lead_Ok in Hl as [Hl ->].
  destruct (ld_suppressed lead); [by apply ret_Ok_inv in H as [_ <-]|]. cbv zeta in H. unfold put_lead in H.
  rewrite bind_modify in H. apply bind_Ok_inv in H as (e & s3 & Ha & H). apply ret_Ok_inv in H as [_ <-].
  activity_changes. eapply rtc_l; [apply change_lead | done].
Qed.

Lemma unsuppress_lead_changes env actor lid reason s r s' :
  unsuppress_lead env actor lid reason s = (Ok r, s') → rtc change s s'.
Proof.
  intros H. unfold unsuppress_lead, begin in H. apply transaction_Ok_inv in H.
  apply bind_Ok_inv in H as (lead & s0 & Hl & H). apply get_lead_Ok in Hl as [Hl ->].
  destruct (ld_suppressed lead); cbn [negb] in H; [|by apply ret_Ok_inv in H as [_ <-]]. cbv zeta in H.
  unfold put_lead in H. rewrite bind_modify in H. apply bind_Ok_inv in H as (e & s3 & Ha & H).
  apply ret_Ok_inv in H as [_ <-]. activity_changes. eapply rtc_l; [apply change_lead | done].
Qed.

Lemma apply_lead_correction_changes env actor lid title state reason s r s' :
  apply_lead_correction env actor lid title state reason s = (Ok r, s') → rtc change s s'.
Proof.
  intros H. unfold apply_lead_correction, begin in H. apply transaction_Ok_inv in H.
  apply bind_Ok_inv in H as (lead & s0 & Hl & H). apply get_lead_Ok in Hl as [Hl ->].
  apply bind_Ok_inv in H as (c & s1 & Hc%refuse_conflict_Ok & H). apply record_correction_changes in Hc.
  apply bind_Ok_inv in H as (e & s3 & Ha & H). apply ret_Ok_inv in H as [_ <-]. activity_changes. by etrans.
Qed.

Lemma remove_lead_correction_changes env actor lid reason s r s' :
  remove_lead_correction env actor lid reason s = (Ok r, s') → rtc change s s'.
Proof.
  intros H. unfold remove_lead_correction, begin in H. apply transaction_Ok_inv in H.
  apply bind_Ok_inv in H as (lead & s0 & Hl & H). apply get_lead_Ok in Hl as [Hl ->].
  apply bind_Ok_inv in H as (cid & s0 & Hc & H). apply require_Ok_inv in Hc as [_ ->]. rewrite bind_gets in H.
  apply bind_Ok_inv in H as (active & s0 & Hc & H). apply require_Ok_inv in Hc as [_ ->]. cbv zeta in H.
  rewrite bind_gets in H. apply bind_Ok_inv in H as (? & s0 & Hg & H). apply raise_if_Ok_inv in Hg as (_ & -> & _).
  unfold uuid4, put_correction, put_lead in H.
  rewrite bind_bind, bind_gets, bind_bind, bind_modify, bind_ret in H. cbv zeta in H. rewrite !bind_modify in H.
  apply bind_Ok_inv in H as (e & s3 & Ha & H). apply ret_Ok_inv in H as [_ <-]. activity_changes.
  match type of Ha with context [<[co_id ?c := ?c]> _] =>
    eapply rtc_l; [exact (change_correction s c eq_refl)|] end.
  eapply rtc_l; [|exact Ha]. apply change_lead.
Qed.

(** ** Failures roll back *)

Definition next_from (n : uuid) (s : Store) : Prop := (n ≤ st_next_uuid s)%N.

Lemma uuid4_next n : preserves (next_from n) uuid4.
Proof.
  intros s Hs. unfold next_from in *. change (n ≤ st_next_uuid s + 1)%N. lia.
Qed.
#[local] Hint Resolve uuid4_next : pres.

Lemma record_activity_next n env a t i c r d k : preserves (next_from n) (record_activity env a t i c r d k).
Proof.
  unfold record_activity. repeat first
    [ progress intros | solve [auto with pres nocore] | apply pres_bind
    | apply pres_modify; intros; unfold next_from in *; rsimpl; assumption
    | match goal with |- preserves _ (match ?x with _ => _ end) => destruct x end ].
Qed.
#[local] Hint Resolve record_activity_next : pres.

Lemma pres_refuse_conflict {A} P code (m : M Store A) : preserves P m → preserves P (refuse_conflict code m).
Proof.
  intros Hm. apply pres_try_catch; [done|]. intros e k. destruct e; try discriminate.
  intros E. injection E as <-. apply pres_raise.
Qed.

(** No step takes an identifier back. *)
Ltac solve_next :=
  repeat (intros; lazymatch goal with
  | |- preserves _ (_ ≫= _) => apply pres_bind
  | |- preserves _ (refuse_conflict _ _) => apply pres_refuse_conflict
  | |- preserves _ (modify _) => apply pres_modify; intros; unfold next_from in *; rsimpl; assumption
  | |- preserves _ (match ?x with _ => _ end) => destruct x
  | |- preserves _ _ => first [solve [auto 1 with pres nocore] | progress unfold report_activity,
        correction_activity, open_report, get_lead, put_lead, put_correction, put_report, put_outcome,
        put_transition, set_disposition_state, dismiss_report, correct_from_report, suppress_from_report,
        get_event, update_eligibility_hold, customer_distribution, record_rating, file_report, place_hold,
        add_hold, apply_disposition_controls]
  end).

Lemma release_report_hold_next n env report actor reason :
  preserves (next_from n) (release_report_hold env report actor reason).
Proof. unfold release_report_hold. solve_next. Qed.
Lemma record_correction_next n env lead actor reason title state database :
  preserves (next_from n) (record_correction env lead actor reason title state database).
Proof. unfold record_correction. solve_next. Qed.
#[local] Hint Resolve release_report_hold_next record_correction_next : pres.
Lemma resolve_next n env report action actor note : preserves (next_from n) (resolve env report action actor note).
Proof. unfold resolve. solve_next. Qed.
#[local] Hint Resolve resolve_next : pres.

Lemma customer_feedback_distribution_next n profile event_id :
  preserves (next_from n) (customer_feedback_distribution profile event_id).
Proof.
  apply pres_try_catch; [solve_next|]. intros [] k Hk; try done. destruct (_ =? _); simplify_eq. apply pres_raise.
Qed.
#[local] Hint Resolve customer_feedback_distribution_next : pres.

Lemma rollback_kept s s1 : history_kept s (rollback s s1).
Proof. destruct (history_kept_refl s). by split. Qed.

Lemma rollback_inv s s1 : feedback_inv s → next_from (st_next_uuid s) s1 → feedback_inv (rollback s s1).
Proof.
  intros [H1 H2 H3 H4 H5 Hkey Hsrc H7 H8 H9] Hle. unfold next_from in Hle.
  split; try done; try (by eapply below_mono); [intros k r t Hr Ht; pose proof (Hsrc _ _ _ Hr Ht);
    change (t < st_next_uuid s1)%N; lia|]. by eapply (holds_mono (st_next_uuid s) _ (st_reports s)).
Qed.

Lemma failed_kept {A} (m : M Store A) s e s' :
  begin m s = (Err e, s') → preserves (next_from (st_next_uuid s)) m →
  feedback_inv s → feedback_inv s' ∧ history_kept s s'.
Proof.
  intros (s1 & Hm & ->)%transaction_Err_inv Hp Hinv. split; [|apply rollback_kept]. apply rollback_inv; [done|].
  specialize (Hp s). rewrite Hm in Hp. apply Hp. unfold next_from. lia.
Qed.

Lemma customer_step_kept s s' : customer_step s s' → feedback_inv s → feedback_inv s' ∧ history_kept s s'.
Proof.
  intros Hstep Hinv.
  destruct Hstep as [env user profile payload [r|e] H|env user profile eid payload [r|e] H|
    env profile eid reason details [r|e] H].
  - apply create_feedback_changes in H; [|done]. by apply changes_kept.
  - eapply failed_kept; [exact H| |done]. solve_next.
  - apply create_outcome_changes in H. by apply changes_kept.
  - eapply failed_kept; [exact H| |done]. solve_next.
  - apply create_lead_report_changes in H. by apply changes_kept.
  - eapply failed_kept; [exact H| |done]. solve_next.
Qed.

Lemma admin_step_kept s s' : admin_step s s' → feedback_inv s → feedback_inv s' ∧ history_kept s s'.
Proof.
  intros Hstep Hinv. destruct Hstep as [env a rid note [r|e] H|env a rid note title state [r|e] H|env a rid note [r|e] H|
    env a lid reason [r|e] H|env a lid reason [r|e] H|env a lid title state reason [r|e] H|env a lid reason [r|e] H].
  1: apply dismiss_lead_report_changes in H; [|done].
  3: apply correct_lead_report_changes in H; [|done].
  5: apply suppress_lead_report_changes in H; [|done].
  7: apply suppress_lead_changes in H.
  9: apply unsuppress_lead_changes in H.
  11: apply apply_lead_correction_changes in H.
  13: apply remove_lead_correction_changes in H.
  1, 3, 5, 7, 9, 11, 13: by apply changes_kept.
  all: eapply failed_kept; [exact H| |done]; clear; solve_next.
Qed.
