(* ===== verification/Controls.v ===== *)
(** * What the eligibility controls guarantee

    The operations of Feedback.v against the eligibility query of Eligible.v:
    history is kept, a hold outlasts whatever Customers say, a report is
    resolved once, and a correction can be taken back. *)

From S2P Require Import Prelude PyText Models Activity LeadDatabases NichePolicy Eligible Feedback.

Open Scope Z_scope.

(** ** Customers only add holds *)

Definition holds_from (l : list EligibilityHold) (s : Store) : Prop := l `prefix_of` st_eligibility_holds s.

Lemma uuid4_holds l : preserves (holds_from l) uuid4.
Proof. by intros s. Qed.
Lemma record_activity_holds l env a t i c r d k : preserves (holds_from l) (record_activity env a t i c r d k).
Proof.
  intros s Hs. unfold holds_from in *.
  pose proof (record_activity_frame st_eligibility_holds env a t i c r d k (st_eligibility_holds s)
    (λ _ _, eq_refl) (λ _ _, eq_refl) s eq_refl) as E. cbv beta in E. by rewrite E.
Qed.
Lemma add_hold_holds l h : preserves (holds_from l) (add_hold h).
Proof. intros s Hs. unfold holds_from in *. by apply prefix_app_r. Qed.
#[local] Hint Resolve uuid4_holds record_activity_holds add_hold_holds : pres.

Ltac solve_holds :=
  repeat first
    [ progress intros
    | solve [auto with pres nocore]
    | apply pres_bind | apply pres_if
    | apply pres_modify; intros; unfold holds_from in *; rsimpl; assumption
    | apply pres_transaction; [done|]
    | progress unfold begin, put_report, put_outcome, put_transition, set_disposition_state, customer_distribution,
        record_rating, file_report, place_hold, apply_disposition_controls, create_feedback, create_outcome,
        create_lead_report
    | match goal with |- preserves _ (match ?x with _ => _ end) => destruct x end ].

Lemma customer_feedback_distribution_holds l profile event_id :
  preserves (holds_from l) (customer_feedback_distribution profile event_id).
Proof.
  apply pres_try_catch; [solve_holds|]. intros [] k Hk; try done. destruct (_ =? _); simplify_eq. apply pres_raise.
Qed.
#[local] Hint Resolve customer_feedback_distribution_holds : pres.

Lemma customer_step_holds s s' : customer_step s s' → st_eligibility_holds s `prefix_of` st_eligibility_holds s'.
Proof.
  intros Hstep.
  assert (∀ A (m : M Store A) r, m s = (r, s') → preserves (holds_from (st_eligibility_holds s)) m →
    st_eligibility_holds s `prefix_of` st_eligibility_holds s') as Hrun.
  { intros A m r H Hp. specialize (Hp s). rewrite H in Hp. by apply (Hp (reflexivity _)). }
  destruct Hstep as [? ? ? ? r H|? ? ? ? ? r H|? ? ? ? ? r H]; eapply Hrun; try exact H; solve_holds.
Qed.

Lemma customer_steps_holds s s' :
  rtc customer_step s s' → st_eligibility_holds s `prefix_of` st_eligibility_holds s'.
Proof. induction 1; [done|]. etrans; [by apply customer_step_holds | done]. Qed.

(** A disposition that withdraws the Lead leaves it held. *)
Lemma apply_controls_hold env event t s report hold s' :
  apply_disposition_controls env event t s = (Ok (report, hold), s') →
  dt_disposition t ∈ HOLD_DISPOSITIONS →
  report_of_transition s (dt_id t) = None → feedback_inv s →
  ∃ h, hold = Some h ∧ h ∈ st_eligibility_holds s' ∧ eh_active h = true ∧ eh_lead_id h = ev_lead_id event.
Proof.
  intros H Hd Hnew Hinv. unfold apply_disposition_controls in H.
  destruct (REPORT_DISPOSITIONS _) as [reason|] eqn:Er.
  2: { unfold HOLD_DISPOSITIONS in Hd. rewrite !elem_of_cons, elem_of_nil in Hd.
       destruct Hd as [E|[E|[]]]; by rewrite E in Er. }
  apply bind_Ok_inv in H as (r & s1 & Hf & H). unfold file_report in Hf. rewrite bind_gets in Hf.
  rewrite Hnew in Hf.
  rewrite bool_decide_eq_false_2 in H by (by intros ?).
  unfold uuid4, put_report in Hf. rewrite bind_bind, bind_gets, bind_bind, bind_modify, bind_ret in Hf. cbv zeta in Hf.
  rewrite bind_modify in Hf. apply ret_Ok_inv in Hf as [<- <-].
  apply bind_Ok_inv in H as (h & s2 & Hh & H). apply ret_Ok_inv in H as [[= <- <-] <-].
  unfold place_hold in Hh. rewrite bind_gets in Hh.
  assert (hold_of_report s (st_next_uuid s) = None) as Hnone.
  { destruct (hold_of_report s (st_next_uuid s)) as [h0|] eqn:E; [|done]. exfalso.
    unfold hold_of_report in E. apply List.find_some in E as [Hin%list_elem_of_In Hid]. bool_inv.
    pose proof (fi_holds _ Hinv) as Hall. rewrite Forall_forall in Hall. destruct (Hall _ Hin) as [_ Hrep].
    rewrite Hid in Hrep. destruct Hrep as [r0 Hr0]. apply (fi_reports _ Hinv) in Hr0. lia. }
  cbn [rp_id] in Hh. change (hold_of_report _ (st_next_uuid s)) with (hold_of_report s (st_next_uuid s)) in Hh.
  rewrite Hnone in Hh. unfold uuid4, add_hold in Hh.
  rewrite bind_bind, bind_gets, bind_bind, bind_modify, bind_ret in Hh. cbv zeta in Hh. rewrite bind_modify in Hh.
  apply bind_Ok_inv in Hh as (e & s3 & Ha & Hh). apply ret_Ok_inv in Hh as [<- <-].
  apply record_activity_inv in Ha as (_ & _ & _ & _ & _ & _ & _ & ->).
  eexists. split; [reflexivity|]. split; [|done].
  match goal with |- ?h ∈ _ => change (h ∈ st_eligibility_holds s ++ [h]) end.
  apply elem_of_app. right. by apply list_elem_of_singleton.
Qed.

Lemma record_rating_reports env user cid event rated payload x :
  preserves (λ s, st_reports s = x) (record_rating env user cid event rated payload).
Proof. unfold record_rating, uuid4, put_outcome. destruct (fb_quality_rating payload); solve_frame. Qed.

(** What a successful [create_feedback] ran. *)
Lemma create_feedback_controls env user profile payload s t q rep hold s' :
  feedback_inv s → create_feedback env user profile payload s = (Ok (t, q, rep, hold), s') →
  ∃ cid event s1 s2, pf_agent_id profile = Some cid ∧ event ∈ st_events s ∧
    ev_id event = fb_distribution_event_id payload ∧ ev_agent_id event = Some cid ∧
    dt_disposition t = fb_disposition payload ∧ feedback_inv s1 ∧ report_of_transition s1 (dt_id t) = None ∧
    apply_disposition_controls env event t s1 = (Ok (rep, hold), s2) ∧
    st_eligibility_holds s' = st_eligibility_holds s2.
Proof.
  intros Hinv H. unfold create_feedback, begin in H. apply transaction_Ok_inv in H.
  apply bind_Ok_inv in H as ([cid event] & s0 & Hd & H).
  apply customer_feedback_distribution_Ok, customer_distribution_Ok in Hd as (-> & Hp & Hin & Hid & Hag).
  cbn [fst snd] in *.
  rewrite !bind_gets in H. apply bind_Ok_inv in H as (x1 & s0 & Hg & H). apply raise_if_Ok_inv in Hg as (_ & -> & _).
  rewrite bind_gets in H. unfold uuid4, put_transition in H.
  rewrite bind_bind, bind_gets, bind_bind, bind_modify, bind_ret in H. cbv zeta in H. rewrite bind_gets in H.
  apply bind_Ok_inv in H as (x2 & s0 & Hg & H). apply raise_if_Ok_inv in Hg as (_ & -> & _). rewrite bind_modify in H.
  match type of H with context [apply_disposition_controls env event ?t] => set (tr := t) in H end.
  match type of H with (_ ≫= _) ?s1 = _ => assert (change s s1) as Hc1 by (by apply (change_transition s tr)) end.
  apply bind_Ok_inv in H as (rating & s2 & Hq & H). pose proof Hq as Hc2%record_rating_changes.
  assert (st_reports s2 = st_reports s) as Erep.
  { eapply (preserves_Ok _ _ _ _ _ (record_rating_reports _ _ _ _ _ _ (st_reports s))); [|exact Hq]. reflexivity. }
  apply bind_Ok_inv in H as ([rep' hold'] & s3 & Hctl & H). unfold set_disposition_state in H.
  rewrite bind_modify in H. apply ret_Ok_inv in H as [[= <- <- <- <-] <-].
  exists cid, event, s2, s3. split_and!; try done.
  - apply (changes_kept s s2); [by eapply rtc_l | done].
  - unfold report_of_transition. rewrite Erep. destruct (List.find _ _) as [r|] eqn:E; [|done]. exfalso.
    apply List.find_some in E as [Hr Ht]. bool_inv.
    apply list_elem_of_In, list_elem_of_fmap in Hr as ([k r'] & -> & Hr%elem_of_map_to_list).
    pose proof (fi_sources _ Hinv _ _ _ Hr Ht) as Hlt. change (dt_id tr) with (st_next_uuid s) in Hlt. lia.
Qed.

(** ** Properties *)

(** C26: the controls never rewrite history.  Along any sequence of Customer
    feedback, outcomes and reports and of administrators' resolutions,
    suppressions and corrections, in any order and whether they succeed or
    fail, the deliveries, observations and uploaded rows stay as they are;
    dispositions, outcomes, corrections, resolutions and Audit Entries are
    only added; a report keeps everything but its status and changes status
    at most once; a hold stays on file; and each report has at most one. *)
Theorem controls_never_rewrite_history s s' :
  feedback_inv s → rtc (λ s s', customer_step s s' ∨ admin_step s s') s s' →
  feedback_inv s' ∧ history_kept s s'.
Proof.
  intros Hinv Hrun. induction Hrun as [s|s s1 s' Hstep _ IH]; [by split; [|apply history_kept_refl]|].
  assert (feedback_inv s1 ∧ history_kept s s1) as [Hinv1 Hk1].
  { destruct Hstep; [by apply customer_step_kept | by apply admin_step_kept]. }
  destruct (IH Hinv1) as [Hinv' Hk]. split; [done|]. by eapply history_kept_trans.
Qed.

(** C25: A hold outlasts whatever Customers say.  Once a Customer gives a
    delivered Lead the disposition of an invalid phone or of not to be
    contacted (a Lead Report with such a reason places no hold), the Lead is
    offered to nobody, whatever dispositions, outcomes and reports Customers
    record afterwards. *)
Theorem hold_outlasts_customers `{CaseMapping} env user profile payload s t q rep hold s1 s2 :
  feedback_inv s → fb_disposition payload ∈ HOLD_DISPOSITIONS →
  create_feedback env user profile payload s = (Ok (t, q, rep, hold), s1) → rtc customer_step s1 s2 →
  ∃ event, event ∈ st_events s ∧ ev_id event = fb_distribution_event_id payload ∧
    ev_agent_id event = pf_agent_id profile ∧
    ∀ request customer instant lead,
      lead ∈ eligible_query s2 request customer instant → ld_id lead ≠ ev_lead_id event.
Proof.
  intros Hinv Hd Hrun Hsteps.
  destruct (create_feedback_controls _ _ _ _ _ _ _ _ _ _ Hinv Hrun)
    as (cid & event & sa & sb & Hp & Hin & Hid & Hag & Edisp & Hinv1 & Hnew & Hctl & Eh).
  exists event. split; [done|]. split; [done|]. split; [congruence|]. intros request customer instant lead Hl Hlead.
  rewrite <- Edisp in Hd. destruct (apply_controls_hold _ _ _ _ _ _ _ Hctl Hd Hnew Hinv1) as (h & _ & Hh & Hact & Elead).
  apply customer_steps_holds in Hsteps as [added Hadd]. rewrite <- Eh in Hh.
  apply elem_of_eligible_with in Hl as [_ Hw].
  assert (eh_active h = false); [|congruence]. eapply eligible_unheld; [exact Hw| |congruence].
  rewrite Hadd. apply elem_of_app. by left.
Qed.

(** ** Resolutions *)

Inductive Resolution : Type :=
| Dismiss
| Correct (title state : option text)
| Suppress.
Definition resolution_status (how : Resolution) : string :=
  match how with Dismiss => "dismissed" | Correct _ _ => "corrected" | Suppress => "suppressed" end.
Definition resolve_with (env : Env) (actor rid : uuid) (note : text) (how : Resolution) : M Store unit :=
  match how with
  | Dismiss => dismiss_lead_report env actor rid note
  | Correct title state => correct_lead_report env actor rid note title state ;; mret tt
  | Suppress => suppress_lead_report env actor rid note ;; mret tt
  end.

(** The reports and the holds, which nothing after [resolve] touches. *)
Definition controls_of (s : Store) : gmap uuid LeadReport * list EligibilityHold :=
  (st_reports s, st_eligibility_holds s).

Lemma record_activity_controls x env a t i c r d k :
  preserves (λ s, controls_of s = x) (record_activity env a t i c r d k).
Proof. by apply (record_activity_frame controls_of). Qed.
Lemma record_activity_leads x env a t i c r d k :
  preserves (λ s, st_leads s = x) (record_activity env a t i c r d k).
Proof. by apply (record_activity_frame st_leads). Qed.
Lemma activity_leads env a t i c r d k s e s' :
  record_activity env a t i c r d k s = (Ok e, s') → st_leads s' = st_leads s.
Proof. intros H. by apply (preserves_Ok _ _ _ _ _ (record_activity_leads (st_leads s) _ _ _ _ _ _ _ _) eq_refl H). Qed.
Lemma activity_controls env a t i c r d k s e s' :
  record_activity env a t i c r d k s = (Ok e, s') → controls_of s' = controls_of s.
Proof. intros H. by apply (preserves_Ok _ _ _ _ _ (record_activity_controls (controls_of s) _ _ _ _ _ _ _ _) eq_refl H). Qed.
Lemma record_correction_controls x env lead actor reason title state database :
  preserves (λ s, controls_of s = x) (record_correction env lead actor reason title state database).
Proof.
  unfold record_correction, uuid4, put_correction, put_lead. cbv zeta.
  repeat first [ progress intros | apply pres_gets | apply pres_raise_if | apply pres_ret | apply pres_bind
               | apply pres_modify; intros ? Hx; exact Hx ].
Qed.

Lemma release_effect env report actor reason s r s' :
  feedback_inv s → release_report_hold env report actor reason s = (Ok r, s') →
  (∀ h, h ∈ st_eligibility_holds s' → eh_report_id h = rp_id report → eh_active h = false) ∧
  (∀ h, h ∈ st_eligibility_holds s' → eh_report_id h ≠ rp_id report → h ∈ st_eligibility_holds s).
Proof.
  intros Hinv H. unfold release_report_hold in H. rewrite bind_gets in H.
  destruct (List.find _ _) as [h0|] eqn:Hf in H.
  - apply List.find_some in Hf as [Hin%list_elem_of_In Hp]. bool_inv. unfold update_eligibility_hold in H.
    rewrite bind_modify in H. apply bind_Ok_inv in H as (e & s1 & Ha & H). apply ret_Ok_inv in H as [_ <-].
    apply record_activity_inv in Ha as (_ & _ & _ & _ & _ & _ & _ & ->).
    match goal with |- context [st_eligibility_holds ?x] => lazymatch x with s => fail | _ =>
      change (st_eligibility_holds x) with ((λ h, if bool_decide (eh_id h = eh_id h0)
        then released env actor reason h0 else h) <$> st_eligibility_holds s) end end.
    assert (∀ x, x ∈ st_eligibility_holds s → eh_report_id x = rp_id report → x = h0) as Huniq.
    { intros x Hx Ex. apply list_elem_of_lookup in Hx as [i Hi]. apply list_elem_of_lookup in Hin as [j Hj].
      assert (i = j) as ->; [|congruence].
      eapply (NoDup_lookup _ _ _ (rp_id report) (fi_holds_report _ Hinv)); rewrite list_lookup_fmap;
        [by rewrite Hi, <- Ex | rewrite Hj; cbn; congruence]. }
    split; intros h (x & -> & Hx)%list_elem_of_fmap; case_bool_decide as Ex; try done.
    intros Er. by rewrite (Huniq x Hx Er) in Ex.
  - apply ret_Ok_inv in H as [_ <-]. split; [|done]. intros h Hh Er.
    apply list_elem_of_In in Hh. apply (List.find_none _ _ Hf) in Hh. rewrite Er, bool_decide_eq_true_2 in Hh by done.
    done.
Qed.

Lemma resolve_effect env report action actor note s res hold lead s' :
  feedback_inv s → st_reports s !! rp_id report = Some report →
  resolve env report action actor note s = (Ok (res, hold, lead), s') →
  rp_status report = "open"%string ∧ st_leads s' = st_leads s ∧
  st_reports s' = <[rp_id report := report <| rp_status := action |>]> (st_reports s) ∧
  (∀ h, h ∈ st_eligibility_holds s' → eh_report_id h = rp_id report → eh_active h = false) ∧
  (∀ h, h ∈ st_eligibility_holds s' → eh_report_id h ≠ rp_id report → h ∈ st_eligibility_holds s) ∧
  ∃ event, event ∈ st_events s ∧ ev_id event = rp_distribution_event_id report ∧
    lead = st_leads s !! ev_lead_id event.
Proof.
  intros Hinv Hr H. unfold resolve, uuid4, get_event in H.
  apply bind_Ok_inv in H as (x1 & s0 & Hg & H). apply raise_if_Ok_inv in Hg as (Hopen & -> & _).
  apply negb_false_iff, bool_decide_eq_true in Hopen. split; [done|].
  rewrite bind_gets in H. apply bind_Ok_inv in H as (event & s0 & Hg & H). apply require_Ok_inv in Hg as [Hev ->].
  rewrite bind_gets, bind_bind, bind_gets, bind_bind, bind_modify, bind_ret in H. cbv zeta in H. rewrite bind_gets in H.
  apply bind_Ok_inv in H as (x2 & s0 & Hg & H). apply raise_if_Ok_inv in Hg as (_ & -> & _).
  rewrite bind_modify in H. apply bind_Ok_inv in H as (hold0 & s1 & Hh & H). unfold put_report in H.
  rewrite bind_modify in H. apply ret_Ok_inv in H as [[= <- <- <-] <-].
  pose proof (preserves_Ok _ _ _ _ _ (release_frame (λ x, (st_reports x, st_leads x)) env report actor (strip note) _
    (λ _ _, eq_refl) (λ _ _, eq_refl) (λ _ _, eq_refl)) eq_refl Hh) as Hsame. cbv beta in Hsame. injection Hsame as Er El.
  split; [exact El|]. split; [change (<[rp_id report := report <| rp_status := action |>]> (st_reports s1) =
    <[rp_id report := report <| rp_status := action |>]> (st_reports s)); by rewrite Er|].
  apply release_effect in Hh as [Hrel Hoth].
  2: { apply (change_inv s); [done|]. by apply (change_resolution s (mkLeadReportResolution (st_next_uuid s) (rp_id report)
         action (strip note) actor (now env))). }
  split; [exact Hrel|]. split; [exact Hoth|]. exists event.
  apply List.find_some in Hev as [Hin%list_elem_of_In Hid]. bool_inv. done.
Qed.

(** What a resolution of the report [rid] that succeeded ran: [resolve], then
    writes that leave its reports and holds alone. *)
Definition resolved_by (env : Env) (actor rid : uuid) (note : text) (action : string) (s s' : Store)
    (Q : option Lead → Store → Prop) : Prop :=
  ∃ report res hold lead s1, st_reports s !! rid = Some report ∧
    resolve env report action (str_of_uuid actor) note s = (Ok (res, hold, lead), s1) ∧
    controls_of s' = controls_of s1 ∧ Q lead s1.

Lemma dismiss_lead_report_inv env actor rid note s r s' :
  feedback_inv s → dismiss_lead_report env actor rid note s = (Ok r, s') →
  resolved_by env actor rid note "dismissed" s s' (λ _ s1, st_leads s' = st_leads s1).
Proof.
  intros Hinv H.
  unfold dismiss_lead_report, begin in H. apply transaction_Ok_inv in H.
  apply bind_Ok_inv in H as (report & s0 & Ho & H). apply open_report_Ok in Ho as [Hr ->].
  apply bind_Ok_inv in H as (x & s1 & Hd%refuse_conflict_Ok & H). unfold dismiss_report in Hd.
  apply bind_Ok_inv in Hd as ([[res hold] lead] & s2 & Hd & Hy). apply ret_Ok_inv in Hy as [_ <-].
  apply bind_Ok_inv in H as (e & s3 & Ha & H). apply ret_Ok_inv in H as [_ <-]. unfold report_activity in Ha.
  exists report, res, hold, lead, s2. split_and!; [done..| |].
  - by apply activity_controls in Ha.
  - by apply activity_leads in Ha.
Qed.

Lemma correct_lead_report_inv env actor rid note title state s r s' :
  feedback_inv s → correct_lead_report env actor rid note title state s = (Ok r, s') →
  resolved_by env actor rid note "corrected" s s' (λ _ _, True).
Proof.
  intros Hinv H.
  unfold correct_lead_report, begin in H. apply transaction_Ok_inv in H.
  apply bind_Ok_inv in H as (report & s0 & Ho & H). apply open_report_Ok in Ho as [Hr ->].
  apply bind_Ok_inv in H as (c' & s1 & Hc%refuse_conflict_Ok & H). unfold correct_from_report, get_event in Hc.
  apply bind_Ok_inv in Hc as (x & s2 & Hg & Hc). apply raise_if_Ok_inv in Hg as (_ & -> & _).
  apply bind_Ok_inv in Hc as ([[res hold] lead] & s2 & Hd & Hc).
  apply bind_Ok_inv in Hc as (l & s3 & Hl & Hc). apply require_Ok_inv in Hl as [_ ->]. rewrite bind_gets in Hc.
  apply bind_Ok_inv in Hc as (event & s3 & Hl & Hc). apply require_Ok_inv in Hl as [_ ->].
  apply bind_Ok_inv in H as (e & s3 & Ha & H). apply bind_Ok_inv in H as (e' & s4 & Ha' & H).
  apply ret_Ok_inv in H as [_ <-]. unfold report_activity in Ha. unfold correction_activity in Ha'.
  exists report, res, hold, lead, s2. split_and!; [done..| |done].
  pose proof (preserves_Ok _ _ _ _ _ (record_correction_controls (controls_of s2) _ _ _ _ _ _ _) eq_refl Hc) as E1.
  apply activity_controls in Ha. apply activity_controls in Ha'. congruence.
Qed.

Lemma suppress_lead_report_inv env actor rid note s r s' :
  feedback_inv s → suppress_lead_report env actor rid note s = (Ok r, s') →
  resolved_by env actor rid note "suppressed" s s' (λ lead s1, ∃ l, lead = Some l ∧
    st_leads s' = <[ld_id l := l <| ld_suppressed := true |> <| ld_suppression_reason := strip note |>]> (st_leads s1)).
Proof.
  intros Hinv H.
  unfold suppress_lead_report, begin in H. apply transaction_Ok_inv in H.
  apply bind_Ok_inv in H as (report & s0 & Ho & H). apply open_report_Ok in Ho as [Hr ->].
  apply bind_Ok_inv in H as (c' & s1 & Hc%refuse_conflict_Ok & H). unfold suppress_from_report, put_lead in Hc.
  apply bind_Ok_inv in Hc as ([[res hold] lead] & s2 & Hd & Hc).
  apply bind_Ok_inv in Hc as (l & s3 & Hl & Hc). apply require_Ok_inv in Hl as [Hl ->]. cbv zeta in Hc.
  rewrite bind_modify in Hc. apply ret_Ok_inv in Hc as [_ <-].
  apply bind_Ok_inv in H as (e & s3 & Ha & H). apply bind_Ok_inv in H as (e' & s4 & Ha' & H).
  apply ret_Ok_inv in H as [_ <-]. unfold report_activity in Ha.
  exists report, res, hold, lead, s2. split_and!; [done..| |].
  - apply activity_controls in Ha. apply activity_controls in Ha'. rewrite Ha', Ha. clear. reflexivity.
  - exists l. split; [done|].
    apply activity_leads in Ha. apply activity_leads in Ha'. rewrite Ha', Ha. clear. reflexivity.
Qed.

Lemma resolve_with_inv env actor rid note how s s' :
  feedback_inv s → resolve_with env actor rid note how s = (Ok tt, s') →
  resolved_by env actor rid note (resolution_status how) s s' (λ lead s1,
    match how with
    | Dismiss => st_leads s' = st_leads s1
    | Correct _ _ => True
    | Suppress => ∃ l, lead = Some l ∧ st_leads s' = <[ld_id l := l <| ld_suppressed := true |>
        <| ld_suppression_reason := strip note |>]> (st_leads s1)
    end).
Proof.
  intros Hinv H. destruct how as [|title state|]; cbn [resolve_with resolution_status] in *.
  - by eapply dismiss_lead_report_inv.
  - apply bind_Ok_inv in H as (c & s9 & H & Hend). apply ret_Ok_inv in Hend as [_ <-]. by eapply correct_lead_report_inv.
  - apply bind_Ok_inv in H as (c & s9 & H & Hend). apply ret_Ok_inv in Hend as [_ <-]. by eapply suppress_lead_report_inv.
Qed.

(** A report that is not open is refused before anything is written. *)
Lemma resolve_with_refused env actor rid note how s report :
  st_reports s !! rid = Some report → rp_status report ≠ "open"%string →
  ∃ e, resolve_with env actor rid note how s = (Err e, s).
Proof.
  intros Hr Hst.
  assert (∀ action act, resolve env report action act note s =
    (Err (ControlConflict (u "This Lead Report is already resolved.") "already_resolved"), s)) as Hres.
  { intros action act. unfold resolve. rewrite bool_decide_eq_false_2 by done. reflexivity. }
  assert (rollback s s = s) as Hrb by (by destruct s).
  assert (∀ A (k : LeadReport → M Store A), (open_report rid ≫= k) s = k report s) as Hopen.
  { intros A k. apply bind_Ok. unfold open_report. rewrite bind_gets, Hr. reflexivity. }
  destruct how as [|title state|]; cbn [resolve_with].
  - unfold dismiss_lead_report, begin, transaction. rewrite Hopen. unfold refuse_conflict, try_catch, dismiss_report.
    unfold mbind, M_bind. rewrite Hres; unfold raise; rewrite Hrb. by eexists.
  - unfold correct_lead_report, begin, transaction, correct_from_report.
    destruct (bool_decide (title = None) && bool_decide (state = None)); (erewrite bind_Err; [by eexists|]);
      rewrite Hopen; unfold refuse_conflict, try_catch; cbn [raise_if]; unfold mbind, M_bind, raise, mret, M_ret;
      rewrite ?Hres; by rewrite Hrb.
  - unfold suppress_lead_report, begin, transaction. erewrite bind_Err; [by eexists|]. rewrite Hopen.
    unfold refuse_conflict, try_catch, suppress_from_report. unfold mbind, M_bind. rewrite Hres; unfold raise; rewrite Hrb. reflexivity.
Qed.

(** A report is resolved once, and its resolution reopens or closes the
    Lead as it says.  A resolution that succeeds found the report open,
    leaves it with the resolution's status and nothing else changed about
    it, and releases its hold and no other; dismissing leaves every Lead as
    it was, suppressing leaves the Lead offered to nobody; and any further
    resolution of it is refused and changes nothing. *)
Theorem resolution_is_final `{CaseMapping} env actor rid note how s s' :
  feedback_inv s → keyed_leads s → resolve_with env actor rid note how s = (Ok tt, s') →
  ∃ report event, st_reports s !! rid = Some report ∧ rp_status report = "open"%string ∧
    event ∈ st_events s ∧ ev_id event = rp_distribution_event_id report ∧
    st_reports s' = <[rid := report <| rp_status := resolution_status how |>]> (st_reports s) ∧
    (∀ h, h ∈ st_eligibility_holds s' → eh_report_id h = rid → eh_active h = false) ∧
    (∀ h, h ∈ st_eligibility_holds s' → eh_report_id h ≠ rid → h ∈ st_eligibility_holds s) ∧
    (how = Dismiss → st_leads s' = st_leads s) ∧
    (how = Suppress → ∀ request customer instant lead,
       lead ∈ eligible_query s' request customer instant → ld_id lead ≠ ev_lead_id event) ∧
    (∀ env' actor' note' how', ∃ e, resolve_with env' actor' rid note' how' s' = (Err e, s')).
Proof.
  intros Hinv Hk Hrun.
  destruct (resolve_with_inv _ _ _ _ _ _ _ Hinv Hrun) as (report & res & hold & lead & s1 & Hr & Hres & Hctl & Hlead).
  pose proof (fi_keyed _ Hinv _ _ Hr) as Hid.
  apply resolve_effect in Hres as (Hopen & Hl & Hreps & Hrel & Hoth & event & Hev & Heid & Hle); [|done|by rewrite Hid].
  rewrite Hid in *. injection Hctl as Er Eh. exists report, event. rewrite Er, Eh.
  split_and!; try done.
  - intros ->. congruence.
  - intros -> request customer instant l Hin Elead. destruct Hlead as (l0 & El0 & Els).
    rewrite El0 in Hle. symmetry in Hle. pose proof (Hk _ _ Hle) as Ek.
    apply elem_of_eligible_with in Hin as [[id Hlid] Hw]. rewrite Els, Hl, Ek in Hlid.
    apply eligible_unsuppressed in Hw.
    destruct (decide (id = ev_lead_id event)) as [->|Hne].
    + rewrite lookup_insert_eq in Hlid. injection Hlid as <-. done.
    + rewrite lookup_insert_ne in Hlid by done. apply Hk in Hlid. congruence.
  - intros env' actor' note' how'. eapply resolve_with_refused; [by rewrite Er, Hreps, lookup_insert_eq|].
    by destruct how.
Qed.

(** ** Corrections *)

(** Without an active correction, evidence rests on tables no correction touches. *)
Lemma lead_evidence_frame s s' lead database :
  ld_active_correction_id lead = None → st_observations s' = st_observations s →
  st_memberships s' = st_memberships s → st_db2_rows s' = st_db2_rows s → st_lead_uploads s' = st_lead_uploads s →
  lead_evidence s' lead database = lead_evidence s lead database.
Proof.
  intros Hc Eo Em Ed Eu. unfold lead_evidence. rewrite Hc. cbn.
  assert (∀ k, db2_listings s' k = db2_listings s k) as Hd.
  { intros k. unfold db2_listings, chunk_rows. by rewrite Ed. }
  unfold upload_evidence, listing_evidence. rewrite Eo, Em, Eu. destruct (st_memberships s !! ld_id lead); by rewrite ?Hd.
Qed.

(** The removal of an active correction with evidence beneath it. *)
Lemma remove_lead_correction_run env actor lid reason s lead c :
  st_leads s !! lid = Some lead → ld_id lead = lid →
  ld_active_correction_id lead = Some (co_id c) → st_corrections s !! co_id c = Some c →
  below (st_next_uuid s) (st_corrections s) → strip reason ≠ [] →
  let ev := lead_evidence s (lead <| ld_active_correction_id := None |>) None in
  ve_kind ev ≠ u "none" →
  ∃ r s', remove_lead_correction env actor lid reason s = (Ok r, s') ∧
    st_leads s' = <[lid := lead <| ld_active_correction_id := None |> <| ld_title := ve_title ev |>
                                <| ld_state := ve_state ev |>]> (st_leads s) ∧
    co_supersedes_correction_id r = Some (co_id c) ∧ st_corrections s ⊆ st_corrections s'.
Proof.
  intros Hl Hid Hact Hc Hb Hreason ev Hkind. unfold remove_lead_correction, begin, get_lead.
  erewrite transaction_Ok.
  2: { rewrite bind_bind, bind_gets, Hl. cbn [require]. rewrite bind_ret, Hact. cbn [require]. rewrite bind_ret, bind_gets, Hc.
       cbn [require]. rewrite bind_ret. cbv zeta. rewrite bind_gets. fold ev.
       rewrite bool_decide_eq_false_2 by done. cbn [raise_if]. rewrite bind_ret.
       unfold uuid4, put_correction, put_lead. rewrite bind_bind, bind_gets, bind_bind, bind_modify, bind_ret.
       cbv zeta. rewrite !bind_modify. erewrite bind_Ok; [reflexivity|].
       apply record_activity_run; [by vm_compute.. |apply str_of_uuid_nonblank|done|].
       cbn [evidence_payload co_based_on_observation_id]. destruct (ve_observation_id ev); reflexivity. }
  eexists _, _. split; [reflexivity|]. split_and!.
  - rewrite <- Hid. reflexivity.
  - reflexivity.
  - match goal with |- _ ⊆ st_corrections ?x =>
      let m := eval cbn in (st_corrections x) in change (st_corrections s ⊆ m) end.
    by apply below_subseteq.
Qed.

(** A correction can be taken back.  For a Lead that delivers what its
    listing evidence says, a correction that succeeds changes the delivered
    title or state and records the evidence it displaced; removing it, with
    any reason that is not blank, always succeeds and leaves every Lead
    exactly as before the correction. *)
Theorem correction_can_be_taken_back env env' actor actor' lid title state reason reason' s c s1 lead :
  keyed_leads s → below (st_next_uuid s) (st_corrections s) →
  st_leads s !! lid = Some lead → ld_active_correction_id lead = None →
  ve_kind (lead_evidence s lead None) ≠ u "none" →
  ld_title lead = ve_title (lead_evidence s lead None) → ld_state lead = ve_state (lead_evidence s lead None) →
  apply_lead_correction env actor lid title state reason s = (Ok c, s1) → strip reason' ≠ [] →
  (co_title c, co_state c) ≠ (ld_title lead, ld_state lead) ∧
  (co_based_on_title c, co_based_on_state c) = (ld_title lead, ld_state lead) ∧
  st_leads s1 = <[lid := lead <| ld_active_correction_id := Some (co_id c) |> <| ld_title := co_title c |>
                              <| ld_state := co_state c |>]> (st_leads s) ∧
  ∃ r s2, remove_lead_correction env' actor' lid reason' s1 = (Ok r, s2) ∧ st_leads s2 = st_leads s ∧
    co_supersedes_correction_id r = Some (co_id c) ∧ st_corrections s1 ⊆ st_corrections s2.
Proof.
  intros Hk Hb Hl Hnone Hkind Ht Hs H Hreason. pose proof (Hk _ _ Hl) as Hid.
  unfold apply_lead_correction, begin in H. apply transaction_Ok_inv in H.
  apply bind_Ok_inv in H as (lead0 & s0 & Hg & H). apply get_lead_Ok in Hg as [Hg ->].
  assert (lead0 = lead) as -> by congruence.
  apply bind_Ok_inv in H as (c0 & s2 & Hc%refuse_conflict_Ok & H).
  apply bind_Ok_inv in H as (e & s3 & Ha & H). apply ret_Ok_inv in H as [<- <-]. unfold correction_activity in Ha.
  unfold record_correction in Hc. rewrite bind_gets in Hc. cbv zeta in Hc.
  set (ev := lead_evidence s lead None) in *.
  assert ((if from_db2 lead None then ve_title ev else ld_title lead) = ld_title lead) as Et by (by destruct (from_db2 _ _)).
  assert ((if from_db2 lead None then ve_state ev else ld_state lead) = ld_state lead) as Es by (by destruct (from_db2 _ _)).
  rewrite Et, Es in Hc. clear Et Es.
  apply bind_Ok_inv in Hc as (x & s0 & Hg2 & Hc). apply raise_if_Ok_inv in Hg2 as (Hdiff & -> & _).
  unfold uuid4, put_correction, put_lead in Hc.
  rewrite bind_bind, bind_gets, bind_bind, bind_modify, bind_ret in Hc. cbv zeta in Hc. rewrite !bind_modify in Hc.
  apply ret_Ok_inv in Hc as [<- <-]. apply record_activity_inv in Ha as (_ & _ & _ & _ & _ & _ & _ & ->).
  match goal with |- context [remove_lead_correction _ _ _ _ ?x] => set (s1 := x) end.
  match goal with |- context [co_supersedes_correction_id _ = Some (co_id ?x)] => set (c := x) end.
  assert (st_leads s1 = <[lid := lead <| ld_active_correction_id := Some (co_id c) |> <| ld_title := co_title c |>
    <| ld_state := co_state c |>]> (st_leads s)) as El by (rewrite <- Hid; reflexivity).
  assert (st_corrections s1 = <[co_id c := c]> (st_corrections s)) as Ec by reflexivity.
  assert (st_next_uuid s1 = st_next_uuid s + 1 + 1)%N as En by reflexivity.
  split_and!; [|subst c; cbn; congruence | done |].
  { intros [= E1 E2]. subst c. cbn in E1, E2. rewrite E1, E2, !bool_decide_eq_true_2 in Hdiff by done. done. }
  assert (lead <| ld_active_correction_id := None |> = lead) as Elead.
  { clear -Hnone. destruct lead. cbn in *. by subst. }
  assert (lead_evidence s1 (lead <| ld_active_correction_id := None |>) None = ev) as Eev.
  { rewrite (lead_evidence_frame s s1), Elead; done. }
  edestruct (remove_lead_correction_run env' actor' lid reason' s1) as (r & s2 & Hrun & Hleads & Hsup & Hsub).
  - by rewrite El, lookup_insert_eq.
  - exact Hid.
  - done.
  - by rewrite Ec, lookup_insert_eq.
  - rewrite Ec, En. apply (below_mono (st_next_uuid s + 1)); [lia|]. by apply below_insert.
  - done.
  - change (ve_kind (lead_evidence s1 (lead <| ld_active_correction_id := None |>) None) ≠ u "none"). by rewrite Eev.
  - exists r, s2. split; [done|]. split; [|done]. rewrite Hleads, El, insert_insert_eq. apply insert_id.
    rewrite Hl. f_equal.
    match goal with |- context [lead_evidence s1 ?l None] =>
      change (lead_evidence s1 l None) with (lead_evidence s1 (lead <| ld_active_correction_id := None |>) None) end.
    rewrite Eev, <- Ht, <- Hs. clear -Hnone. destruct lead. cbn in *. by subst.
Qed.

(** *** Concrete runs

    A Customer marks the phone of a delivered Lead as invalid; an
    administrator settles the report and corrects the Lead's title. *)

Definition example_delivered_event : DistributionEvent :=
  mkDistributionEvent db1 1 2 (Some 7) (u "Acme") None [] None (u "2155550102") (u "Beta") (u "PA") []
    (u "db1") [] [] [] 0 (u "allocation").
Definition example_buyer : CustomerProfile :=
  mkCustomerProfile 2%N (u "a@acme.test") (u "Ann") (u "Acme") [] [u "PA"] (Some 7) (Some 0) 0 0.
Definition example_complaint : FeedbackCreate :=
  mkFeedbackCreate 1 "invalid_phone" (u "rings out") (Some "poor"%string) [].
Definition example_shelved : Lead :=
  example_lead 2 "2155550102" "Beta" <| ld_legacy_title := u "Beta" |> <| ld_legacy_state := u "PA" |>.
Definition example_shelf : Store :=
  empty_store <| st_leads := {[ 2 := example_shelved ]} |>
              <| st_events := [example_delivered_event] |>.
Definition example_complained : outcome _ * Store :=
  create_feedback example_env 2%N example_buyer example_complaint example_shelf.

Lemma example_shelf_inv : feedback_inv example_shelf.
Proof. split; try (intros k x Hk; discriminate Hk); try (intros k x t Hk; discriminate Hk); constructor. Qed.

Lemma example_shelf_keyed : keyed_leads example_shelf.
Proof.
  intros id l Hl. change (({[ 2 := example_shelved ]} : gmap Z Lead) !! id = Some l) in Hl. apply lookup_singleton_Some in Hl as [<- <-]. reflexivity.
Qed.

Lemma example_complained_ok : ∃ r, example_complained = (Ok r, example_complained.2).
Proof. eexists. vm_compute. reflexivity. Qed.

Lemma example_complained_inv : feedback_inv example_complained.2.
Proof.
  destruct example_complained_ok as [r E].
  apply (changes_kept example_shelf); [|exact example_shelf_inv].
  eapply create_feedback_changes; [exact example_shelf_inv | exact E].
Qed.

Lemma example_complained_keyed : keyed_leads example_complained.2.
Proof.
  assert (st_leads example_complained.2 = st_leads example_shelf) as E by (vm_compute; reflexivity).
  unfold keyed_leads. rewrite E. exact example_shelf_keyed.
Qed.

Lemma controls_never_rewrite_history_witness : history_kept example_shelf example_complained.2.
Proof.
  refine (proj2 (controls_never_rewrite_history example_shelf example_complained.2 example_shelf_inv _)).
  apply rtc_once. left. eapply (step_feedback _ _ example_env 2%N example_buyer example_complaint).
  apply surjective_pairing.
Defined.

Section Examples.
#[local] Existing Instance ascii_case.

Lemma hold_outlasts_customers_witness :
  ∃ event, event ∈ st_events example_shelf ∧
    ∀ request customer instant lead,
      lead ∈ eligible_query example_complained.2 request customer instant → ld_id lead ≠ ev_lead_id event.
Proof.
  destruct example_complained_ok as [[[[t q] rep] hold] E].
  destruct (hold_outlasts_customers example_env 2%N example_buyer example_complaint example_shelf t q rep hold
    example_complained.2 example_complained.2 example_shelf_inv) as (event & Hin & _ & _ & Hall).
  - by left.
  - exact E.
  - apply rtc_refl.
  - exists event. split; [exact Hin | exact Hall].
Defined.

(** The report the complaint filed is the second identifier drawn after the
    transition and the rating. *)
Definition example_settled (how : Resolution) : outcome unit * Store :=
  resolve_with example_env 9%N 3%N (u "checked") how example_complained.2.

Lemma example_settled_ok : example_settled Suppress = (Ok tt, (example_settled Suppress).2).
Proof. vm_compute. reflexivity. Qed.

Lemma resolution_is_final_witness :
  ∃ e, resolve_with example_env 9%N 3%N (u "again") Dismiss (example_settled Suppress).2 =
    (Err e, (example_settled Suppress).2).
Proof.
  destruct (resolution_is_final example_env 9%N 3%N (u "checked") Suppress example_complained.2
    (example_settled Suppress).2 example_complained_inv) as (report & event & H).
  - exact example_complained_keyed.
  - exact example_settled_ok.
  - apply H.
Defined.
End Examples.

Definition example_corrected : outcome LeadCorrectionEvent * Store :=
  apply_lead_correction example_env 9%N 2 (Some (u " Beta LLC ")) None (u "typo") example_shelf.

Lemma correction_can_be_taken_back_witness :
  ∃ r s2, remove_lead_correction example_env 9%N 2 (u "it was right") example_corrected.2 = (Ok r, s2) ∧
    st_leads s2 = st_leads example_shelf.
Proof.
  destruct example_corrected as [[c|] s1] eqn:E; [|vm_compute in E; discriminate E].
  destruct (correction_can_be_taken_back example_env example_env 9%N 9%N 2 (Some (u " Beta LLC ")) None (u "typo")
    (u "it was right") example_shelf c s1 example_shelved example_shelf_keyed) as (_ & _ & _ & r & s2 & Hrun & Hl & _).
  - intros k x Hx. discriminate Hx.
  - reflexivity.
  - reflexivity.
  - vm_compute. discriminate.
  - vm_compute. reflexivity.
  - vm_compute. reflexivity.
  - exact E.
  - vm_compute. discriminate.
  - exists r, s2. split; [exact Hrun | exact Hl].
Defined.
